(** * Solidity resolver: remapped npm packages map and import resolution

    A shallow embedding of
    - [npm-moudles-parsing.ts] ([parseNpmDirectImport], [getNpmPackageName]),
    - [remapped-npm-packages-map.ts] (class [RemappedNpmPackagesMap]),
    - [new-dependency-resolver.ts] (class [NewResolverImplementation]),
    - [imports-clasification.ts] (class [ImportsClassifier] and the
      functions on direct imports),
    - the error enumerations of [types/solidity/errors.ts],
    together with the properties of the package map and of the resolver.

    Conventions of the embedding.
    - A JavaScript string is a [string]; a character is a code unit in the
      range U+0000..U+00FF.
    - A JavaScript object with identity (a package, a resolved file) carries
      a reference number allocated from a counter of the state; two values
      denote the same object exactly when they are equal.
    - A [Map] keyed by package objects is a [gmap] keyed by the reference of
      the package; a [Map] keyed by strings is a [gmap string].
    - An [async] method is a state-passing function whose outcome is a
      returned value with the new state, a thrown exception, or the
      exhaustion of the fuel that bounds its [while] loops. What a call
      that throws leaves of its object is not described.
    - The file system, the Solidity analyzer and the package-exports
      resolver are fields of the record [Fs]. *)

From Stdlib Require Import String Ascii List Bool Arith Lia.
From stdpp Require Import base option list gmap strings.

Import ListNotations.
Local Open Scope string_scope.
Local Open Scope list_scope.
Local Open Scope nat_scope.

(** ** JavaScript string primitives *)

Module Js.

Definition chr (n : nat) : ascii := ascii_of_nat n.
Definition code (c : ascii) : nat := nat_of_ascii c.

Definition LF : ascii := chr 10.
Definition CR : ascii := chr 13.
Definition slash : ascii := "/"%char.
Definition backslash : ascii := chr 92.

(** [s.startsWith(p)] *)
Fixpoint startsWith (s p : string) {struct p} : bool :=
  match p with
  | EmptyString => true
  | String c p' =>
      match s with
      | EmptyString => false
      | String d s' => Ascii.eqb c d && startsWith s' p'
      end
  end.

(** [s.substring(n)] *)
Fixpoint substringFrom (n : nat) (s : string) : string :=
  match n with
  | 0 => s
  | S n' => match s with
            | EmptyString => EmptyString
            | String _ s' => substringFrom n' s'
            end
  end.

(** [s.substring(0, n)] *)
Fixpoint substringTo (n : nat) (s : string) : string :=
  match n with
  | 0 => EmptyString
  | S n' => match s with
            | EmptyString => EmptyString
            | String c s' => String c (substringTo n' s')
            end
  end.

(** [s.endsWith(p)] *)
Definition endsWith (s p : string) : bool :=
  (String.length p <=? String.length s) &&
  String.eqb (substringFrom (String.length s - String.length p) s) p.

(** [s.includes(p)] *)
Fixpoint includes (s p : string) : bool :=
  startsWith s p ||
  match s with
  | EmptyString => false
  | String _ s' => includes s' p
  end.

(** [s.indexOf(c)] for a one-character needle; [None] stands for -1. *)
Fixpoint indexOf (s : string) (c : ascii) : option nat :=
  match s with
  | EmptyString => None
  | String d s' =>
      if Ascii.eqb c d then Some 0
      else match indexOf s' c with
           | Some i => Some (S i)
           | None => None
           end
  end.

(** White space and line terminators of ECMAScript, within U+0000..U+00FF:
    TAB, LF, VT, FF, CR, SP and NBSP. *)
Definition isWhiteSpace (c : ascii) : bool :=
  let n := code c in
  ((9 <=? n) && (n <=? 13)) || (n =? 32) || (n =? 160).

Definition isLineTerminator (c : ascii) : bool :=
  Ascii.eqb c LF || Ascii.eqb c CR.

Fixpoint trimStart (s : string) : string :=
  match s with
  | EmptyString => EmptyString
  | String c s' => if isWhiteSpace c then trimStart s' else s
  end.

(** [trimEnd] keeps a character when it is not white space or when
    something remains after it. *)
Fixpoint trimEnd (s : string) : string :=
  match s with
  | EmptyString => EmptyString
  | String c s' =>
      match trimEnd s' with
      | EmptyString => if isWhiteSpace c then EmptyString else String c EmptyString
      | r => String c r
      end
  end.

(** [s.trim()] *)
Definition trim (s : string) : string := trimEnd (trimStart s).

(** [s.split(c)] for a one-character separator: the pieces, the current
    piece being accumulated in [cur] (reversed). *)
Fixpoint splitAux (c : ascii) (cur : string) (s : string) : list string :=
  match s with
  | EmptyString => [cur]
  | String d s' =>
      if Ascii.eqb c d then cur :: splitAux c EmptyString s'
      else splitAux c (cur +:+ String d EmptyString) s'
  end.

Definition split (s : string) (c : ascii) : list string :=
  splitAux c EmptyString s.

(** [parts.join(sep)] *)
Fixpoint joinWith (sep : string) (parts : list string) : string :=
  match parts with
  | [] => EmptyString
  | [p] => p
  | p :: rest => p +:+ sep +:+ joinWith sep rest
  end.

(** The longest prefix of [s] whose characters satisfy [f], and the rest. *)
Fixpoint span (f : ascii -> bool) (s : string) : string * string :=
  match s with
  | EmptyString => (EmptyString, EmptyString)
  | String c s' =>
      if f c then let '(a, b) := span f s' in (String c a, b)
      else (EmptyString, s)
  end.

Fixpoint forallb (f : ascii -> bool) (s : string) : bool :=
  match s with
  | EmptyString => true
  | String c s' => f c && forallb f s'
  end.

(** [c.toLowerCase()] on the letters A-Z. *)
Definition toLowerChar (c : ascii) : ascii :=
  let n := code c in
  if (65 <=? n) && (n <=? 90) then chr (n + 32) else c.

Fixpoint toLowerCase (s : string) : string :=
  match s with
  | EmptyString => EmptyString
  | String c s' => String (toLowerChar c) (toLowerCase s')
  end.

(** Comparison of strings by code units, as [Array.prototype.sort] does
    without a comparator. *)
Fixpoint ltb (a b : string) : bool :=
  match a, b with
  | EmptyString, EmptyString => false
  | EmptyString, String _ _ => true
  | String _ _, EmptyString => false
  | String c a', String d b' =>
      (code c <? code d) || (Ascii.eqb c d && ltb a' b')
  end.

End Js.

(** ** [node:path], POSIX flavour *)

Module Path.

Definition sep : string := "/".

(** Number of characters kept by [path.dirname]: scanning from the end
    down to index 1, skip the trailing slashes, skip the last segment, and
    stop at the slash found; [r] is the reversed [path.slice(1)]. *)
Fixpoint dropSlashes (r : list ascii) : list ascii :=
  match r with
  | c :: r' => if Ascii.eqb c Js.slash then dropSlashes r' else r
  | [] => []
  end.

Fixpoint dropSegment (r : list ascii) : list ascii :=
  match r with
  | c :: r' => if Ascii.eqb c Js.slash then r else dropSegment r'
  | [] => []
  end.

(** [path.dirname(p)] *)
Definition dirname (p : string) : string :=
  match p with
  | EmptyString => "."
  | String c0 rest =>
      let hasRoot := Ascii.eqb c0 Js.slash in
      let r := dropSegment (dropSlashes (rev (list_ascii_of_string rest))) in
      match r with
      | [] => if hasRoot then "/" else "."
      | _ :: r' =>
          (* the slash found is at index [length r]; keep [path.slice(0, end)] *)
          if hasRoot && (List.length r =? 1) then "//"
          else String c0 (string_of_list_ascii (rev r'))
      end
  end.

(** The last segment of a path: [path.basename(p)], for a path that does
    not end in a slash. *)
Definition basename (p : string) : string :=
  List.last (Js.split p Js.slash) EmptyString.

(** [normalizeString]: resolution of [.] and [..] segments; [acc] holds
    the segments kept so far, last one first. *)
Fixpoint normalizeSegments (allowAboveRoot : bool) (acc : list string)
    (segs : list string) : list string :=
  match segs with
  | [] => rev acc
  | s :: segs' =>
      if String.eqb s "" || String.eqb s "." then
        normalizeSegments allowAboveRoot acc segs'
      else if String.eqb s ".." then
        match acc with
        | top :: acc' =>
            if String.eqb top ".." then
              normalizeSegments allowAboveRoot (s :: acc) segs'
            else normalizeSegments allowAboveRoot acc' segs'
        | [] =>
            if allowAboveRoot then normalizeSegments allowAboveRoot [s] segs'
            else normalizeSegments allowAboveRoot [] segs'
        end
      else normalizeSegments allowAboveRoot (s :: acc) segs'
  end.

(** [path.normalize(p)] *)
Definition normalize (p : string) : string :=
  match p with
  | EmptyString => "."
  | _ =>
      let isAbsolute := Js.startsWith p "/" in
      let trailingSeparator := Js.endsWith p "/" in
      let body :=
        Js.joinWith "/"
          (normalizeSegments (negb isAbsolute) [] (Js.split p Js.slash)) in
      let body :=
        match body with
        | EmptyString => if isAbsolute then "" else "."
        | _ => body
        end in
      let body :=
        match body with
        | EmptyString => body
        | _ => if trailingSeparator then body +:+ "/" else body
        end in
      if isAbsolute then "/" +:+ body else body
  end.

(** [path.join(...parts)] *)
Definition join (parts : list string) : string :=
  let nonEmpty := List.filter (fun s => negb (String.eqb s "")) parts in
  match nonEmpty with
  | [] => "."
  | _ => normalize (Js.joinWith "/" nonEmpty)
  end.

Fixpoint stripCommon (a b : list string) : list string * list string :=
  match a, b with
  | x :: a', y :: b' =>
      if String.eqb x y then stripCommon a' b' else (a, b)
  | _, _ => (a, b)
  end.

(** [path.relative(from, to)] for absolute paths. *)
Definition relative (from to : string) : string :=
  let segs p := normalizeSegments false [] (Js.split p Js.slash) in
  let '(up, down) := stripCommon (segs from) (segs to) in
  Js.joinWith "/" (List.map (fun _ => "..") up ++ down).

End Path.

(** ** [npm-moudles-parsing.ts] *)

(** The character classes of [directImportPattern]:
    [[a-z0-9-~]] and [[a-z0-9-~._]]. *)
Definition isNpmNameStartChar (c : ascii) : bool :=
  let n := Js.code c in
  ((97 <=? n) && (n <=? 122)) || ((48 <=? n) && (n <=? 57)) ||
  Ascii.eqb c "-"%char || Ascii.eqb c "~"%char.

Definition isNpmNameChar (c : ascii) : bool :=
  isNpmNameStartChar c || Ascii.eqb c "."%char || Ascii.eqb c "_"%char.

Record ParsedNpmDirectImport := {
  parsed_package : string;
  parsed_subpath : string;
}.

(** The unscoped part of the pattern: a name (one start character, then
    name characters), a slash, and the path, any characters up to the end of
    the string. The name is the run of name characters up to the first
    slash, and the dot of the pattern matches no line terminator. *)
Definition matchNameAndPath (s : string) : option (string * string) :=
  let '(name, rest) := Js.span isNpmNameChar s in
  match name, rest with
  | String c _, String d path =>
      if isNpmNameStartChar c && Ascii.eqb d Js.slash &&
         Js.forallb (fun x => negb (Js.isLineTerminator x)) path
      then Some (name, path)
      else None
  | _, _ => None
  end.

(** [parseNpmDirectImport]: a match of [directImportPattern], which is an
    optional scope (an at sign, one or more name characters, a slash)
    followed by the unscoped part; the group [package] is the scope with the
    name, the group [path] what follows the slash after the name.
    No class contains the slash nor the at sign, so the match, when there is
    one, is unique: a string that starts with an at sign must take the
    scope. *)
Definition parseNpmDirectImport (directImport : string)
    : option ParsedNpmDirectImport :=
  match directImport with
  | String c s' =>
      if Ascii.eqb c "@"%char then
        let '(scope, rest) := Js.span isNpmNameChar s' in
        match scope, rest with
        | String _ _, String d afterScope =>
            if Ascii.eqb d Js.slash then
              match matchNameAndPath afterScope with
              | Some (name, path) =>
                  Some {| parsed_package := "@" +:+ scope +:+ "/" +:+ name;
                          parsed_subpath := path |}
              | None => None
              end
            else None
        | _, _ => None
        end
      else
        match matchNameAndPath directImport with
        | Some (name, path) =>
            Some {| parsed_package := name; parsed_subpath := path |}
        | None => None
        end
  | EmptyString => None
  end.

(** [getNpmPackageName] *)
Definition getNpmPackageName (npmModuleOrsuffixOfModule : string)
    : option string :=
  match parseNpmDirectImport npmModuleOrsuffixOfModule with
  | Some r => Some (parsed_package r)
  | None => None
  end.

(** ** [types/solidity]: packages, remappings, files and errors *)

(** The [exports] field of a [package.json], kept as the list of its
    entries; only the package-exports resolver looks inside. *)
Definition PackageExports := list (string * string).

Record PackageJson := {
  pj_name : string;
  pj_version : string;
  pj_exports : option PackageExports;
}.

(** [ResolvedNpmPackage]; [pkg_ref] is the identity of the object. *)
Record ResolvedNpmPackage := {
  pkg_ref : nat;
  name : string;
  version : string;
  exports : option PackageExports;
  rootFsPath : string;
  rootSourceName : string;
}.

Definition InstallationName := string.

(** [Remapping] *)
Record Remapping := {
  r_context : string;
  r_prefix : string;
  r_target : string;
}.

(** [ResolvedUserRemapping] *)
Record ResolvedUserRemapping := {
  ur_context : string;
  ur_prefix : string;
  ur_target : string;
  originalFormat : string;
  source : string;
  targetNpmPackage : option (InstallationName * ResolvedNpmPackage);
}.

(** The remapping carried by a successful resolution is a generated
    [Remapping] or a [ResolvedUserRemapping]. *)
Inductive AnyRemapping :=
| GeneratedRemapping (r : Remapping)
| UserRemapping (r : ResolvedUserRemapping).

(** [isResolvedUserRemapping] *)
Definition isResolvedUserRemapping (r : AnyRemapping) : bool :=
  match r with
  | UserRemapping _ => true
  | GeneratedRemapping _ => false
  end.

(** [UserRemappingErrorType], with the string each member stands for. *)
Inductive UserRemappingErrorType :=
| REMAPPING_WITH_INVALID_SYNTAX
| REMAPPING_TO_UNINSTALLED_PACKAGE
| ILLEGAL_REMAPPING_WIHTOUT_SLASH_ENDINGS.

Definition UserRemappingErrorType_value (t : UserRemappingErrorType) : string :=
  match t with
  | REMAPPING_WITH_INVALID_SYNTAX => "REMAPPING_WITH_INVALID_SYNTAX"
  | REMAPPING_TO_UNINSTALLED_PACKAGE => "REMAPPING_TO_UNINSTALLED_PACKAGE"
  | ILLEGAL_REMAPPING_WIHTOUT_SLASH_ENDINGS =>
      "ILLEGAL_REMAPPING_WIHTOUT_SLASH_ENDINGS"
  end.

(** [UserRemappingError] *)
Record UserRemappingError := {
  ure_type : UserRemappingErrorType;
  ure_remapping : string;
  ure_source : string;
}.

(** [FileContent] *)
Record FileContent := {
  text : string;
  importPaths : list string;
  versionPragmas : list string;
}.

Inductive ResolvedFileType := PROJECT_FILE | NPM_PACKAGE_FILE.

(** [ResolvedFile]; [file_ref] is the identity of the object. *)
Record ResolvedFile := {
  file_ref : nat;
  file_type : ResolvedFileType;
  sourceName : string;
  fsPath : string;
  content : FileContent;
  package : ResolvedNpmPackage;
}.

(** [NpmPackageReference] *)
Record NpmPackageReference := {
  ref_name : string;
  ref_version : string;
  ref_rootFsPath : string;
}.

(** [UserRemappingReference] *)
Record UserRemappingReference := {
  originalUserRemapping : string;
  actualUserRemapping : string;
  remappingSource : string;
}.

(** [ResolvedFileReference] *)
Record ResolvedFileReference := {
  npmPackage : option ResolvedNpmPackage;
  userRemapping : option UserRemappingReference;
  subpath : string;
  packageExportsResolvedSubpath : option string;
}.

(** [ProjectRootResolutionError], one constructor per member of the union,
    each with its [absoluteFilePath]. *)
Inductive ProjectRootResolutionError :=
| PROJECT_ROOT_FILE_NOT_IN_PROJECT (absoluteFilePath : string)
| PROJECT_ROOT_FILE_DOESNT_EXIST (absoluteFilePath : string)
| PROJECT_ROOT_FILE_IN_NODE_MODULES (absoluteFilePath : string).

(** [ImportResolutionError], one constructor per member of the union. *)
Inductive ImportResolutionError :=
| IMPORT_WITH_WINDOWS_PATH_SEPARATORS (fromFsPath importPath : string)
| ILLEGAL_RELATIVE_IMPORT (fromFsPath importPath : string)
| IMPORT_DOESNT_EXIST (fromFsPath importPath : string)
    (reference : ResolvedFileReference)
| IMPORT_INVALID_CASING (fromFsPath importPath : string)
    (reference : ResolvedFileReference) (correctCasing : string)
| IMPORT_WITH_INVALID_NPM_SYNTAX (fromFsPath importPath : string)
| IMPORT_OF_UNINSTALLED_PACKAGE (fromFsPath importPath : string)
    (installationName : string)
| IMPORT_OF_NPM_PACKAGE_WITH_REMAPPING_ERRORS (fromFsPath importPath : string)
    (npmPackage : ResolvedNpmPackage) (remappingErrors : list UserRemappingError)
| IMPORT_OF_NON_EXPORTED_NPM_FILE (fromFsPath importPath : string)
    (reference : ResolvedFileReference).

(** [ImportResolutionErrorType], the discriminant of an import error. *)
Definition ImportResolutionError_type (e : ImportResolutionError) : string :=
  match e with
  | IMPORT_WITH_WINDOWS_PATH_SEPARATORS _ _ => "IMPORT_WITH_WINDOWS_PATH_SEPARATORS"
  | ILLEGAL_RELATIVE_IMPORT _ _ => "ILLEGAL_RELATIVE_IMPORT"
  | IMPORT_DOESNT_EXIST _ _ _ => "IMPORT_DOESNT_EXIST"
  | IMPORT_INVALID_CASING _ _ _ _ => "IMPORT_INVALID_CASING"
  | IMPORT_WITH_INVALID_NPM_SYNTAX _ _ => "IMPORT_WITH_INVALID_NPM_SYNTAX"
  | IMPORT_OF_UNINSTALLED_PACKAGE _ _ _ => "IMPORT_OF_UNINSTALLED_PACKAGE"
  | IMPORT_OF_NPM_PACKAGE_WITH_REMAPPING_ERRORS _ _ _ _ =>
      "IMPORT_OF_NPM_PACKAGE_WITH_REMAPPING_ERRORS"
  | IMPORT_OF_NON_EXPORTED_NPM_FILE _ _ _ => "IMPORT_OF_NON_EXPORTED_NPM_FILE"
  end.

(** [Result<T, E>], and the value of a method whose body returns something
    that is not a [Result] at all ([return 1 as any]). *)
Inductive Result (T E : Type) :=
| Success (value : T)
| Failure (error : E)
| NotAResult (n : nat).
Arguments Success {T E} value.
Arguments Failure {T E} error.
Arguments NotAResult {T E} n.

(** ** What lives outside of the modelled files *)

(** The functions of [remappings.ts] and [source-name-utils.ts] that the
    package map and the resolver import. The general theorems hold for any
    implementation of them; [Spec.lib] below is the one the specification
    describes. *)
Record Lib := {
  parseRemappingString : string -> option Remapping;
  selectBestRemapping :
    string -> string -> list ResolvedUserRemapping ->
    option ResolvedUserRemapping;
  applyValidRemapping : string -> ResolvedUserRemapping -> string;
  sourceNamePathJoin : list string -> string;
  fsPathToSourceNamePath : string -> string;
  sourceNamePathToFsPath : string -> string;
}.

(** What [resolve.exports] does: it throws, returns nothing, or returns the
    list of resolved targets. *)
Inductive ExportsOutput :=
| ExportsThrows
| ExportsVoid
| ExportsPaths (paths : list string).

(** The external collaborators: [hardhat-utils/fs], [hardhat-utils/package],
    [solidity-analyzer] and [resolve.exports]. A read that yields [None] is
    a rejected promise; [getFileTrueCase] yields [None] when it throws
    [FileNotFoundError]. *)
Record Fs := {
  readJsonFile : string -> option PackageJson;
  readUtf8File : string -> option string;
  getAllFilesMatching :
    string -> (string -> bool) -> (string -> bool) -> list string;
  findDependencyPackageJson : string -> string -> option string;
  exists_ : string -> bool;
  getFileTrueCase : string -> string -> option string;
  analyze : string -> list string * list string;
  resolve_exports : ResolvedNpmPackage -> string -> ExportsOutput;
}.

(** ** Outcomes of a method: state passing with exceptions and fuel *)

Inductive Exception :=
| HardhatInvariantError (message : string)
| JsError (message : string)
| FsError (path : string).

(** The outcome of a call: a value, an exception, or the exhaustion of the
    fuel. An exception carries no state: what a method that throws has done
    to its object before throwing is not described, and the maps and the
    resolvers that the properties call reached are those reached through
    calls that return. *)
Inductive Outcome (A : Type) :=
| Returns (a : A)
| Throws (e : Exception)
| OutOfFuel.
Arguments Returns {A} a.
Arguments Throws {A} e.
Arguments OutOfFuel {A}.

Definition M (S A : Type) : Type := S -> Outcome (A * S).

Definition ret {S A} (a : A) : M S A := fun st => Returns (a, st).

Definition bind {S A B} (m : M S A) (k : A -> M S B) : M S B :=
  fun st =>
    match m st with
    | Returns (a, st') => k a st'
    | Throws e => Throws e
    | OutOfFuel => OutOfFuel
    end.

Definition throw {S A} (e : Exception) : M S A := fun _ => Throws e.
Definition get {S} : M S S := fun st => Returns (st, st).
Definition modify {S} (f : S -> S) : M S unit := fun st => Returns (tt, f st).

(** [assertHardhatInvariant(value !== undefined, message)] *)
Definition assertDefined {S A} (o : option A) (message : string) : M S A :=
  match o with
  | Some a => ret a
  | None => throw (HardhatInvariantError message)
  end.

(** An awaited read whose promise may be rejected. *)
Definition await {S A} (o : option A) (path : string) : M S A :=
  match o with
  | Some a => ret a
  | None => throw (FsError path)
  end.

Notation "x <- m ;; k" := (bind m (fun x => k))
  (at level 100, m at next level, right associativity).
Notation "m ;;; k" := (bind m (fun _ => k))
  (at level 100, right associativity).

(** [for (const x of xs) { const e = await body(x); if (e !== undefined)
    errors.push(e) }] *)
Fixpoint forEachCollect {S A E} (body : A -> M S (option E)) (xs : list A)
    (errors : list E) : M S (list E) :=
  match xs with
  | [] => ret errors
  | x :: xs' =>
      e <- body x ;;
      forEachCollect body xs'
        (match e with Some e => errors ++ [e] | None => errors end)
  end.

(** ** [remapped-npm-packages-map.ts] *)

Definition HARDHAT_PROJECT_ROOT_SOURCE_NAME : string := "project".

(** An entry of the inner maps of [#installationMap]. *)
Record Installation := {
  inst_package : ResolvedNpmPackage;
  generatedRemapping : Remapping;
}.

(** The fields of [RemappedNpmPackagesMap]; [nextRef] is the reference the
    next package object gets. *)
Record RemappedNpmPackagesMap := {
  hardhatProjectPackage : ResolvedNpmPackage;
  installationMap : gmap nat (gmap string Installation);
  packageByRootSourceName : gmap string ResolvedNpmPackage;
  userRemappingsPerPackage : gmap nat (list ResolvedUserRemapping);
  remappingsToResolve : list ResolvedNpmPackage;
  nextRef : nat;
}.

Definition with_installationMap (f : gmap nat (gmap string Installation) ->
    gmap nat (gmap string Installation)) (m : RemappedNpmPackagesMap) :=
  {| hardhatProjectPackage := hardhatProjectPackage m;
     installationMap := f (installationMap m);
     packageByRootSourceName := packageByRootSourceName m;
     userRemappingsPerPackage := userRemappingsPerPackage m;
     remappingsToResolve := remappingsToResolve m;
     nextRef := nextRef m |}.

Definition with_packageByRootSourceName (f : gmap string ResolvedNpmPackage ->
    gmap string ResolvedNpmPackage) (m : RemappedNpmPackagesMap) :=
  {| hardhatProjectPackage := hardhatProjectPackage m;
     installationMap := installationMap m;
     packageByRootSourceName := f (packageByRootSourceName m);
     userRemappingsPerPackage := userRemappingsPerPackage m;
     remappingsToResolve := remappingsToResolve m;
     nextRef := nextRef m |}.

Definition with_userRemappingsPerPackage
    (f : gmap nat (list ResolvedUserRemapping) ->
         gmap nat (list ResolvedUserRemapping))
    (m : RemappedNpmPackagesMap) :=
  {| hardhatProjectPackage := hardhatProjectPackage m;
     installationMap := installationMap m;
     packageByRootSourceName := packageByRootSourceName m;
     userRemappingsPerPackage := f (userRemappingsPerPackage m);
     remappingsToResolve := remappingsToResolve m;
     nextRef := nextRef m |}.

Definition with_remappingsToResolve
    (f : list ResolvedNpmPackage -> list ResolvedNpmPackage)
    (m : RemappedNpmPackagesMap) :=
  {| hardhatProjectPackage := hardhatProjectPackage m;
     installationMap := installationMap m;
     packageByRootSourceName := packageByRootSourceName m;
     userRemappingsPerPackage := userRemappingsPerPackage m;
     remappingsToResolve := f (remappingsToResolve m);
     nextRef := nextRef m |}.

Definition with_nextRef (f : nat -> nat) (m : RemappedNpmPackagesMap) :=
  {| hardhatProjectPackage := hardhatProjectPackage m;
     installationMap := installationMap m;
     packageByRootSourceName := packageByRootSourceName m;
     userRemappingsPerPackage := userRemappingsPerPackage m;
     remappingsToResolve := remappingsToResolve m;
     nextRef := f (nextRef m) |}.

(** [#insertNewPackage] *)
Definition insertNewPackage (npmPackage : ResolvedNpmPackage)
    (m : RemappedNpmPackagesMap) : RemappedNpmPackagesMap :=
  with_remappingsToResolve (fun q => q ++ [npmPackage])
    (with_packageByRootSourceName
       (fun by_name => <[rootSourceName npmPackage := npmPackage]> by_name)
       (with_installationMap
          (fun im => <[pkg_ref npmPackage := (∅ : gmap string Installation)]> im)
          m)).

(** [#generateNpmRemapping] *)
Definition generateNpmRemapping (from : ResolvedNpmPackage)
    (installationName : string) (to : ResolvedNpmPackage) : Remapping :=
  {| r_context := rootSourceName from +:+ "/";
     r_prefix := installationName +:+ "/";
     r_target := rootSourceName to +:+ "/" |}.

(** [#isPackageJsonFromMonorepo] *)
Definition isPackageJsonFromMonorepo (m : RemappedNpmPackagesMap)
    (packageJsonFsPath : string) : bool :=
  negb (Js.includes packageJsonFsPath "node_modules") &&
  negb (Js.startsWith packageJsonFsPath
          (rootFsPath (hardhatProjectPackage m) +:+ Path.sep)).

(** [#npmPackageToRootSourceName] *)
Definition npmPackageToRootSourceName (name version : string) : string :=
  "npm/" +:+ name +:+ "@" +:+ version.

(** [generateRemappingIntoNpmFile] *)
Definition generateRemappingIntoNpmFile (fromNpmPackage : ResolvedNpmPackage)
    (directImport sourceName : string) : Remapping :=
  {| r_context := rootSourceName fromNpmPackage +:+ "/";
     r_prefix := directImport;
     r_target := sourceName |}.

(** [getUserRemappings]: both assertions of the source fail together when
    the package has no resolved remappings. *)
Definition getUserRemappings (npmPackage : ResolvedNpmPackage)
    : M RemappedNpmPackagesMap (list ResolvedUserRemapping) :=
  m <- get ;;
  match userRemappingsPerPackage m !! pkg_ref npmPackage with
  | Some packageRemappings => ret packageRemappings
  | None =>
      match installationMap m !! pkg_ref npmPackage with
      | None =>
          throw (HardhatInvariantError
                   "The npm package must be present in the map")
      | Some _ =>
          throw (HardhatInvariantError
                   "The npm package must be present in the map and their user remappings resolved")
      end
  end.

Section PackagesMap.

Context (lib : Lib) (fs : Fs).

(** [#resolveDependencyByInstallationName], the private method. *)
Definition priv_resolveDependencyByInstallationName
    (from : ResolvedNpmPackage) (installationName : InstallationName)
    : M RemappedNpmPackagesMap (option Installation) :=
  m <- get ;;
  npmPackageDependenciesMap <-
    assertDefined (installationMap m !! pkg_ref from)
      "The npm package must be present in the map" ;;
  match npmPackageDependenciesMap !! installationName with
  | Some existing => ret (Some existing)
  | None =>
      match findDependencyPackageJson fs (rootFsPath from) installationName with
      | None => ret None
      | Some dependencyPackageJsonPath =>
          dependencyPackageJson <-
            await (readJsonFile fs dependencyPackageJsonPath)
              dependencyPackageJsonPath ;;
          let dependencyVersion :=
            if isPackageJsonFromMonorepo m dependencyPackageJsonPath
            then "local"
            else pj_version dependencyPackageJson in
          let rootSourceName :=
            if String.eqb dependencyPackageJsonPath
                 (Path.join [rootFsPath (hardhatProjectPackage m);
                             "package.json"])
            then HARDHAT_PROJECT_ROOT_SOURCE_NAME
            else npmPackageToRootSourceName
                   (pj_name dependencyPackageJson) dependencyVersion in
          match packageByRootSourceName m !! rootSourceName with
          | Some existing =>
              let resultOfExistingPackage :=
                {| inst_package := existing;
                   generatedRemapping :=
                     generateNpmRemapping from installationName existing |} in
              modify (with_installationMap
                (fun im =>
                   <[pkg_ref from :=
                       <[installationName := resultOfExistingPackage]>
                         npmPackageDependenciesMap]> im)) ;;;
              ret (Some resultOfExistingPackage)
          | None =>
              let newDependencyNpmPackage :=
                {| pkg_ref := nextRef m;
                   name := pj_name dependencyPackageJson;
                   version := dependencyVersion;
                   rootFsPath := Path.dirname dependencyPackageJsonPath;
                   rootSourceName := rootSourceName;
                   exports := pj_exports dependencyPackageJson |} in
              modify (with_nextRef S) ;;;
              modify (insertNewPackage newDependencyNpmPackage) ;;;
              let resultOfNewPackage :=
                {| inst_package := newDependencyNpmPackage;
                   generatedRemapping :=
                     generateNpmRemapping from installationName
                       newDependencyNpmPackage |} in
              modify (with_installationMap
                (fun im =>
                   <[pkg_ref from :=
                       <[installationName := resultOfNewPackage]>
                         npmPackageDependenciesMap]> im)) ;;;
              ret (Some resultOfNewPackage)
          end
      end
  end.

(** [#updateRemappingsTxFragment] *)
Definition updateRemappingsTxFragment (from : ResolvedNpmPackage)
    (relativeFsPathToRemappingsFileFromPackage remappingFragment : string)
    : string :=
  if Js.startsWith remappingFragment "npm/" then remappingFragment
  else
    sourceNamePathJoin lib
      [rootSourceName from +:+ "/";
       if Js.endsWith relativeFsPathToRemappingsFileFromPackage "/"
       then relativeFsPathToRemappingsFileFromPackage
       else relativeFsPathToRemappingsFileFromPackage +:+ "/";
       remappingFragment].

(** [npmPackageRemappings.push(r)], on the array of the package. *)
Definition pushUserRemapping (npmPackage : ResolvedNpmPackage)
    (r : ResolvedUserRemapping) : M RemappedNpmPackagesMap unit :=
  modify (with_userRemappingsPerPackage
            (alter (fun l => l ++ [r]) (pkg_ref npmPackage))).

(** The test on the endings of the three components of a remapping. *)
Definition lacksSlashEndings (remapping : Remapping) : bool :=
  ((0 <? String.length (r_context remapping)) &&
     negb (Js.endsWith (r_context remapping) "/")) ||
  negb (Js.endsWith (r_prefix remapping) "/") ||
  negb (Js.endsWith (r_target remapping) "/").

(** [#validateAndResolveUserRemapping] *)
Definition validateAndResolveUserRemapping (npmPackage : ResolvedNpmPackage)
    (sourceOfTheRemapping remappingString : string)
    : M RemappedNpmPackagesMap (option UserRemappingError) :=
  m <- get ;;
  _ <- assertDefined (installationMap m !! pkg_ref npmPackage)
         "The npm package must be present in the map" ;;
  _ <- assertDefined (userRemappingsPerPackage m !! pkg_ref npmPackage)
         "The npm package must be present in the map" ;;
  match parseRemappingString lib remappingString with
  | None =>
      ret (Some {| ure_remapping := remappingString;
                   ure_type := REMAPPING_WITH_INVALID_SYNTAX;
                   ure_source := sourceOfTheRemapping |})
  | Some remapping =>
      if lacksSlashEndings remapping then
        ret (Some {| ure_remapping := remappingString;
                     ure_type := ILLEGAL_REMAPPING_WIHTOUT_SLASH_ENDINGS;
                     ure_source := sourceOfTheRemapping |})
      else
        let relativeFsPathToRemappingsFile :=
          Path.relative (rootFsPath npmPackage)
            (Path.dirname sourceOfTheRemapping) in
        if negb (Js.startsWith (r_target remapping) "node_modules/") then
          (* Local remapping case *)
          pushUserRemapping npmPackage
            {| ur_context :=
                 updateRemappingsTxFragment npmPackage
                   relativeFsPathToRemappingsFile (r_context remapping);
               ur_prefix := r_prefix remapping;
               ur_target :=
                 updateRemappingsTxFragment npmPackage
                   relativeFsPathToRemappingsFile (r_target remapping);
               originalFormat := remappingString;
               source := sourceOfTheRemapping;
               targetNpmPackage := None |} ;;;
          ret None
        else
          (* npm remapping case *)
          let target :=
            Js.substringFrom (String.length "node_modules/")
              (r_target remapping) in
          if String.eqb (r_prefix remapping) target then ret None
          else
            match getNpmPackageName target with
            | None =>
                ret (Some {| ure_type := REMAPPING_WITH_INVALID_SYNTAX;
                             ure_source := sourceOfTheRemapping;
                             ure_remapping := remappingString |})
            | Some installationName =>
                dependencyNpmPackage <-
                  priv_resolveDependencyByInstallationName npmPackage
                    installationName ;;
                match dependencyNpmPackage with
                | None =>
                    ret (Some {| ure_remapping := remappingString;
                                 ure_type := REMAPPING_TO_UNINSTALLED_PACKAGE;
                                 ure_source := sourceOfTheRemapping |})
                | Some dependencyNpmPackage =>
                    pushUserRemapping npmPackage
                      {| ur_context :=
                           updateRemappingsTxFragment npmPackage
                             relativeFsPathToRemappingsFile
                             (r_context remapping);
                         ur_prefix := r_prefix remapping;
                         originalFormat := remappingString;
                         source := sourceOfTheRemapping;
                         ur_target :=
                           rootSourceName (inst_package dependencyNpmPackage)
                           +:+ Js.substringFrom
                                 (String.length installationName) target;
                         targetNpmPackage :=
                           Some (installationName,
                                 inst_package dependencyNpmPackage) |} ;;;
                    ret None
                end
            end
  end.

(** The lines of a [remappings.txt] that are remappings: split on line
    feeds, trimmed, neither empty nor comments. *)
Definition rawUserRemappings (packageRemappingsTxtContents : string)
    : list string :=
  List.filter (fun line => negb (Js.startsWith line "#"))
    (List.filter (fun line => negb (String.eqb line ""))
       (List.map Js.trim (Js.split packageRemappingsTxtContents Js.LF))).

(** The [remappings.txt] files of a package, in the order of discovery. *)
Definition remappingsTxtFiles (npmPackage : ResolvedNpmPackage) : list string :=
  getAllFilesMatching fs (rootFsPath npmPackage)
    (fun f => String.eqb (Path.basename f) "remappings.txt")
    (fun f => negb (Js.endsWith f "node_modules")).

(** The two nested loops of
    [#validateAndResolveUserRemappingsOfAnExistingPackage]. *)
Fixpoint validateFiles (npmPackage : ResolvedNpmPackage)
    (files : list string) (errors : list UserRemappingError)
    : M RemappedNpmPackagesMap (list UserRemappingError) :=
  match files with
  | [] => ret errors
  | remappingsTxtFsPath :: files' =>
      packageRemappingsTxtContents <-
        await (readUtf8File fs remappingsTxtFsPath) remappingsTxtFsPath ;;
      errors' <-
        forEachCollect
          (validateAndResolveUserRemapping npmPackage remappingsTxtFsPath)
          (rawUserRemappings packageRemappingsTxtContents) errors ;;
      validateFiles npmPackage files' errors'
  end.

(** [#validateAndResolveUserRemappingsOfAnExistingPackage] *)
Definition validateAndResolveUserRemappingsOfAnExistingPackage
    (npmPackage : ResolvedNpmPackage)
    : M RemappedNpmPackagesMap (list UserRemappingError) :=
  m <- get ;;
  _ <- assertDefined (userRemappingsPerPackage m !! pkg_ref npmPackage)
         "The npm package must be present in the map" ;;
  validateFiles npmPackage (remappingsTxtFiles npmPackage) [].

(** [#resolveAnyRemainingRemappings]; one unit of fuel per iteration of
    the [while] loop, [errors] being the errors pushed so far. *)
Fixpoint resolveRemaining (fuel : nat) (errors : list UserRemappingError)
    : M RemappedNpmPackagesMap (list UserRemappingError) :=
  fun m =>
    match remappingsToResolve m with
    | [] => Returns (errors, m)
    | npmPackage :: _ =>
        match fuel with
        | 0 => OutOfFuel
        | S fuel' =>
            (modify (with_userRemappingsPerPackage
                       (fun u => <[pkg_ref npmPackage := []]> u)) ;;;
             userRemappingErrors <-
               validateAndResolveUserRemappingsOfAnExistingPackage npmPackage ;;
             modify (with_remappingsToResolve (fun q => List.tl q)) ;;;
             resolveRemaining fuel' (errors ++ userRemappingErrors)) m
        end
    end.

Definition resolveAnyRemainingRemappings (fuel : nat)
    : M RemappedNpmPackagesMap (list UserRemappingError) :=
  resolveRemaining fuel [].

(** The value [resolveDependencyByInstallationName] resolves to. *)
Record DependencyResolution := {
  dr_package : ResolvedNpmPackage;
  dr_generatedRemapping : Remapping;
  remappingErrros : option (list UserRemappingError);
}.

(** [resolveDependencyByInstallationName], the public method. *)
Definition resolveDependencyByInstallationName (fuel : nat)
    (from : ResolvedNpmPackage) (installationName : InstallationName)
    : M RemappedNpmPackagesMap (option DependencyResolution) :=
  dependency <- priv_resolveDependencyByInstallationName from installationName ;;
  match dependency with
  | None => ret None
  | Some dependency =>
      errors <- resolveAnyRemainingRemappings fuel ;;
      ret (Some {| dr_package := inst_package dependency;
                   dr_generatedRemapping := generatedRemapping dependency;
                   remappingErrros :=
                     match errors with [] => None | _ => Some errors end |})
  end.

(** The private constructor: the project package is the first object
    allocated. *)
Definition newRemappedNpmPackagesMap (hardhatProjectPackage : ResolvedNpmPackage)
    : RemappedNpmPackagesMap :=
  insertNewPackage hardhatProjectPackage
    {| hardhatProjectPackage := hardhatProjectPackage;
       installationMap := ∅;
       packageByRootSourceName := ∅;
       userRemappingsPerPackage := ∅;
       remappingsToResolve := [];
       nextRef := S (pkg_ref hardhatProjectPackage) |}.

(** The body of [RemappedNpmPackagesMap.create] up to the errors found,
    with the map it built. *)
Definition createMap (fuel : nat) (projectRootPath : string)
    : Outcome (list UserRemappingError * RemappedNpmPackagesMap) :=
  let packageJsonPath := Path.join [projectRootPath; "package.json"] in
  match readJsonFile fs packageJsonPath with
  | None => Throws (FsError packageJsonPath)
  | Some projectPackageJson =>
      let resolvedNpmPackage :=
        {| pkg_ref := 0;
           name := pj_name projectPackageJson;
           version := pj_version projectPackageJson;
           exports := pj_exports projectPackageJson;
           rootFsPath := projectRootPath;
           rootSourceName := HARDHAT_PROJECT_ROOT_SOURCE_NAME |} in
      resolveAnyRemainingRemappings fuel
        (newRemappedNpmPackagesMap resolvedNpmPackage)
  end.

(** [RemappedNpmPackagesMap.create] *)
Definition create (fuel : nat) (projectRootPath : string)
    : Outcome (Result RemappedNpmPackagesMap (list UserRemappingError)) :=
  match createMap fuel projectRootPath with
  | Returns (errors, map) =>
      match errors with
      | [] => Returns (Success map)
      | _ => Returns (Failure errors)
      end
  | Throws e => Throws e
  | OutOfFuel => OutOfFuel
  end.

End PackagesMap.

(** ** The imported helpers, as the specification describes them *)

Module Spec.

(** Modelled from the spec: [parseRemappingString] of [remappings.ts],
    which is not among the files embedded here. The grammar is
    [[context ':'] prefix '=' target]: the context is what precedes the
    first colon when that colon comes before the first equals sign, the
    prefix is what lies between that colon and the equals sign, the target
    is the rest. A line without an equals sign, with an empty prefix or
    with an empty target is a syntax failure. *)
Definition parseRemappingString (line : string) : option Remapping :=
  match Js.indexOf line "="%char with
  | None => None
  | Some eq =>
      let before := Js.substringTo eq line in
      let target := Js.substringFrom (S eq) line in
      let '(context, prefix) :=
        match Js.indexOf before ":"%char with
        | Some colon =>
            (Js.substringTo colon before, Js.substringFrom (S colon) before)
        | None => (EmptyString, before)
        end in
      if String.eqb prefix "" || String.eqb target "" then None
      else Some {| r_context := context; r_prefix := prefix;
                   r_target := target |}
  end.

Fixpoint collapseSlashes (s : string) : string :=
  match s with
  | EmptyString => EmptyString
  | String c s' =>
      match s' with
      | String d _ =>
          if Ascii.eqb c Js.slash && Ascii.eqb d Js.slash
          then collapseSlashes s'
          else String c (collapseSlashes s')
      | EmptyString => String c EmptyString
      end
  end.

(** Modelled from the spec: [sourceNamePathJoin] of
    [source-name-utils.ts], which is not among the files embedded here:
    the parts concatenated with single slash separators, runs of slashes
    collapsed. *)
Definition sourceNamePathJoin (parts : list string) : string :=
  collapseSlashes (Js.joinWith "/" parts).

(** Modelled from the spec: [fsPathToSourceNamePath] of
    [source-name-utils.ts] replaces the native separator by a slash where
    the two differ; on POSIX they do not. *)
Definition fsPathToSourceNamePath (fsPath : string) : string := fsPath.

(** Modelled from the spec: [sourceNamePathToFsPath] of
    [source-name-utils.ts], the inverse of [fsPathToSourceNamePath]. *)
Definition sourceNamePathToFsPath (sourceNamePath : string) : string :=
  sourceNamePath.

Definition remappingApplies (fromSourceName directImport : string)
    (r : ResolvedUserRemapping) : bool :=
  Js.startsWith fromSourceName (ur_context r) &&
  Js.startsWith directImport (ur_prefix r).

(** [r] wins over [best]: a longer context, or as long a context and a
    prefix at least as long (the later of two equals wins). *)
Definition winsOver (r best : ResolvedUserRemapping) : bool :=
  (String.length (ur_context best) <? String.length (ur_context r)) ||
  ((String.length (ur_context best) =? String.length (ur_context r)) &&
   (String.length (ur_prefix best) <=? String.length (ur_prefix r))).

(** Modelled from the spec: [selectBestRemapping] of [remappings.ts],
    which is not among the files embedded here. Among the remappings whose
    context is a prefix of the source name of the importing file and whose
    prefix is a prefix of the direct import, the one with the longest
    context, then the longest prefix, then the most recently parsed. *)
Definition selectBestRemapping (fromSourceName directImport : string)
    (remappings : list ResolvedUserRemapping) : option ResolvedUserRemapping :=
  List.fold_left
    (fun best r =>
       if remappingApplies fromSourceName directImport r then
         match best with
         | None => Some r
         | Some b => if winsOver r b then Some r else Some b
         end
       else best)
    remappings None.

(** Modelled from the spec: [applyValidRemapping] of [remappings.ts]
    replaces the prefix of the remapping by its target in the direct
    import. *)
Definition applyValidRemapping (directImport : string)
    (remapping : ResolvedUserRemapping) : string :=
  ur_target remapping +:+
  Js.substringFrom (String.length (ur_prefix remapping)) directImport.

Definition lib : Lib :=
  Build_Lib parseRemappingString selectBestRemapping applyValidRemapping
    sourceNamePathJoin fsPathToSourceNamePath sourceNamePathToFsPath.

End Spec.

(** ** A file system held in memory *)

Module Disk.

Inductive FileData :=
| TextFile (contents : string)
| JsonFile (json : PackageJson).

(** A disk is the list of its files, each with its absolute path. *)
Definition t := list (string * FileData).

Section OnADisk.

Context (d : t).

Definition lookupFile (p : string) : option FileData :=
  match List.find (fun e => String.eqb (fst e) p) d with
  | Some e => Some (snd e)
  | None => None
  end.

Definition isFile (p : string) : bool :=
  match lookupFile p with Some _ => true | None => false end.

Definition dirPrefix (dir : string) : string :=
  if Js.endsWith dir "/" then dir else dir +:+ "/".

Definition isDirectory (p : string) : bool :=
  List.existsb (fun e => Js.startsWith (fst e) (dirPrefix p)) d.

Definition exists_ (p : string) : bool := isFile p || isDirectory p.

Definition readUtf8File (p : string) : option string :=
  match lookupFile p with
  | Some (TextFile s) => Some s
  | _ => None
  end.

Definition readJsonFile (p : string) : option PackageJson :=
  match lookupFile p with
  | Some (JsonFile j) => Some j
  | _ => None
  end.

Fixpoint insertSorted (x : string) (l : list string) : list string :=
  match l with
  | [] => [x]
  | y :: l' =>
      if String.eqb x y then l
      else if Js.ltb x y then x :: l
      else y :: insertSorted x l'
  end.

(** The entries of a directory, sorted by code units. *)
Definition readdir (dir : string) : list string :=
  List.fold_right
    (fun e acc =>
       if Js.startsWith (fst e) (dirPrefix dir) then
         match Js.split
                 (Js.substringFrom (String.length (dirPrefix dir)) (fst e))
                 Js.slash with
         | entry :: _ => insertSorted entry acc
         | [] => acc
         end
       else acc)
    [] d.

(** Modelled from the spec: [getAllFilesMatching] of [hardhat-utils/fs]
    walks the directory depth first, the entries of each directory
    sorted by code point, and keeps the files that match; directories
    that the filter rejects are not entered. [depth] bounds the
    recursion by the depth of the tree. *)
Fixpoint walk (depth : nat) (dirFrom : string)
    (matches directoryFilter : string -> bool) : list string :=
  match depth with
  | 0 => []
  | S depth' =>
      List.flat_map
        (fun file =>
           let absolutePathToFile := Path.join [dirFrom; file] in
           if isDirectory absolutePathToFile then
             if directoryFilter absolutePathToFile
             then walk depth' absolutePathToFile matches directoryFilter
             else []
           else if matches absolutePathToFile then [absolutePathToFile]
           else [])
        (readdir dirFrom)
  end.

Definition maxDepth : nat :=
  S (List.fold_right (fun e acc => Nat.max (String.length (fst e)) acc) 0 d).

Definition getAllFilesMatching (dirFrom : string)
    (matches directoryFilter : string -> bool) : list string :=
  walk maxDepth dirFrom matches directoryFilter.

(** Modelled from the spec: [findDependencyPackageJson] of
    [hardhat-utils/package] is the lookup of node modules: the first
    [node_modules/<name>/package.json] found walking from the directory
    [from] up through its ancestors. *)
Fixpoint findUp (steps : nat) (from name : string) : option string :=
  let candidate := Path.join [from; "node_modules"; name; "package.json"] in
  if isFile candidate then Some candidate
  else
    match steps with
    | 0 => None
    | S steps' =>
        if String.eqb (Path.dirname from) from then None
        else findUp steps' (Path.dirname from) name
    end.

Definition findDependencyPackageJson (from name : string) : option string :=
  findUp (String.length from) from name.

(** Modelled from the spec: [getFileTrueCase] of [hardhat-utils/fs]
    reports the casing the file system has for a path given relative to
    [from]; each segment is matched against the entries of its directory
    without regard to case. *)
Fixpoint trueCase (from : string) (segments : list string)
    : option (list string) :=
  match segments with
  | [] => Some []
  | s :: segments' =>
      match List.find
              (fun entry =>
                 String.eqb (Js.toLowerCase entry) (Js.toLowerCase s))
              (readdir from) with
      | None => None
      | Some entry =>
          match trueCase (Path.join [from; entry]) segments' with
          | Some rest => Some (entry :: rest)
          | None => None
          end
      end
  end.

Definition getFileTrueCase (from relative : string) : option string :=
  match trueCase from (Js.split relative Js.slash) with
  | Some segments => Some (Js.joinWith "/" segments)
  | None => None
  end.

(** A package-exports resolver for exports without patterns nor
    conditions: the target of the entry [./subpath], or an exception. *)
Definition resolve_exports (npmPackage : ResolvedNpmPackage)
    (subpath : string) : ExportsOutput :=
  match exports npmPackage with
  | None => ExportsVoid
  | Some entries =>
      match List.find (fun e => String.eqb (fst e) ("./" +:+ subpath))
              entries with
      | Some e => ExportsPaths [snd e]
      | None => ExportsThrows
      end
  end.

(** The analyzer is not modelled: no import, no pragma. *)
Definition analyze (text : string) : list string * list string := ([], []).

Definition fs : Fs :=
  Build_Fs readJsonFile readUtf8File getAllFilesMatching
    findDependencyPackageJson exists_ getFileTrueCase analyze resolve_exports.

End OnADisk.

(** The text of a file from its lines. *)
Definition lines (ls : list string) : FileData :=
  TextFile (Js.joinWith (String Js.LF EmptyString) ls).

End Disk.

(** ** [new-dependency-resolver.ts] *)

(** The fields of [NewResolverImplementation]; [nextFileRef] is the
    reference the next resolved file object gets. The mutex serialises the
    public methods, which is what a sequence of state-passing calls is. *)
Record NewResolverImplementation := {
  projectRoot : string;
  npmPackageMap : RemappedNpmPackagesMap;
  resolvedFileBySourceName : gmap string ResolvedFile;
  fakeRootFile : ResolvedFile;
  nextFileRef : nat;
}.

Definition with_npmPackageMap (map : RemappedNpmPackagesMap)
    (r : NewResolverImplementation) :=
  {| projectRoot := projectRoot r;
     npmPackageMap := map;
     resolvedFileBySourceName := resolvedFileBySourceName r;
     fakeRootFile := fakeRootFile r;
     nextFileRef := nextFileRef r |}.

Definition with_resolvedFileBySourceName
    (f : gmap string ResolvedFile -> gmap string ResolvedFile)
    (r : NewResolverImplementation) :=
  {| projectRoot := projectRoot r;
     npmPackageMap := npmPackageMap r;
     resolvedFileBySourceName := f (resolvedFileBySourceName r);
     fakeRootFile := fakeRootFile r;
     nextFileRef := nextFileRef r |}.

Definition with_nextFileRef (f : nat -> nat) (r : NewResolverImplementation) :=
  {| projectRoot := projectRoot r;
     npmPackageMap := npmPackageMap r;
     resolvedFileBySourceName := resolvedFileBySourceName r;
     fakeRootFile := fakeRootFile r;
     nextFileRef := f (nextFileRef r) |}.

(** A method of the package map, called on the field [#npmPackageMap]. *)
Definition onPackageMap {A} (m : M RemappedNpmPackagesMap A)
    : M NewResolverImplementation A :=
  fun r =>
    match m (npmPackageMap r) with
    | Returns (a, map) => Returns (a, with_npmPackageMap map r)
    | Throws e => Throws e
    | OutOfFuel => OutOfFuel
    end.

(** [a === b] on package objects. *)
Definition samePackage (a b : ResolvedNpmPackage) : bool :=
  pkg_ref a =? pkg_ref b.

(** The value of a successful import resolution. *)
Record ResolvedImport := {
  ri_file : ResolvedFile;
  ri_remapping : option AnyRemapping;
}.

Inductive PathValidationError :=
| DOESNT_EXIST
| CASING_ERROR (correctCasing : string).

Definition ImportResult := Result ResolvedImport ImportResolutionError.

Section Resolver.

Context (lib : Lib) (fs : Fs).

(** [validateFsPath] *)
Definition validateFsPath (from relative : string)
    : Result unit PathValidationError :=
  match getFileTrueCase fs from relative with
  | None => Failure DOESNT_EXIST
  | Some trueCaseFsPath =>
      if negb (String.eqb relative trueCaseFsPath)
      then Failure (CASING_ERROR trueCaseFsPath)
      else Success tt
  end.

(** [readFileContent] *)
Definition readFileContent {S} (absolutePath : string) : M S FileContent :=
  text <- await (readUtf8File fs absolutePath) absolutePath ;;
  let '(imports, versionPragmas) := analyze fs text in
  ret {| text := text; importPaths := imports;
         versionPragmas := versionPragmas |}.

(** [new ProjectResolvedFileImplementation(...)] and
    [new NpmPackageResolvedFileImplementation(...)] *)
Definition newResolvedFile (type : ResolvedFileType)
    (sourceName fsPath : string) (content : FileContent)
    (package : ResolvedNpmPackage) : M NewResolverImplementation ResolvedFile :=
  r <- get ;;
  modify (with_nextFileRef S) ;;;
  ret {| file_ref := nextFileRef r; file_type := type;
         sourceName := sourceName; fsPath := fsPath;
         content := content; package := package |}.

(** [resolveSubpathWithPackageExports]: the first target, without its
    leading [./], the separators replaced by [path.sep]. *)
Fixpoint replaceSeparators (s : string) : string :=
  match s with
  | EmptyString => EmptyString
  | String c s' =>
      (if Ascii.eqb c Js.slash || Ascii.eqb c Js.backslash
       then Path.sep else String c EmptyString) +:+ replaceSeparators s'
  end.

Definition resolveSubpathWithPackageExports {S}
    (npmPackage : ResolvedNpmPackage) (subpath : string)
    : M S (Result string unit) :=
  match resolve_exports fs npmPackage subpath with
  | ExportsThrows => ret (Failure tt)
  | ExportsVoid =>
      throw (HardhatInvariantError
               "resolve.exports should always return a result when package.exports exist")
  | ExportsPaths [] => throw (JsError "TypeError")
  | ExportsPaths (first :: _) =>
      ret (Success (replaceSeparators (Js.substringFrom 2 first)))
  end.

(** [#buildResolvedFile]; the content of an npm file is read twice. *)
Definition buildResolvedFile (sourceName fsPath : string)
    (npmPackage : ResolvedNpmPackage)
    : M NewResolverImplementation ResolvedFile :=
  content <- readFileContent fsPath ;;
  r <- get ;;
  if samePackage npmPackage (hardhatProjectPackage (npmPackageMap r)) then
    newResolvedFile PROJECT_FILE sourceName fsPath content
      (hardhatProjectPackage (npmPackageMap r))
  else
    content' <- readFileContent fsPath ;;
    newResolvedFile NPM_PACKAGE_FILE sourceName fsPath content' npmPackage.

(** [#buildUserRemappingReference]; [formatRemapping] is
    [context:prefix=target]. *)
Definition buildUserRemappingReference (userRemapping : ResolvedUserRemapping)
    : UserRemappingReference :=
  {| originalUserRemapping := originalFormat userRemapping;
     actualUserRemapping :=
       ur_context userRemapping +:+ ":" +:+ ur_prefix userRemapping +:+ "="
       +:+ ur_target userRemapping;
     remappingSource := source userRemapping |}.

(** [#buildResolvedFileReference] *)
Definition buildResolvedFileReference (r : NewResolverImplementation)
    (targetNpmPackage : ResolvedNpmPackage) (subpath : string)
    (userRemapping : option ResolvedUserRemapping)
    (packageExportsResolvedSubpath : option string) : ResolvedFileReference :=
  {| npmPackage :=
       if negb (samePackage targetNpmPackage
                  (hardhatProjectPackage (npmPackageMap r)))
       then Some targetNpmPackage else None;
     userRemapping :=
       match userRemapping with
       | None => None
       | Some u => Some (buildUserRemappingReference u)
       end;
     subpath := subpath;
     packageExportsResolvedSubpath := packageExportsResolvedSubpath |}.

(** [#getRelativeSourceNamePath] *)
Definition getRelativeSourceNamePath (r : NewResolverImplementation)
    (nmpPackage : ResolvedNpmPackage) (fileSourceName : string) : string :=
  if samePackage nmpPackage (hardhatProjectPackage (npmPackageMap r))
  then fileSourceName
  else Js.substringFrom (String.length (rootSourceName nmpPackage) + 1)
         fileSourceName.

(** The package an import is resolved from. *)
Definition fromNpmPackageOf (r : NewResolverImplementation)
    (from : ResolvedFile) : ResolvedNpmPackage :=
  match file_type from with
  | NPM_PACKAGE_FILE => package from
  | PROJECT_FILE => hardhatProjectPackage (npmPackageMap r)
  end.

(** [resolveProjectFile] *)
Definition resolveProjectFile (absoluteFilePath : string)
    : M NewResolverImplementation
        (Result ResolvedFile ProjectRootResolutionError) :=
  r <- get ;;
  if negb (Js.startsWith absoluteFilePath (projectRoot r)) then
    ret (Failure (PROJECT_ROOT_FILE_NOT_IN_PROJECT absoluteFilePath))
  else
    let relativeFilePath := Path.relative (projectRoot r) absoluteFilePath in
    let projectSourceName := rootSourceName (hardhatProjectPackage (npmPackageMap r)) in
    let sourceName :=
      sourceNamePathJoin lib
        [projectSourceName; fsPathToSourceNamePath lib relativeFilePath] in
    match resolvedFileBySourceName r !! sourceName with
    | Some existing => ret (Success existing)
    | None =>
        match
          match validateFsPath (projectRoot r) relativeFilePath with
          | Failure DOESNT_EXIST => None
          | Failure (CASING_ERROR correctCasing) =>
              Some (correctCasing,
                    sourceNamePathJoin lib
                      [projectSourceName;
                       fsPathToSourceNamePath lib correctCasing])
          | _ => Some (relativeFilePath, sourceName)
          end
        with
        | None =>
            ret (Failure (PROJECT_ROOT_FILE_DOESNT_EXIST absoluteFilePath))
        | Some (realCaseingRelativePath, sourceName) =>
            if Js.startsWith sourceName
                 (sourceNamePathJoin lib [projectSourceName; "node_modules/"])
            then
              ret (Failure (PROJECT_ROOT_FILE_IN_NODE_MODULES absoluteFilePath))
            else
              match resolvedFileBySourceName r !! sourceName with
              | Some resolvedWithTheRightCasing =>
                  ret (Success resolvedWithTheRightCasing)
              | None =>
                  let fsPathWithTheRightCasing :=
                    Path.join [projectRoot r; realCaseingRelativePath] in
                  content <- readFileContent fsPathWithTheRightCasing ;;
                  resolvedFile <-
                    newResolvedFile PROJECT_FILE sourceName
                      fsPathWithTheRightCasing content
                      (hardhatProjectPackage (npmPackageMap r)) ;;
                  modify (with_resolvedFileBySourceName
                            (fun t => <[sourceName := resolvedFile]> t)) ;;;
                  ret (Success resolvedFile)
              end
        end
    end.

(** [#resolveRelativeImport]: the body is [return 1 as any]. *)
Definition resolveRelativeImport (from : ResolvedFile)
    (importPath directImport : string)
    : M NewResolverImplementation ImportResult :=
  ret (NotAResult 1).

(** The part shared by the two branches that validate a path and build
    the file of a non-relative import. *)
Definition validateAndBuild (from : ResolvedFile) (importPath : string)
    (sourceName relativePath : string) (targetPackage : ResolvedNpmPackage)
    (reference : ResolvedFileReference) (remapping : AnyRemapping)
    : M NewResolverImplementation ImportResult :=
  match validateFsPath (rootFsPath targetPackage) relativePath with
  | Failure DOESNT_EXIST =>
      ret (Failure (IMPORT_DOESNT_EXIST (fsPath from) importPath reference))
  | Failure (CASING_ERROR correctCasing) =>
      ret (Failure (IMPORT_INVALID_CASING (fsPath from) importPath reference
                      correctCasing))
  | _ =>
      let fsPath := Path.join [rootFsPath targetPackage; relativePath] in
      resolvedFile <- buildResolvedFile sourceName fsPath targetPackage ;;
      modify (with_resolvedFileBySourceName
                (fun t => <[sourceName := resolvedFile]> t)) ;;;
      ret (Success {| ri_file := resolvedFile;
                      ri_remapping := Some remapping |})
  end.

(** [#resolveUserRemappedImport] *)
Definition resolveUserRemappedImport (from : ResolvedFile)
    (importPath directImport : string) (remapping : ResolvedUserRemapping)
    : M NewResolverImplementation ImportResult :=
  r <- get ;;
  let remappedDirectImport := applyValidRemapping lib directImport remapping in
  let sourceName := remappedDirectImport in
  match resolvedFileBySourceName r !! remappedDirectImport with
  | Some existing =>
      ret (Success {| ri_file := existing;
                      ri_remapping := Some (UserRemapping remapping) |})
  | None =>
      let fromNpmPackage := fromNpmPackageOf r from in
      let targetNpmPackage :=
        match targetNpmPackage remapping with
        | Some (_, package) => package
        | None => fromNpmPackage
        end in
      let relativeSourceNamePath :=
        getRelativeSourceNamePath r targetNpmPackage sourceName in
      let relativeFsPath := sourceNamePathToFsPath lib relativeSourceNamePath in
      validateAndBuild from importPath sourceName relativeFsPath
        targetNpmPackage
        (buildResolvedFileReference r targetNpmPackage relativeSourceNamePath
           (Some remapping) None)
        (UserRemapping remapping)
  end.

(** The block [if (dependency.exports !== undefined) { ... }] of
    [#resolveImportThroughNpm]: [None] when the resolution of the exports
    fails, else the value of [resolvedSubpath], which may be undefined. *)
Definition resolvedSubpathOf {S} (dependency : ResolvedNpmPackage)
    (subpath : string) : M S (option (option string)) :=
  match exports dependency with
  | Some _ =>
      pathResolutionResult <-
        resolveSubpathWithPackageExports dependency subpath ;;
      match pathResolutionResult with
      | Success resolved => ret (Some (Some resolved))
      | _ => ret None
      end
  | None => ret (Some None)
  end.

(** [#resolveImportThroughNpm] *)
Definition resolveImportThroughNpm (fuel : nat) (from : ResolvedFile)
    (importPath directImport : string)
    : M NewResolverImplementation ImportResult :=
  match parseNpmDirectImport directImport with
  | None =>
      ret (Failure (IMPORT_WITH_INVALID_NPM_SYNTAX (fsPath from) importPath))
  | Some parsedDirectImport =>
      r <- get ;;
      let fromNpmPackage := fromNpmPackageOf r from in
      let installationName := parsed_package parsedDirectImport in
      dependencyResolution <-
        onPackageMap
          (resolveDependencyByInstallationName lib fs fuel fromNpmPackage
             installationName) ;;
      match dependencyResolution with
      | None =>
          ret (Failure (IMPORT_OF_UNINSTALLED_PACKAGE (fsPath from) importPath
                          (parsed_package parsedDirectImport)))
      | Some dependencyResolution =>
          match remappingErrros dependencyResolution with
          | Some errors =>
              ret (Failure (IMPORT_OF_NPM_PACKAGE_WITH_REMAPPING_ERRORS
                              (fsPath from) importPath
                              (dr_package dependencyResolution) errors))
          | None =>
              r <- get ;;
              let dependency := dr_package dependencyResolution in
              let subpath := parsed_subpath parsedDirectImport in
              exportsResolution <- resolvedSubpathOf dependency subpath ;;
              match exportsResolution with
              | None =>
                  ret (Failure (IMPORT_OF_NON_EXPORTED_NPM_FILE (fsPath from)
                                  importPath
                                  (buildResolvedFileReference r dependency
                                     subpath None None)))
              | Some resolvedSubpath =>
                  let relativePath :=
                    match resolvedSubpath with
                    | Some s => s
                    | None => subpath
                    end in
                  let sourceName :=
                    sourceNamePathJoin lib
                      [rootSourceName dependency; relativePath] in
                  let remapping :=
                    if match resolvedSubpath with
                       | Some s => negb (String.eqb s subpath)
                       | None => false
                       end
                       || String.eqb directImport "hardhat/console.sol"
                    then generateRemappingIntoNpmFile fromNpmPackage
                           directImport sourceName
                    else dr_generatedRemapping dependencyResolution in
                  match resolvedFileBySourceName r !! sourceName with
                  | Some existing =>
                      ret (Success
                             {| ri_file := existing;
                                ri_remapping :=
                                  Some (GeneratedRemapping remapping) |})
                  | None =>
                      validateAndBuild from importPath sourceName relativePath
                        dependency
                        (buildResolvedFileReference r dependency subpath None
                           resolvedSubpath)
                        (GeneratedRemapping remapping)
                  end
              end
          end
      end
  end.

(** [#tryToGenerateDirectLocalImportError]; one unit of fuel per
    iteration of the [while] loop. *)
Fixpoint tryToGenerateDirectLocalImportErrorFrom (fuel : nat)
    (from : ResolvedFile) (importPath baseDir : string)
    : M NewResolverImplementation (option ImportResolutionError) :=
  if Js.startsWith baseDir (rootFsPath (package from)) then
    match fuel with
    | 0 => fun _ => OutOfFuel
    | S fuel' =>
        if exists_ fs (Path.join [baseDir; importPath]) then
          throw (JsError "Invalid direct import")
        else
          tryToGenerateDirectLocalImportErrorFrom fuel' from importPath
            (Path.dirname baseDir)
    end
  else ret None.

Definition tryToGenerateDirectLocalImportError (fuel : nat)
    (from : ResolvedFile) (importPath : string)
    : M NewResolverImplementation (option ImportResolutionError) :=
  tryToGenerateDirectLocalImportErrorFrom fuel from importPath
    (Path.dirname (fsPath from)).

Definition isRelativeImport (importPath : string) : bool :=
  Js.startsWith importPath "./" || Js.startsWith importPath "../".

(** The direct import an import path stands for. *)
Definition directImportOf (from : ResolvedFile) (importPath : string) : string :=
  if isRelativeImport importPath
  then sourceNamePathJoin lib [Path.dirname (sourceName from); importPath]
  else importPath.

(** [#resolveImport], which the public [resolveImport] runs under the
    mutex. *)
Definition resolveImport (fuel : nat) (from : ResolvedFile)
    (importPath : string) : M NewResolverImplementation ImportResult :=
  if Js.includes importPath (String Js.backslash EmptyString) then
    ret (Failure (IMPORT_WITH_WINDOWS_PATH_SEPARATORS (fsPath from) importPath))
  else
    let directImport := directImportOf from importPath in
    if isRelativeImport importPath &&
       negb (Js.startsWith directImport (rootSourceName (package from)))
    then
      ret (Failure (ILLEGAL_RELATIVE_IMPORT (fsPath from) importPath))
    else
      packageUserRemappigns <- onPackageMap (getUserRemappings (package from)) ;;
      let bestUserRemapping :=
        selectBestRemapping lib (sourceName from) directImport
          packageUserRemappigns in
      if isRelativeImport importPath then
        match bestUserRemapping with
        | Some _ => throw (JsError "Invalid relative import and remapping")
        | None => resolveRelativeImport from importPath directImport
        end
      else
        match bestUserRemapping with
        | Some remapping =>
            resolveUserRemappedImport from importPath directImport remapping
        | None =>
            npmResolutionResult <-
              resolveImportThroughNpm fuel from importPath directImport ;;
            match npmResolutionResult with
            | Failure (IMPORT_OF_UNINSTALLED_PACKAGE _ _ _)
            | Failure (IMPORT_WITH_INVALID_NPM_SYNTAX _ _) =>
                improvedError <-
                  tryToGenerateDirectLocalImportError fuel from importPath ;;
                match improvedError with
                | Some improvedError => ret (Failure improvedError)
                | None => ret npmResolutionResult
                end
            | _ => ret npmResolutionResult
            end
        end.

(** The private constructor of the resolver. *)
Definition newResolver (projectRoot : string)
    (npmPackagesMap : RemappedNpmPackagesMap) : NewResolverImplementation :=
  {| projectRoot := projectRoot;
     npmPackageMap := npmPackagesMap;
     resolvedFileBySourceName := ∅;
     fakeRootFile :=
       {| file_ref := 0; file_type := PROJECT_FILE;
          sourceName :=
            sourceNamePathJoin lib
              [rootSourceName (hardhatProjectPackage npmPackagesMap);
               "<root>.sol"];
          fsPath := Path.join [projectRoot; "<root>.sol"];
          content := {| text := ""; importPaths := [];
                        versionPragmas := [] |};
          package := hardhatProjectPackage npmPackagesMap |};
     nextFileRef := 1 |}.

(** [NewResolverImplementation.create] *)
Definition createResolver (fuel : nat) (projectRoot : string)
    : Outcome (Result NewResolverImplementation (list UserRemappingError)) :=
  match create lib fs fuel projectRoot with
  | Returns (Success map) => Returns (Success (newResolver projectRoot map))
  | Returns (Failure errors) => Returns (Failure errors)
  | Returns (NotAResult n) => Returns (NotAResult n)
  | Throws e => Throws e
  | OutOfFuel => OutOfFuel
  end.

End Resolver.

(** ** [resolveNpmDependencyFileAsRoot] *)

(** [NpmRootResolutionError], one constructor per member of the union. The
    members the method builds with [...result.error] keep the fields of the
    import error they are built from ([fromFsPath], [importPath] and the
    fields of the reference). *)
Inductive NpmRootResolutionError :=
| NPM_ROOT_FILE_NAME_WITH_INVALID_FORMAT (npmModule : string)
| NPM_ROOT_FILE_RESOLVES_TO_PROJECT_FILE (npmModule : string)
    (userRemapping : UserRemappingReference)
| NPM_ROOT_FILE_OF_UNINSTALLED_PACKAGE (npmModule : string)
    (fromFsPath importPath installationName : string)
| NPM_ROOT_FILE_OF_PACKAGE_WITH_REMAPPING_ERRORS (npmModule : string)
    (fromFsPath importPath installationName : string)
    (npmPackage : ResolvedNpmPackage)
    (remappingErrors : list UserRemappingError)
| NPM_ROOT_FILE_DOESNT_EXIST_WITHIN_ITS_PACKAGE (npmModule : string)
    (fromFsPath importPath : string) (reference : ResolvedFileReference)
| NPM_ROOT_FILE_WITH_INCORRRECT_CASING (npmModule : string)
    (fromFsPath importPath : string) (reference : ResolvedFileReference)
    (correctCasing : string)
| NPM_ROOT_FILE_NON_EXPORTED_FILE (npmModule : string)
    (fromFsPath importPath : string) (reference : ResolvedFileReference).

(** The value of a successful resolution of an npm root: the file and, when
    the resolution went through one, the user remapping. *)
Record ResolvedNpmRoot := {
  root_file : ResolvedFile;
  root_remapping : option ResolvedUserRemapping;
}.

Definition NpmRootResult := Result ResolvedNpmRoot NpmRootResolutionError.

(** What [resolveNpmDependencyFileAsRoot] makes of the result of
    [#resolveImport]. A result that is no [Result] object has no [value],
    and reading [result.value.file] is a [TypeError]. The [userRemapping]
    of the error is the object literal of [#buildUserRemappingReference]. *)
Definition npmRootResultOf {S} (npmModule : string)
    (parsedNpmModule : ParsedNpmDirectImport) (result : ImportResult)
    : M S NpmRootResult :=
  match result with
  | Failure (IMPORT_WITH_INVALID_NPM_SYNTAX _ _)
  | Failure (IMPORT_WITH_WINDOWS_PATH_SEPARATORS _ _) =>
      ret (Failure (NPM_ROOT_FILE_NAME_WITH_INVALID_FORMAT npmModule))
  | Failure (ILLEGAL_RELATIVE_IMPORT _ _) =>
      throw (HardhatInvariantError
               "This could not happen, as we validated that the module name is a valid npm module")
  | Failure (IMPORT_DOESNT_EXIST fromFsPath importPath reference) =>
      assertDefined (npmPackage reference)
        "We should have a npm package if the import doesn't exist, as we know are doing an npm import" ;;;
      ret (Failure (NPM_ROOT_FILE_DOESNT_EXIST_WITHIN_ITS_PACKAGE npmModule
                      fromFsPath importPath reference))
  | Failure (IMPORT_INVALID_CASING fromFsPath importPath reference
               correctCasing) =>
      assertDefined (npmPackage reference)
        "We should have a npm package if the import doesn't exist, as we know are doing an npm import" ;;;
      ret (Failure (NPM_ROOT_FILE_WITH_INCORRRECT_CASING npmModule
                      fromFsPath importPath reference correctCasing))
  | Failure (IMPORT_OF_UNINSTALLED_PACKAGE fromFsPath importPath
               installationName) =>
      ret (Failure (NPM_ROOT_FILE_OF_UNINSTALLED_PACKAGE npmModule
                      fromFsPath importPath installationName))
  | Failure (IMPORT_OF_NPM_PACKAGE_WITH_REMAPPING_ERRORS fromFsPath importPath
               npmPackage remappingErrors) =>
      ret (Failure (NPM_ROOT_FILE_OF_PACKAGE_WITH_REMAPPING_ERRORS npmModule
                      fromFsPath importPath (parsed_package parsedNpmModule)
                      npmPackage remappingErrors))
  | Failure (IMPORT_OF_NON_EXPORTED_NPM_FILE fromFsPath importPath
               reference) =>
      ret (Failure (NPM_ROOT_FILE_NON_EXPORTED_FILE npmModule
                      fromFsPath importPath reference))
  | NotAResult _ => throw (JsError "TypeError")
  | Success value =>
      let resolvedFile := ri_file value in
      anyRemapping <-
        assertDefined (ri_remapping value)
          "We must have a remapping here, becase we either resolved though a user remapping, or npm" ;;
      let remapping :=
        match anyRemapping with
        | UserRemapping u => Some u
        | GeneratedRemapping _ => None
        end in
      match file_type resolvedFile with
      | PROJECT_FILE =>
          remapping <-
            assertDefined remapping
              "Expected user remapping to be present if the import resolved to a local file" ;;
          ret (Failure (NPM_ROOT_FILE_RESOLVES_TO_PROJECT_FILE npmModule
                          (buildUserRemappingReference remapping)))
      | NPM_PACKAGE_FILE =>
          ret (Success {| root_file := resolvedFile;
                          root_remapping := remapping |})
      end
  end.

Section RootResolver.

Context (lib : Lib) (fs : Fs).

(** [resolveNpmDependencyFileAsRoot], run under the mutex. *)
Definition resolveNpmDependencyFileAsRoot (fuel : nat) (npmModule : string)
    : M NewResolverImplementation NpmRootResult :=
  match parseNpmDirectImport npmModule with
  | None => ret (Failure (NPM_ROOT_FILE_NAME_WITH_INVALID_FORMAT npmModule))
  | Some parsedNpmModule =>
      r <- get ;;
      result <- resolveImport lib fs fuel (fakeRootFile r) npmModule ;;
      npmRootResultOf npmModule parsedNpmModule result
  end.

End RootResolver.

(** ** [imports-clasification.ts] *)

(** [s.substring(start, end)]: the two indices are swapped when the first
    is the greater, and clamped to the length of the string. *)
Definition substring (start end_ : nat) (s : string) : string :=
  let lo := Nat.min start end_ in
  let hi := Nat.max start end_ in
  Js.substringTo (hi - lo) (Js.substringFrom lo s).

(** The fields of [ImportsClassifier]; [#cachedResults] maps a directory to
    the map of the results known for the names looked up in it. *)
Record ImportsClassifier := {
  ic_projectRoot : string;
  cachedResults : gmap string (gmap string bool);
}.

Definition with_cachedResults
    (f : gmap string (gmap string bool) -> gmap string (gmap string bool))
    (c : ImportsClassifier) : ImportsClassifier :=
  {| ic_projectRoot := ic_projectRoot c;
     cachedResults := f (cachedResults c) |}.

(** [new ImportsClassifier(projectRootAbsolutePath)] *)
Definition newImportsClassifier (projectRootAbsolutePath : string)
    : ImportsClassifier :=
  {| ic_projectRoot := projectRootAbsolutePath; cachedResults := ∅ |}.

(** [getDirectImportLocalDesambiguationPrefix] *)
Definition getDirectImportLocalDesambiguationPrefix (directImport : string)
    : string :=
  match Js.indexOf directImport Js.slash with
  | None => directImport
  | Some slash => substring 0 (slash + 1) directImport
  end.

Section Classifier.

Context (fs : Fs).

(** [#existsLocally]; the inner map is the object the outer map holds, so
    that setting a result in it sets it in the cache. *)
Definition existsLocally (from directory : string) : M ImportsClassifier bool :=
  c <- get ;;
  fromResults <-
    match cachedResults c !! from with
    | Some fromResults => ret fromResults
    | None =>
        modify (with_cachedResults (fun t => <[from := ∅]> t)) ;;;
        ret ∅
    end ;;
  match fromResults !! directory with
  | Some cachedResults => ret cachedResults
  | None =>
      let result := exists_ fs (Path.join [from; directory]) in
      modify (with_cachedResults
                (fun t => <[from := <[directory := result]> fromResults]> t)) ;;;
      ret result
  end.

(** [isUserRemappingTargetLocal] *)
Definition isUserRemappingTargetLocal (remappingLocation remappingTarget : string)
    : M ImportsClassifier bool :=
  c <- get ;;
  let from :=
    if String.eqb remappingLocation "HardhatConfig"
    then ic_projectRoot c
    else Path.dirname remappingLocation in
  slash <-
    assertDefined (Js.indexOf remappingTarget Js.slash)
      "The target of a user remapping must have at least one slash" ;;
  let firstDirectory := substring 0 slash remappingTarget in
  if String.eqb firstDirectory "hardhat" then ret false
  else existsLocally from firstDirectory.

(** [isLocalImport]; both ways out of the method after the test of
    [hardhat] are [return false]. *)
Definition isLocalImport (from : ResolvedFile) (importPath directImport : string)
    : M ImportsClassifier bool :=
  match Js.indexOf directImport Js.slash with
  | None => ret true
  | Some slash =>
      let isRelativeImport :=
        Js.startsWith importPath "./" || Js.startsWith importPath "../" in
      let firstDirectoryFromPackageRoot :=
        if isRelativeImport then
          match file_type from with
          | PROJECT_FILE => substring 0 slash directImport
          | NPM_PACKAGE_FILE =>
              substring (String.length (rootSourceName (package from)) + 1)
                slash directImport
          end
        else substring 0 slash directImport in
      if String.eqb firstDirectoryFromPackageRoot "hardhat" then ret false
      else ret false
  end.

(** [isLocalDirectImportFromPackageRoot] *)
Definition isLocalDirectImportFromPackageRoot
    (npmPackageRootFsPath directImport : string) : bool :=
  if String.eqb directImport "hardhat/console.sol" then false
  else
    match Js.indexOf directImport Js.slash with
    | None => true
    | Some slash =>
        let firstDirectory := substring 0 slash directImport in
        exists_ fs (Path.join [npmPackageRootFsPath; firstDirectory])
    end.

End Classifier.

(** * Vocabulary of the properties *)

(** What [pushUserRemapping] does to the state. *)
Definition pushed (npmPackage : ResolvedNpmPackage) (r : ResolvedUserRemapping)
    (m : RemappedNpmPackagesMap) : RemappedNpmPackagesMap :=
  with_userRemappingsPerPackage
    (alter (fun l => l ++ [r]) (pkg_ref npmPackage)) m.

(** What recording an installation of [from] does to the state. *)
Definition installed (from : ResolvedNpmPackage) (installationName : string)
    (deps : gmap string Installation) (e : Installation)
    (m : RemappedNpmPackagesMap) : RemappedNpmPackagesMap :=
  with_installationMap
    (fun im => <[pkg_ref from := <[installationName := e]> deps]> im) m.

(** The installation recorded for the package [to], installed in [from]
    under [installationName]. *)
Definition installationOf (from : ResolvedNpmPackage)
    (installationName : string) (to : ResolvedNpmPackage) : Installation :=
  {| inst_package := to;
     generatedRemapping := generateNpmRemapping from installationName to |}.

Section MapCases.

Context (lib : Lib) (fs : Fs).

(** The four ways [#resolveDependencyByInstallationName] returns: the
    installation is known; nothing is installed under that name; the
    package is known under its root source name and the installation is
    recorded; the package is new, it is inserted and the installation is
    recorded. *)
Inductive priv_resolve_case (from : ResolvedNpmPackage) (installationName : string)
    (m : RemappedNpmPackagesMap)
    : option Installation -> RemappedNpmPackagesMap -> Prop :=
| prc_known deps e :
    installationMap m !! pkg_ref from = Some deps ->
    deps !! installationName = Some e ->
    priv_resolve_case from installationName m (Some e) m
| prc_uninstalled deps :
    installationMap m !! pkg_ref from = Some deps ->
    deps !! installationName = None ->
    priv_resolve_case from installationName m None m
| prc_existing deps key existing :
    installationMap m !! pkg_ref from = Some deps ->
    deps !! installationName = None ->
    packageByRootSourceName m !! key = Some existing ->
    priv_resolve_case from installationName m
      (Some (installationOf from installationName existing))
      (installed from installationName deps
         (installationOf from installationName existing) m)
| prc_new deps new :
    installationMap m !! pkg_ref from = Some deps ->
    deps !! installationName = None ->
    pkg_ref new = nextRef m ->
    packageByRootSourceName m !! rootSourceName new = None ->
    priv_resolve_case from installationName m
      (Some (installationOf from installationName new))
      (installed from installationName deps
         (installationOf from installationName new)
         (insertNewPackage new (with_nextRef S m))).

(** The remapping [#validateAndResolveUserRemapping] pushes for a local
    remapping, and for a remapping into an npm package. *)
Definition localRemapping (npmPackage : ResolvedNpmPackage)
    (sourceOfTheRemapping remappingString : string) (remapping : Remapping)
    : ResolvedUserRemapping :=
  let relativeFsPathToRemappingsFile :=
    Path.relative (rootFsPath npmPackage) (Path.dirname sourceOfTheRemapping) in
  {| ur_context :=
       updateRemappingsTxFragment lib npmPackage
         relativeFsPathToRemappingsFile (r_context remapping);
     ur_prefix := r_prefix remapping;
     ur_target :=
       updateRemappingsTxFragment lib npmPackage
         relativeFsPathToRemappingsFile (r_target remapping);
     originalFormat := remappingString;
     source := sourceOfTheRemapping;
     targetNpmPackage := None |}.

Definition strippedTarget (remapping : Remapping) : string :=
  Js.substringFrom (String.length "node_modules/") (r_target remapping).

Definition npmRemapping (npmPackage : ResolvedNpmPackage)
    (sourceOfTheRemapping remappingString : string) (remapping : Remapping)
    (installationName : string) (dependency : Installation)
    : ResolvedUserRemapping :=
  let relativeFsPathToRemappingsFile :=
    Path.relative (rootFsPath npmPackage) (Path.dirname sourceOfTheRemapping) in
  {| ur_context :=
       updateRemappingsTxFragment lib npmPackage
         relativeFsPathToRemappingsFile (r_context remapping);
     ur_prefix := r_prefix remapping;
     originalFormat := remappingString;
     source := sourceOfTheRemapping;
     ur_target :=
       rootSourceName (inst_package dependency)
       +:+ Js.substringFrom (String.length installationName)
             (strippedTarget remapping);
     targetNpmPackage := Some (installationName, inst_package dependency) |}.

Definition remappingError (type : UserRemappingErrorType)
    (sourceOfTheRemapping remappingString : string) : UserRemappingError :=
  {| ure_type := type; ure_remapping := remappingString;
     ure_source := sourceOfTheRemapping |}.

(** The ways [#validateAndResolveUserRemapping] returns. *)
Inductive validate_case (npmPackage : ResolvedNpmPackage)
    (src line : string) (m : RemappedNpmPackagesMap)
    : option UserRemappingError -> RemappedNpmPackagesMap -> Prop :=
| vc_syntax :
    parseRemappingString lib line = None ->
    validate_case npmPackage src line m
      (Some (remappingError REMAPPING_WITH_INVALID_SYNTAX src line)) m
| vc_slashes r :
    parseRemappingString lib line = Some r ->
    lacksSlashEndings r = true ->
    validate_case npmPackage src line m
      (Some (remappingError ILLEGAL_REMAPPING_WIHTOUT_SLASH_ENDINGS src line)) m
| vc_local r :
    parseRemappingString lib line = Some r ->
    lacksSlashEndings r = false ->
    Js.startsWith (r_target r) "node_modules/" = false ->
    validate_case npmPackage src line m None
      (pushed npmPackage (localRemapping npmPackage src line r) m)
| vc_noop r :
    parseRemappingString lib line = Some r ->
    lacksSlashEndings r = false ->
    Js.startsWith (r_target r) "node_modules/" = true ->
    r_prefix r = strippedTarget r ->
    validate_case npmPackage src line m None m
| vc_npm_syntax r :
    parseRemappingString lib line = Some r ->
    lacksSlashEndings r = false ->
    Js.startsWith (r_target r) "node_modules/" = true ->
    r_prefix r <> strippedTarget r ->
    getNpmPackageName (strippedTarget r) = None ->
    validate_case npmPackage src line m
      (Some (remappingError REMAPPING_WITH_INVALID_SYNTAX src line)) m
| vc_uninstalled r installationName m1 :
    parseRemappingString lib line = Some r ->
    lacksSlashEndings r = false ->
    Js.startsWith (r_target r) "node_modules/" = true ->
    r_prefix r <> strippedTarget r ->
    getNpmPackageName (strippedTarget r) = Some installationName ->
    priv_resolveDependencyByInstallationName fs npmPackage installationName m
      = Returns (None, m1) ->
    validate_case npmPackage src line m
      (Some (remappingError REMAPPING_TO_UNINSTALLED_PACKAGE src line)) m1
| vc_npm r installationName dependency m1 :
    parseRemappingString lib line = Some r ->
    lacksSlashEndings r = false ->
    Js.startsWith (r_target r) "node_modules/" = true ->
    r_prefix r <> strippedTarget r ->
    getNpmPackageName (strippedTarget r) = Some installationName ->
    priv_resolveDependencyByInstallationName fs npmPackage installationName m
      = Returns (Some dependency, m1) ->
    validate_case npmPackage src line m None
      (pushed npmPackage
         (npmRemapping npmPackage src line r installationName dependency) m1).

End MapCases.

(** The packages a map holds: the project, the values of
    [#packageByRootSourceName], the queue, the targets of the installations
    and the targets of the user remappings. *)
Inductive held (m : RemappedNpmPackagesMap) : ResolvedNpmPackage -> Prop :=
| held_project : held m (hardhatProjectPackage m)
| held_by_name k P :
    packageByRootSourceName m !! k = Some P -> held m P
| held_queue P :
    In P (remappingsToResolve m) -> held m P
| held_installed a deps n e :
    installationMap m !! a = Some deps -> deps !! n = Some e ->
    held m (inst_package e)
| held_target a l r n P :
    userRemappingsPerPackage m !! a = Some l -> In r l ->
    targetNpmPackage r = Some (n, P) -> held m P.

Record map_wf (m : RemappedNpmPackagesMap) : Prop := {
  wf_interned : forall P,
    held m P -> packageByRootSourceName m !! rootSourceName P = Some P;
  wf_installation_refs : forall a deps,
    installationMap m !! a = Some deps -> a < nextRef m;
  wf_remappings_refs : forall a l,
    userRemappingsPerPackage m !! a = Some l -> a < nextRef m;
  wf_queue_refs : forall P,
    In P (remappingsToResolve m) -> pkg_ref P < nextRef m;
  wf_queue_distinct :
    List.NoDup (List.map pkg_ref (remappingsToResolve m));
}.

(** How a state [m'] extends a state [m] while the remappings of the
    package [p] are validated. *)
Record map_ext (p : ResolvedNpmPackage) (m m' : RemappedNpmPackagesMap)
    : Prop := {
  ext_nextRef : nextRef m <= nextRef m';
  ext_project : hardhatProjectPackage m' = hardhatProjectPackage m;
  ext_installations : forall a deps n e,
    installationMap m !! a = Some deps -> deps !! n = Some e ->
    exists deps', installationMap m' !! a = Some deps' /\ deps' !! n = Some e;
  ext_by_name : forall k P,
    packageByRootSourceName m !! k = Some P ->
    packageByRootSourceName m' !! k = Some P;
  ext_by_name_new : forall k P,
    packageByRootSourceName m' !! k = Some P ->
    packageByRootSourceName m !! k = Some P \/
    (In P (remappingsToResolve m') /\ nextRef m <= pkg_ref P);
  ext_queue : exists news,
    remappingsToResolve m' = remappingsToResolve m ++ news /\
    forall P, In P news -> nextRef m <= pkg_ref P;
  ext_remappings : forall a,
    a <> pkg_ref p ->
    userRemappingsPerPackage m' !! a = userRemappingsPerPackage m !! a;
  ext_remappings_own : forall l,
    userRemappingsPerPackage m !! pkg_ref p = Some l ->
    exists l', userRemappingsPerPackage m' !! pkg_ref p = Some (l ++ l');
}.

(** What [this.#userRemappingsPerPackage.set(npmPackage, [])] and
    [this.#remappingsToResolve.shift()] do to the state. *)
Definition reset (p : ResolvedNpmPackage) (m : RemappedNpmPackagesMap) :=
  with_userRemappingsPerPackage (fun u => <[pkg_ref p := []]> u) m.

Definition shifted (m : RemappedNpmPackagesMap) :=
  with_remappingsToResolve (fun q => List.tl q) m.

(** How the state after the loop extends the state before it. *)
Record loop_ext (m m' : RemappedNpmPackagesMap) : Prop := {
  lext_nextRef : nextRef m <= nextRef m';
  lext_project : hardhatProjectPackage m' = hardhatProjectPackage m;
  lext_installations : forall a deps n e,
    installationMap m !! a = Some deps -> deps !! n = Some e ->
    exists deps', installationMap m' !! a = Some deps' /\ deps' !! n = Some e;
  lext_by_name : forall k P,
    packageByRootSourceName m !! k = Some P ->
    packageByRootSourceName m' !! k = Some P;
  lext_remappings : forall a,
    a < nextRef m ->
    (forall P, In P (remappingsToResolve m) -> pkg_ref P <> a) ->
    userRemappingsPerPackage m' !! a = userRemappingsPerPackage m !! a;
}.

Module Scenario.

Definition packageJson (name version : string) : Disk.FileData :=
  Disk.JsonFile {| pj_name := name; pj_version := version; pj_exports := None |}.

Definition projectJson : string * Disk.FileData :=
  ("/p/package.json", packageJson "top-level-remappings" "1.2.4").

(** A [remappings.txt] at the root of the project, with a blank line and
    leading white space. *)
Definition topLevel : Disk.t :=
  [projectJson;
   ("/p/remappings.txt",
    Disk.lines ["foo/=bar/"; ""; " context/:prefix/=target/"; ""])].

(** A lone nested [remappings.txt] whose target lacks its slash. *)
Definition nestedError : Disk.t :=
  [projectJson;
   ("/p/lib/submodule/remappings.txt", Disk.lines ["foo/=bar"; ""])].

(** Three [remappings.txt]: the root and two libraries. *)
Definition threeFiles : Disk.t :=
  [projectJson;
   ("/p/remappings.txt", Disk.lines ["foo/=bar/"]);
   ("/p/lib/submodule/remappings.txt", Disk.lines ["context/:prefix/=target/"]);
   ("/p/lib/submodule2/remappings.txt", Disk.lines ["context/:prefix/=target/"])].

(** Two [remappings.txt]: the root and a directory that sorts after the
    file name [remappings.txt]. *)
Definition rootAndSrc : Disk.t :=
  [projectJson;
   ("/p/remappings.txt", Disk.lines ["foo/=bar/"]);
   ("/p/src/remappings.txt", Disk.lines ["context/:prefix/=target/"])].

(** One dependency, the target of three remappings. *)
Definition sharedDependency : Disk.t :=
  [projectJson;
   ("/p/remappings.txt",
    Disk.lines ["dep1/=node_modules/dep1/src/"; "";
                "dep1bis/=node_modules/dep1/src/"]);
   ("/p/lib/submodule/remappings.txt",
    Disk.lines ["dep1/=node_modules/dep1/src2/"]);
   ("/p/node_modules/dep1/package.json", packageJson "dep1" "1.2.0");
   ("/p/node_modules/dep1/src/A.sol", Disk.TextFile "contract A {}")].

(** A remapping into [node_modules] whose target is not a module name and
    equals its prefix. *)
Definition upperCase : Disk.t :=
  [projectJson;
   ("/p/remappings.txt", Disk.lines ["Foo/=node_modules/Foo/"])].

(** A remapping into [node_modules] whose target is a scope without a
    name. *)
Definition onlyScope : Disk.t :=
  [projectJson;
   ("/p/remappings.txt", Disk.lines ["foo/=node_modules/@only-scope/"])].

(** A project with sources, a local remapping, a remapping whose target
    starts with [npm/], and a dependency. *)
Definition sources : Disk.t :=
  [projectJson;
   ("/p/remappings.txt", Disk.lines ["foo/=bar/"; "ext/=npm/ext/"]);
   ("/p/contracts/A.sol", Disk.TextFile "contract A {}");
   ("/p/contracts/B.sol", Disk.TextFile "contract B {}");
   ("/p/bar/X.sol", Disk.TextFile "contract X {}");
   ("/p/project/bar/X.sol", Disk.TextFile "contract X2 {}");
   ("/p/npm/ext/E.sol", Disk.TextFile "contract E {}");
   ("/p/node_modules/dep1/package.json", packageJson "dep1" "1.2.0");
   ("/p/node_modules/dep1/src/A.sol", Disk.TextFile "contract A {}")].

(** A lone nested [remappings.txt] with a comment, white space around a
    line, a context, and a target that starts with [npm/]. *)
Definition nestedLocal : Disk.t :=
  [projectJson;
   ("/p/lib/submodule/remappings.txt",
    Disk.lines ["# the remappings of the submodule";
                "  foo/=bar/  ";
                "ctx/:lib/=npm/lib/"])].

(** The helpers of the specification, with a [sourceNamePathJoin] that
    resolves the [.] and [..] segments of the joined path, as [path.join]
    does. *)
Definition normalizingLib : Lib :=
  {| parseRemappingString := Spec.parseRemappingString;
     selectBestRemapping := Spec.selectBestRemapping;
     applyValidRemapping := Spec.applyValidRemapping;
     sourceNamePathJoin := Path.join;
     fsPathToSourceNamePath := Spec.fsPathToSourceNamePath;
     sourceNamePathToFsPath := Spec.sourceNamePathToFsPath |}.

Definition fuel : nat := 10.

End Scenario.

(** The maps reached from [create] through the public method that mutates
    the map, each call returning. *)
Inductive map_reachable (lib : Lib) (fs : Fs) : RemappedNpmPackagesMap -> Prop :=
| mr_create fuel projectRootPath errors m :
    createMap lib fs fuel projectRootPath = Returns (errors, m) ->
    map_reachable lib fs m
| mr_resolve fuel from installationName m res m' :
    map_reachable lib fs m ->
    resolveDependencyByInstallationName lib fs fuel from installationName m
      = Returns (res, m') ->
    map_reachable lib fs m'.

Section LoopTerms.

(** [D m errors P]: the package [P] has been dealt with, in the state [m]
    and with the errors collected so far. *)
Context (D : RemappedNpmPackagesMap -> list UserRemappingError ->
             ResolvedNpmPackage -> Prop).

(** Every package known by name is in the queue or has been dealt with. *)
Definition queued_or_done (m : RemappedNpmPackagesMap)
    (errors : list UserRemappingError) : Prop :=
  forall k P, packageByRootSourceName m !! k = Some P ->
    In P (remappingsToResolve m) \/
    (~ In (pkg_ref P) (List.map pkg_ref (remappingsToResolve m)) /\
     pkg_ref P < nextRef m /\ D m errors P).

End LoopTerms.

Section ReportedTerms.

Context (lib : Lib) (fs : Fs).

(** The line always yields the error [e], whatever the state. *)
Definition always_reported (p : ResolvedNpmPackage) (src line : string)
    (e : UserRemappingError) : Prop :=
  forall m o m',
    validateAndResolveUserRemapping lib fs p src line m = Returns (o, m') ->
    o = Some e.

(** The lines of the [remappings.txt] files of a package. *)
Definition remappingLine (P : ResolvedNpmPackage) (file line : string) : Prop :=
  In file (remappingsTxtFiles fs P) /\
  exists contents,
    readUtf8File fs file = Some contents /\
    In line (rawUserRemappings contents).

Definition reported (P : ResolvedNpmPackage)
    (errors : list UserRemappingError) : Prop :=
  forall file line e,
    remappingLine P file line -> always_reported P file line e -> In e errors.

End ReportedTerms.

(** The condition of the slash-ending check, as the three cases of the
    source. *)
Definition missingSlash (r : Remapping) : Prop :=
  (r_context r <> "" /\ Js.endsWith (r_context r) "/" = false) \/
  Js.endsWith (r_prefix r) "/" = false \/
  Js.endsWith (r_target r) "/" = false.

Section OrderTerms.

Context (lib : Lib) (fs : Fs).

(** Where a user remapping comes from: its file and its line. *)
Definition origin (r : ResolvedUserRemapping) : string * string :=
  (source r, originalFormat r).

(** The lines of a file, each with the path of the file. *)
Definition linesOf (file : string) : list (string * string) :=
  match readUtf8File fs file with
  | Some contents => List.map (pair file) (rawUserRemappings contents)
  | None => []
  end.

(** The lines of the [remappings.txt] files of a package: file by file in
    the order of discovery, line by line. *)
Definition allLines (P : ResolvedNpmPackage) : list (string * string) :=
  List.flat_map linesOf (remappingsTxtFiles fs P).

(** The remappings of a package, once the loop has dealt with it, follow
    the lines of its files. *)
Definition ordered (m : RemappedNpmPackagesMap) (P : ResolvedNpmPackage) : Prop :=
  exists l, userRemappingsPerPackage m !! pkg_ref P = Some l /\
            sublist (List.map origin l) (allLines P).

End OrderTerms.

(** The resolver of the project with sources, after its file
    [contracts/A.sol] has been resolved, with that file; and the file the
    import [ext/E.sol] resolves to through the remapping whose target
    starts with [npm/]. *)
Definition sourcesResolved (r0 r1 r2 : NewResolverImplementation)
    (fileA fileE : ResolvedFile) : Prop :=
  createResolver Spec.lib (Disk.fs Scenario.sources) Scenario.fuel "/p"
    = Returns (Success r0) /\
  resolveProjectFile Spec.lib (Disk.fs Scenario.sources) "/p/contracts/A.sol" r0
    = Returns (Success fileA, r1) /\
  (exists remapping,
     resolveImport Spec.lib (Disk.fs Scenario.sources) Scenario.fuel fileA
       "ext/E.sol" r1
     = Returns (Success {| ri_file := fileE; ri_remapping := remapping |}, r2)).

Section DirectLocalTerms.

Context (lib : Lib) (fs : Fs).

(** The [k]-th directory above [dir]. *)
Fixpoint ancestor (k : nat) (dir : string) : string :=
  match k with
  | 0 => dir
  | S k' => ancestor k' (Path.dirname dir)
  end.

(** The two failures of the resolution through npm after which the
    fallback runs. *)
Definition runsFallback (e : ImportResolutionError) : bool :=
  match e with
  | IMPORT_OF_UNINSTALLED_PACKAGE _ _ _
  | IMPORT_WITH_INVALID_NPM_SYNTAX _ _ => true
  | _ => false
  end.

End DirectLocalTerms.

(** The two failures of the resolution through npm after which the
    fallback runs. *)
Definition uninstalledOrInvalid (e : ImportResolutionError) : Prop :=
  ImportResolutionError_type e = "IMPORT_OF_UNINSTALLED_PACKAGE" \/
  ImportResolutionError_type e = "IMPORT_WITH_INVALID_NPM_SYNTAX".

Section ProjectFileTerms.

Context (lib : Lib) (fs : Fs).

(** The source name [resolveProjectFile] builds from a path relative to
    the project root. *)
Definition projectSourceNameOf (r : NewResolverImplementation)
    (relativePath : string) : string :=
  sourceNamePathJoin lib
    [rootSourceName (hardhatProjectPackage (npmPackageMap r));
     fsPathToSourceNamePath lib relativePath].

(** The test [resolveProjectFile] makes on a source name to reject the
    files of [node_modules]. *)
Definition inNodeModules (r : NewResolverImplementation)
    (sourceName : string) : bool :=
  Js.startsWith sourceName
    (sourceNamePathJoin lib
       [rootSourceName (hardhatProjectPackage (npmPackageMap r));
        "node_modules/"]).

End ProjectFileTerms.

(** The resolvers reached from [NewResolverImplementation.create] through
    the public methods, each call returning. *)
Inductive reachable (lib : Lib) (fs : Fs) : NewResolverImplementation -> Prop :=
| reach_create fuel projectRoot r :
    createResolver lib fs fuel projectRoot = Returns (Success r) ->
    reachable lib fs r
| reach_resolveProjectFile absoluteFilePath r res r' :
    reachable lib fs r ->
    resolveProjectFile lib fs absoluteFilePath r = Returns (res, r') ->
    reachable lib fs r'
| reach_resolveImport fuel from importPath r res r' :
    reachable lib fs r ->
    resolveImport lib fs fuel from importPath r = Returns (res, r') ->
    reachable lib fs r'.

(** The invariant of the resolver: the invariant of its map, an empty
    queue, and every file interned under its own source name. *)
Record resolver_wf (r : NewResolverImplementation) : Prop := {
  rwf_map : map_wf (npmPackageMap r);
  rwf_queue : remappingsToResolve (npmPackageMap r) = [];
  rwf_interned : forall k f,
    resolvedFileBySourceName r !! k = Some f -> sourceName f = k;
}.

(** The file [f] is interned under [sn] in [r'], which is [r] or [r] with
    that one more file. *)
Record interns (r r' : NewResolverImplementation) (sn : string)
    (f : ResolvedFile) : Prop := {
  in_map : npmPackageMap r' = npmPackageMap r;
  in_lookup : resolvedFileBySourceName r' !! sn = Some f;
  in_table :
    r' = r \/
    (sourceName f = sn /\
     resolvedFileBySourceName r' = <[sn := f]> (resolvedFileBySourceName r));
}.

Section NpmImportTerms.

Context (lib : Lib) (fs : Fs).

(** [#resolveImportThroughNpm] once the dependency is resolved without
    remapping errors. *)
Definition npmImportInto (fromNpmPackage : ResolvedNpmPackage)
    (from : ResolvedFile) (importPath directImport : string)
    (parsedDirectImport : ParsedNpmDirectImport)
    (dependencyResolution : DependencyResolution)
    : M NewResolverImplementation ImportResult :=
  r <- get ;;
  let dependency := dr_package dependencyResolution in
  let subpath := parsed_subpath parsedDirectImport in
  exportsResolution <- resolvedSubpathOf fs dependency subpath ;;
  match exportsResolution with
  | None =>
      ret (Failure (IMPORT_OF_NON_EXPORTED_NPM_FILE (fsPath from)
                      importPath
                      (buildResolvedFileReference r dependency
                         subpath None None)))
  | Some resolvedSubpath =>
      let relativePath :=
        match resolvedSubpath with
        | Some s => s
        | None => subpath
        end in
      let sourceName :=
        sourceNamePathJoin lib
          [rootSourceName dependency; relativePath] in
      let remapping :=
        if match resolvedSubpath with
           | Some s => negb (String.eqb s subpath)
           | None => false
           end
           || String.eqb directImport "hardhat/console.sol"
        then generateRemappingIntoNpmFile fromNpmPackage
               directImport sourceName
        else dr_generatedRemapping dependencyResolution in
      match resolvedFileBySourceName r !! sourceName with
      | Some existing =>
          ret (Success
                 {| ri_file := existing;
                    ri_remapping :=
                      Some (GeneratedRemapping remapping) |})
      | None =>
          validateAndBuild fs from importPath sourceName relativePath
            dependency
            (buildResolvedFileReference r dependency subpath None
               resolvedSubpath)
            (GeneratedRemapping remapping)
      end
  end.

End NpmImportTerms.

(** ** Vocabulary of the rule of the local remappings *)

(** The line [line] is the raw line [raw], trimmed: [raw] is [line]
    between two runs of white space, and [line] neither starts nor ends
    with white space. *)
Definition trimmedFrom (raw line : string) : Prop :=
  (exists before after,
     raw = before +:+ line +:+ after /\
     Js.forallb Js.isWhiteSpace before = true /\
     Js.forallb Js.isWhiteSpace after = true) /\
  (forall c rest, line = String c rest -> Js.isWhiteSpace c = false) /\
  (forall front c,
     line = front +:+ String c EmptyString -> Js.isWhiteSpace c = false).

(** The subdirectory of a file in a package: the directory of the file,
    relative to the root of the package. *)
Definition subdirectoryOf (P : ResolvedNpmPackage) (file : string) : string :=
  Path.relative (rootFsPath P) (Path.dirname file).

(** A fragment of a remapping of the file [file] of the package [P], with
    the root source name of the package and the subdirectory of the file
    prepended, each followed by one slash; a fragment that starts with
    [npm/] stays as it is. *)
Definition prepended (lib : Lib) (P : ResolvedNpmPackage)
    (file fragment : string) : string :=
  if Js.startsWith fragment "npm/" then fragment
  else
    sourceNamePathJoin lib
      [rootSourceName P +:+ "/";
       if Js.endsWith (subdirectoryOf P file) "/"
       then subdirectoryOf P file
       else subdirectoryOf P file +:+ "/";
       fragment].

(** A line that is a local remapping: it parses into [r], which has its
    slash endings and a target that is not in [node_modules]. *)
Definition localLine (lib : Lib) (line : string) (r : Remapping) : Prop :=
  parseRemappingString lib line = Some r /\
  lacksSlashEndings r = false /\
  Js.startsWith (r_target r) "node_modules/" = false.

(** The list of the package [P] holds the remapping of each of its lines
    that is a local remapping. *)
Definition localLinesResolved (lib : Lib) (fs : Fs)
    (m : RemappedNpmPackagesMap) (P : ResolvedNpmPackage) : Prop :=
  exists l,
    userRemappingsPerPackage m !! pkg_ref P = Some l /\
    forall file line r,
      remappingLine fs P file line -> localLine lib line r ->
      In (localRemapping lib P file line r) l.

(** A direct import lies under a root source name: as a path, with its [.]
    and [..] segments resolved, it is that name or starts with that name
    and a slash. *)
Definition liesUnder (rootSourceName directImport : string) : bool :=
  let path := Path.normalize directImport in
  String.eqb path rootSourceName ||
  Js.startsWith path (rootSourceName +:+ "/").

(** ** Vocabulary of the further properties *)

(** The names of [directImportPattern] without a scope: one start
    character, then name characters. *)
Definition isNpmUnscopedName (s : string) : bool :=
  match s with
  | String c s' => isNpmNameStartChar c && Js.forallb isNpmNameChar s'
  | EmptyString => false
  end.

(** The scopes of [directImportPattern], without the at sign and the
    slash: one or more name characters. *)
Definition isNpmScope (s : string) : bool :=
  match s with
  | String _ _ => Js.forallb isNpmNameChar s
  | EmptyString => false
  end.

(** What the dot of a pattern matches, all along a string. *)
Definition freeOfLineTerminators (s : string) : bool :=
  Js.forallb (fun x => negb (Js.isLineTerminator x)) s.

(** The directory a remapping location stands for in
    [isUserRemappingTargetLocal]. *)
Definition remappingDirectory (c : ImportsClassifier)
    (remappingLocation : string) : string :=
  if String.eqb remappingLocation "HardhatConfig"
  then ic_projectRoot c
  else Path.dirname remappingLocation.

(** Every result the classifier has cached is what the file system [fs]
    answers. *)
Definition cache_agrees (fs : Fs) (c : ImportsClassifier) : Prop :=
  forall from results directory b,
    cachedResults c !! from = Some results ->
    results !! directory = Some b ->
    b = exists_ fs (Path.join [from; directory]).

(** The installations of [m] are still those of [m']. *)
Definition installations_kept (m m' : RemappedNpmPackagesMap) : Prop :=
  forall a deps n e,
    installationMap m !! a = Some deps -> deps !! n = Some e ->
    exists deps', installationMap m' !! a = Some deps' /\ deps' !! n = Some e.

(** What a user remapping [u] of the package [P] is, in the map [m]: its
    line parses into a remapping [r] with its slash endings, whose prefix
    it keeps; a remapping without a package is the local remapping of a
    line whose target is not in [node_modules]; a remapping with a package
    [Q] under the name [n] is that of a line whose target is in
    [node_modules], starts with the module name [n], and is rewritten from
    the root source name of [Q], the package [m] holds as the installation
    [n] of [P]. *)
Definition resolvedFrom (lib : Lib) (m : RemappedNpmPackagesMap)
    (P : ResolvedNpmPackage) (u : ResolvedUserRemapping) : Prop :=
  exists r,
    parseRemappingString lib (originalFormat u) = Some r /\
    lacksSlashEndings r = false /\
    ur_prefix u = r_prefix r /\
    match targetNpmPackage u with
    | None =>
        Js.startsWith (r_target r) "node_modules/" = false /\
        u = localRemapping lib P (source u) (originalFormat u) r
    | Some (n, Q) =>
        Js.startsWith (r_target r) "node_modules/" = true /\
        r_prefix r <> strippedTarget r /\
        getNpmPackageName (strippedTarget r) = Some n /\
        ur_target u
          = rootSourceName Q
            +:+ Js.substringFrom (String.length n) (strippedTarget r) /\
        exists deps e,
          installationMap m !! pkg_ref P = Some deps /\
          deps !! n = Some e /\ inst_package e = Q
    end.

(** Why [#validateAndResolveUserRemapping] rejects a line of the package
    [P] with an error of a given type. *)
Definition rejected (lib : Lib) (fs : Fs) (P : ResolvedNpmPackage)
    (line : string) (type : UserRemappingErrorType) : Prop :=
  match type with
  | REMAPPING_WITH_INVALID_SYNTAX =>
      parseRemappingString lib line = None \/
      exists r,
        parseRemappingString lib line = Some r /\
        lacksSlashEndings r = false /\
        Js.startsWith (r_target r) "node_modules/" = true /\
        r_prefix r <> strippedTarget r /\
        getNpmPackageName (strippedTarget r) = None
  | ILLEGAL_REMAPPING_WIHTOUT_SLASH_ENDINGS =>
      exists r,
        parseRemappingString lib line = Some r /\ lacksSlashEndings r = true
  | REMAPPING_TO_UNINSTALLED_PACKAGE =>
      exists r n,
        parseRemappingString lib line = Some r /\
        lacksSlashEndings r = false /\
        Js.startsWith (r_target r) "node_modules/" = true /\
        r_prefix r <> strippedTarget r /\
        getNpmPackageName (strippedTarget r) = Some n /\
        findDependencyPackageJson fs (rootFsPath P) n = None
  end.

(** The remapping [u] comes from a line of a [remappings.txt] of [P] and
    is what that line resolves to in [m]. *)
Definition remappingOf (lib : Lib) (fs : Fs) (m : RemappedNpmPackagesMap)
    (P : ResolvedNpmPackage) (u : ResolvedUserRemapping) : Prop :=
  remappingLine fs P (source u) (originalFormat u) /\ resolvedFrom lib m P u.

(** The error [e] comes from a line of a [remappings.txt] of [P] that is
    rejected with its type. *)
Definition errorOf (lib : Lib) (fs : Fs) (P : ResolvedNpmPackage)
    (e : UserRemappingError) : Prop :=
  remappingLine fs P (ure_source e) (ure_remapping e) /\
  rejected lib fs P (ure_remapping e) (ure_type e).

(** The remappings of the package [P] are resolved in [m]: its list is
    there, and holds what the lines of its files resolve to. *)
Definition remappingsResolved (lib : Lib) (fs : Fs)
    (m : RemappedNpmPackagesMap) (P : ResolvedNpmPackage) : Prop :=
  exists l, userRemappingsPerPackage m !! pkg_ref P = Some l /\
            Forall (remappingOf lib fs m P) l.

(** The remapping every installation of [m] carries is the generated one:
    the installation name and the root source name of the package, each
    with its slash, are its prefix and its target. *)
Definition installations_generated (m : RemappedNpmPackagesMap) : Prop :=
  forall a deps n e,
    installationMap m !! a = Some deps -> deps !! n = Some e ->
    r_prefix (generatedRemapping e) = n +:+ "/" /\
    r_target (generatedRemapping e) = rootSourceName (inst_package e) +:+ "/".

(** The packages [m] knows by name are known under their own root source
    name, which is that of the project or is made of their name and
    version. *)
Definition named_by_version (m : RemappedNpmPackagesMap) : Prop :=
  forall k P,
    packageByRootSourceName m !! k = Some P ->
    k = rootSourceName P /\
    (rootSourceName P = HARDHAT_PROJECT_ROOT_SOURCE_NAME \/
     rootSourceName P = npmPackageToRootSourceName (name P) (version P)).

(** What a resolution that returns does to the resolver, apart from its
    package map: nothing, or it interns one new file, under its source
    name, which had no file. *)
Inductive resolution_step (r r' : NewResolverImplementation)
    : option ResolvedFile -> Prop :=
| step_nothing :
    projectRoot r' = projectRoot r ->
    fakeRootFile r' = fakeRootFile r ->
    resolvedFileBySourceName r' = resolvedFileBySourceName r ->
    nextFileRef r' = nextFileRef r ->
    resolution_step r r' None
| step_interns f :
    projectRoot r' = projectRoot r ->
    fakeRootFile r' = fakeRootFile r ->
    resolvedFileBySourceName r !! sourceName f = None ->
    resolvedFileBySourceName r'
      = <[sourceName f := f]> (resolvedFileBySourceName r) ->
    nextFileRef r' = S (nextFileRef r) ->
    resolution_step r r' (Some f).

(** The files interned in [r] are interned in [r'], as the same objects. *)
Definition interned_kept (r r' : NewResolverImplementation) : Prop :=
  forall k f,
    resolvedFileBySourceName r !! k = Some f ->
    resolvedFileBySourceName r' !! k = Some f.

(** The fields [fromFsPath] and [importPath], which every import error
    has. *)
Definition error_fromFsPath (e : ImportResolutionError) : string :=
  match e with
  | IMPORT_WITH_WINDOWS_PATH_SEPARATORS fromFsPath _
  | ILLEGAL_RELATIVE_IMPORT fromFsPath _
  | IMPORT_DOESNT_EXIST fromFsPath _ _
  | IMPORT_INVALID_CASING fromFsPath _ _ _
  | IMPORT_WITH_INVALID_NPM_SYNTAX fromFsPath _
  | IMPORT_OF_UNINSTALLED_PACKAGE fromFsPath _ _
  | IMPORT_OF_NPM_PACKAGE_WITH_REMAPPING_ERRORS fromFsPath _ _ _
  | IMPORT_OF_NON_EXPORTED_NPM_FILE fromFsPath _ _ => fromFsPath
  end.

Definition error_importPath (e : ImportResolutionError) : string :=
  match e with
  | IMPORT_WITH_WINDOWS_PATH_SEPARATORS _ importPath
  | ILLEGAL_RELATIVE_IMPORT _ importPath
  | IMPORT_DOESNT_EXIST _ importPath _
  | IMPORT_INVALID_CASING _ importPath _ _
  | IMPORT_WITH_INVALID_NPM_SYNTAX _ importPath
  | IMPORT_OF_UNINSTALLED_PACKAGE _ importPath _
  | IMPORT_OF_NPM_PACKAGE_WITH_REMAPPING_ERRORS _ importPath _ _
  | IMPORT_OF_NON_EXPORTED_NPM_FILE _ importPath _ => importPath
  end.

(** What an import error of each type says of the import, for the types
    decided before any file is looked at. *)
Definition importRejected (lib : Lib) (fs : Fs) (r : NewResolverImplementation)
    (from : ResolvedFile) (importPath : string) (e : ImportResolutionError)
    : Prop :=
  match e with
  | IMPORT_WITH_WINDOWS_PATH_SEPARATORS _ _ =>
      Js.includes importPath (String Js.backslash EmptyString) = true
  | ILLEGAL_RELATIVE_IMPORT _ _ =>
      isRelativeImport importPath = true /\
      Js.startsWith (directImportOf lib from importPath)
        (rootSourceName (package from)) = false
  | IMPORT_WITH_INVALID_NPM_SYNTAX _ _ =>
      isRelativeImport importPath = false /\
      parseNpmDirectImport importPath = None
  | IMPORT_OF_UNINSTALLED_PACKAGE _ _ installationName =>
      isRelativeImport importPath = false /\
      getNpmPackageName importPath = Some installationName /\
      findDependencyPackageJson fs (rootFsPath (fromNpmPackageOf r from))
        installationName = None
  | IMPORT_OF_NPM_PACKAGE_WITH_REMAPPING_ERRORS _ _ _ remappingErrors =>
      isRelativeImport importPath = false /\ remappingErrors <> []
  | IMPORT_DOESNT_EXIST _ _ _
  | IMPORT_INVALID_CASING _ _ _ _
  | IMPORT_OF_NON_EXPORTED_NPM_FILE _ _ _ =>
      isRelativeImport importPath = false
  end.

(** * Properties *)

Ltac monad_red H :=
  cbv [bind ret get modify throw assertDefined await] in H.

Ltac monad_red_goal :=
  cbv [bind ret get modify throw assertDefined await].

(** ** Inversion of the methods of the package map *)

Section MapInversion.

Context (lib : Lib) (fs : Fs).

Local Abbreviation localRemapping := (localRemapping lib).
Local Abbreviation npmRemapping := (npmRemapping lib).
Local Abbreviation validate_case := (validate_case lib fs).

Lemma priv_resolve_inv from installationName m res m' :
  priv_resolveDependencyByInstallationName fs from installationName m
    = Returns (res, m') ->
  priv_resolve_case from installationName m res m'.
Proof.
  unfold priv_resolveDependencyByInstallationName. intros H.
  monad_red H.
  destruct (installationMap m !! pkg_ref from) as [deps|] eqn:Hdeps;
    [|discriminate].
  destruct (deps !! installationName) as [e|] eqn:He.
  { simplify_eq. by eapply prc_known. }
  destruct (findDependencyPackageJson fs (rootFsPath from) installationName)
    as [path|] eqn:Hfind.
  2:{ simplify_eq. by eapply prc_uninstalled. }
  destruct (readJsonFile fs path) as [json|] eqn:Hjson; [|discriminate].
  match type of H with
  | context [packageByRootSourceName m !! ?k] =>
      destruct (packageByRootSourceName m !! k) as [existing|] eqn:Hex
  end.
  - simplify_eq. by eapply prc_existing.
  - simplify_eq.
    match goal with
    | |- priv_resolve_case _ _ _ (Some {| inst_package := ?p |}) _ =>
        apply (prc_new from installationName m deps p)
    end; auto.
Qed.

Lemma validate_inv npmPackage src line m err m' :
  validateAndResolveUserRemapping lib fs npmPackage src line m
    = Returns (err, m') ->
  is_Some (installationMap m !! pkg_ref npmPackage) /\
  is_Some (userRemappingsPerPackage m !! pkg_ref npmPackage) /\
  validate_case npmPackage src line m err m'.
Proof.
  unfold validateAndResolveUserRemapping. intros H.
  monad_red H.
  destruct (installationMap m !! pkg_ref npmPackage) as [deps|] eqn:Hdeps;
    [|discriminate].
  destruct (userRemappingsPerPackage m !! pkg_ref npmPackage) as [l|] eqn:Hl;
    [|discriminate].
  split; [eauto|]. split; [eauto|].
  destruct (parseRemappingString lib line) as [r|] eqn:Hparse.
  2:{ simplify_eq. by apply vc_syntax. }
  destruct (lacksSlashEndings r) eqn:Hslash.
  { simplify_eq. by eapply vc_slashes. }
  destruct (Js.startsWith (r_target r) "node_modules/") eqn:Hnm; cbn [negb] in H.
  2:{ cbv [pushUserRemapping modify] in H. simplify_eq. by eapply vc_local. }
  fold (strippedTarget r) in H.
  destruct (String.eqb (r_prefix r) (strippedTarget r)) eqn:Heq.
  { apply String.eqb_eq in Heq. simplify_eq. by eapply vc_noop. }
  apply String.eqb_neq in Heq.
  destruct (getNpmPackageName (strippedTarget r)) as [installationName|] eqn:Hname.
  2:{ simplify_eq. by eapply vc_npm_syntax. }
  monad_red H.
  destruct (priv_resolveDependencyByInstallationName fs npmPackage
              installationName m) as [[[dep|] m1]| |] eqn:Hpriv;
    try discriminate.
  - cbv [pushUserRemapping modify] in H. simplify_eq. by eapply vc_npm.
  - simplify_eq. by eapply vc_uninstalled.
Qed.

End MapInversion.

(** ** The invariants of the package map *)

Ltac unfold_map :=
  unfold installed, pushed, insertNewPackage, with_installationMap,
    with_packageByRootSourceName, with_userRemappingsPerPackage,
    with_remappingsToResolve, with_nextRef in *;
  cbn [installationMap packageByRootSourceName userRemappingsPerPackage
       remappingsToResolve nextRef hardhatProjectPackage] in *.

Lemma map_ext_refl p m : map_ext p m m.
Proof.
  split; eauto.
  - exists []. rewrite app_nil_r. split; [done|]. intros ? [].
  - intros l Hl. exists []. by rewrite app_nil_r.
Qed.

Lemma map_ext_trans p m1 m2 m3 :
  map_ext p m1 m2 -> map_ext p m2 m3 -> map_ext p m1 m3.
Proof.
  intros [N1 P1 I1 B1 BN1 [n1 [Q1 F1]] U1 O1] [N2 P2 I2 B2 BN2 [n2 [Q2 F2]] U2 O2].
  split.
  - lia.
  - congruence.
  - intros a deps n e Ha Hn.
    destruct (I1 _ _ _ _ Ha Hn) as (deps' & Ha' & Hn'). eauto.
  - eauto.
  - intros k P HP. destruct (BN2 _ _ HP) as [HP2|[Hin Hge]].
    + destruct (BN1 _ _ HP2) as [?|[Hin Hge]]; [by left|].
      right. split; [|done]. rewrite Q2. apply in_or_app. by left.
    + right. split; [done|lia].
  - exists (n1 ++ n2). split.
    + by rewrite Q2, Q1, app_assoc.
    + intros P [HP|HP]%in_app_or; [by apply F1|].
      apply F2 in HP. lia.
  - intros a Ha. by rewrite U2, U1.
  - intros l Hl. destruct (O1 _ Hl) as [l1 Hl1].
    destruct (O2 _ Hl1) as [l2 Hl2]. exists (l1 ++ l2).
    by rewrite app_assoc.
Qed.

(** Recording an installation whose package the map holds. *)
Lemma installed_wf from n deps e m :
  map_wf m ->
  installationMap m !! pkg_ref from = Some deps ->
  held m (inst_package e) ->
  map_wf (installed from n deps e m).
Proof.
  intros [WI WR WU WQ WD] Hdeps He.
  assert (Hheld : forall P, held (installed from n deps e m) P -> held m P).
  { intros P HP. destruct HP as [|k P HP|P HP|a deps' n' e' Ha Hn|a l r n' P Ha Hr Ht].
    - exact (held_project m).
    - by eapply held_by_name.
    - by apply held_queue.
    - unfold_map. destruct (decide (a = pkg_ref from)) as [->|Hne].
      + rewrite lookup_insert_eq in Ha. simplify_eq.
        destruct (decide (n' = n)) as [->|Hn'].
        * rewrite lookup_insert_eq in Hn. by simplify_eq.
        * rewrite lookup_insert_ne in Hn by done. by eapply held_installed.
      + rewrite lookup_insert_ne in Ha by done. by eapply held_installed.
    - by eapply held_target. }
  split.
  - intros P HP. apply Hheld in HP. by apply WI.
  - intros a deps' Ha. unfold_map.
    destruct (decide (a = pkg_ref from)) as [->|Hne].
    + by eapply WR.
    + rewrite lookup_insert_ne in Ha by done. by eapply WR.
  - done.
  - done.
  - done.
Qed.

Lemma installed_ext p from n deps e m :
  installationMap m !! pkg_ref from = Some deps ->
  deps !! n = None ->
  map_ext p m (installed from n deps e m).
Proof.
  intros Hdeps Hn. split; unfold_map; eauto.
  - intros a deps' n' e' Ha Hn'.
    destruct (decide (a = pkg_ref from)) as [->|Hne].
    + simplify_eq. exists (<[n:=e]> deps). rewrite lookup_insert_eq.
      split; [done|]. rewrite lookup_insert_ne; [done|]. congruence.
    + exists deps'. by rewrite lookup_insert_ne.
  - exists []. rewrite app_nil_r. split; [done|]. intros ? [].
  - intros l Hl. exists []. by rewrite app_nil_r.
Qed.

(** Inserting a new package, with the next reference and a root source
    name that is free. *)
Lemma insertNew_wf new m :
  map_wf m ->
  pkg_ref new = nextRef m ->
  packageByRootSourceName m !! rootSourceName new = None ->
  map_wf (insertNewPackage new (with_nextRef S m)).
Proof.
  intros [WI WR WU WQ WD] Href Hfree.
  assert (Hold : forall P, held m P ->
            packageByRootSourceName (insertNewPackage new (with_nextRef S m))
              !! rootSourceName P = Some P).
  { intros P HP. apply WI in HP. unfold_map.
    rewrite lookup_insert_ne; [done|]. congruence. }
  split.
  - intros P HP. destruct HP as [|k P HP|P HP|a deps' n' e' Ha Hn|a l r n' P Ha Hr Ht].
    + apply (Hold (hardhatProjectPackage m)), held_project.
    + unfold_map. destruct (decide (k = rootSourceName new)) as [->|Hne].
      * rewrite lookup_insert_eq in HP. simplify_eq. apply lookup_insert_eq.
      * rewrite lookup_insert_ne in HP by done.
        apply (Hold P). by eapply held_by_name.
    + unfold_map. apply in_app_or in HP as [HP|[<-|[]]].
      * apply (Hold P). by apply held_queue.
      * apply lookup_insert_eq.
    + unfold_map. destruct (decide (a = pkg_ref new)) as [->|Hne].
      * rewrite lookup_insert_eq in Ha. simplify_eq.
      * rewrite lookup_insert_ne in Ha by done.
        apply (Hold (inst_package e')). by eapply held_installed.
    + apply (Hold P). by eapply held_target.
  - intros a deps Ha. unfold_map.
    destruct (decide (a = pkg_ref new)) as [->|Hne]; [lia|].
    rewrite lookup_insert_ne in Ha by done. apply WR in Ha. lia.
  - intros a l Ha. unfold_map. apply WU in Ha. lia.
  - intros P HP. unfold_map. apply in_app_or in HP as [HP|[<-|[]]].
    + apply WQ in HP. lia.
    + lia.
  - unfold_map. rewrite List.map_app. cbn [List.map].
    apply NoDup_ListNoDup, NoDup_app. split_and!.
    + by apply NoDup_ListNoDup.
    + intros a Ha Hnew. apply list_elem_of_In in Ha.
      apply List.in_map_iff in Ha as (P & <- & HP).
      apply WQ in HP. apply list_elem_of_In in Hnew as [Hnew|[]]. lia.
    + apply NoDup_singleton.
Qed.

Lemma insertNew_ext p new m :
  map_wf m ->
  pkg_ref new = nextRef m ->
  packageByRootSourceName m !! rootSourceName new = None ->
  map_ext p m (insertNewPackage new (with_nextRef S m)).
Proof.
  intros [WI WR WU WQ WD] Href Hfree. split; unfold_map.
  - lia.
  - done.
  - intros a deps n e Ha Hn. exists deps. split; [|done].
    rewrite lookup_insert_ne; [done|]. apply WR in Ha. lia.
  - intros k P HP. rewrite lookup_insert_ne; [done|]. congruence.
  - intros k P HP. destruct (decide (k = rootSourceName new)) as [->|Hne].
    + rewrite lookup_insert_eq in HP. simplify_eq. right. split; [|lia].
      apply in_or_app. right. by left.
    + rewrite lookup_insert_ne in HP by done. by left.
  - exists [new]. split; [done|]. intros P [<-|[]]. lia.
  - done.
  - intros l Hl. exists []. by rewrite app_nil_r.
Qed.

Lemma pushed_wf p r m :
  map_wf m ->
  (forall n P, targetNpmPackage r = Some (n, P) -> held m P) ->
  map_wf (pushed p r m).
Proof.
  intros [WI WR WU WQ WD] Hr.
  assert (Hheld : forall P, held (pushed p r m) P -> held m P).
  { intros P HP. destruct HP as [|k P HP|P HP|a deps' n' e' Ha Hn|a l r' n' P Ha Hr' Ht].
    - exact (held_project m).
    - by eapply held_by_name.
    - by apply held_queue.
    - by eapply held_installed.
    - unfold_map. rewrite lookup_alter in Ha.
      destruct (decide (pkg_ref p = a)) as [<-|Hne].
      + destruct (userRemappingsPerPackage m !! pkg_ref p) as [l0|] eqn:Hl0;
          simplify_eq/=.
        apply in_app_or in Hr' as [Hr'|[<-|[]]].
        * by eapply held_target.
        * by eapply Hr.
      + by eapply held_target. }
  split.
  - intros P HP. apply Hheld in HP. by apply WI.
  - done.
  - intros a l Ha. unfold_map. rewrite lookup_alter in Ha.
    destruct (decide (pkg_ref p = a)) as [<-|Hne].
    + destruct (userRemappingsPerPackage m !! pkg_ref p) as [l0|] eqn:Hl0;
        simplify_eq/=. by eapply WU.
    + by eapply WU.
  - done.
  - done.
Qed.

Lemma pushed_ext p r m : map_ext p m (pushed p r m).
Proof.
  split; unfold_map; eauto.
  - exists []. rewrite app_nil_r. split; [done|]. intros ? [].
  - intros a Ha. rewrite lookup_alter_ne; [done|]. congruence.
  - intros l Hl. exists [r]. by rewrite lookup_alter_eq, Hl.
Qed.

Section MapPreservation.

Context (lib : Lib) (fs : Fs).

(** [#resolveDependencyByInstallationName] keeps the invariant, extends
    the state, and records the installation it returns. *)
Lemma priv_resolve_wf p from n m res m' :
  map_wf m ->
  priv_resolveDependencyByInstallationName fs from n m = Returns (res, m') ->
  map_wf m' /\ map_ext p m m' /\
  forall e, res = Some e ->
    held m' (inst_package e) /\
    exists deps, installationMap m' !! pkg_ref from = Some deps /\
                 deps !! n = Some e.
Proof.
  intros Hwf H. apply priv_resolve_inv in H.
  destruct H as [deps e Hdeps He|deps Hdeps He|deps key existing Hdeps He Hex
                |deps new Hdeps He Href Hfree].
  - split; [done|]. split; [apply map_ext_refl|].
    intros e' ?; simplify_eq. split; [by eapply held_installed|eauto].
  - split; [done|]. split; [apply map_ext_refl|]. intros e' ?; simplify_eq.
  - set (e := installationOf from n existing).
    assert (Hh : held m (inst_package e)) by (by eapply held_by_name).
    split; [by apply installed_wf|]. split; [by apply installed_ext|].
    intros e' [= <-].
    assert (Hl : exists deps', installationMap (installed from n deps e m)
                   !! pkg_ref from = Some deps' /\ deps' !! n = Some e).
    { unfold_map. exists (<[n:=e]> deps). by rewrite !lookup_insert_eq. }
    split; [|done]. destruct Hl as (deps' & ? & ?). by eapply held_installed.
  - set (e := installationOf from n new).
    set (m1 := insertNewPackage new (with_nextRef S m)).
    pose proof (insertNew_wf new m Hwf Href Hfree) as Hwf1.
    pose proof (insertNew_ext p new m Hwf Href Hfree) as Hext1.
    fold m1 in Hwf1, Hext1.
    assert (Hdeps1 : installationMap m1 !! pkg_ref from = Some deps).
    { subst m1. unfold_map. rewrite lookup_insert_ne; [done|].
      apply (wf_installation_refs _ Hwf) in Hdeps. lia. }
    assert (Hh : held m1 (inst_package e)).
    { apply held_queue. subst m1. unfold_map. apply in_or_app. right. by left. }
    split; [by apply installed_wf|].
    split; [eapply map_ext_trans; [done|by apply installed_ext]|].
    intros e' [= <-].
    assert (Hl : exists deps', installationMap (installed from n deps e m1)
                   !! pkg_ref from = Some deps' /\ deps' !! n = Some e).
    { unfold installed, with_installationMap.
      cbn [installationMap]. exists (<[n:=e]> deps).
      by rewrite !lookup_insert_eq. }
    split; [|done]. destruct Hl as (deps' & ? & ?). by eapply held_installed.
Qed.

(** [#validateAndResolveUserRemapping] keeps the invariant and extends the
    state. *)
Lemma validate_wf p src line m err m' :
  map_wf m ->
  validateAndResolveUserRemapping lib fs p src line m = Returns (err, m') ->
  map_wf m' /\ map_ext p m m'.
Proof.
  intros Hwf H. apply validate_inv in H as (_ & _ & H).
  destruct H as [?|r ? ?|r ? ? ?|r ? ? ? ?|r ? ? ? ? ?
                |r n m1 ? ? ? ? ? Hpriv|r n dep m1 ? ? ? ? ? Hpriv];
    try (split; [done|apply map_ext_refl]).
  - split; [|apply pushed_ext]. apply pushed_wf; [done|]. by intros ? ? ?.
  - apply (priv_resolve_wf p) in Hpriv as (? & ? & _); done.
  - apply (priv_resolve_wf p) in Hpriv as (Hwf1 & Hext1 & Hres); [|done].
    destruct (Hres dep eq_refl) as [Hheld _].
    split.
    + apply pushed_wf; [done|]. intros ? ? [= <- <-]. done.
    + eapply map_ext_trans; [done|apply pushed_ext].
Qed.

End MapPreservation.

(** ** From one remapping to the files of a package *)

Section MapLifting.

Context (lib : Lib) (fs : Fs) (p : ResolvedNpmPackage).
Context (R : RemappedNpmPackagesMap -> RemappedNpmPackagesMap -> Prop).
Hypothesis R_refl : forall m, R m m.
Hypothesis R_trans : forall m1 m2 m3, R m1 m2 -> R m2 m3 -> R m1 m3.
Hypothesis R_validate : forall src line m err m',
  validateAndResolveUserRemapping lib fs p src line m = Returns (err, m') ->
  R m m'.

Lemma forEachCollect_lift src lines errors m errors' m' :
  forEachCollect (validateAndResolveUserRemapping lib fs p src) lines errors m
    = Returns (errors', m') ->
  R m m'.
Proof.
  revert errors m. induction lines as [|line lines IH]; intros errors m H.
  - cbn in H. monad_red H. by simplify_eq.
  - cbn [forEachCollect] in H. monad_red H.
    destruct (validateAndResolveUserRemapping lib fs p src line m)
      as [[err m1]| |] eqn:Hv; try discriminate.
    apply R_validate in Hv. apply IH in H. eauto.
Qed.

Lemma validateFiles_lift files errors m errors' m' :
  validateFiles lib fs p files errors m = Returns (errors', m') ->
  R m m'.
Proof.
  revert errors m. induction files as [|file files IH]; intros errors m H.
  - cbn in H. monad_red H. by simplify_eq.
  - cbn [validateFiles] in H. monad_red H.
    destruct (readUtf8File fs file) as [contents|]; [|discriminate].
    destruct (forEachCollect _ _ _ m) as [[errs1 m1]| |] eqn:Hf;
      try discriminate.
    apply forEachCollect_lift in Hf. apply IH in H. eauto.
Qed.

Lemma validatePackage_lift m errors m' :
  validateAndResolveUserRemappingsOfAnExistingPackage lib fs p m
    = Returns (errors, m') ->
  R m m'.
Proof.
  unfold validateAndResolveUserRemappingsOfAnExistingPackage. intros H.
  monad_red H.
  destruct (userRemappingsPerPackage m !! pkg_ref p); [|discriminate].
  by apply validateFiles_lift in H.
Qed.

End MapLifting.

(** ** The loop that drains the queue *)

Lemma reset_wf p m :
  map_wf m -> In p (remappingsToResolve m) -> map_wf (reset p m).
Proof.
  intros [WI WR WU WQ WD] Hp.
  assert (Hheld : forall P, held (reset p m) P -> held m P).
  { intros P HP. destruct HP as [|k P HP|P HP|a deps' n' e' Ha Hn|a l r' n' P Ha Hr' Ht].
    - exact (held_project m).
    - by eapply held_by_name.
    - by apply held_queue.
    - by eapply held_installed.
    - unfold reset, with_userRemappingsPerPackage in Ha.
      cbn [userRemappingsPerPackage] in Ha.
      destruct (decide (a = pkg_ref p)) as [->|Hne].
      + rewrite lookup_insert_eq in Ha. simplify_eq. destruct Hr'.
      + rewrite lookup_insert_ne in Ha by done. by eapply held_target. }
  split; try done.
  - intros P HP. apply Hheld in HP. by apply WI.
  - intros a l Ha. unfold reset, with_userRemappingsPerPackage in Ha.
    cbn [userRemappingsPerPackage] in Ha.
    destruct (decide (a = pkg_ref p)) as [->|Hne].
    + by apply WQ.
    + rewrite lookup_insert_ne in Ha by done. by eapply WU.
Qed.

Lemma shifted_wf m : map_wf m -> map_wf (shifted m).
Proof.
  intros [WI WR WU WQ WD].
  assert (Htl : forall P, In P (List.tl (remappingsToResolve m)) ->
                          In P (remappingsToResolve m)).
  { intros P HP. destruct (remappingsToResolve m); [done|by right]. }
  assert (Hheld : forall P, held (shifted m) P -> held m P).
  { intros P HP. destruct HP as [|k P HP|P HP|a deps' n' e' Ha Hn|a l r' n' P Ha Hr' Ht].
    - exact (held_project m).
    - by eapply held_by_name.
    - apply held_queue. by apply Htl.
    - by eapply held_installed.
    - by eapply held_target. }
  split; try done.
  - intros P HP. apply Hheld in HP. by apply WI.
  - intros P HP. apply WQ. by apply Htl.
  - unfold shifted, with_remappingsToResolve. cbn [remappingsToResolve].
    destruct (remappingsToResolve m) as [|x q]; [done|].
    cbn in *. by inversion WD.
Qed.

Section MapLoop.

Context (lib : Lib) (fs : Fs).

Lemma validatePackage_wf p m errors m' :
  map_wf m ->
  validateAndResolveUserRemappingsOfAnExistingPackage lib fs p m
    = Returns (errors, m') ->
  map_wf m' /\ map_ext p m m'.
Proof.
  intros Hwf H.
  refine (validatePackage_lift lib fs p
            (fun m m' => map_wf m -> map_wf m' /\ map_ext p m m')
            _ _ _ m errors m' H Hwf).
  - intros m0 ?. split; [done|apply map_ext_refl].
  - intros m1 m2 m3 H12 H23 Hwf1.
    destruct (H12 Hwf1) as [Hwf2 He12]. destruct (H23 Hwf2) as [Hwf3 He23].
    split; [done|by eapply map_ext_trans].
  - intros src line m0 err m0' Hv Hwf0. by eapply validate_wf.
Qed.

(** One iteration of the loop, when it completes. *)
Lemma resolveRemaining_step fuel errors m errors' m' p q :
  remappingsToResolve m = p :: q ->
  resolveRemaining lib fs (S fuel) errors m = Returns (errors', m') ->
  exists es m2,
    validateAndResolveUserRemappingsOfAnExistingPackage lib fs p (reset p m)
      = Returns (es, m2) /\
    resolveRemaining lib fs fuel (errors ++ es) (shifted m2)
      = Returns (errors', m').
Proof.
  intros Hq H. cbn [resolveRemaining] in H. rewrite Hq in H.
  monad_red H. fold (reset p m) in H.
  destruct (validateAndResolveUserRemappingsOfAnExistingPackage lib fs p
              (reset p m)) as [[es m2]| |] eqn:Hv; try discriminate.
  exists es, m2. split; [done|]. exact H.
Qed.

Lemma resolveRemaining_done fuel errors m errors' m' :
  remappingsToResolve m = [] ->
  resolveRemaining lib fs fuel errors m = Returns (errors', m') ->
  errors' = errors /\ m' = m.
Proof.
  intros Hq H. destruct fuel; cbn [resolveRemaining] in H; rewrite Hq in H;
    by simplify_eq.
Qed.

(** The loop keeps the invariant, extends the state, and leaves the queue
    empty. *)
Lemma resolveRemaining_wf fuel errors m errors' m' :
  map_wf m ->
  resolveRemaining lib fs fuel errors m = Returns (errors', m') ->
  map_wf m' /\ loop_ext m m' /\ remappingsToResolve m' = [].
Proof.
  revert errors m. induction fuel as [|fuel IH]; intros errors m Hwf H.
  - cbn in H. destruct (remappingsToResolve m) eqn:Hq; [|discriminate].
    simplify_eq. split; [done|]. split; [|done]. by split; eauto.
  - destruct (remappingsToResolve m) as [|p q] eqn:Hq.
    { apply resolveRemaining_done in H as [-> ->]; [|done].
      split; [done|]. split; [|done]. by split; eauto. }
    destruct (resolveRemaining_step _ _ _ _ _ _ _ Hq H) as (es & m2 & Hv & Hloop).
    assert (Hp : In p (remappingsToResolve m)) by (rewrite Hq; by left).
    pose proof (reset_wf p m Hwf Hp) as Hwf1.
    destruct (validatePackage_wf _ _ _ _ Hwf1 Hv) as [Hwf2 Hext].
    pose proof (shifted_wf m2 Hwf2) as Hwf3.
    destruct (IH _ _ Hwf3 Hloop) as (Hwf' & Hlext & Hempty).
    split; [done|]. split; [|done].
    destruct Hext as [N1 P1 I1 B1 BN1 (news & Q1 & F1) U1 O1].
    destruct Hlext as [N2 P2 I2 B2 U2].
    split.
    + unfold reset, shifted in *. unfold_map. lia.
    + rewrite P2. unfold shifted. unfold_map. rewrite P1. done.
    + intros a deps n e Ha Hn.
      destruct (I1 a deps n e) as (deps1 & Ha1 & Hn1); [done|done|].
      by apply (I2 a deps1 n e).
    + intros k P HP. apply B2. unfold shifted. unfold_map. apply B1. done.
    + intros a Ha Hnot.
      assert (Hap : a <> pkg_ref p).
      { intros ->. by apply (Hnot p). }
      rewrite U2.
      * unfold shifted. unfold_map. rewrite U1 by done.
        unfold reset. unfold_map. by rewrite lookup_insert_ne.
      * unfold shifted, reset in *. unfold_map. lia.
      * intros P HP. unfold shifted in HP. unfold_map. rewrite Q1 in HP.
        unfold reset in HP. unfold_map. rewrite Hq in HP. cbn in HP.
        apply in_app_or in HP as [HP|HP].
        -- apply Hnot. rewrite Hq. by right.
        -- apply F1 in HP. unfold reset in HP. unfold_map. lia.
Qed.

Lemma newMap_wf project :
  map_wf (newRemappedNpmPackagesMap project).
Proof.
  unfold newRemappedNpmPackagesMap.
  split.
  - intros P HP.
    destruct HP as [|k P HP|P HP|a deps' n' e' Ha Hn|a l r' n' P Ha Hr' Ht];
      unfold_map.
    + apply lookup_insert_eq.
    + destruct (decide (k = rootSourceName project)) as [->|Hne].
      * rewrite lookup_insert_eq in HP. simplify_eq. apply lookup_insert_eq.
      * rewrite lookup_insert_ne, lookup_empty in HP by done. done.
    + destruct HP as [<-|[]]. apply lookup_insert_eq.
    + destruct (decide (a = pkg_ref project)) as [->|Hne].
      * rewrite lookup_insert_eq in Ha. simplify_eq.
      * rewrite lookup_insert_ne, lookup_empty in Ha by done. done.
    + rewrite lookup_empty in Ha. done.
  - intros a deps Ha. unfold_map.
    destruct (decide (a = pkg_ref project)) as [->|Hne]; [lia|].
    rewrite lookup_insert_ne, lookup_empty in Ha by done. done.
  - intros a l Ha. unfold_map. rewrite lookup_empty in Ha. done.
  - intros P [<-|[]]. unfold_map. lia.
  - unfold_map. cbn. apply List.NoDup_cons; [intros []|apply List.NoDup_nil].
Qed.

(** The map built by [create] satisfies the invariant and its queue is
    empty. *)
Lemma createMap_wf fuel root errors m :
  createMap lib fs fuel root = Returns (errors, m) ->
  map_wf m /\ remappingsToResolve m = [].
Proof.
  unfold createMap. intros H.
  destruct (readJsonFile fs _) as [json|]; [|discriminate].
  apply resolveRemaining_wf in H as (? & _ & ?); [done|apply newMap_wf].
Qed.

End MapLoop.

(** ** Concrete projects *)

(** ** Package canonicity *)

Lemma resolveDependency_wf lib fs fuel from n m res m' :
  map_wf m ->
  resolveDependencyByInstallationName lib fs fuel from n m = Returns (res, m') ->
  map_wf m' /\ (remappingsToResolve m = [] -> remappingsToResolve m' = []).
Proof.
  intros Hwf H. unfold resolveDependencyByInstallationName in H. monad_red H.
  destruct (priv_resolveDependencyByInstallationName fs from n m)
    as [[[e|] m1]| |] eqn:Hpriv; try discriminate.
  - unfold resolveAnyRemainingRemappings in H.
    destruct (resolveRemaining lib fs fuel [] m1) as [[errs m2]| |] eqn:Hloop;
      try discriminate.
    simplify_eq.
    apply (priv_resolve_wf fs from) in Hpriv as (Hwf1 & _ & _); [|done].
    apply resolveRemaining_wf in Hloop as (? & _ & ?); done.
  - simplify_eq.
    apply priv_resolve_inv in Hpriv. inversion Hpriv; by subst.
Qed.

Lemma map_reachable_wf lib fs m :
  map_reachable lib fs m -> map_wf m /\ remappingsToResolve m = [].
Proof.
  induction 1 as [fuel root errors m H|fuel from n m res m' _ [IH1 IH2] H].
  - by eapply createMap_wf.
  - apply resolveDependency_wf in H as [? ?]; auto.
Qed.

(** C1. Package canonicity. In every map reached from [create], two
    installations whose packages have the same root source name hold the
    same package object, and two distinct packages held by the map have
    different root source names. *)
Theorem C1_package_canonicity lib fs m :
  map_reachable lib fs m ->
  (forall a deps_a name_a X b deps_b name_b Y,
     installationMap m !! a = Some deps_a -> deps_a !! name_a = Some X ->
     installationMap m !! b = Some deps_b -> deps_b !! name_b = Some Y ->
     rootSourceName (inst_package X) = rootSourceName (inst_package Y) ->
     inst_package X = inst_package Y) /\
  (forall P Q, held m P -> held m Q -> P <> Q ->
     rootSourceName P <> rootSourceName Q).
Proof.
  intros Hreach. apply map_reachable_wf in Hreach as [Hwf _].
  assert (Hcanon : forall P Q, held m P -> held m Q ->
            rootSourceName P = rootSourceName Q -> P = Q).
  { intros P Q HP HQ Heq.
    apply (wf_interned _ Hwf) in HP. apply (wf_interned _ Hwf) in HQ.
    rewrite Heq in HP. congruence. }
  split.
  - intros a deps_a name_a X b deps_b name_b Y Ha HX Hb HY Heq.
    apply Hcanon; [|
      |done].
    + exact (held_installed m a deps_a name_a X Ha HX).
    + exact (held_installed m b deps_b name_b Y Hb HY).
  - intros P Q HP HQ Hne Heq. apply Hne. by apply Hcanon.
Qed.

(** The map of the project whose three remappings target one dependency:
    the dependency is installed once, under one root source name. *)
Lemma C1_package_canonicity_witness :
  exists m,
    createMap Spec.lib (Disk.fs Scenario.sharedDependency) Scenario.fuel "/p"
      = Returns ([], m) /\
    (exists deps X, installationMap m !! 0 = Some deps /\
       deps !! "dep1" = Some X /\
       rootSourceName (inst_package X) = "npm/dep1@1.2.0") /\
    (forall a deps_a name_a X b deps_b name_b Y,
       installationMap m !! a = Some deps_a -> deps_a !! name_a = Some X ->
       installationMap m !! b = Some deps_b -> deps_b !! name_b = Some Y ->
       rootSourceName (inst_package X) = rootSourceName (inst_package Y) ->
       inst_package X = inst_package Y).
Proof.
  eexists. split; [vm_compute; reflexivity|]. split.
  - eexists _, _. split; [vm_compute; reflexivity|].
    split; [vm_compute; reflexivity|reflexivity].
  - apply (C1_package_canonicity Spec.lib (Disk.fs Scenario.sharedDependency)).
    eapply mr_create with (fuel := Scenario.fuel) (projectRootPath := "/p").
    vm_compute. reflexivity.
Defined.

(** ** What the loop has done with each package it took from the queue *)

Section LoopDone.

Context (lib : Lib) (fs : Fs).

(** [D m errors P]: the package [P] has been dealt with, in the state [m]
    and with the errors collected so far. *)
Context (D : RemappedNpmPackagesMap -> list UserRemappingError ->
             ResolvedNpmPackage -> Prop).

Hypothesis D_establish : forall p q m es m2 errors,
  map_wf m -> remappingsToResolve m = p :: q ->
  validateAndResolveUserRemappingsOfAnExistingPackage lib fs p (reset p m)
    = Returns (es, m2) ->
  D (shifted m2) (errors ++ es) p.

Hypothesis D_stable : forall p q m es m2 errors P,
  map_wf m -> remappingsToResolve m = p :: q ->
  validateAndResolveUserRemappingsOfAnExistingPackage lib fs p (reset p m)
    = Returns (es, m2) ->
  pkg_ref P <> pkg_ref p -> pkg_ref P < nextRef m ->
  D m errors P -> D (shifted m2) (errors ++ es) P.

Local Abbreviation queued_or_done := (queued_or_done D).

Lemma queued_or_done_step p q m es m2 errors :
  map_wf m -> remappingsToResolve m = p :: q ->
  validateAndResolveUserRemappingsOfAnExistingPackage lib fs p (reset p m)
    = Returns (es, m2) ->
  queued_or_done m errors ->
  queued_or_done (shifted m2) (errors ++ es).
Proof.
  intros Hwf Hq Hv HK k P HP.
  assert (Hp : In p (remappingsToResolve m)) by (rewrite Hq; by left).
  pose proof (reset_wf p m Hwf Hp) as Hwf1.
  destruct (validatePackage_wf _ _ _ _ _ _ Hwf1 Hv) as [Hwf2 Hext].
  destruct Hext as [N1 P1 I1 B1 BN1 (news & Q1 & F1) U1 O1].
  assert (Hq2 : remappingsToResolve m2 = p :: q ++ news).
  { rewrite Q1. unfold reset. unfold_map. by rewrite Hq. }
  assert (Hq3 : remappingsToResolve (shifted m2) = q ++ news).
  { unfold shifted. unfold_map. by rewrite Hq2. }
  assert (Hfresh : forall P', In P' news -> nextRef m <= pkg_ref P').
  { intros P' HP'. apply F1 in HP'. unfold reset in HP'. by unfold_map. }
  assert (Hn3 : nextRef m <= nextRef (shifted m2)).
  { unfold shifted, reset in *. unfold_map. lia. }
  assert (Hpdone : ~ In (pkg_ref p) (List.map pkg_ref (remappingsToResolve (shifted m2))) /\
            pkg_ref p < nextRef (shifted m2) /\ D (shifted m2) (errors ++ es) p).
  { split; [|split].
    - rewrite Hq3. pose proof (wf_queue_distinct _ Hwf2) as Hnd.
      rewrite Hq2 in Hnd. cbn in Hnd. by inversion Hnd.
    - pose proof (wf_queue_refs _ Hwf p Hp). lia.
    - exact (D_establish p q m es m2 errors Hwf Hq Hv). }
  rewrite Hq3.
  assert (HP2 : packageByRootSourceName m2 !! k = Some P) by exact HP.
  destruct (BN1 _ _ HP2) as [Hold|[Hin Hge]].
  - assert (Hold' : packageByRootSourceName m !! k = Some P) by exact Hold.
    destruct (HK _ _ Hold') as [Hin|(Hnot & Hlt & HD)].
    + rewrite Hq in Hin. destruct Hin as [<-|Hin].
      * right. by rewrite <- Hq3.
      * left. apply in_or_app. by left.
    + right. rewrite Hq in Hnot. cbn in Hnot.
      split; [|split].
      * rewrite List.map_app. intros [Hin|Hin]%in_app_or.
        -- apply Hnot. by right.
        -- apply List.in_map_iff in Hin as (P' & Heq & HP').
           apply Hfresh in HP'. lia.
      * lia.
      * apply (D_stable p q m es m2 errors P Hwf Hq Hv); [lia|done|done].
  - rewrite Hq2 in Hin. destruct Hin as [<-|Hin].
    + pose proof (wf_queue_refs _ Hwf p Hp). unfold reset in Hge. unfold_map.
      lia.
    + by left.
Qed.

Lemma resolveRemaining_done_all fuel errors m errors' m' :
  map_wf m -> queued_or_done m errors ->
  resolveRemaining lib fs fuel errors m = Returns (errors', m') ->
  forall k P, packageByRootSourceName m' !! k = Some P -> D m' errors' P.
Proof.
  revert errors m. induction fuel as [|fuel IH]; intros errors m Hwf HK H.
  - cbn in H. destruct (remappingsToResolve m) eqn:Hq; [|discriminate].
    simplify_eq. intros k P HP. destruct (HK _ _ HP) as [Hin|(_ & _ & HD)].
    + rewrite Hq in Hin. destruct Hin.
    + done.
  - destruct (remappingsToResolve m) as [|p q] eqn:Hq.
    { apply resolveRemaining_done in H as [-> ->]; [|done].
      intros k P HP. destruct (HK _ _ HP) as [Hin|(_ & _ & HD)].
      - rewrite Hq in Hin. destruct Hin.
      - done. }
    destruct (resolveRemaining_step _ _ _ _ _ _ _ _ _ Hq H)
      as (es & m2 & Hv & Hloop).
    assert (Hp : In p (remappingsToResolve m)) by (rewrite Hq; by left).
    pose proof (reset_wf p m Hwf Hp) as Hwf1.
    destruct (validatePackage_wf _ _ _ _ _ _ Hwf1 Hv) as [Hwf2 _].
    apply (IH (errors ++ es) (shifted m2)); [by apply shifted_wf| |exact Hloop].
    exact (queued_or_done_step p q m es m2 errors Hwf Hq Hv HK).
Qed.

(** After [create], every package known by name has been dealt with. *)
Lemma createMap_done_all fuel root errors m :
  createMap lib fs fuel root = Returns (errors, m) ->
  forall k P, packageByRootSourceName m !! k = Some P -> D m errors P.
Proof.
  unfold createMap. intros H.
  destruct (readJsonFile fs _) as [json|]; [|discriminate].
  eapply resolveRemaining_done_all; [apply newMap_wf| |exact H].
  intros k P HP. left. unfold newRemappedNpmPackagesMap in *. unfold_map.
  destruct (decide (k = HARDHAT_PROJECT_ROOT_SOURCE_NAME)) as [->|Hne].
  - rewrite lookup_insert_eq in HP. simplify_eq. by left.
  - rewrite lookup_insert_ne, lookup_empty in HP by done. done.
Qed.

End LoopDone.

(** ** The errors of a package reach the result of [create] *)

Section Reported.

Context (lib : Lib) (fs : Fs).

Local Abbreviation always_reported := (always_reported lib fs).
Local Abbreviation remappingLine := (remappingLine fs).
Local Abbreviation reported := (reported lib fs).

Lemma forEachCollect_errors p src lines errors m errors' m' :
  forEachCollect (validateAndResolveUserRemapping lib fs p src) lines errors m
    = Returns (errors', m') ->
  (forall e, In e errors -> In e errors') /\
  (forall line e, In line lines -> always_reported p src line e ->
     In e errors').
Proof.
  revert errors m. induction lines as [|line0 lines IH]; intros errors m H.
  - cbn in H. monad_red H. simplify_eq. split; [done|]. intros ? ? [].
  - cbn [forEachCollect] in H. monad_red H.
    destruct (validateAndResolveUserRemapping lib fs p src line0 m)
      as [[err m1]| |] eqn:Hv; try discriminate.
    apply IH in H as [Hmono Hall]. split.
    + intros e He. apply Hmono. destruct err; [apply in_or_app; by left|done].
    + intros line e [<-|Hin] Hrep.
      * apply Hrep in Hv as ->. apply Hmono, in_or_app. right. by left.
      * by eapply Hall.
Qed.

Lemma validateFiles_errors p files errors m errors' m' :
  validateFiles lib fs p files errors m = Returns (errors', m') ->
  (forall e, In e errors -> In e errors') /\
  (forall file contents line e,
     In file files -> readUtf8File fs file = Some contents ->
     In line (rawUserRemappings contents) ->
     always_reported p file line e -> In e errors').
Proof.
  revert errors m. induction files as [|file0 files IH]; intros errors m H.
  - cbn in H. monad_red H. simplify_eq. split; [done|]. intros ? ? ? ? [].
  - cbn [validateFiles] in H. monad_red H.
    destruct (readUtf8File fs file0) as [contents0|] eqn:Hread;
      [|discriminate].
    destruct (forEachCollect _ _ _ m) as [[errs1 m1]| |] eqn:Hf;
      try discriminate.
    apply forEachCollect_errors in Hf as [Hmono1 Hall1].
    apply IH in H as [Hmono Hall]. split; [by auto|].
    intros file contents line e [<-|Hin] Hc Hline Hrep.
    + rewrite Hread in Hc. simplify_eq. eapply Hmono, Hall1; eauto.
    + eapply Hall; eauto.
Qed.

Lemma validatePackage_reported p m errors m' :
  validateAndResolveUserRemappingsOfAnExistingPackage lib fs p m
    = Returns (errors, m') ->
  reported p errors.
Proof.
  unfold validateAndResolveUserRemappingsOfAnExistingPackage. intros H.
  monad_red H.
  destruct (userRemappingsPerPackage m !! pkg_ref p); [|discriminate].
  apply validateFiles_errors in H as [_ Hall].
  intros file line e (Hfile & contents & Hread & Hline) Hrep.
  eapply Hall; eauto.
Qed.

(** Every error that a line of a package known to the map always yields is
    among the errors of [create]. *)
Lemma createMap_reported fuel root errors m k P :
  createMap lib fs fuel root = Returns (errors, m) ->
  packageByRootSourceName m !! k = Some P ->
  reported P errors.
Proof.
  intros H HP.
  refine (createMap_done_all lib fs (fun _ errors P => reported P errors)
            _ _ fuel root errors m H k P HP).
  - intros p q m0 es m2 errors0 _ _ Hv file line e Hline Hrep.
    apply in_or_app. right.
    by eapply (validatePackage_reported _ _ _ _ Hv).
  - intros p q m0 es m2 errors0 P0 _ _ _ _ _ HD file line e Hline Hrep.
    apply in_or_app. left. by eapply HD.
Qed.

(** [create] fails as soon as there is an error. *)
Lemma create_fails fuel root errors m e :
  createMap lib fs fuel root = Returns (errors, m) ->
  In e errors ->
  create lib fs fuel root = Returns (Failure errors).
Proof.
  intros H He. unfold create. rewrite H. by destruct errors.
Qed.

(** A line kept by [rawUserRemappings] is a trimmed line of the file,
    not empty and not a comment. *)
Lemma rawUserRemappings_trimmed contents line :
  In line (rawUserRemappings contents) ->
  (exists raw, In raw (Js.split contents Js.LF) /\ line = Js.trim raw) /\
  line <> "" /\ Js.startsWith line "#" = false.
Proof.
  unfold rawUserRemappings. intros H.
  apply List.filter_In in H as [H Hc].
  apply List.filter_In in H as [H He].
  apply List.in_map_iff in H as (raw & <- & Hraw).
  split; [eauto|]. split.
  - intros Heq. rewrite Heq in He. discriminate.
  - by apply negb_true_iff in Hc.
Qed.

End Reported.

(** ** Remappings without their slashes *)

Lemma missingSlash_lacks r : missingSlash r -> lacksSlashEndings r = true.
Proof.
  unfold missingSlash, lacksSlashEndings.
  intros [[Hc He]|[Hp|Ht]].
  - rewrite He. destruct (r_context r); [done|]. done.
  - rewrite Hp. cbn. by rewrite orb_true_r.
  - rewrite Ht. cbn. by rewrite orb_true_r.
Qed.

(** C4. For every package the map of [create] knows, every line of one of
    its [remappings.txt] files that parses into a remapping whose prefix,
    target or non-empty context does not end in a slash: [create] fails,
    and its errors hold, for that line, the error of the slash endings,
    whose source is the path of the file and whose remapping is the trimmed
    line. But the discriminant of that error is the string
    [ILLEGAL_REMAPPING_WIHTOUT_SLASH_ENDINGS], as the enumeration spells
    it: no error that [create] reports has the discriminant
    [ILLEGAL_REMAPPING_WITHOUT_SLASH_ENDINGS]. The validation of such a
    line returns that error in every state that knows the package, and
    leaves the state as it was. *)
Theorem C4_slash_endings_discriminant
    lib fs fuel root errors m k P file line r :
  createMap lib fs fuel root = Returns (errors, m) ->
  packageByRootSourceName m !! k = Some P ->
  remappingLine fs P file line ->
  parseRemappingString lib line = Some r ->
  missingSlash r ->
  let e := {| ure_type := ILLEGAL_REMAPPING_WIHTOUT_SLASH_ENDINGS;
              ure_remapping := line; ure_source := file |} in
  In e errors /\
  create lib fs fuel root = Returns (Failure errors) /\
  UserRemappingErrorType_value (ure_type e)
    = "ILLEGAL_REMAPPING_WIHTOUT_SLASH_ENDINGS" /\
  (forall e',
     In e' errors ->
     UserRemappingErrorType_value (ure_type e')
       <> "ILLEGAL_REMAPPING_WITHOUT_SLASH_ENDINGS") /\
  (exists contents raw,
     readUtf8File fs file = Some contents /\
     In raw (Js.split contents Js.LF) /\ line = Js.trim raw) /\
  (forall m0,
     is_Some (installationMap m0 !! pkg_ref P) ->
     is_Some (userRemappingsPerPackage m0 !! pkg_ref P) ->
     validateAndResolveUserRemapping lib fs P file line m0
       = Returns (Some e, m0)).
Proof.
  intros Hcreate HP Hline Hparse Hslash e.
  assert (He : In e errors).
  { eapply (createMap_reported lib fs); eauto.
    intros m0 o m0' Hv. apply validate_inv in Hv as (_ & _ & Hv).
    apply missingSlash_lacks in Hslash.
    destruct Hv; simplify_eq; try done; congruence. }
  split; [done|]. split; [by eapply create_fails|]. split; [done|].
  split; [by intros [[] ? ?] _|].
  split.
  - destruct Hline as (_ & contents & Hread & Hin).
    apply rawUserRemappings_trimmed in Hin as ((raw & Hraw & ->) & _).
    eauto.
  - intros m0 [deps Hdeps] [l Hl].
    unfold validateAndResolveUserRemapping. monad_red_goal.
    rewrite Hdeps, Hl, Hparse, (missingSlash_lacks _ Hslash). done.
Qed.

(** The lone nested file whose line [foo/=bar] lacks the slash of its
    target: one error, for that line and that file, whose discriminant is
    not the string [ILLEGAL_REMAPPING_WITHOUT_SLASH_ENDINGS]. *)
Lemma C4_slash_endings_discriminant_witness :
  exists e,
    create Spec.lib (Disk.fs Scenario.nestedError) Scenario.fuel "/p"
      = Returns (Failure [e]) /\
    ure_source e = "/p/lib/submodule/remappings.txt" /\
    ure_remapping e = "foo/=bar" /\
    UserRemappingErrorType_value (ure_type e)
      = "ILLEGAL_REMAPPING_WIHTOUT_SLASH_ENDINGS" /\
    UserRemappingErrorType_value (ure_type e)
      <> "ILLEGAL_REMAPPING_WITHOUT_SLASH_ENDINGS".
Proof.
  eassert (Hcreate : createMap Spec.lib (Disk.fs Scenario.nestedError)
                       Scenario.fuel "/p" = Returns ([_], _))
    by (vm_compute; reflexivity).
  match type of Hcreate with
  | _ = Returns ([?e0], ?m0) =>
      pose proof
        (C4_slash_endings_discriminant Spec.lib (Disk.fs Scenario.nestedError)
           Scenario.fuel "/p" [e0] m0 "project" (hardhatProjectPackage m0)
           "/p/lib/submodule/remappings.txt" "foo/=bar"
           {| r_context := ""; r_prefix := "foo/"; r_target := "bar" |}
           Hcreate
           ltac:(vm_compute; reflexivity)
           ltac:(split; [vm_compute; by left|];
                 eexists; split; [vm_compute; reflexivity|];
                 vm_compute; by left)
           ltac:(vm_compute; reflexivity)
           ltac:(right; right; vm_compute; reflexivity))
        as (_ & Hfail & _ & Hnever & _);
      exists e0; split; [exact Hfail|];
      split; [reflexivity|]; split; [reflexivity|]; split; [reflexivity|];
      exact (Hnever e0 (or_introl eq_refl))
  end.
Defined.

(** ** Remappings into [node_modules] *)

(** C5 (counterexample). The line [Foo/=node_modules/Foo/] is valid, its
    target starts with [node_modules/] and the rest, [Foo/], is not a module
    name; yet [create] succeeds and reports nothing: the remapping is
    dropped because its prefix equals the stripped target. *)
Lemma C5_noop_before_extraction_counterexample :
  Spec.parseRemappingString "Foo/=node_modules/Foo/"
    = Some {| r_context := ""; r_prefix := "Foo/";
              r_target := "node_modules/Foo/" |} /\
  getNpmPackageName "Foo/" = None /\
  exists map,
    create Spec.lib (Disk.fs Scenario.upperCase) Scenario.fuel "/p"
      = Returns (Success map) /\
    getUserRemappings (hardhatProjectPackage map) map = Returns ([], map).
Proof.
  split; [reflexivity|]. split; [reflexivity|].
  eexists. split; vm_compute; reflexivity.
Qed.

(** C5, amended. For every package the map of [create] knows and every
    line of one of its [remappings.txt] files that parses into a remapping
    with its slashes, whose target starts with [node_modules/]: if the
    prefix differs from the stripped target and the stripped target does not
    start with a module name, [create] fails and its errors hold
    [REMAPPING_WITH_INVALID_SYNTAX] for that line. If the prefix equals the
    stripped target, the line is dropped: no error, no remapping, the map
    unchanged, whether or not the stripped target starts with a module
    name. *)
Theorem C5_npm_remapping_syntax lib fs fuel root errors m k P file line r :
  createMap lib fs fuel root = Returns (errors, m) ->
  packageByRootSourceName m !! k = Some P ->
  remappingLine fs P file line ->
  parseRemappingString lib line = Some r ->
  lacksSlashEndings r = false ->
  Js.startsWith (r_target r) "node_modules/" = true ->
  (r_prefix r <> strippedTarget r ->
   getNpmPackageName (strippedTarget r) = None ->
   In {| ure_type := REMAPPING_WITH_INVALID_SYNTAX;
         ure_remapping := line; ure_source := file |} errors /\
   create lib fs fuel root = Returns (Failure errors)) /\
  (r_prefix r = strippedTarget r ->
   forall m0,
     is_Some (installationMap m0 !! pkg_ref P) ->
     is_Some (userRemappingsPerPackage m0 !! pkg_ref P) ->
     validateAndResolveUserRemapping lib fs P file line m0
       = Returns (None, m0)).
Proof.
  intros Hcreate HP Hline Hparse Hslash Hnm. split.
  - intros Hne Hname.
    assert (He : In {| ure_type := REMAPPING_WITH_INVALID_SYNTAX;
                       ure_remapping := line; ure_source := file |} errors).
    { eapply (createMap_reported lib fs); eauto.
      intros m0 o m0' Hv. apply validate_inv in Hv as (_ & _ & Hv).
      destruct Hv; simplify_eq; try done; congruence. }
    split; [done|by eapply create_fails].
  - intros Heq m0 [deps Hdeps] [l Hl].
    unfold validateAndResolveUserRemapping. monad_red_goal.
    rewrite Hdeps, Hl, Hparse, Hslash, Hnm. cbn [negb].
    fold (strippedTarget r). rewrite Heq, String.eqb_refl. done.
Qed.

(** The line [foo/=node_modules/@only-scope/]: a scope without a name. *)
Lemma C5_npm_remapping_syntax_witness :
  create Spec.lib (Disk.fs Scenario.onlyScope) Scenario.fuel "/p"
    = Returns
        (Failure
           [ {| ure_type := REMAPPING_WITH_INVALID_SYNTAX;
                ure_remapping := "foo/=node_modules/@only-scope/";
                ure_source := "/p/remappings.txt" |} ]).
Proof.
  eassert (Hcreate : createMap Spec.lib (Disk.fs Scenario.onlyScope)
                       Scenario.fuel "/p" = Returns (_, _))
    by (vm_compute; reflexivity).
  refine (proj2 (proj1
    (C5_npm_remapping_syntax Spec.lib (Disk.fs Scenario.onlyScope)
       Scenario.fuel "/p" _ _ "project" _
       "/p/remappings.txt" "foo/=node_modules/@only-scope/"
       {| r_context := ""; r_prefix := "foo/";
          r_target := "node_modules/@only-scope/" |}
       Hcreate _ _ _ _ _) _ _)).
  - vm_compute. reflexivity.
  - split; [vm_compute; by left|].
    eexists. split; [vm_compute; reflexivity|]. vm_compute. by left.
  - vm_compute. reflexivity.
  - vm_compute. reflexivity.
  - vm_compute. reflexivity.
  - vm_compute. discriminate.
  - vm_compute. reflexivity.
Defined.

(** ** The order of the user remappings of a package *)

Section Order.

Context (lib : Lib) (fs : Fs).

Local Abbreviation linesOf := (linesOf fs).
Local Abbreviation allLines := (allLines fs).
Local Abbreviation ordered := (ordered fs).

Lemma priv_resolve_remappings from n m res m' :
  priv_resolveDependencyByInstallationName fs from n m = Returns (res, m') ->
  userRemappingsPerPackage m' = userRemappingsPerPackage m.
Proof.
  intros H. apply priv_resolve_inv in H. by destruct H.
Qed.

Lemma validate_origin p src line m err m' l :
  validateAndResolveUserRemapping lib fs p src line m = Returns (err, m') ->
  userRemappingsPerPackage m !! pkg_ref p = Some l ->
  exists l', userRemappingsPerPackage m' !! pkg_ref p = Some (l ++ l') /\
             sublist (List.map origin l') [(src, line)].
Proof.
  intros H Hl. apply validate_inv in H as (_ & _ & H).
  assert (Hnone : exists l', userRemappingsPerPackage m !! pkg_ref p
                               = Some (l ++ l') /\
                             sublist (List.map origin l') [(src, line)]).
  { exists []. rewrite app_nil_r. split; [done|]. apply sublist_nil_l. }
  assert (Hpush : forall r m1,
            userRemappingsPerPackage m1 = userRemappingsPerPackage m ->
            origin r = (src, line) ->
            exists l', userRemappingsPerPackage (pushed p r m1) !! pkg_ref p
                         = Some (l ++ l') /\
                       sublist (List.map origin l') [(src, line)]).
  { intros r m1 Hm1 Hr. exists [r]. unfold_map.
    rewrite lookup_alter_eq, Hm1, Hl. split; [done|]. cbn. by rewrite Hr. }
  destruct H as [?|r ? ?|r ? ? ?|r ? ? ? ?|r ? ? ? ? ?
                |r n m1 ? ? ? ? ? Hpriv|r n dep m1 ? ? ? ? ? Hpriv]; try done.
  - by apply Hpush.
  - apply priv_resolve_remappings in Hpriv. by rewrite Hpriv.
  - apply priv_resolve_remappings in Hpriv. by apply Hpush.
Qed.

Lemma forEachCollect_origin p src lines errors m errors' m' l :
  forEachCollect (validateAndResolveUserRemapping lib fs p src) lines errors m
    = Returns (errors', m') ->
  userRemappingsPerPackage m !! pkg_ref p = Some l ->
  exists l', userRemappingsPerPackage m' !! pkg_ref p = Some (l ++ l') /\
             sublist (List.map origin l') (List.map (pair src) lines).
Proof.
  revert errors m l. induction lines as [|line lines IH]; intros errors m l H Hl.
  - cbn in H. monad_red H. simplify_eq. exists []. rewrite app_nil_r.
    split; [done|]. apply sublist_nil_l.
  - cbn [forEachCollect] in H. monad_red H.
    destruct (validateAndResolveUserRemapping lib fs p src line m)
      as [[err m1]| |] eqn:Hv; try discriminate.
    destruct (validate_origin _ _ _ _ _ _ _ Hv Hl) as (l1 & Hl1 & Hs1).
    destruct (IH _ _ _ H Hl1) as (l2 & Hl2 & Hs2).
    exists (l1 ++ l2). rewrite app_assoc. split; [done|].
    rewrite List.map_app. cbn [List.map].
    change ((src, line) :: List.map (pair src) lines)
      with ([(src, line)] ++ List.map (pair src) lines).
    by apply sublist_app.
Qed.

Lemma validateFiles_origin p files errors m errors' m' l :
  validateFiles lib fs p files errors m = Returns (errors', m') ->
  userRemappingsPerPackage m !! pkg_ref p = Some l ->
  exists l', userRemappingsPerPackage m' !! pkg_ref p = Some (l ++ l') /\
             sublist (List.map origin l') (List.flat_map linesOf files).
Proof.
  revert errors m l. induction files as [|file files IH]; intros errors m l H Hl.
  - cbn in H. monad_red H. simplify_eq. exists []. rewrite app_nil_r.
    split; [done|]. apply sublist_nil_l.
  - cbn [validateFiles] in H. monad_red H.
    destruct (readUtf8File fs file) as [contents|] eqn:Hread; [|discriminate].
    destruct (forEachCollect _ _ _ m) as [[errs1 m1]| |] eqn:Hf;
      try discriminate.
    destruct (forEachCollect_origin _ _ _ _ _ _ _ _ Hf Hl) as (l1 & Hl1 & Hs1).
    destruct (IH _ _ _ H Hl1) as (l2 & Hl2 & Hs2).
    exists (l1 ++ l2). rewrite app_assoc. split; [done|].
    rewrite List.map_app. cbn [List.flat_map].
    apply sublist_app; [|done]. unfold linesOf. by rewrite Hread.
Qed.

Lemma createMap_ordered fuel root errors m k P :
  createMap lib fs fuel root = Returns (errors, m) ->
  packageByRootSourceName m !! k = Some P ->
  ordered m P.
Proof.
  intros H HP.
  refine (createMap_done_all lib fs (fun m _ P => ordered m P)
            _ _ fuel root errors m H k P HP).
  - intros p q m0 es m2 errors0 _ _ Hv.
    unfold validateAndResolveUserRemappingsOfAnExistingPackage in Hv.
    monad_red Hv.
    destruct (userRemappingsPerPackage (reset p m0) !! pkg_ref p) as [l0|]
      eqn:Hl0; [|discriminate].
    assert (l0 = []) as ->.
    { unfold reset in Hl0. unfold_map. rewrite lookup_insert_eq in Hl0.
      by simplify_eq. }
    destruct (validateFiles_origin _ _ _ _ _ _ _ Hv Hl0) as (l' & Hl' & Hs).
    exists l'. split; [|done]. unfold shifted. by unfold_map.
  - intros p q m0 es m2 errors0 P0 Hwf Hq Hv Hne Hlt (l & Hl & Hs).
    exists l. split; [|done].
    assert (Hp : In p (remappingsToResolve m0)) by (rewrite Hq; by left).
    pose proof (reset_wf p m0 Hwf Hp) as Hwf1.
    destruct (validatePackage_wf _ _ _ _ _ _ Hwf1 Hv) as [_ Hext].
    unfold shifted. unfold_map.
    rewrite (ext_remappings _ _ _ Hext) by done.
    unfold reset. unfold_map. by rewrite lookup_insert_ne.
Qed.

End Order.




(** ** Relative imports *)

Section RelativeImports.

Context (lib : Lib) (fs : Fs).

Lemma onPackageMap_getUserRemappings from r l :
  userRemappingsPerPackage (npmPackageMap r) !! pkg_ref (package from) = Some l ->
  onPackageMap (getUserRemappings (package from)) r = Returns (l, r).
Proof.
  intros Hl. unfold onPackageMap, getUserRemappings. monad_red_goal.
  rewrite Hl. by destruct r.
Qed.

Lemma onPackageMap_getUserRemappings_inv from r l r' :
  onPackageMap (getUserRemappings (package from)) r = Returns (l, r') ->
  userRemappingsPerPackage (npmPackageMap r) !! pkg_ref (package from) = Some l
  /\ r' = r.
Proof.
  unfold onPackageMap, getUserRemappings. monad_red_goal. intros H.
  destruct (userRemappingsPerPackage (npmPackageMap r) !! pkg_ref (package from))
    as [l0|] eqn:Hl.
  - simplify_eq. split; [done|]. by destruct r.
  - destruct (installationMap (npmPackageMap r) !! pkg_ref (package from));
      discriminate.
Qed.

(** What [#resolveImport] does with a relative import. *)
Lemma resolveImport_relative fuel from importPath r :
  isRelativeImport importPath = true ->
  resolveImport lib fs fuel from importPath r =
    if Js.includes importPath (String Js.backslash EmptyString) then
      Returns (Failure (IMPORT_WITH_WINDOWS_PATH_SEPARATORS (fsPath from)
                          importPath), r)
    else if negb (Js.startsWith (directImportOf lib from importPath)
                    (rootSourceName (package from))) then
      Returns (Failure (ILLEGAL_RELATIVE_IMPORT (fsPath from) importPath), r)
    else
      match onPackageMap (getUserRemappings (package from)) r with
      | Returns (l, r') =>
          match selectBestRemapping lib (sourceName from)
                  (directImportOf lib from importPath) l with
          | Some _ => Throws (JsError "Invalid relative import and remapping")
          | None => Returns (NotAResult 1, r')
          end
      | Throws e => Throws e
      | OutOfFuel => OutOfFuel
      end.
Proof.
  intros Hrel. unfold resolveImport. rewrite Hrel. cbn [andb].
  destruct (Js.includes importPath _); [done|].
  destruct (negb _); [done|].
  monad_red_goal.
  destruct (onPackageMap _ r) as [[l r']| |]; try done.
  by destruct (selectBestRemapping _ _ _ _).
Qed.

End RelativeImports.

(** C6. The check of a relative import is a test on the characters of the
    direct import. For every file and every relative import without
    backslash, [resolveImport] returns [ILLEGAL_RELATIVE_IMPORT] exactly
    when the direct import does not start with the characters of the root
    source name of the package. So a relative import whose direct import
    does not lie under that root source name, but starts with its
    characters, is not rejected: [resolveImport] goes on to the user
    remappings, and to [#resolveRelativeImport]. *)
Theorem C6_relative_import_leaves_package lib fs fuel from importPath r :
  isRelativeImport importPath = true ->
  Js.includes importPath (String Js.backslash EmptyString) = false ->
  (resolveImport lib fs fuel from importPath r
     = Returns (Failure (ILLEGAL_RELATIVE_IMPORT (fsPath from) importPath), r)
   <-> Js.startsWith (directImportOf lib from importPath)
         (rootSourceName (package from)) = false) /\
  (liesUnder (rootSourceName (package from))
     (directImportOf lib from importPath) = false ->
   Js.startsWith (directImportOf lib from importPath)
     (rootSourceName (package from)) = true ->
   (forall res r',
      resolveImport lib fs fuel from importPath r = Returns (res, r') ->
      forall e, res = Failure e ->
        ImportResolutionError_type e <> "ILLEGAL_RELATIVE_IMPORT") /\
   forall l,
     userRemappingsPerPackage (npmPackageMap r) !! pkg_ref (package from)
       = Some l ->
     resolveImport lib fs fuel from importPath r
     = match selectBestRemapping lib (sourceName from)
               (directImportOf lib from importPath) l with
       | Some _ => Throws (JsError "Invalid relative import and remapping")
       | None => Returns (NotAResult 1, r)
       end).
Proof.
  intros Hrel Hbs.
  rewrite (resolveImport_relative lib fs fuel from importPath r Hrel), Hbs.
  split.
  - destruct (Js.startsWith _ _); cbn [negb]; [|done].
    split; [|done].
    destruct (onPackageMap _ r) as [[l r'']| |]; try done.
    by destruct (selectBestRemapping _ _ _ _).
  - intros _ ->. cbn [negb]. split.
    + intros res r'.
      destruct (onPackageMap _ r) as [[l r'']| |]; try done.
      destruct (selectBestRemapping _ _ _ _); [done|].
      intros [= <- <-] e. discriminate.
    + intros l Hl. by rewrite (onPackageMap_getUserRemappings from r l Hl).
Qed.

(** The import [../../project2/X.sol] of [project/contracts/A.sol]: its
    direct import is [project2/X.sol] once the [..] segments are resolved,
    which is not under [project]; it is not rejected, whether
    [sourceNamePathJoin] resolves the segments or not. *)
Lemma C6_relative_import_leaves_package_witness :
  exists r0 r1 r2 fileA fileE,
    sourcesResolved r0 r1 r2 fileA fileE /\
    let importPath := "../../project2/X.sol" in
    rootSourceName (package fileA) = "project" /\
    sourceName fileA = "project/contracts/A.sol" /\
    directImportOf Spec.lib fileA importPath
      = "project/contracts/../../project2/X.sol" /\
    Path.normalize (directImportOf Spec.lib fileA importPath)
      = "project2/X.sol" /\
    directImportOf Scenario.normalizingLib fileA importPath = "project2/X.sol" /\
    resolveImport Spec.lib (Disk.fs Scenario.sources) Scenario.fuel fileA
      importPath r1
    = Returns (NotAResult 1, r1) /\
    resolveImport Scenario.normalizingLib (Disk.fs Scenario.sources) Scenario.fuel fileA
      importPath r1
    = Returns (NotAResult 1, r1).
Proof.
  eassert (H0 : createResolver Spec.lib (Disk.fs Scenario.sources)
                  Scenario.fuel "/p" = Returns (Success _))
    by (vm_compute; reflexivity).
  match type of H0 with
  | _ = Returns (Success ?r0) =>
      eassert (H1 : resolveProjectFile Spec.lib (Disk.fs Scenario.sources)
                      "/p/contracts/A.sol" r0 = Returns (Success _, _))
        by (vm_compute; reflexivity);
      match type of H1 with
      | _ = Returns (Success ?fileA, ?r1) =>
          eassert (H2 : resolveImport Spec.lib (Disk.fs Scenario.sources)
                          Scenario.fuel fileA "ext/E.sol" r1
                        = Returns (Success {| ri_file := _;
                                              ri_remapping := _ |}, _))
            by (vm_compute; reflexivity);
          match type of H2 with
          | _ = Returns (Success {| ri_file := ?fileE |}, ?r2) =>
              eassert (Hl : userRemappingsPerPackage (npmPackageMap r1)
                              !! pkg_ref (package fileA) = Some _)
                by (vm_compute; reflexivity);
              match type of Hl with
              | _ = Some ?l0 =>
                  exists r0, r1, r2, fileA, fileE;
                  split; [split; [exact H0|]; split; [exact H1|];
                          eexists; exact H2|];
                  cbv zeta;
                  do 5 (split; [vm_compute; reflexivity|]);
                  split;
                  [exact (proj2 (proj2
                            (C6_relative_import_leaves_package Spec.lib
                               (Disk.fs Scenario.sources) Scenario.fuel fileA
                               "../../project2/X.sol" r1 eq_refl eq_refl)
                            ltac:(vm_compute; reflexivity)
                            ltac:(vm_compute; reflexivity)) l0 Hl)
                  |exact (proj2 (proj2
                            (C6_relative_import_leaves_package Scenario.normalizingLib
                               (Disk.fs Scenario.sources) Scenario.fuel fileA
                               "../../project2/X.sol" r1 eq_refl eq_refl)
                            ltac:(vm_compute; reflexivity)
                            ltac:(vm_compute; reflexivity)) l0 Hl)]
              end
          end
      end
  end.
Defined.

(** C7. For every file and every relative import without backslash that
    stays under the root source name of the package and that no user
    remapping matches, [resolveImport] returns the value of
    [#resolveRelativeImport], the number 1: neither a success nor a failure,
    and no file is resolved nor interned. *)
Theorem C7_relative_import_not_resolved lib fs fuel from importPath r l :
  isRelativeImport importPath = true ->
  Js.includes importPath (String Js.backslash EmptyString) = false ->
  Js.startsWith (directImportOf lib from importPath)
    (rootSourceName (package from)) = true ->
  userRemappingsPerPackage (npmPackageMap r) !! pkg_ref (package from) = Some l ->
  selectBestRemapping lib (sourceName from) (directImportOf lib from importPath) l
    = None ->
  resolveImport lib fs fuel from importPath r = Returns (NotAResult 1, r).
Proof.
  intros Hrel Hbs Hunder Hl Hbest.
  rewrite (resolveImport_relative lib fs fuel from importPath r Hrel).
  rewrite Hbs, Hunder. cbn [negb].
  rewrite (onPackageMap_getUserRemappings from r l Hl). by rewrite Hbest.
Qed.

(** The import [./B.sol] of [contracts/A.sol]; the file [contracts/B.sol]
    exists. *)
Lemma C7_relative_import_not_resolved_witness :
  exists r0 r1 r2 fileA fileE,
    sourcesResolved r0 r1 r2 fileA fileE /\
    exists_ (Disk.fs Scenario.sources) "/p/contracts/B.sol" = true /\
    resolveImport Spec.lib (Disk.fs Scenario.sources) Scenario.fuel fileA
      "./B.sol" r1
    = Returns (NotAResult 1, r1).
Proof.
  eexists _, _, _, _, _. split.
  - split; [vm_compute; reflexivity|].
    split; [vm_compute; reflexivity|].
    eexists. vm_compute. reflexivity.
  - split; [vm_compute; reflexivity|].
    eapply (C7_relative_import_not_resolved Spec.lib
              (Disk.fs Scenario.sources) Scenario.fuel _ "./B.sol" _ _);
      vm_compute; reflexivity.
Defined.

(** ** Direct imports of local files *)

Section DirectLocalImports.

Context (lib : Lib) (fs : Fs).

(** The loop of [#tryToGenerateDirectLocalImportError] never returns an
    error: when it returns, it returns [undefined]. *)
Lemma tryToGenerate_returns_none fuel from importPath baseDir r o r' :
  tryToGenerateDirectLocalImportErrorFrom fs fuel from importPath baseDir r
    = Returns (o, r') ->
  o = None /\ r' = r.
Proof.
  revert baseDir. induction fuel as [|fuel IH]; intros baseDir H;
    cbn [tryToGenerateDirectLocalImportErrorFrom] in H.
  - destruct (Js.startsWith baseDir _); [discriminate|].
    monad_red H. by simplify_eq.
  - destruct (Js.startsWith baseDir _).
    + destruct (exists_ fs _); [discriminate|]. by eapply IH.
    + monad_red H. by simplify_eq.
Qed.

(** It throws as soon as a directory between the directory of the file
    and the root of its package holds a file at the import path. *)
Lemma tryToGenerate_throws fuel from importPath baseDir k r :
  (forall j, j <= k ->
     Js.startsWith (ancestor j baseDir) (rootFsPath (package from)) = true) ->
  exists_ fs (Path.join [ancestor k baseDir; importPath]) = true ->
  k < fuel ->
  tryToGenerateDirectLocalImportErrorFrom fs fuel from importPath baseDir r
    = Throws (JsError "Invalid direct import").
Proof.
  revert baseDir fuel. induction k as [|k IH]; intros baseDir fuel Hin Hex Hlt.
  - destruct fuel as [|fuel]; [lia|].
    cbn [tryToGenerateDirectLocalImportErrorFrom].
    pose proof (Hin 0 ltac:(lia)) as H0. cbn [ancestor] in H0, Hex.
    by rewrite H0, Hex.
  - destruct fuel as [|fuel]; [lia|].
    cbn [tryToGenerateDirectLocalImportErrorFrom].
    pose proof (Hin 0 ltac:(lia)) as H0. cbn [ancestor] in H0. rewrite H0.
    destruct (exists_ fs (Path.join [baseDir; importPath])); [done|].
    apply IH; [|exact Hex|lia].
    intros j Hj. apply (Hin (S j)). lia.
Qed.

(** What [#resolveImport] does with a direct import that no user remapping
    matches. *)
Lemma resolveImport_direct fuel from importPath r l :
  Js.includes importPath (String Js.backslash EmptyString) = false ->
  isRelativeImport importPath = false ->
  userRemappingsPerPackage (npmPackageMap r) !! pkg_ref (package from) = Some l ->
  selectBestRemapping lib (sourceName from) importPath l = None ->
  resolveImport lib fs fuel from importPath r =
    match resolveImportThroughNpm lib fs fuel from importPath importPath r with
    | Returns (Failure e, r1) =>
        if runsFallback e then
          match tryToGenerateDirectLocalImportError fs fuel from importPath r1
          with
          | Returns (Some improvedError, r2) =>
              Returns (Failure improvedError, r2)
          | Returns (None, r2) => Returns (Failure e, r2)
          | Throws x => Throws x
          | OutOfFuel => OutOfFuel
          end
        else Returns (Failure e, r1)
    | o => o
    end.
Proof.
  intros Hbs Hrel Hl Hbest. unfold resolveImport, directImportOf.
  rewrite Hbs, Hrel. cbn [andb]. monad_red_goal.
  rewrite (onPackageMap_getUserRemappings from r l Hl), Hbest.
  destruct (resolveImportThroughNpm lib fs fuel from importPath importPath r)
    as [[[v|e|n] r1]| |]; try done.
  destruct e; try done.
  - destruct (tryToGenerateDirectLocalImportError _ _ _ _ r1)
      as [[[improved|] r2]| |]; done.
  - destruct (tryToGenerateDirectLocalImportError _ _ _ _ r1)
      as [[[improved|] r2]| |]; done.
Qed.

End DirectLocalImports.

(** C8. After a resolution through npm that fails with
    [IMPORT_OF_UNINSTALLED_PACKAGE] or [IMPORT_WITH_INVALID_NPM_SYNTAX]:
    when a directory from the directory of the importing file up to the
    root of its package holds a file at the import path, [resolveImport]
    returns no error value, it throws the exception [Invalid direct import];
    when the fallback returns, [resolveImport] returns the failure of npm
    unchanged. In neither case does it return a success. *)
Theorem C8_direct_local_import lib fs fuel from importPath r l e r1 :
  Js.includes importPath (String Js.backslash EmptyString) = false ->
  isRelativeImport importPath = false ->
  userRemappingsPerPackage (npmPackageMap r) !! pkg_ref (package from) = Some l ->
  selectBestRemapping lib (sourceName from) importPath l = None ->
  resolveImportThroughNpm lib fs fuel from importPath importPath r
    = Returns (Failure e, r1) ->
  uninstalledOrInvalid e ->
  (forall k,
     (forall j, j <= k ->
        Js.startsWith (ancestor j (Path.dirname (fsPath from)))
          (rootFsPath (package from)) = true) ->
     exists_ fs (Path.join [ancestor k (Path.dirname (fsPath from)); importPath])
       = true ->
     k < fuel ->
     resolveImport lib fs fuel from importPath r
       = Throws (JsError "Invalid direct import")) /\
  (forall o r2,
     tryToGenerateDirectLocalImportError fs fuel from importPath r1
       = Returns (o, r2) ->
     resolveImport lib fs fuel from importPath r = Returns (Failure e, r1)).
Proof.
  intros Hbs Hrel Hl Hbest Hnpm He.
  rewrite (resolveImport_direct lib fs fuel from importPath r l Hbs Hrel Hl Hbest).
  rewrite Hnpm.
  assert (Hruns : runsFallback e = true).
  { destruct He as [He|He]; destruct e; cbn in He; try discriminate; done. }
  rewrite Hruns. split.
  - intros k Hin Hex Hlt.
    unfold tryToGenerateDirectLocalImportError.
    by rewrite (tryToGenerate_throws fs fuel from importPath _ k r1 Hin Hex Hlt).
  - intros o r2 Htry. rewrite Htry.
    by apply tryToGenerate_returns_none in Htry as [-> ->].
Qed.

(** The import [B.sol] of [contracts/A.sol]: not an npm module, and the
    directory of [A.sol] holds [B.sol]. *)
Lemma C8_direct_local_import_witness :
  exists r0 r1 r2 fileA fileE,
    sourcesResolved r0 r1 r2 fileA fileE /\
    exists_ (Disk.fs Scenario.sources) "/p/contracts/B.sol" = true /\
    resolveImportThroughNpm Spec.lib (Disk.fs Scenario.sources) Scenario.fuel
      fileA "B.sol" "B.sol" r1
    = Returns (Failure (IMPORT_WITH_INVALID_NPM_SYNTAX "/p/contracts/A.sol"
                          "B.sol"), r1) /\
    resolveImport Spec.lib (Disk.fs Scenario.sources) Scenario.fuel fileA
      "B.sol" r1
    = Throws (JsError "Invalid direct import").
Proof.
  eexists _, _, _, _, _. split.
  - split; [vm_compute; reflexivity|].
    split; [vm_compute; reflexivity|].
    eexists. vm_compute. reflexivity.
  - split; [vm_compute; reflexivity|].
    split; [vm_compute; reflexivity|].
    refine (proj1 (C8_direct_local_import Spec.lib (Disk.fs Scenario.sources)
                     Scenario.fuel _ "B.sol" _ _ _ _ _ _ _ _ _ _) 0 _ _ _).
    + vm_compute. reflexivity.
    + vm_compute. reflexivity.
    + vm_compute. reflexivity.
    + vm_compute. reflexivity.
    + vm_compute. reflexivity.
    + right. reflexivity.
    + intros j Hj. assert (j = 0) as -> by lia. vm_compute. reflexivity.
    + vm_compute. reflexivity.
    + vm_compute. lia.
Defined.

(** ** Project files given with the wrong casing *)

(** What [resolveProjectFile] does with a path under the project root
    that names an existing file with another casing, outside of
    [node_modules]: it returns a success, never an error of casing. The
    file is the one interned under the source name built from the path as
    given, if there is one; else the one interned under the source name
    built from the true casing, if there is one, and then no content is
    read; else a new file, whose source name and path are built from the
    true casing, whose content is read from that path, and which is
    interned under its source name. *)
Lemma resolveProjectFile_other_casing lib fs r absoluteFilePath correctCasing :
  let relativeFilePath := Path.relative (projectRoot r) absoluteFilePath in
  let givenSourceName := projectSourceNameOf lib r relativeFilePath in
  let trueSourceName := projectSourceNameOf lib r correctCasing in
  let trueFsPath := Path.join [projectRoot r; correctCasing] in
  Js.startsWith absoluteFilePath (projectRoot r) = true ->
  getFileTrueCase fs (projectRoot r) relativeFilePath = Some correctCasing ->
  correctCasing <> relativeFilePath ->
  inNodeModules lib r trueSourceName = false ->
  (forall existing,
     resolvedFileBySourceName r !! givenSourceName = Some existing ->
     resolveProjectFile lib fs absoluteFilePath r
       = Returns (Success existing, r)) /\
  (forall existing,
     resolvedFileBySourceName r !! givenSourceName = None ->
     resolvedFileBySourceName r !! trueSourceName = Some existing ->
     resolveProjectFile lib fs absoluteFilePath r
       = Returns (Success existing, r)) /\
  (forall contents,
     resolvedFileBySourceName r !! givenSourceName = None ->
     resolvedFileBySourceName r !! trueSourceName = None ->
     readUtf8File fs trueFsPath = Some contents ->
     exists file r',
       resolveProjectFile lib fs absoluteFilePath r
         = Returns (Success file, r') /\
       sourceName file = trueSourceName /\
       fsPath file = trueFsPath /\
       text (content file) = contents /\
       file_type file = PROJECT_FILE /\
       resolvedFileBySourceName r' !! trueSourceName = Some file).
Proof.
  intros relativeFilePath givenSourceName trueSourceName trueFsPath
    Hunder Htrue Hdiff Hnm.
  assert (Hvalid : validateFsPath fs (projectRoot r) relativeFilePath
                   = Failure (CASING_ERROR correctCasing)).
  { unfold validateFsPath. rewrite Htrue.
    destruct (String.eqb relativeFilePath correctCasing) eqn:Heq; [|done].
    apply String.eqb_eq in Heq. congruence. }
  unfold inNodeModules in Hnm.
  split; [|split].
  - intros existing Hgiven. unfold resolveProjectFile. monad_red_goal.
    rewrite Hunder. cbn [negb].
    fold relativeFilePath. fold (projectSourceNameOf lib r relativeFilePath).
    fold givenSourceName. by rewrite Hgiven.
  - intros existing Hgiven Hinterned. unfold resolveProjectFile.
    monad_red_goal. rewrite Hunder. cbn [negb].
    fold relativeFilePath. fold (projectSourceNameOf lib r relativeFilePath).
    fold givenSourceName. rewrite Hgiven, Hvalid.
    fold (projectSourceNameOf lib r correctCasing). fold trueSourceName.
    by rewrite Hnm, Hinterned.
  - intros contents Hgiven Hinterned Hread. unfold resolveProjectFile.
    monad_red_goal. rewrite Hunder. cbn [negb].
    fold relativeFilePath. fold (projectSourceNameOf lib r relativeFilePath).
    fold givenSourceName. rewrite Hgiven, Hvalid.
    fold (projectSourceNameOf lib r correctCasing). fold trueSourceName.
    rewrite Hnm, Hinterned. fold trueFsPath.
    unfold readFileContent, newResolvedFile. monad_red_goal. rewrite Hread.
    destruct (analyze fs contents) as [imports pragmas].
    eexists _, _. split; [reflexivity|].
    cbn. repeat (split; [reflexivity|]).
    unfold with_resolvedFileBySourceName, with_nextFileRef. cbn.
    apply lookup_insert_eq.
Qed.

(** ** The states of the resolver *)

Lemma interns_wf r r' sn f :
  interns r r' sn f -> resolver_wf r -> resolver_wf r'.
Proof.
  intros [Hmap Hlook [->|[Hname Htable]]] [Hwf Hq Hint]; [done|].
  split.
  - by rewrite Hmap.
  - by rewrite Hmap.
  - intros k g Hg. rewrite Htable in Hg.
    destruct (decide (k = sn)) as [->|Hne].
    + rewrite lookup_insert_eq in Hg. by simplify_eq.
    + rewrite lookup_insert_ne in Hg by done. by apply Hint.
Qed.

Section ResolverInversion.

Context (lib : Lib) (fs : Fs).

Lemma readFileContent_inv {S} path (st : S) c st' :
  readFileContent fs path st = Returns (c, st') -> st' = st.
Proof.
  unfold readFileContent. monad_red_goal.
  destruct (readUtf8File fs path); [|discriminate].
  destruct (analyze fs _). intros. by simplify_eq.
Qed.

(** A file built by [#buildResolvedFile] has the source name it was given,
    and only the counter of references changes. *)
Lemma buildResolvedFile_inv sn path pkg r f r' :
  buildResolvedFile fs sn path pkg r = Returns (f, r') ->
  sourceName f = sn /\ r' = with_nextFileRef S r.
Proof.
  unfold buildResolvedFile. monad_red_goal. intros H.
  destruct (readFileContent fs path r) as [[c r1]| |] eqn:Hc; try discriminate.
  apply readFileContent_inv in Hc as ->.
  destruct (samePackage pkg _).
  - unfold newResolvedFile in H. monad_red H. by simplify_eq.
  - destruct (readFileContent fs path r) as [[c' r1]| |] eqn:Hc';
      try discriminate.
    apply readFileContent_inv in Hc' as ->.
    unfold newResolvedFile in H. monad_red H. by simplify_eq.
Qed.

(** When the shared tail of the two branches succeeds, the file is
    interned under the source name, with the remapping given. *)
Lemma validateAndBuild_success from importPath sn rel pkg reference rem r v r' :
  validateAndBuild fs from importPath sn rel pkg reference rem r
    = Returns (Success v, r') ->
  ri_remapping v = Some rem /\
  npmPackageMap r' = npmPackageMap r /\
  sourceName (ri_file v) = sn /\
  resolvedFileBySourceName r'
    = <[sn := ri_file v]> (resolvedFileBySourceName r).
Proof.
  unfold validateAndBuild. intros H.
  destruct (validateFsPath fs (rootFsPath pkg) rel) as [[]|[]|n].
  - monad_red H.
    destruct (buildResolvedFile fs sn _ pkg r) as [[f r1]| |] eqn:Hb;
      try discriminate.
    apply buildResolvedFile_inv in Hb as [Hname ->]. by simplify_eq.
  - monad_red H. discriminate.
  - monad_red H. discriminate.
  - monad_red H.
    destruct (buildResolvedFile fs sn _ pkg r) as [[f r1]| |] eqn:Hb;
      try discriminate.
    apply buildResolvedFile_inv in Hb as [Hname ->]. by simplify_eq.
Qed.

(** When it returns anything else, the state is unchanged, or a file has
    been interned. *)
Lemma validateAndBuild_inv from importPath sn rel pkg reference rem r res r' :
  validateAndBuild fs from importPath sn rel pkg reference rem r
    = Returns (res, r') ->
  r' = r \/ exists v, res = Success v.
Proof.
  unfold validateAndBuild. intros H.
  destruct (validateFsPath fs (rootFsPath pkg) rel) as [[]|[]|n];
    monad_red H;
    try (destruct (buildResolvedFile fs sn _ pkg r) as [[f r1]| |];
         try discriminate);
    simplify_eq; eauto.
Qed.

End ResolverInversion.

(** ** Resolving the same dependency twice *)

Section DependencyTwice.

Context (lib : Lib) (fs : Fs).

Lemma priv_resolve_known from n m deps e :
  installationMap m !! pkg_ref from = Some deps ->
  deps !! n = Some e ->
  priv_resolveDependencyByInstallationName fs from n m = Returns (Some e, m).
Proof.
  intros Hdeps He. unfold priv_resolveDependencyByInstallationName.
  monad_red_goal. rewrite Hdeps. by rewrite He.
Qed.

(** The public [resolveDependencyByInstallationName], on a map whose queue
    is empty: the remappings of the packages already resolved and the
    project package are untouched, and a second call returns the same
    dependency without changing the map. *)
Lemma resolveDependency_twice fuel from n m dr m1 :
  map_wf m -> remappingsToResolve m = [] ->
  resolveDependencyByInstallationName lib fs fuel from n m
    = Returns (Some dr, m1) ->
  hardhatProjectPackage m1 = hardhatProjectPackage m /\
  (forall a l, userRemappingsPerPackage m !! a = Some l ->
               userRemappingsPerPackage m1 !! a = Some l) /\
  (remappingErrros dr = None ->
   forall fuel',
     resolveDependencyByInstallationName lib fs fuel' from n m1
       = Returns (Some dr, m1)).
Proof.
  intros Hwf Hq H. unfold resolveDependencyByInstallationName in H.
  monad_red H.
  destruct (priv_resolveDependencyByInstallationName fs from n m)
    as [[[e|] m0]| |] eqn:Hpriv; try discriminate.
  unfold resolveAnyRemainingRemappings in H.
  destruct (resolveRemaining lib fs fuel [] m0) as [[errs m2]| |] eqn:Hloop;
    try discriminate.
  simplify_eq.
  pose proof (priv_resolve_remappings fs _ _ _ _ _ Hpriv) as Hur0.
  apply (priv_resolve_wf fs from) in Hpriv as (Hwf0 & Hext0 & Hres); [|done].
  destruct (Hres e eq_refl) as (_ & deps & Hdeps & He).
  apply resolveRemaining_wf in Hloop as (Hwf1 & Hlext & Hq1); [|done].
  destruct (lext_installations _ _ Hlext _ _ _ _ Hdeps He)
    as (deps1 & Hdeps1 & He1).
  split; [|split].
  - rewrite (lext_project _ _ Hlext). apply (ext_project _ _ _ Hext0).
  - intros a l Hl.
    rewrite (lext_remappings _ _ Hlext).
    + by rewrite Hur0.
    + pose proof (wf_remappings_refs _ Hwf _ _ Hl).
      pose proof (ext_nextRef _ _ _ Hext0). lia.
    + destruct (ext_queue _ _ _ Hext0) as (news & Hnews & Hfresh).
      rewrite Hq in Hnews. cbn in Hnews. rewrite Hnews.
      intros P HP. apply Hfresh in HP.
      pose proof (wf_remappings_refs _ Hwf _ _ Hl). lia.
  - intros Herrs fuel'. cbn in Herrs. destruct errs; [|discriminate].
    unfold resolveDependencyByInstallationName. monad_red_goal.
    rewrite (priv_resolve_known from n m1 deps1 e Hdeps1 He1).
    unfold resolveAnyRemainingRemappings.
    destruct fuel'; cbn [resolveRemaining]; by rewrite Hq1.
Qed.

End DependencyTwice.

(** ** Resolving the same import twice *)

Section ImportTwice.

Context (lib : Lib) (fs : Fs).

Local Abbreviation npmImportInto := (npmImportInto lib fs).

Lemma resolveImportThroughNpm_eq fuel from importPath directImport r :
  resolveImportThroughNpm lib fs fuel from importPath directImport r =
    match parseNpmDirectImport directImport with
    | None =>
        Returns (Failure (IMPORT_WITH_INVALID_NPM_SYNTAX (fsPath from)
                            importPath), r)
    | Some parsed =>
        match onPackageMap
                (resolveDependencyByInstallationName lib fs fuel
                   (fromNpmPackageOf r from) (parsed_package parsed)) r with
        | Returns (None, r1) =>
            Returns (Failure (IMPORT_OF_UNINSTALLED_PACKAGE (fsPath from)
                                importPath (parsed_package parsed)), r1)
        | Returns (Some dr, r1) =>
            match remappingErrros dr with
            | Some errors =>
                Returns (Failure (IMPORT_OF_NPM_PACKAGE_WITH_REMAPPING_ERRORS
                                    (fsPath from) importPath (dr_package dr)
                                    errors), r1)
            | None =>
                npmImportInto (fromNpmPackageOf r from) from importPath
                  directImport parsed dr r1
            end
        | Throws e => Throws e
        | OutOfFuel => OutOfFuel
        end
    end.
Proof.
  unfold resolveImportThroughNpm, npmImportInto.
  destruct (parseNpmDirectImport directImport) as [parsed|]; [|done].
  monad_red_goal.
  destruct (onPackageMap _ r) as [[[dr|] r1]| |]; try done.
  destruct (remappingErrros dr); done.
Qed.

Lemma resolvedSubpathOf_pure dependency subpath
    (r : NewResolverImplementation) x r1 :
  resolvedSubpathOf fs dependency subpath r = Returns (x, r1) ->
  r1 = r /\
  forall r2 : NewResolverImplementation,
    resolvedSubpathOf fs dependency subpath r2 = Returns (x, r2).
Proof.
  unfold resolvedSubpathOf, resolveSubpathWithPackageExports.
  destruct (exports dependency).
  - destruct (resolve_exports fs dependency subpath) as [| |[|first rest]];
      monad_red_goal; intros H; simplify_eq; done.
  - monad_red_goal. intros H. by simplify_eq.
Qed.

(** When the tail succeeds, the file is interned under a source name, and
    running the tail again returns the same success and changes nothing. *)
Lemma npmImportInto_twice fromPkg from importPath directImport parsed dr r v r' :
  npmImportInto fromPkg from importPath directImport parsed dr r
    = Returns (Success v, r') ->
  (exists sn, interns r r' sn (ri_file v)) /\
  npmImportInto fromPkg from importPath directImport parsed dr r'
    = Returns (Success v, r').
Proof.
  unfold npmImportInto. monad_red_goal.
  destruct (resolvedSubpathOf fs (dr_package dr) (parsed_subpath parsed) r)
    as [[[resolvedSubpath|] r1]| |] eqn:Hexp; try discriminate.
  apply resolvedSubpathOf_pure in Hexp as [-> Hagain]. rewrite (Hagain r').
  set (relativePath := match resolvedSubpath with
                       | Some s => s
                       | None => parsed_subpath parsed
                       end).
  set (sn := sourceNamePathJoin lib
               [rootSourceName (dr_package dr); relativePath]).
  destruct (resolvedFileBySourceName r !! sn) as [existing|] eqn:Hlook.
  - intros H. simplify_eq. split.
    + exists sn. split; auto.
    + by rewrite Hlook.
  - intros H.
    pose proof (validateAndBuild_success fs _ _ _ _ _ _ _ _ _ _ H)
      as (Hrem & Hmap & Hname & Htable).
    assert (Hlook' : resolvedFileBySourceName r' !! sn = Some (ri_file v)).
    { rewrite Htable. apply lookup_insert_eq. }
    split.
    + exists sn. split; auto.
    + rewrite Hlook'. destruct v as [f rem]. cbn in *. by rewrite Hrem.
Qed.

End ImportTwice.

Section ImportInvariant.

Context (lib : Lib) (fs : Fs).

Lemma with_npmPackageMap_id r : with_npmPackageMap (npmPackageMap r) r = r.
Proof. by destruct r. Qed.

(** [#resolveUserRemappedImport]: when it succeeds, the file is interned,
    and a second run returns the same success and changes nothing. *)
Lemma resolveUserRemappedImport_twice from importPath directImport rem r v r' :
  resolveUserRemappedImport lib fs from importPath directImport rem r
    = Returns (Success v, r') ->
  (exists sn, interns r r' sn (ri_file v)) /\
  resolveUserRemappedImport lib fs from importPath directImport rem r'
    = Returns (Success v, r').
Proof.
  unfold resolveUserRemappedImport. monad_red_goal.
  set (sn := applyValidRemapping lib directImport rem).
  destruct (resolvedFileBySourceName r !! sn) as [existing|] eqn:Hlook.
  - intros H. simplify_eq. split.
    + exists sn. split; auto.
    + by rewrite Hlook.
  - intros H.
    pose proof (validateAndBuild_success fs _ _ _ _ _ _ _ _ _ _ H)
      as (Hrem & Hmap & Hname & Htable).
    assert (Hlook' : resolvedFileBySourceName r' !! sn = Some (ri_file v)).
    { rewrite Htable. apply lookup_insert_eq. }
    split.
    + exists sn. split; auto.
    + rewrite Hlook'. destruct v as [f rem']. cbn in *. by rewrite Hrem.
Qed.

Lemma resolveUserRemappedImport_wf from importPath directImport rem r res r' :
  resolver_wf r ->
  resolveUserRemappedImport lib fs from importPath directImport rem r
    = Returns (res, r') ->
  resolver_wf r'.
Proof.
  intros Hwf H. destruct res as [v|e|n].
  - apply resolveUserRemappedImport_twice in H as [[sn Hint] _].
    by eapply interns_wf.
  - unfold resolveUserRemappedImport in H. monad_red H.
    destruct (resolvedFileBySourceName r !! _); [by simplify_eq|].
    apply validateAndBuild_inv in H as [->|[v ?]]; [done|discriminate].
  - unfold resolveUserRemappedImport in H. monad_red H.
    destruct (resolvedFileBySourceName r !! _); [by simplify_eq|].
    apply validateAndBuild_inv in H as [->|[v ?]]; [done|discriminate].
Qed.

Lemma npmImportInto_wf fromPkg from importPath directImport parsed dr r res r' :
  resolver_wf r ->
  npmImportInto lib fs fromPkg from importPath directImport parsed dr r
    = Returns (res, r') ->
  resolver_wf r'.
Proof.
  intros Hwf H. destruct res as [v|e|n].
  - apply npmImportInto_twice in H as [[sn Hint] _]. by eapply interns_wf.
  - unfold npmImportInto in H. monad_red H.
    destruct (resolvedSubpathOf fs _ _ r) as [[x r1]| |] eqn:Hexp;
      try discriminate.
    apply resolvedSubpathOf_pure in Hexp as [-> _].
    destruct x as [x|]; [|by simplify_eq].
    destruct (resolvedFileBySourceName r !! _); [by simplify_eq|].
    apply validateAndBuild_inv in H as [->|[v ?]]; [done|discriminate].
  - unfold npmImportInto in H. monad_red H.
    destruct (resolvedSubpathOf fs _ _ r) as [[x r1]| |] eqn:Hexp;
      try discriminate.
    apply resolvedSubpathOf_pure in Hexp as [-> _].
    destruct x as [x|]; [|by simplify_eq].
    destruct (resolvedFileBySourceName r !! _); [by simplify_eq|].
    apply validateAndBuild_inv in H as [->|[v ?]]; [done|discriminate].
Qed.

Lemma onPackageMap_resolveDependency_wf fuel from n r res r1 :
  resolver_wf r ->
  onPackageMap (resolveDependencyByInstallationName lib fs fuel from n) r
    = Returns (res, r1) ->
  resolver_wf r1 /\
  resolveDependencyByInstallationName lib fs fuel from n (npmPackageMap r)
    = Returns (res, npmPackageMap r1) /\
  resolvedFileBySourceName r1 = resolvedFileBySourceName r.
Proof.
  intros [Hwf Hq Hint] H. unfold onPackageMap in H.
  destruct (resolveDependencyByInstallationName lib fs fuel from n
              (npmPackageMap r)) as [[res' m1]| |] eqn:Hdep; try discriminate.
  simplify_eq. split; [|done].
  apply resolveDependency_wf in Hdep as [Hwf1 Hq1]; [|done].
  split; [done|by apply Hq1|done].
Qed.

Lemma resolveImportThroughNpm_wf fuel from importPath directImport r res r' :
  resolver_wf r ->
  resolveImportThroughNpm lib fs fuel from importPath directImport r
    = Returns (res, r') ->
  resolver_wf r'.
Proof.
  intros Hwf. rewrite resolveImportThroughNpm_eq.
  destruct (parseNpmDirectImport directImport) as [parsed|];
    [|intros; by simplify_eq].
  destruct (onPackageMap _ r) as [[[dr|] r1]| |] eqn:Hdep; try discriminate.
  - apply onPackageMap_resolveDependency_wf in Hdep as (Hwf1 & _ & _); [|done].
    destruct (remappingErrros dr); [intros; by simplify_eq|].
    by apply npmImportInto_wf.
  - apply onPackageMap_resolveDependency_wf in Hdep as (Hwf1 & _ & _); [|done].
    intros; by simplify_eq.
Qed.

(** [#resolveImport] keeps the invariant of the resolver. *)
Lemma resolveImport_wf fuel from importPath r res r' :
  resolver_wf r ->
  resolveImport lib fs fuel from importPath r = Returns (res, r') ->
  resolver_wf r'.
Proof.
  intros Hwf. unfold resolveImport.
  destruct (Js.includes importPath _);
    [monad_red_goal; intros; by simplify_eq|].
  destruct (isRelativeImport importPath && _);
    [monad_red_goal; intros; by simplify_eq|].
  monad_red_goal.
  destruct (onPackageMap (getUserRemappings (package from)) r)
    as [[l r0]| |] eqn:Hl; try discriminate.
  apply onPackageMap_getUserRemappings_inv in Hl as [Hl ->].
  destruct (isRelativeImport importPath).
  - destruct (selectBestRemapping _ _ _ _); [discriminate|].
    unfold resolveRelativeImport. monad_red_goal. intros; by simplify_eq.
  - destruct (selectBestRemapping _ _ _ _) as [rem|].
    + by apply resolveUserRemappedImport_wf.
    + destruct (resolveImportThroughNpm lib fs fuel from importPath _ r)
        as [[res1 r1]| |] eqn:Hnpm; try discriminate.
      apply resolveImportThroughNpm_wf in Hnpm; [|done].
      assert (Hfallback : forall e,
                match tryToGenerateDirectLocalImportError fs fuel from
                        importPath r1 with
                | Returns (a, st') =>
                    match a with
                    | Some improvedError =>
                        fun st => Returns (Failure improvedError, st)
                    | None =>
                        fun st => Returns (Failure e : ImportResult, st)
                    end st'
                | Throws x => Throws x
                | OutOfFuel => OutOfFuel
                end = Returns (res, r') -> resolver_wf r').
      { intros e H.
        destruct (tryToGenerateDirectLocalImportError fs fuel from importPath r1)
          as [[o r2]| |] eqn:Htry; try discriminate.
        apply tryToGenerate_returns_none in Htry as [-> ->]. by simplify_eq. }
      destruct res1 as [v|e|k]; [intros; by simplify_eq| |intros; by simplify_eq].
      destruct e; try (intros; by simplify_eq); apply Hfallback.
Qed.

(** [resolveProjectFile] keeps the invariant of the resolver. *)
Lemma resolveProjectFile_wf absoluteFilePath r res r' :
  resolver_wf r ->
  resolveProjectFile lib fs absoluteFilePath r = Returns (res, r') ->
  resolver_wf r'.
Proof.
  intros Hwf. unfold resolveProjectFile. monad_red_goal.
  destruct (negb _); [intros; by simplify_eq|].
  destruct (resolvedFileBySourceName r !! _); [intros; by simplify_eq|].
  destruct (match validateFsPath fs (projectRoot r) _ with
            | Failure DOESNT_EXIST => None
            | Failure (CASING_ERROR c) => _
            | _ => _
            end) as [[real sn]|]; [|intros; by simplify_eq].
  destruct (Js.startsWith sn _); [intros; by simplify_eq|].
  destruct (resolvedFileBySourceName r !! sn) eqn:Hlook;
    [intros; by simplify_eq|].
  destruct (readFileContent fs _ r) as [[c r1]| |] eqn:Hc; try discriminate.
  apply readFileContent_inv in Hc as ->.
  unfold newResolvedFile. monad_red_goal. intros H. simplify_eq.
  destruct Hwf as [Hwf Hq Hint]. split; [done|done|].
  intros k f Hf. cbn in Hf.
  destruct (decide (k = sn)) as [->|Hne].
  - rewrite lookup_insert_eq in Hf. by simplify_eq.
  - rewrite lookup_insert_ne in Hf by done. by apply Hint.
Qed.

Lemma createResolver_wf fuel root r :
  createResolver lib fs fuel root = Returns (Success r) -> resolver_wf r.
Proof.
  unfold createResolver, create. intros H.
  destruct (createMap lib fs fuel root) as [[errors m]| |] eqn:Hc;
    try discriminate.
  destruct errors; [|discriminate]. simplify_eq.
  apply createMap_wf in Hc as [Hwf Hq].
  split; [done|done|]. intros k f Hf. cbn in Hf.
  rewrite lookup_empty in Hf. done.
Qed.

Lemma reachable_wf r : reachable lib fs r -> resolver_wf r.
Proof.
  induction 1 as [fuel root r H|abs r res r' _ IH H|fuel from imp r res r' _ IH H].
  - by eapply createResolver_wf.
  - by eapply resolveProjectFile_wf.
  - by eapply resolveImport_wf.
Qed.

End ImportInvariant.

Section Idempotence.

Context (lib : Lib) (fs : Fs).

(** What [#resolveImport] does with a direct import without backslash,
    once the user remappings of the package are known. *)
Lemma resolveImport_direct_eq fuel from importPath r l :
  Js.includes importPath (String Js.backslash EmptyString) = false ->
  isRelativeImport importPath = false ->
  userRemappingsPerPackage (npmPackageMap r) !! pkg_ref (package from) = Some l ->
  resolveImport lib fs fuel from importPath r =
    match selectBestRemapping lib (sourceName from) importPath l with
    | Some remapping =>
        resolveUserRemappedImport lib fs from importPath importPath remapping r
    | None =>
        match resolveImportThroughNpm lib fs fuel from importPath importPath r
        with
        | Returns (Failure e, r1) =>
            if runsFallback e then
              match tryToGenerateDirectLocalImportError fs fuel from
                      importPath r1 with
              | Returns (Some improvedError, r2) =>
                  Returns (Failure improvedError, r2)
              | Returns (None, r2) => Returns (Failure e, r2)
              | Throws x => Throws x
              | OutOfFuel => OutOfFuel
              end
            else Returns (Failure e, r1)
        | o => o
        end
    end.
Proof.
  intros Hbs Hrel Hl.
  destruct (selectBestRemapping lib (sourceName from) importPath l)
    as [rem|] eqn:Hbest.
  - unfold resolveImport, directImportOf. rewrite Hbs, Hrel. cbn [andb].
    monad_red_goal.
    by rewrite (onPackageMap_getUserRemappings from r l Hl), Hbest.
  - exact (resolveImport_direct lib fs fuel from importPath r l
             Hbs Hrel Hl Hbest).
Qed.

(** A successful [#resolveImport] is a direct import, without backslash,
    from a package whose user remappings are resolved. *)
Lemma resolveImport_success_inv fuel from importPath r v r' :
  resolveImport lib fs fuel from importPath r = Returns (Success v, r') ->
  Js.includes importPath (String Js.backslash EmptyString) = false /\
  isRelativeImport importPath = false /\
  exists l,
    userRemappingsPerPackage (npmPackageMap r) !! pkg_ref (package from)
      = Some l.
Proof.
  intros H.
  destruct (isRelativeImport importPath) eqn:Hrel.
  { rewrite (resolveImport_relative lib fs fuel from importPath r Hrel) in H.
    destruct (Js.includes importPath _); [discriminate|].
    destruct (negb _); [discriminate|].
    destruct (onPackageMap _ r) as [[l r'']| |]; try discriminate.
    destruct (selectBestRemapping _ _ _ _); discriminate. }
  unfold resolveImport in H. rewrite Hrel in H.
  destruct (Js.includes importPath _); [monad_red H; discriminate|].
  cbn [andb] in H. monad_red H.
  destruct (onPackageMap (getUserRemappings (package from)) r)
    as [[l r0]| |] eqn:Hl; try discriminate.
  apply onPackageMap_getUserRemappings_inv in Hl as [Hl ->].
  split; [done|]. split; [done|]. by exists l.
Qed.

(** The core of the idempotence: on a resolver that satisfies the
    invariant, a successful resolution interns the file under its source
    name, and resolving again returns the same success and leaves the
    resolver as it is. *)
Lemma resolveImport_twice fuel from importPath r v r' :
  resolver_wf r ->
  resolveImport lib fs fuel from importPath r = Returns (Success v, r') ->
  resolvedFileBySourceName r' !! sourceName (ri_file v) = Some (ri_file v) /\
  forall fuel',
    resolveImport lib fs fuel' from importPath r' = Returns (Success v, r').
Proof.
  intros Hwf H.
  pose proof (resolveImport_success_inv _ _ _ _ _ _ H) as (Hbs & Hrel & l & Hl).
  rewrite (resolveImport_direct_eq fuel from importPath r l Hbs Hrel Hl) in H.
  assert (Hname : forall sn, interns r r' sn (ri_file v) ->
            resolvedFileBySourceName r' !! sourceName (ri_file v)
              = Some (ri_file v)).
  { intros sn [Hmap Hlook [->|[Hsn _]]].
    - by rewrite (rwf_interned _ Hwf _ _ Hlook).
    - by rewrite Hsn. }
  destruct (selectBestRemapping lib (sourceName from) importPath l)
    as [rem|] eqn:Hbest.
  - apply resolveUserRemappedImport_twice in H as [[sn Hint] Hagain].
    split; [by eapply Hname|]. intros fuel'.
    assert (Hl' : userRemappingsPerPackage (npmPackageMap r')
                    !! pkg_ref (package from) = Some l).
    { by rewrite (in_map _ _ _ _ Hint). }
    rewrite (resolveImport_direct_eq fuel' from importPath r' l Hbs Hrel Hl').
    by rewrite Hbest.
  - destruct (resolveImportThroughNpm lib fs fuel from importPath importPath r)
      as [[[v1|e|k] r1]| |] eqn:Hnpm; try discriminate.
    2:{ destruct (runsFallback e); [|discriminate].
        destruct (tryToGenerateDirectLocalImportError _ _ _ _ r1)
          as [[[improved|] r2]| |]; discriminate. }
    simplify_eq.
    rewrite resolveImportThroughNpm_eq in Hnpm.
    destruct (parseNpmDirectImport importPath) as [parsed|] eqn:Hparse;
      [|discriminate].
    destruct (onPackageMap _ r) as [[[dr|] r1]| |] eqn:Hdep; try discriminate.
    destruct (remappingErrros dr) eqn:Herrs; [discriminate|].
    apply onPackageMap_resolveDependency_wf in Hdep as (Hwf1 & Hdep & Htable);
      [|done].
    destruct (resolveDependency_twice lib fs _ _ _ _ _ _
                (rwf_map _ Hwf) (rwf_queue _ Hwf) Hdep)
      as (Hproject & Hur & Hdep2).
    apply npmImportInto_twice in Hnpm as [[sn Hint] Hagain].
    assert (Hname1 : resolvedFileBySourceName r' !! sourceName (ri_file v)
                     = Some (ri_file v)).
    { destruct Hint as [Hmap Hlook [->|[Hsn _]]].
      - by rewrite (rwf_interned _ Hwf1 _ _ Hlook).
      - by rewrite Hsn. }
    split; [done|]. intros fuel'.
    pose proof (in_map _ _ _ _ Hint) as Hmap.
    assert (Hl' : userRemappingsPerPackage (npmPackageMap r')
                    !! pkg_ref (package from) = Some l).
    { rewrite Hmap. by apply Hur. }
    rewrite (resolveImport_direct_eq fuel' from importPath r' l Hbs Hrel Hl').
    rewrite Hbest, resolveImportThroughNpm_eq, Hparse.
    assert (Hfrom : fromNpmPackageOf r' from = fromNpmPackageOf r from).
    { unfold fromNpmPackageOf. by rewrite Hmap, Hproject. }
    rewrite Hfrom. unfold onPackageMap.
    rewrite Hmap, (Hdep2 Herrs fuel'), <- Hmap, with_npmPackageMap_id.
    by rewrite Herrs, Hagain.
Qed.

End Idempotence.

(** C9. Idempotent resolution. On every resolver reached from [create],
    if [resolveImport] succeeds, the file it returns is the one interned
    under its source name, and a second call with the same arguments
    succeeds again, whatever its fuel, with the same value (the same file
    object) and without changing the resolver: no file is built. *)
Theorem C9_idempotent_resolution lib fs fuel from importPath r v r' :
  reachable lib fs r ->
  resolveImport lib fs fuel from importPath r = Returns (Success v, r') ->
  resolvedFileBySourceName r' !! sourceName (ri_file v) = Some (ri_file v) /\
  forall fuel',
    exists v',
      resolveImport lib fs fuel' from importPath r' = Returns (Success v', r') /\
      ri_file v' = ri_file v /\
      resolvedFileBySourceName r' !! sourceName (ri_file v')
        = Some (ri_file v').
Proof.
  intros Hreach H. apply reachable_wf in Hreach.
  destruct (resolveImport_twice lib fs _ _ _ _ _ _ Hreach H) as [Hint Hagain].
  split; [done|]. intros fuel'. exists v. auto.
Qed.

(** The import [dep1/src/A.sol] of [contracts/A.sol], resolved through
    npm, twice. *)
Lemma C9_idempotent_resolution_witness :
  exists r0 r1 fileA v r2,
    createResolver Spec.lib (Disk.fs Scenario.sources) Scenario.fuel "/p"
      = Returns (Success r0) /\
    resolveProjectFile Spec.lib (Disk.fs Scenario.sources)
      "/p/contracts/A.sol" r0 = Returns (Success fileA, r1) /\
    resolveImport Spec.lib (Disk.fs Scenario.sources) Scenario.fuel fileA
      "dep1/src/A.sol" r1 = Returns (Success v, r2) /\
    sourceName (ri_file v) = "npm/dep1@1.2.0/src/A.sol" /\
    resolvedFileBySourceName r2 !! "npm/dep1@1.2.0/src/A.sol"
      = Some (ri_file v) /\
    exists v',
      resolveImport Spec.lib (Disk.fs Scenario.sources) 0 fileA
        "dep1/src/A.sol" r2 = Returns (Success v', r2) /\
      ri_file v' = ri_file v.
Proof.
  eassert (H0 : createResolver Spec.lib (Disk.fs Scenario.sources)
                  Scenario.fuel "/p" = Returns (Success _))
    by (vm_compute; reflexivity).
  match type of H0 with
  | _ = Returns (Success ?r0) =>
      eassert (H1 : resolveProjectFile Spec.lib (Disk.fs Scenario.sources)
                      "/p/contracts/A.sol" r0 = Returns (Success _, _))
        by (vm_compute; reflexivity)
  end.
  match type of H1 with
  | _ = Returns (Success ?fileA, ?r1) =>
      eassert (H2 : resolveImport Spec.lib (Disk.fs Scenario.sources)
                      Scenario.fuel fileA "dep1/src/A.sol" r1
                    = Returns (Success _, _))
        by (vm_compute; reflexivity)
  end.
  pose proof (C9_idempotent_resolution _ _ _ _ _ _ _ _
                (reach_resolveProjectFile _ _ _ _ _ _
                   (reach_create _ _ _ _ _ H0) H1) H2)
    as [Hint Hagain].
  destruct (Hagain 0) as (v' & Hres & Hfile & _).
  eexists _, _, _, _, _. split; [exact H0|]. split; [exact H1|].
  split; [exact H2|]. split; [reflexivity|]. split; [exact Hint|].
  exists v'. split; [exact Hres|exact Hfile].
Defined.

(** ** A project file interned by a remapped import *)

Section RemappedProjectFiles.

Context (lib : Lib) (fs : Fs).

(** A file [#buildResolvedFile] builds for the project package has the
    source name and the path it was given. *)
Lemma buildResolvedFile_project sn path r f r' :
  buildResolvedFile fs sn path (hardhatProjectPackage (npmPackageMap r)) r
    = Returns (f, r') ->
  sourceName f = sn /\ fsPath f = path /\ r' = with_nextFileRef S r.
Proof.
  intros Hb. unfold buildResolvedFile in Hb. monad_red Hb.
  destruct (readFileContent fs _ r) as [[c r2]| |] eqn:Hc; try discriminate.
  apply readFileContent_inv in Hc as ->.
  assert (Hsame : samePackage (hardhatProjectPackage (npmPackageMap r))
                    (hardhatProjectPackage (npmPackageMap r)) = true)
    by apply Nat.eqb_refl.
  rewrite Hsame in Hb.
  unfold newResolvedFile in Hb. monad_red Hb. by simplify_eq.
Qed.

(** The file [#resolveUserRemappedImport] builds for a remapping into the
    project: [#getRelativeSourceNamePath] returns the whole source name for
    the project package, so the path of the file is the root of the project
    joined with the source name, its root source name included. *)
Lemma resolveUserRemappedImport_project from importPath r u v r' :
  file_type from = PROJECT_FILE ->
  targetNpmPackage u = None ->
  resolvedFileBySourceName r !! applyValidRemapping lib importPath u = None ->
  resolveUserRemappedImport lib fs from importPath importPath u r
    = Returns (Success v, r') ->
  let sn := applyValidRemapping lib importPath u in
  sourceName (ri_file v) = sn /\
  fsPath (ri_file v)
    = Path.join [rootFsPath (hardhatProjectPackage (npmPackageMap r));
                 sourceNamePathToFsPath lib sn] /\
  projectRoot r' = projectRoot r /\
  npmPackageMap r' = npmPackageMap r /\
  resolvedFileBySourceName r'
    = <[sn := ri_file v]> (resolvedFileBySourceName r).
Proof.
  intros Htype Htarget Hlook H sn.
  unfold resolveUserRemappedImport in H. monad_red H.
  fold sn in H, Hlook. rewrite Hlook, Htarget in H.
  unfold fromNpmPackageOf in H. rewrite Htype in H.
  assert (Hsame : samePackage (hardhatProjectPackage (npmPackageMap r))
                    (hardhatProjectPackage (npmPackageMap r)) = true)
    by apply Nat.eqb_refl.
  unfold getRelativeSourceNamePath in H. rewrite Hsame in H.
  unfold validateAndBuild in H.
  destruct (validateFsPath fs _ _) as [[]|[]|n]; monad_red H;
    try discriminate;
    (destruct (buildResolvedFile fs sn _ _ r) as [[f r1]| |] eqn:Hb;
     [|discriminate..];
     apply buildResolvedFile_project in Hb as (Hname & Hpath & ->);
     by simplify_eq).
Qed.

End RemappedProjectFiles.

(** C10. A project file interned by a remapped import does not have the
    path built from the true casing. When a direct import of a project file
    is resolved through a user remapping into the project and builds a
    file, the path of that file is the root of the project joined with its
    whole source name, the root source name [project] included. When
    [resolveProjectFile] is then given a path of another casing whose true
    casing gives that source name, it succeeds and returns that very file:
    its path is not the one built from the true casing. *)
Theorem C10_project_file_of_remapped_import
    lib fs fuel from importPath r l u v r' absoluteFilePath correctCasing :
  let sn := applyValidRemapping lib importPath u in
  Js.includes importPath (String Js.backslash EmptyString) = false ->
  isRelativeImport importPath = false ->
  file_type from = PROJECT_FILE ->
  userRemappingsPerPackage (npmPackageMap r) !! pkg_ref (package from) = Some l ->
  selectBestRemapping lib (sourceName from) importPath l = Some u ->
  targetNpmPackage u = None ->
  resolvedFileBySourceName r !! sn = None ->
  resolveImport lib fs fuel from importPath r = Returns (Success v, r') ->
  let relativeFilePath := Path.relative (projectRoot r') absoluteFilePath in
  Js.startsWith absoluteFilePath (projectRoot r') = true ->
  getFileTrueCase fs (projectRoot r') relativeFilePath = Some correctCasing ->
  correctCasing <> relativeFilePath ->
  projectSourceNameOf lib r' correctCasing = sn ->
  inNodeModules lib r' sn = false ->
  resolvedFileBySourceName r' !! projectSourceNameOf lib r' relativeFilePath
    = None ->
  resolveProjectFile lib fs absoluteFilePath r'
    = Returns (Success (ri_file v), r') /\
  sourceName (ri_file v) = projectSourceNameOf lib r' correctCasing /\
  fsPath (ri_file v)
    = Path.join [rootFsPath (hardhatProjectPackage (npmPackageMap r'));
                 sourceNamePathToFsPath lib
                   (projectSourceNameOf lib r' correctCasing)].
Proof.
  intros sn Hbs Hrel Htype Hl Hbest Htarget Hlook H relativeFilePath
    Hunder Htrue Hdiff Hsn Hnm Hgiven.
  rewrite (resolveImport_direct_eq lib fs fuel from importPath r l Hbs Hrel Hl),
    Hbest in H.
  apply resolveUserRemappedImport_project in H
    as (Hname & Hpath & Hroot & Hmap & Htable); [|done..].
  fold sn in Hname, Hpath, Htable.
  split; [|split].
  - refine (proj1 (proj2 (resolveProjectFile_other_casing lib fs r'
              absoluteFilePath correctCasing Hunder Htrue Hdiff _))
              (ri_file v) Hgiven _).
    + by rewrite Hsn.
    + rewrite Hsn, Htable. apply lookup_insert_eq.
  - by rewrite Hsn.
  - by rewrite Hsn, Hmap.
Qed.

(** The import [foo/X.sol] of [contracts/A.sol] is resolved through the
    remapping [foo/=bar/] into the source name [project/bar/X.sol]; the
    file built has the path [/p/project/bar/X.sol]. The path [/p/bar/x.sol]
    names the file [/p/bar/X.sol] with another casing; [resolveProjectFile]
    returns the file of the import, whose path is not [/p/bar/X.sol]. *)
Lemma C10_project_file_of_remapped_import_witness :
  exists r0 r1 r2 r3 fileA fileE file,
    sourcesResolved r0 r1 r2 fileA fileE /\
    (exists remapping,
       resolveImport Spec.lib (Disk.fs Scenario.sources) Scenario.fuel fileA
         "foo/X.sol" r2
       = Returns (Success {| ri_file := file; ri_remapping := remapping |},
                  r3)) /\
    getFileTrueCase (Disk.fs Scenario.sources) (projectRoot r3)
      (Path.relative (projectRoot r3) "/p/bar/x.sol") = Some "bar/X.sol" /\
    resolveProjectFile Spec.lib (Disk.fs Scenario.sources) "/p/bar/x.sol" r3
    = Returns (Success file, r3) /\
    sourceName file = "project/bar/X.sol" /\
    fsPath file = "/p/project/bar/X.sol" /\
    Path.join [projectRoot r3; "bar/X.sol"] = "/p/bar/X.sol".
Proof.
  eassert (H0 : createResolver Spec.lib (Disk.fs Scenario.sources)
                  Scenario.fuel "/p" = Returns (Success _))
    by (vm_compute; reflexivity).
  match type of H0 with
  | _ = Returns (Success ?r0) =>
  eassert (H1 : resolveProjectFile Spec.lib (Disk.fs Scenario.sources)
                  "/p/contracts/A.sol" r0 = Returns (Success _, _))
    by (vm_compute; reflexivity);
  match type of H1 with
  | _ = Returns (Success ?fileA, ?r1) =>
  eassert (H2 : resolveImport Spec.lib (Disk.fs Scenario.sources)
                  Scenario.fuel fileA "ext/E.sol" r1
                = Returns (Success {| ri_file := _; ri_remapping := _ |}, _))
    by (vm_compute; reflexivity);
  match type of H2 with
  | _ = Returns (Success {| ri_file := ?fileE |}, ?r2) =>
  eassert (H3 : resolveImport Spec.lib (Disk.fs Scenario.sources)
                  Scenario.fuel fileA "foo/X.sol" r2
                = Returns (Success {| ri_file := _; ri_remapping := _ |}, _))
    by (vm_compute; reflexivity);
  match type of H3 with
  | _ = Returns (Success {| ri_file := ?file; ri_remapping := ?rem |}, ?r3) =>
  eassert (Hl : userRemappingsPerPackage (npmPackageMap r2)
                  !! pkg_ref (package fileA) = Some _)
    by (vm_compute; reflexivity);
  match type of Hl with
  | _ = Some ?l0 =>
  eassert (Hbest : selectBestRemapping Spec.lib (sourceName fileA) "foo/X.sol"
                     l0 = Some _)
    by (vm_compute; reflexivity);
  match type of Hbest with
  | _ = Some ?u0 =>
      pose proof
        (C10_project_file_of_remapped_import Spec.lib
           (Disk.fs Scenario.sources) Scenario.fuel fileA "foo/X.sol" r2 l0 u0
           {| ri_file := file; ri_remapping := rem |} r3
           "/p/bar/x.sol" "bar/X.sol"
           eq_refl eq_refl eq_refl Hl Hbest eq_refl
           ltac:(vm_compute; reflexivity) H3
           ltac:(vm_compute; reflexivity)
           ltac:(vm_compute; reflexivity)
           ltac:(vm_compute; discriminate)
           ltac:(vm_compute; reflexivity)
           ltac:(vm_compute; reflexivity)
           ltac:(vm_compute; reflexivity))
        as (Hres & _ & _);
      exists r0, r1, r2, r3, fileA, fileE, file;
      split; [split; [exact H0|]; split; [exact H1|]; eexists; exact H2|];
      split; [eexists; exact H3|];
      split; [vm_compute; reflexivity|];
      split; [exact Hres|];
      split; [reflexivity|]; split; [reflexivity|];
      vm_compute; reflexivity
  end end end end end end.
Defined.

(** * More of the code: the parser, the classifier, the map and the resolver *)

(** ** The parser of npm modules *)

Lemma append_nil (b : string) : "" +:+ b = b.
Proof. reflexivity. Qed.

Lemma append_cons c (a b : string) : String c a +:+ b = String c (a +:+ b).
Proof. reflexivity. Qed.

Lemma append_assoc (a b c : string) : (a +:+ b) +:+ c = a +:+ (b +:+ c).
Proof.
  induction a as [|x a IH]; [done|]. by rewrite !append_cons, IH.
Qed.

Lemma span_inv f s a b :
  Js.span f s = (a, b) ->
  s = a +:+ b /\ Js.forallb f a = true /\
  match b with String c _ => f c = false | EmptyString => True end.
Proof.
  revert a b. induction s as [|c s IH]; intros a b H; cbn in H.
  - by simplify_eq.
  - destruct (f c) eqn:Hc.
    + destruct (Js.span f s) as [a' b'] eqn:Hs. simplify_eq.
      destruct (IH _ _ eq_refl) as (-> & Ha & Hb).
      rewrite append_cons. cbn. by rewrite Hc, Ha.
    + simplify_eq. rewrite append_nil. cbn. done.
Qed.

Lemma span_intro f a c b :
  Js.forallb f a = true -> f c = false ->
  Js.span f (a +:+ String c b) = (a, String c b).
Proof.
  induction a as [|d a IH]; cbn; intros Ha Hc.
  - rewrite append_nil. cbn. by rewrite Hc.
  - apply andb_true_iff in Ha as [Hd Ha]. rewrite append_cons. cbn.
    by rewrite Hd, IH.
Qed.

Lemma slash_not_name : isNpmNameChar Js.slash = false.
Proof. reflexivity. Qed.

Lemma matchNameAndPath_inv s name path :
  matchNameAndPath s = Some (name, path) ->
  s = name +:+ "/" +:+ path /\ isNpmUnscopedName name = true /\
  freeOfLineTerminators path = true.
Proof.
  unfold matchNameAndPath. destruct (Js.span isNpmNameChar s) as [a b] eqn:Hs.
  apply span_inv in Hs as (-> & Ha & Hb).
  destruct a as [|c a]; [discriminate|]. destruct b as [|d b]; [discriminate|].
  destruct (isNpmNameStartChar c) eqn:Hc; [|discriminate].
  destruct (Ascii.eqb d Js.slash) eqn:Hd; [|discriminate].
  destruct (Js.forallb _ b) eqn:Hp; [|discriminate].
  cbn [andb]. intros [= <- <-]. apply Ascii.eqb_eq in Hd as ->.
  split; [done|]. split; [|done].
  cbn in Ha. apply andb_true_iff in Ha as [_ Ha]. cbn. by rewrite Hc, Ha.
Qed.

Lemma matchNameAndPath_intro name path :
  isNpmUnscopedName name = true -> freeOfLineTerminators path = true ->
  matchNameAndPath (name +:+ "/" +:+ path) = Some (name, path).
Proof.
  intros Hn Hp. destruct name as [|c name]; [discriminate|].
  cbn in Hn. apply andb_true_iff in Hn as [Hc Hn].
  unfold matchNameAndPath.
  assert (Hname : Js.forallb isNpmNameChar (String c name) = true).
  { cbn. rewrite Hn. unfold isNpmNameChar. by rewrite Hc. }
  change (String c name +:+ "/" +:+ path)
    with (String c name +:+ String Js.slash path).
  rewrite (span_intro _ _ _ _ Hname slash_not_name).
  rewrite Hc. cbn. unfold freeOfLineTerminators in Hp. by rewrite Hp.
Qed.

Lemma parseNpmDirectImport_inv directImport p :
  parseNpmDirectImport directImport = Some p ->
  directImport = parsed_package p +:+ "/" +:+ parsed_subpath p /\
  getNpmPackageName directImport = Some (parsed_package p) /\
  freeOfLineTerminators (parsed_subpath p) = true /\
  (isNpmUnscopedName (parsed_package p) = true \/
   exists scope name,
     parsed_package p = "@" +:+ scope +:+ "/" +:+ name /\
     isNpmScope scope = true /\ isNpmUnscopedName name = true).
Proof.
  intros H. split; [|split].
  2:{ unfold getNpmPackageName. by rewrite H. }
  all: unfold parseNpmDirectImport in H.
  all: destruct directImport as [|c s]; [discriminate|].
  all: destruct (Ascii.eqb c "@") eqn:Hat.
  - apply Ascii.eqb_eq in Hat as ->.
    destruct (Js.span isNpmNameChar s) as [scope rest] eqn:Hs.
    apply span_inv in Hs as (-> & Hscope & _).
    destruct scope as [|x scope]; [discriminate|].
    destruct rest as [|d rest]; [discriminate|].
    destruct (Ascii.eqb d Js.slash) eqn:Hd; [|discriminate].
    apply Ascii.eqb_eq in Hd as ->.
    destruct (matchNameAndPath rest) as [[name path]|] eqn:Hm; [|discriminate].
    apply matchNameAndPath_inv in Hm as (-> & _ & _). simplify_eq. cbn.
    f_equal. f_equal. rewrite !append_assoc. done.
  - destruct (matchNameAndPath (String c s)) as [[name path]|] eqn:Hm;
      [|discriminate].
    apply matchNameAndPath_inv in Hm as (Heq & _ & _). by simplify_eq.
  - apply Ascii.eqb_eq in Hat as ->.
    destruct (Js.span isNpmNameChar s) as [scope rest] eqn:Hs.
    apply span_inv in Hs as (-> & Hscope & _).
    destruct scope as [|x scope]; [discriminate|].
    destruct rest as [|d rest]; [discriminate|].
    destruct (Ascii.eqb d Js.slash) eqn:Hd; [|discriminate].
    destruct (matchNameAndPath rest) as [[name path]|] eqn:Hm; [|discriminate].
    apply matchNameAndPath_inv in Hm as (-> & Hname & Hpath). simplify_eq.
    cbn [parsed_package parsed_subpath]. split; [done|]. right.
    exists (String x scope), name. done.
  - destruct (matchNameAndPath (String c s)) as [[name path]|] eqn:Hm;
      [|discriminate].
    apply matchNameAndPath_inv in Hm as (Heq & Hname & Hpath). simplify_eq.
    cbn [parsed_package parsed_subpath]. split; [done|]. by left.
Qed.

(** X1. A direct import that [parseNpmDirectImport] accepts is its package,
    a slash and its subpath; the subpath has no line terminator, and the
    package is a name, or an at sign, a scope, a slash and a name. *)
Theorem X1_parse_npm_sound directImport p :
  parseNpmDirectImport directImport = Some p ->
  directImport = parsed_package p +:+ "/" +:+ parsed_subpath p /\
  getNpmPackageName directImport = Some (parsed_package p) /\
  freeOfLineTerminators (parsed_subpath p) = true /\
  (isNpmUnscopedName (parsed_package p) = true \/
   exists scope name,
     parsed_package p = "@" +:+ scope +:+ "/" +:+ name /\
     isNpmScope scope = true /\ isNpmUnscopedName name = true).
Proof. apply parseNpmDirectImport_inv. Qed.

Lemma X1_parse_npm_sound_witness :
  "@openzeppelin/contracts/token/ERC20.sol"
    = "@openzeppelin/contracts" +:+ "/" +:+ "token/ERC20.sol" /\
  getNpmPackageName "@openzeppelin/contracts/token/ERC20.sol"
    = Some "@openzeppelin/contracts".
Proof.
  destruct (X1_parse_npm_sound "@openzeppelin/contracts/token/ERC20.sol"
              {| parsed_package := "@openzeppelin/contracts";
                 parsed_subpath := "token/ERC20.sol" |} eq_refl)
    as (H1 & H2 & _).
  exact (conj H1 H2).
Defined.

Lemma unscoped_not_at name :
  isNpmUnscopedName name = true ->
  exists c s, name = String c s /\ Ascii.eqb c "@" = false.
Proof.
  destruct name as [|c s]; [discriminate|]. cbn. intros H.
  apply andb_true_iff in H as [Hc _]. exists c, s. split; [done|].
  destruct (Ascii.eqb c "@") eqn:E; [|done].
  apply Ascii.eqb_eq in E as ->. discriminate.
Qed.

(** X2. Every package name of the grammar, followed by a slash and a path
    without line terminators, is parsed into that package and that path:
    a name alone, and a name in a scope. *)
Theorem X2_parse_npm_complete :
  (forall name path,
     isNpmUnscopedName name = true -> freeOfLineTerminators path = true ->
     parseNpmDirectImport (name +:+ "/" +:+ path)
       = Some {| parsed_package := name; parsed_subpath := path |}) /\
  (forall scope name path,
     isNpmScope scope = true -> isNpmUnscopedName name = true ->
     freeOfLineTerminators path = true ->
     parseNpmDirectImport ("@" +:+ scope +:+ "/" +:+ name +:+ "/" +:+ path)
       = Some {| parsed_package := "@" +:+ scope +:+ "/" +:+ name;
                 parsed_subpath := path |}).
Proof.
  split.
  - intros name path Hn Hp.
    destruct (unscoped_not_at _ Hn) as (c & s & -> & Hat).
    pose proof (matchNameAndPath_intro _ _ Hn Hp) as Hm.
    rewrite append_cons in Hm |- *.
    unfold parseNpmDirectImport. rewrite Hat. by rewrite Hm.
  - intros scope name path Hs Hn Hp.
    destruct scope as [|x scope]; [discriminate|]. unfold isNpmScope in Hs.
    rewrite (append_cons "@" ""), append_nil.
    unfold parseNpmDirectImport. rewrite Ascii.eqb_refl.
    rewrite (append_cons "/" "" (name +:+ "/" +:+ path)), append_nil.
    rewrite (span_intro _ _ _ _ Hs slash_not_name).
    rewrite Ascii.eqb_refl.
    by rewrite (matchNameAndPath_intro _ _ Hn Hp).
Qed.

Lemma X2_parse_npm_complete_witness :
  parseNpmDirectImport "forge-std/src/Test.sol"
    = Some {| parsed_package := "forge-std"; parsed_subpath := "src/Test.sol" |} /\
  parseNpmDirectImport "@openzeppelin/contracts/token/ERC20.sol"
    = Some {| parsed_package := "@openzeppelin/contracts";
              parsed_subpath := "token/ERC20.sol" |}.
Proof.
  split.
  - exact (proj1 X2_parse_npm_complete "forge-std" "src/Test.sol"
             eq_refl eq_refl).
  - exact (proj2 X2_parse_npm_complete "openzeppelin" "contracts"
             "token/ERC20.sol" eq_refl eq_refl eq_refl).
Defined.

(** ** The classification of imports *)

Lemma substring_0 n s : substring 0 n s = Js.substringTo n s.
Proof.
  unfold substring. rewrite Nat.min_0_l, Nat.max_0_l, Nat.sub_0_r. done.
Qed.

Lemma indexOf_inv s c i :
  Js.indexOf s c = Some i ->
  exists a b, s = a +:+ String c b /\ String.length a = i /\
              Js.indexOf a c = None.
Proof.
  revert i. induction s as [|d s IH]; intros i H; [discriminate|].
  cbn in H. destruct (Ascii.eqb c d) eqn:Hd.
  - apply Ascii.eqb_eq in Hd as <-. simplify_eq. by exists "", s.
  - destruct (Js.indexOf s c) as [j|] eqn:Hj; [|discriminate]. simplify_eq.
    destruct (IH _ eq_refl) as (a & b & -> & Hlen & Ha).
    exists (String d a), b. rewrite append_cons. split; [done|].
    split; [by cbn; rewrite Hlen|]. cbn. by rewrite Hd, Ha.
Qed.

Lemma indexOf_intro a c b :
  Js.indexOf a c = None ->
  Js.indexOf (a +:+ String c b) c = Some (String.length a).
Proof.
  induction a as [|d a IH]; intros H.
  - rewrite append_nil. cbn. by rewrite Ascii.eqb_refl.
  - rewrite append_cons. cbn in *. destruct (Ascii.eqb c d); [discriminate|].
    destruct (Js.indexOf a c); [discriminate|]. by rewrite IH.
Qed.

Lemma substringTo_app a b : Js.substringTo (String.length a) (a +:+ b) = a.
Proof.
  induction a as [|d a IH]; [done|]. rewrite append_cons. cbn. by rewrite IH.
Qed.

Lemma substringTo_app_S a c b :
  Js.substringTo (String.length a + 1) (a +:+ String c b) = a +:+ String c "".
Proof.
  induction a as [|d a IH]; [done|]. rewrite !append_cons. cbn. by rewrite IH.
Qed.

Lemma startsWith_app a b : Js.startsWith (a +:+ b) a = true.
Proof.
  induction a as [|d a IH]; [done|]. rewrite append_cons. cbn.
  by rewrite Ascii.eqb_refl, IH.
Qed.

Lemma startsWith_refl a : Js.startsWith a a = true.
Proof.
  induction a as [|d a IH]; [done|]. cbn. by rewrite Ascii.eqb_refl, IH.
Qed.

Lemma length_append (a b : string) :
  String.length (a +:+ b) = String.length a + String.length b.
Proof.
  induction a as [|d a IH]; [done|]. rewrite append_cons. cbn. by rewrite IH.
Qed.

(** X3. The prefix [getDirectImportLocalDesambiguationPrefix] returns is a
    prefix of the direct import and is its own prefix; it is the direct
    import itself when it has no slash, and else its first directory with
    the slash that follows it. *)
Theorem X3_desambiguation_prefix directImport :
  let p := getDirectImportLocalDesambiguationPrefix directImport in
  Js.startsWith directImport p = true /\
  getDirectImportLocalDesambiguationPrefix p = p /\
  match Js.indexOf directImport Js.slash with
  | None => p = directImport
  | Some i =>
      exists first rest,
        directImport = first +:+ "/" +:+ rest /\
        p = first +:+ "/" /\ String.length first = i /\
        Js.indexOf first Js.slash = None
  end.
Proof.
  unfold getDirectImportLocalDesambiguationPrefix.
  destruct (Js.indexOf directImport Js.slash) as [i|] eqn:Hi; cbn zeta.
  - destruct (indexOf_inv _ _ _ Hi) as (a & b & -> & <- & Ha).
    rewrite substring_0, substringTo_app_S.
    split; [|split].
    + change (a +:+ String Js.slash b) with (a +:+ (String Js.slash "" +:+ b)).
      rewrite <- append_assoc. apply startsWith_app.
    + rewrite (indexOf_intro _ _ "" Ha), substring_0, substringTo_app_S. done.
    + by exists a, b.
  - rewrite Hi. split; [apply startsWith_refl|done].
Qed.

(** X4. Whether a direct import other than [hardhat/console.sol] is local to
    a package root is decided by its disambiguation prefix alone. *)
Theorem X4_local_decided_by_prefix fs npmPackageRootFsPath directImport :
  directImport <> "hardhat/console.sol" ->
  isLocalDirectImportFromPackageRoot fs npmPackageRootFsPath directImport
  = isLocalDirectImportFromPackageRoot fs npmPackageRootFsPath
      (getDirectImportLocalDesambiguationPrefix directImport).
Proof.
  intros Hne. unfold getDirectImportLocalDesambiguationPrefix.
  destruct (Js.indexOf directImport Js.slash) as [i|] eqn:Hi; [|done].
  destruct (indexOf_inv _ _ _ Hi) as (a & b & -> & <- & Ha).
  rewrite substring_0, substringTo_app_S.
  unfold isLocalDirectImportFromPackageRoot.
  destruct (String.eqb (a +:+ String Js.slash b) "hardhat/console.sol") eqn:E1.
  { apply String.eqb_eq in E1. done. }
  destruct (String.eqb (a +:+ String Js.slash "") "hardhat/console.sol") eqn:E2.
  { apply String.eqb_eq in E2.
    pose proof (indexOf_intro _ _ "" Ha) as H1. rewrite E2 in H1.
    cbn in H1. simplify_eq.
    apply (f_equal String.length) in E2. rewrite length_append in E2.
    cbn in E2. lia. }
  rewrite Hi, (indexOf_intro _ _ "" Ha), !substring_0, !substringTo_app.
  done.
Qed.

Lemma X4_local_decided_by_prefix_witness :
  isLocalDirectImportFromPackageRoot (Disk.fs Scenario.sources) "/p"
    "contracts/A.sol"
  = isLocalDirectImportFromPackageRoot (Disk.fs Scenario.sources) "/p"
      "contracts/".
Proof.
  apply (X4_local_decided_by_prefix (Disk.fs Scenario.sources) "/p"
           "contracts/A.sol").
  discriminate.
Defined.

Lemma existsLocally_inv fs from directory c b c' :
  existsLocally fs from directory c = Returns (b, c') ->
  ic_projectRoot c' = ic_projectRoot c /\
  (exists results, cachedResults c' !! from = Some results /\
                   results !! directory = Some b) /\
  ((c' = c) \/
   (b = exists_ fs (Path.join [from; directory]) /\
    exists results,
      cachedResults c' = <[from := <[directory := b]> results]> (cachedResults c) /\
      (cachedResults c !! from = Some results \/
       cachedResults c !! from = None /\ results = ∅))).
Proof.
  unfold existsLocally. intros H. monad_red H.
  destruct (cachedResults c !! from) as [results|] eqn:Hfrom.
  - destruct (results !! directory) as [cached|] eqn:Hdir; simplify_eq.
    + split; [done|]. split; [by exists results|]. by left.
    + split; [done|]. cbn. split.
      * eexists. rewrite lookup_insert_eq. split; [done|].
        by rewrite lookup_insert_eq.
      * right. split; [done|]. exists results. split; [done|]. by left.
  - rewrite lookup_empty in H. simplify_eq. split; [done|]. cbn. split.
    + eexists. rewrite lookup_insert_eq. split; [done|].
      by rewrite lookup_insert_eq.
    + right. split; [done|]. exists ∅. split; [|by right].
      by rewrite insert_insert_eq.
Qed.

(** X5. As long as the results it has cached are those of the file system,
    [isUserRemappingTargetLocal] answers what the file system answers for
    the first directory of the target, in the directory of the remapping
    ([false] for [hardhat], without looking), and what it caches is again
    what the file system answers. A target without a slash fails the
    assertion of the method. *)
Theorem X5_classifier_answers_file_system fs remappingLocation remappingTarget c :
  cache_agrees fs c ->
  match Js.indexOf remappingTarget Js.slash with
  | None =>
      isUserRemappingTargetLocal fs remappingLocation remappingTarget c
      = Throws (HardhatInvariantError
                  "The target of a user remapping must have at least one slash")
  | Some slash =>
      let firstDirectory := Js.substringTo slash remappingTarget in
      exists c',
        isUserRemappingTargetLocal fs remappingLocation remappingTarget c
        = Returns
            (negb (String.eqb firstDirectory "hardhat") &&
             exists_ fs (Path.join [remappingDirectory c remappingLocation;
                                    firstDirectory]), c') /\
        cache_agrees fs c' /\ ic_projectRoot c' = ic_projectRoot c
  end.
Proof.
  intros Hc. unfold isUserRemappingTargetLocal. monad_red_goal.
  destruct (Js.indexOf remappingTarget Js.slash) as [slash|] eqn:Hs; [|done].
  cbn zeta. rewrite substring_0.
  fold (remappingDirectory c remappingLocation).
  set (from := remappingDirectory c remappingLocation).
  set (dir := Js.substringTo slash remappingTarget).
  destruct (String.eqb dir "hardhat") eqn:Hh.
  { exists c. done. }
  destruct (existsLocally fs from dir c) as [[b c']| |] eqn:He.
  2,3: unfold existsLocally in He; monad_red He;
       destruct (cachedResults c !! from) as [results|];
       [destruct (results !! dir)|rewrite lookup_empty in He]; discriminate.
  destruct (existsLocally_inv _ _ _ _ _ _ He)
    as (Hroot & (results & Hr & Hb) & [->|(-> & results' & Hins & Hold)]).
  - exists c. rewrite (Hc _ _ _ _ Hr Hb). done.
  - exists c'. split; [done|]. split; [|done].
    intros f rs d x Hf Hd. rewrite Hins in Hf.
    destruct (decide (f = from)) as [->|Hne].
    + rewrite lookup_insert_eq in Hf. simplify_eq.
      destruct (decide (d = dir)) as [->|Hnd].
      * rewrite lookup_insert_eq in Hd. by simplify_eq.
      * rewrite lookup_insert_ne in Hd by done.
        destruct Hold as [Hold|[_ ->]].
        -- exact (Hc _ _ _ _ Hold Hd).
        -- by rewrite lookup_empty in Hd.
    + rewrite lookup_insert_ne in Hf by done. exact (Hc _ _ _ _ Hf Hd).
Qed.

Lemma newImportsClassifier_agrees fs root :
  cache_agrees fs (newImportsClassifier root).
Proof. intros f rs d x Hf. cbn in Hf. by rewrite lookup_empty in Hf. Qed.

Lemma X5_classifier_answers_file_system_witness :
  exists c',
    isUserRemappingTargetLocal (Disk.fs Scenario.sources)
      "/p/remappings.txt" "contracts/token/" (newImportsClassifier "/p")
    = Returns (true, c') /\
    cache_agrees (Disk.fs Scenario.sources) c'.
Proof.
  destruct (X5_classifier_answers_file_system (Disk.fs Scenario.sources)
              "/p/remappings.txt" "contracts/token/" (newImportsClassifier "/p")
              (newImportsClassifier_agrees _ _)) as (c' & H & Hc & _).
  exists c'. split; [exact H|exact Hc].
Defined.

(** X6. A question [isUserRemappingTargetLocal] has answered is answered
    the same way ever after, from the cache: the second time the state of
    the file system does not matter, and the classifier does not change. *)
Theorem X6_classifier_answers_are_kept
    fs fs' remappingLocation remappingTarget c b c' :
  isUserRemappingTargetLocal fs remappingLocation remappingTarget c
    = Returns (b, c') ->
  isUserRemappingTargetLocal fs' remappingLocation remappingTarget c'
    = Returns (b, c').
Proof.
  unfold isUserRemappingTargetLocal. intros H. monad_red H. monad_red_goal.
  destruct (Js.indexOf remappingTarget Js.slash) as [slash|]; [|discriminate].
  cbn zeta in *.
  destruct (String.eqb (substring 0 slash remappingTarget) "hardhat").
  { by simplify_eq. }
  destruct (existsLocally_inv _ _ _ _ _ _ H) as (Hroot & (results & Hr & Hb) & _).
  rewrite Hroot. unfold existsLocally. monad_red_goal. by rewrite Hr, Hb.
Qed.

Lemma X6_classifier_answers_are_kept_witness :
  exists c',
    isUserRemappingTargetLocal (Disk.fs Scenario.sources)
      "/p/remappings.txt" "contracts/token/" (newImportsClassifier "/p")
    = Returns (true, c') /\
    isUserRemappingTargetLocal (Disk.fs []) "/p/remappings.txt"
      "contracts/token/" c'
    = Returns (true, c').
Proof.
  eassert (H : isUserRemappingTargetLocal (Disk.fs Scenario.sources)
                 "/p/remappings.txt" "contracts/token/"
                 (newImportsClassifier "/p") = Returns (true, _))
    by (vm_compute; reflexivity).
  eexists. split; [exact H|].
  exact (X6_classifier_answers_are_kept _ (Disk.fs []) _ _ _ _ _ H).
Defined.

(** X7. [isLocalImport] answers [true] for a direct import without a slash
    and [false] for every other one, whatever the file and the import
    path; it never looks at the file system and never touches the cache. *)
Theorem X7_isLocalImport_only_without_slash from importPath directImport c :
  isLocalImport from importPath directImport c
  = Returns (match Js.indexOf directImport Js.slash with
             | None => true
             | Some _ => false
             end, c).
Proof.
  unfold isLocalImport.
  destruct (Js.indexOf directImport Js.slash); [|done].
  cbn zeta. by destruct (String.eqb _ "hardhat").
Qed.

(** ** What the lines of a package yield *)

Lemma installations_kept_refl m : installations_kept m m.
Proof. intros a deps n e H1 H2. by exists deps. Qed.

Lemma installations_kept_trans m1 m2 m3 :
  installations_kept m1 m2 -> installations_kept m2 m3 ->
  installations_kept m1 m3.
Proof.
  intros H12 H23 a deps n e H1 H2.
  destruct (H12 _ _ _ _ H1 H2) as (deps' & H1' & H2'). eauto.
Qed.

Lemma pushed_kept p u m : installations_kept m (pushed p u m).
Proof. intros a deps n e H1 H2. by exists deps. Qed.

Lemma resolvedFrom_kept lib m m' P u :
  installations_kept m m' -> resolvedFrom lib m P u -> resolvedFrom lib m' P u.
Proof.
  intros Hk (r & Hp & Hs & Hpre & H). exists r. do 3 (split; [done|]).
  destruct (targetNpmPackage u) as [[n Q]|]; [|done].
  destruct H as (H1 & H2 & H3 & H4 & deps & e & Hd & He & HQ).
  do 4 (split; [done|]).
  destruct (Hk _ _ _ _ Hd He) as (deps' & Hd' & He'). by exists deps', e.
Qed.

Lemma priv_resolve_none fs from n m m' :
  priv_resolveDependencyByInstallationName fs from n m = Returns (None, m') ->
  m' = m /\
  findDependencyPackageJson fs (rootFsPath from) n = None /\
  exists deps, installationMap m !! pkg_ref from = Some deps /\ deps !! n = None.
Proof.
  unfold priv_resolveDependencyByInstallationName. intros H. monad_red H.
  destruct (installationMap m !! pkg_ref from) as [deps|] eqn:Hdeps;
    [|discriminate].
  destruct (deps !! n) as [e|] eqn:He; [discriminate|].
  destruct (findDependencyPackageJson fs (rootFsPath from) n) as [path|];
    [|by simplify_eq; eauto].
  destruct (readJsonFile fs path) as [json|]; [|discriminate].
  match type of H with
  | context [packageByRootSourceName m !! ?k] =>
      destruct (packageByRootSourceName m !! k)
  end; discriminate.
Qed.

Section Yields.

Context (lib : Lib) (fs : Fs) (p : ResolvedNpmPackage).

Lemma validate_yields src line m err m' l :
  map_wf m ->
  validateAndResolveUserRemapping lib fs p src line m = Returns (err, m') ->
  userRemappingsPerPackage m !! pkg_ref p = Some l ->
  (exists l',
     userRemappingsPerPackage m' !! pkg_ref p = Some (l ++ l') /\
     Forall (fun u => source u = src /\ originalFormat u = line /\
                      resolvedFrom lib m' p u) l') /\
  (forall e, err = Some e ->
     ure_source e = src /\ ure_remapping e = line /\
     rejected lib fs p line (ure_type e)).
Proof.
  intros Hwf H Hl. apply validate_inv in H as (_ & _ & H).
  assert (Hnone : forall m1,
            userRemappingsPerPackage m1 = userRemappingsPerPackage m ->
            exists l',
              userRemappingsPerPackage m1 !! pkg_ref p = Some (l ++ l') /\
              Forall (fun u => source u = src /\ originalFormat u = line /\
                               resolvedFrom lib m1 p u) l').
  { intros m1 Hm1. exists []. rewrite app_nil_r, Hm1. by split. }
  assert (Hpush : forall u m1,
            userRemappingsPerPackage m1 = userRemappingsPerPackage m ->
            source u = src -> originalFormat u = line ->
            resolvedFrom lib m1 p u ->
            exists l',
              userRemappingsPerPackage (pushed p u m1) !! pkg_ref p
                = Some (l ++ l') /\
              Forall (fun u => source u = src /\ originalFormat u = line /\
                               resolvedFrom lib (pushed p u m1) p u) l').
  { intros u m1 Hm1 Hs Ho Hu. exists [u]. split.
    - unfold pushed. unfold_map. by rewrite lookup_alter_eq, Hm1, Hl.
    - constructor; [|done]. do 2 (split; [done|]).
      eapply resolvedFrom_kept; [|exact Hu]. apply pushed_kept. }
  destruct H as [Hp|r Hp Hs|r Hp Hs Ht|r Hp Hs Ht Hpre|r Hp Hs Ht Hpre Hn
                |r n m1 Hp Hs Ht Hpre Hn Hpriv|r n dep m1 Hp Hs Ht Hpre Hn Hpriv].
  - split; [by apply Hnone|]. intros e [= <-]. cbn. do 2 (split; [done|]).
    by left.
  - split; [by apply Hnone|]. intros e [= <-]. cbn. do 2 (split; [done|]).
    by exists r.
  - split; [|done]. apply Hpush; try done.
    exists r. cbn. do 3 (split; [done|]). done.
  - split; [by apply Hnone|done].
  - split; [by apply Hnone|]. intros e [= <-]. cbn. do 2 (split; [done|]).
    right. by exists r.
  - pose proof (priv_resolve_remappings _ _ _ _ _ _ Hpriv) as Hu.
    split; [by apply Hnone|]. intros e [= <-]. cbn. do 2 (split; [done|]).
    apply priv_resolve_none in Hpriv as (_ & Hfind & _). by exists r, n.
  - pose proof (priv_resolve_remappings _ _ _ _ _ _ Hpriv) as Hu.
    split; [|done]. apply Hpush; try done.
    destruct (priv_resolve_wf fs p p n m _ _ Hwf Hpriv) as (_ & _ & Hres).
    destruct (Hres _ eq_refl) as (_ & deps & Hd & He).
    exists r. cbn. do 3 (split; [done|]). do 4 (split; [done|]).
    by exists deps, dep.
Qed.

Lemma validate_kept src line m err m' :
  map_wf m ->
  validateAndResolveUserRemapping lib fs p src line m = Returns (err, m') ->
  map_wf m' /\ installations_kept m m'.
Proof.
  intros Hwf H. destruct (validate_wf lib fs p src line m err m' Hwf H)
    as [Hwf' Hext].
  split; [done|]. exact (ext_installations _ _ _ Hext).
Qed.

Lemma forEachCollect_yields src lines errors m errors' m' l :
  map_wf m ->
  forEachCollect (validateAndResolveUserRemapping lib fs p src) lines errors m
    = Returns (errors', m') ->
  userRemappingsPerPackage m !! pkg_ref p = Some l ->
  map_wf m' /\ installations_kept m m' /\
  (exists l',
     userRemappingsPerPackage m' !! pkg_ref p = Some (l ++ l') /\
     Forall (fun u => source u = src /\ In (originalFormat u) lines /\
                      resolvedFrom lib m' p u) l') /\
  (exists news,
     errors' = errors ++ news /\
     Forall (fun e => ure_source e = src /\ In (ure_remapping e) lines /\
                      rejected lib fs p (ure_remapping e) (ure_type e)) news).
Proof.
  revert errors m l. induction lines as [|line lines IH];
    intros errors m l Hwf H Hl.
  - cbn in H. monad_red H. simplify_eq. split; [done|].
    split; [apply installations_kept_refl|]. split.
    + exists []. by rewrite app_nil_r.
    + exists []. by rewrite app_nil_r.
  - cbn [forEachCollect] in H. monad_red H.
    destruct (validateAndResolveUserRemapping lib fs p src line m)
      as [[err m1]| |] eqn:Hv; try discriminate.
    destruct (validate_kept _ _ _ _ _ Hwf Hv) as [Hwf1 Hk1].
    destruct (validate_yields _ _ _ _ _ _ Hwf Hv Hl)
      as ((l1 & Hl1 & HF1) & He1).
    destruct (IH _ _ _ Hwf1 H Hl1)
      as (Hwf' & Hk2 & (l2 & Hl2 & HF2) & (news & -> & HE2)).
    split; [done|]. split; [by eapply installations_kept_trans|].
    split.
    + exists (l1 ++ l2). rewrite app_assoc. split; [done|].
      apply Forall_app. split.
      * eapply Forall_impl; [exact HF1|]. cbn.
        intros u (Hs & Ho & Hu). split; [done|]. split; [by left|].
        by eapply resolvedFrom_kept.
      * eapply Forall_impl; [exact HF2|]. cbn.
        intros u (Hs & Ho & Hu). split; [done|]. split; [by right|done].
    + destruct err as [e|].
      * exists (e :: news). split; [by rewrite <- app_assoc|].
        constructor.
        -- destruct (He1 _ eq_refl) as (Hs & Hr & Hj). rewrite Hr.
           split; [done|]. split; [by left|done].
        -- eapply Forall_impl; [exact HE2|]. cbn.
           intros x (Hs & Ho & Hu). split; [done|]. split; [by right|done].
      * exists news. split; [done|].
        eapply Forall_impl; [exact HE2|]. cbn.
        intros x (Hs & Ho & Hu). split; [done|]. split; [by right|done].
Qed.

Lemma validateFiles_yields files errors m errors' m' l :
  map_wf m ->
  validateFiles lib fs p files errors m = Returns (errors', m') ->
  userRemappingsPerPackage m !! pkg_ref p = Some l ->
  map_wf m' /\ installations_kept m m' /\
  (exists l',
     userRemappingsPerPackage m' !! pkg_ref p = Some (l ++ l') /\
     Forall (fun u =>
               (In (source u) files /\
                exists contents,
                  readUtf8File fs (source u) = Some contents /\
                  In (originalFormat u) (rawUserRemappings contents)) /\
               resolvedFrom lib m' p u) l') /\
  (exists news,
     errors' = errors ++ news /\
     Forall (fun e =>
               (In (ure_source e) files /\
                exists contents,
                  readUtf8File fs (ure_source e) = Some contents /\
                  In (ure_remapping e) (rawUserRemappings contents)) /\
               rejected lib fs p (ure_remapping e) (ure_type e)) news).
Proof.
  revert errors m l. induction files as [|file files IH];
    intros errors m l Hwf H Hl.
  - cbn in H. monad_red H. simplify_eq. split; [done|].
    split; [apply installations_kept_refl|]. split.
    + exists []. by rewrite app_nil_r.
    + exists []. by rewrite app_nil_r.
  - cbn [validateFiles] in H. monad_red H.
    destruct (readUtf8File fs file) as [contents|] eqn:Hread; [|discriminate].
    destruct (forEachCollect _ _ _ m) as [[errs1 m1]| |] eqn:Hf;
      try discriminate.
    destruct (forEachCollect_yields _ _ _ _ _ _ _ Hwf Hf Hl)
      as (Hwf1 & Hk1 & (l1 & Hl1 & HF1) & (news1 & -> & HE1)).
    destruct (IH _ _ _ Hwf1 H Hl1)
      as (Hwf' & Hk2 & (l2 & Hl2 & HF2) & (news2 & -> & HE2)).
    split; [done|]. split; [by eapply installations_kept_trans|].
    split.
    + exists (l1 ++ l2). rewrite app_assoc. split; [done|].
      apply Forall_app. split.
      * eapply Forall_impl; [exact HF1|]. cbn.
        intros u (Hs & Ho & Hu). split.
        -- split; [left; by rewrite Hs|]. exists contents. by rewrite Hs.
        -- by eapply resolvedFrom_kept.
      * eapply Forall_impl; [exact HF2|]. cbn.
        intros u ((Hs & Ho) & Hu). split; [|done]. split; [by right|done].
    + exists (news1 ++ news2). split; [by rewrite app_assoc|].
      apply Forall_app. split.
      * eapply Forall_impl; [exact HE1|]. cbn.
        intros x (Hs & Ho & Hu). split; [|done].
        split; [left; by rewrite Hs|]. exists contents. by rewrite Hs.
      * eapply Forall_impl; [exact HE2|]. cbn.
        intros x ((Hs & Ho) & Hu). split; [|done]. split; [by right|done].
Qed.

(** The remappings and the errors of a package, when the loop has
    validated its files. *)
Lemma validatePackage_yields m errors m' :
  map_wf m ->
  userRemappingsPerPackage m !! pkg_ref p = Some [] ->
  validateAndResolveUserRemappingsOfAnExistingPackage lib fs p m
    = Returns (errors, m') ->
  map_wf m' /\ installations_kept m m' /\
  (exists l, userRemappingsPerPackage m' !! pkg_ref p = Some l /\
             Forall (remappingOf lib fs m' p) l) /\
  Forall (errorOf lib fs p) errors.
Proof.
  intros Hwf Hl H.
  unfold validateAndResolveUserRemappingsOfAnExistingPackage in H.
  monad_red H. rewrite Hl in H.
  destruct (validateFiles_yields _ _ _ _ _ _ Hwf H Hl)
    as (Hwf' & Hk & (l & Hl' & HF) & (news & -> & HE)).
  split; [done|]. split; [done|]. split.
  - exists l. split; [done|]. eapply Forall_impl; [exact HF|]. cbn.
    intros u ((Hin & contents & Hread & Hline) & Hu). split; [|done].
    split; [done|]. by exists contents.
  - cbn. eapply Forall_impl; [exact HE|]. cbn.
    intros e ((Hin & contents & Hread & Hline) & Hu). split; [|done].
    split; [done|]. by exists contents.
Qed.

End Yields.

(** ** Invariants of the loop of [#resolveAnyRemainingRemappings] *)

Section LoopInvariant.

Context (lib : Lib) (fs : Fs).
Context (I : RemappedNpmPackagesMap -> list UserRemappingError -> Prop).

Hypothesis I_step : forall p q m es m2 errors,
  map_wf m -> remappingsToResolve m = p :: q ->
  validateAndResolveUserRemappingsOfAnExistingPackage lib fs p (reset p m)
    = Returns (es, m2) ->
  I m errors -> I (shifted m2) (errors ++ es).

Lemma resolveRemaining_invariant fuel errors m errors' m' :
  map_wf m -> I m errors ->
  resolveRemaining lib fs fuel errors m = Returns (errors', m') ->
  I m' errors'.
Proof.
  revert errors m. induction fuel as [|fuel IH]; intros errors m Hwf HI H.
  - cbn in H. destruct (remappingsToResolve m) eqn:Hq; [|discriminate].
    by simplify_eq.
  - destruct (remappingsToResolve m) as [|p q] eqn:Hq.
    { apply resolveRemaining_done in H as [-> ->]; done. }
    destruct (resolveRemaining_step _ _ _ _ _ _ _ _ _ Hq H)
      as (es & m2 & Hv & Hloop).
    assert (Hp : In p (remappingsToResolve m)) by (rewrite Hq; by left).
    pose proof (reset_wf p m Hwf Hp) as Hwf1.
    destruct (validatePackage_wf _ _ _ _ _ _ Hwf1 Hv) as [Hwf2 _].
    apply (IH (errors ++ es) (shifted m2)); [by apply shifted_wf| |exact Hloop].
    exact (I_step p q m es m2 errors Hwf Hq Hv HI).
Qed.

End LoopInvariant.

Section ReachableMaps.

Context (lib : Lib) (fs : Fs).

Lemma reset_lookup p m :
  userRemappingsPerPackage (reset p m) !! pkg_ref p = Some [].
Proof. unfold reset. unfold_map. by rewrite lookup_insert_eq. Qed.

Lemma remappingsResolved_kept m m' P :
  userRemappingsPerPackage m' !! pkg_ref P
    = userRemappingsPerPackage m !! pkg_ref P ->
  installations_kept m m' ->
  remappingsResolved lib fs m P -> remappingsResolved lib fs m' P.
Proof.
  intros Hu Hk (l & Hl & HF). exists l. rewrite Hu. split; [done|].
  eapply Forall_impl; [exact HF|]. cbn. intros u [H1 H2]. split; [done|].
  by eapply resolvedFrom_kept.
Qed.

Lemma remappings_establish p q m es m2 (errors : list UserRemappingError) :
  map_wf m -> remappingsToResolve m = p :: q ->
  validateAndResolveUserRemappingsOfAnExistingPackage lib fs p (reset p m)
    = Returns (es, m2) ->
  remappingsResolved lib fs (shifted m2) p.
Proof.
  intros Hwf Hq Hv.
  assert (Hp : In p (remappingsToResolve m)) by (rewrite Hq; by left).
  pose proof (reset_wf p m Hwf Hp) as Hwf1.
  destruct (validatePackage_yields lib fs p _ _ _ Hwf1 (reset_lookup p m) Hv)
    as (_ & _ & (l & Hl & HF) & _).
  exists l. split; [done|]. exact HF.
Qed.

Lemma remappings_stable p q m es m2 (errors : list UserRemappingError) P :
  map_wf m -> remappingsToResolve m = p :: q ->
  validateAndResolveUserRemappingsOfAnExistingPackage lib fs p (reset p m)
    = Returns (es, m2) ->
  pkg_ref P <> pkg_ref p -> pkg_ref P < nextRef m ->
  remappingsResolved lib fs m P -> remappingsResolved lib fs (shifted m2) P.
Proof.
  intros Hwf Hq Hv Hne _ HD.
  assert (Hp : In p (remappingsToResolve m)) by (rewrite Hq; by left).
  pose proof (reset_wf p m Hwf Hp) as Hwf1.
  destruct (validatePackage_wf _ _ _ _ _ _ Hwf1 Hv) as [_ Hext].
  eapply remappingsResolved_kept; [| |exact HD].
  - unfold shifted. unfold_map.
    rewrite (ext_remappings _ _ _ Hext) by done.
    unfold reset. unfold_map. by rewrite lookup_insert_ne.
  - exact (ext_installations _ _ _ Hext).
Qed.

Lemma createMap_resolved fuel root errors m k P :
  createMap lib fs fuel root = Returns (errors, m) ->
  packageByRootSourceName m !! k = Some P ->
  remappingsResolved lib fs m P.
Proof.
  intros H HP.
  exact (createMap_done_all lib fs (fun m _ P => remappingsResolved lib fs m P)
           remappings_establish remappings_stable fuel root errors m H k P HP).
Qed.

Lemma reachable_resolved m :
  map_reachable lib fs m ->
  forall k P, packageByRootSourceName m !! k = Some P ->
              remappingsResolved lib fs m P.
Proof.
  induction 1 as [fuel root errors m H|fuel from n m res m' Hreach IH H].
  - intros k P HP. by eapply createMap_resolved.
  - destruct (map_reachable_wf _ _ _ Hreach) as [Hwf Hq].
    unfold resolveDependencyByInstallationName in H. monad_red H.
    destruct (priv_resolveDependencyByInstallationName fs from n m)
      as [[[e|] m1]| |] eqn:Hpriv; try discriminate.
    2:{ simplify_eq. apply priv_resolve_none in Hpriv as (-> & _). exact IH. }
    unfold resolveAnyRemainingRemappings in H.
    destruct (resolveRemaining lib fs fuel [] m1) as [[errs m2]| |] eqn:Hloop;
      try discriminate.
    simplify_eq.
    pose proof (priv_resolve_remappings _ _ _ _ _ _ Hpriv) as Hur.
    destruct (priv_resolve_wf fs from from n m _ _ Hwf Hpriv)
      as (Hwf1 & Hext & _).
    refine (resolveRemaining_done_all lib fs
              (fun m _ P => remappingsResolved lib fs m P)
              remappings_establish remappings_stable fuel [] m1 errs m' Hwf1 _
              Hloop).
    intros k P HP.
    destruct (ext_by_name_new _ _ _ Hext _ _ HP) as [Hold|[Hin _]]; [|by left].
    right. destruct (IH _ _ Hold) as (l & Hl & HF).
    pose proof (wf_remappings_refs _ Hwf _ _ Hl) as Hlt.
    destruct (ext_queue _ _ _ Hext) as (news & Hnews & Hfresh).
    rewrite Hq in Hnews. cbn in Hnews.
    split; [|split].
    + rewrite Hnews. intros Hin. apply List.in_map_iff in Hin as (P' & Heq & HP').
      apply Hfresh in HP'. lia.
    + pose proof (ext_nextRef _ _ _ Hext). lia.
    + eapply remappingsResolved_kept; [by rewrite Hur| |by exists l].
      exact (ext_installations _ _ _ Hext).
Qed.

Lemma endsWith_of_slashes r :
  lacksSlashEndings r = false ->
  Js.endsWith (r_prefix r) "/" = true /\ Js.endsWith (r_target r) "/" = true.
Proof.
  unfold lacksSlashEndings. intros H.
  apply orb_false_iff in H as [H Ht]. apply orb_false_iff in H as [_ Hp].
  apply negb_false_iff in Ht, Hp. done.
Qed.

End ReachableMaps.

(** ** The rule of the local remappings *)

Lemma trimStart_spec s :
  (exists before,
     s = before +:+ Js.trimStart s /\
     Js.forallb Js.isWhiteSpace before = true) /\
  (forall c rest, Js.trimStart s = String c rest -> Js.isWhiteSpace c = false).
Proof.
  induction s as [|c s [(before & Heq & Hws) Hfirst]]; cbn [Js.trimStart].
  - split; [by exists ""|]. discriminate.
  - destruct (Js.isWhiteSpace c) eqn:Hc.
    + split; [|done]. exists (String c before). split.
      * rewrite append_cons. by f_equal.
      * cbn. by rewrite Hc.
    + split; [by exists ""|]. intros c' rest [= <- _]. done.
Qed.

Lemma trimEnd_spec s :
  (exists after,
     s = Js.trimEnd s +:+ after /\ Js.forallb Js.isWhiteSpace after = true) /\
  (forall front c,
     Js.trimEnd s = front +:+ String c EmptyString ->
     Js.isWhiteSpace c = false) /\
  (forall c rest c' rest',
     s = String c rest -> Js.trimEnd s = String c' rest' -> c' = c).
Proof.
  induction s as [|c s [(after & Heq & Hws) [Hlast _]]]; cbn [Js.trimEnd].
  - split; [by exists ""|]. split; [|discriminate].
    intros [|d front] x; [rewrite append_nil|rewrite append_cons]; discriminate.
  - destruct (Js.trimEnd s) as [|d t] eqn:Ht.
    + rewrite append_nil in Heq. subst after.
      destruct (Js.isWhiteSpace c) eqn:Hc.
      * split; [|split; [|discriminate]].
        { exists (String c s). rewrite append_nil. split; [done|].
          cbn. by rewrite Hc. }
        intros [|e front] x; [rewrite append_nil|rewrite append_cons];
          discriminate.
      * split; [|split].
        { exists s. by rewrite append_cons, append_nil. }
        { intros [|e front] x; [rewrite append_nil|rewrite append_cons].
          - by intros [= <-].
          - intros [= _ H]. destruct front; [rewrite append_nil in H|
                                              rewrite append_cons in H];
              discriminate. }
        { by intros ? ? ? ? [= <- _] [= <- _]. }
    + split; [|split].
      * exists after. split; [|done]. rewrite append_cons. by f_equal.
      * intros [|e front] x; [rewrite append_nil|rewrite append_cons].
        { discriminate. }
        intros [= _ H]. by eapply Hlast.
      * by intros ? ? ? ? [= <- _] [= <- _].
Qed.

(** [trim] gives the line between its runs of white space. *)
Lemma trim_trimmedFrom raw : trimmedFrom raw (Js.trim raw).
Proof.
  unfold Js.trim.
  destruct (trimStart_spec raw) as [(before & Hb & Hwb) Hfirst].
  destruct (trimEnd_spec (Js.trimStart raw)) as [(after & Ha & Hwa) [Hlast Hkeep]].
  split; [|split].
  - exists before, after. split; [|done]. by rewrite <- Ha.
  - intros c rest Heq.
    destruct (Js.trimStart raw) as [|d t] eqn:Ht; [discriminate|].
    rewrite (Hkeep d t c rest eq_refl Heq). by eapply Hfirst.
  - exact Hlast.
Qed.

Lemma updateRemappingsTxFragment_prepended lib P file fragment :
  updateRemappingsTxFragment lib P
    (Path.relative (rootFsPath P) (Path.dirname file)) fragment
  = prepended lib P file fragment.
Proof. reflexivity. Qed.

Section LocalLines.

Context (lib : Lib) (fs : Fs) (p : ResolvedNpmPackage).

(** A line that is a local remapping pushes its remapping, and nothing
    else changes. *)
Lemma validate_local src line r m err m' :
  localLine lib line r ->
  validateAndResolveUserRemapping lib fs p src line m = Returns (err, m') ->
  m' = pushed p (localRemapping lib p src line r) m.
Proof.
  intros (Hparse & Hslash & Hlocal) H.
  apply validate_inv in H as (_ & _ & H).
  destruct H; simplify_eq; try done; congruence.
Qed.

Lemma forEachCollect_local src lines errors m errors' m' l :
  map_wf m ->
  forEachCollect (validateAndResolveUserRemapping lib fs p src) lines errors m
    = Returns (errors', m') ->
  userRemappingsPerPackage m !! pkg_ref p = Some l ->
  map_wf m' /\
  exists l',
    userRemappingsPerPackage m' !! pkg_ref p = Some (l ++ l') /\
    forall line r,
      In line lines -> localLine lib line r ->
      In (localRemapping lib p src line r) l'.
Proof.
  revert errors m l. induction lines as [|line lines IH];
    intros errors m l Hwf H Hl.
  - cbn in H. monad_red H. simplify_eq. split; [done|].
    exists []. rewrite app_nil_r. split; [done|]. by intros ? ? [].
  - cbn [forEachCollect] in H. monad_red H.
    destruct (validateAndResolveUserRemapping lib fs p src line m)
      as [[err m1]| |] eqn:Hv; try discriminate.
    destruct (validate_wf lib fs p src line m err m1 Hwf Hv) as [Hwf1 Hext].
    destruct (ext_remappings_own _ _ _ Hext l Hl) as (l1 & Hl1).
    destruct (IH _ _ _ Hwf1 H Hl1) as (Hwf' & l2 & Hl2 & Hin2).
    split; [done|]. exists (l1 ++ l2). rewrite app_assoc. split; [done|].
    intros line' r [<-|Hin] Hlocal.
    + apply in_or_app. left.
      rewrite (validate_local _ _ _ _ _ _ Hlocal Hv) in Hl1.
      unfold pushed in Hl1. unfold_map.
      rewrite lookup_alter_eq, Hl in Hl1. cbn in Hl1.
      injection Hl1 as Hl1. apply app_inv_head in Hl1. rewrite <- Hl1.
      by left.
    + apply in_or_app. right. by eapply Hin2.
Qed.

Lemma validateFiles_local files errors m errors' m' l :
  map_wf m ->
  validateFiles lib fs p files errors m = Returns (errors', m') ->
  userRemappingsPerPackage m !! pkg_ref p = Some l ->
  map_wf m' /\
  exists l',
    userRemappingsPerPackage m' !! pkg_ref p = Some (l ++ l') /\
    forall file contents line r,
      In file files -> readUtf8File fs file = Some contents ->
      In line (rawUserRemappings contents) -> localLine lib line r ->
      In (localRemapping lib p file line r) l'.
Proof.
  revert errors m l. induction files as [|file files IH];
    intros errors m l Hwf H Hl.
  - cbn in H. monad_red H. simplify_eq. split; [done|].
    exists []. rewrite app_nil_r. split; [done|]. by intros ? ? ? ? [].
  - cbn [validateFiles] in H. monad_red H.
    destruct (readUtf8File fs file) as [contents|] eqn:Hread; [|discriminate].
    destruct (forEachCollect _ _ _ m) as [[errs1 m1]| |] eqn:Hf;
      try discriminate.
    destruct (forEachCollect_local _ _ _ _ _ _ _ Hwf Hf Hl)
      as (Hwf1 & l1 & Hl1 & Hin1).
    destruct (IH _ _ _ Hwf1 H Hl1) as (Hwf' & l2 & Hl2 & Hin2).
    split; [done|]. exists (l1 ++ l2). rewrite app_assoc. split; [done|].
    intros file' contents' line r [<-|Hin] Hread' Hline Hlocal.
    + apply in_or_app. left. rewrite Hread in Hread'. simplify_eq.
      by eapply Hin1.
    + apply in_or_app. right. by eapply Hin2.
Qed.

(** When the loop has validated the files of a package, its list holds
    the remapping of each of its local lines. *)
Lemma validatePackage_local m errors m' :
  map_wf m ->
  userRemappingsPerPackage m !! pkg_ref p = Some [] ->
  validateAndResolveUserRemappingsOfAnExistingPackage lib fs p m
    = Returns (errors, m') ->
  localLinesResolved lib fs m' p.
Proof.
  intros Hwf Hl H.
  unfold validateAndResolveUserRemappingsOfAnExistingPackage in H.
  monad_red H. rewrite Hl in H.
  destruct (validateFiles_local _ _ _ _ _ _ Hwf H Hl) as (_ & l & Hl' & Hin).
  exists l. split; [done|].
  intros file line r (Hfile & contents & Hread & Hline) Hlocal.
  by eapply Hin.
Qed.

End LocalLines.

Section ReachableLocalLines.

Context (lib : Lib) (fs : Fs).

Lemma localLines_establish p q m es m2 (errors : list UserRemappingError) :
  map_wf m -> remappingsToResolve m = p :: q ->
  validateAndResolveUserRemappingsOfAnExistingPackage lib fs p (reset p m)
    = Returns (es, m2) ->
  localLinesResolved lib fs (shifted m2) p.
Proof.
  intros Hwf Hq Hv.
  assert (Hp : In p (remappingsToResolve m)) by (rewrite Hq; by left).
  pose proof (reset_wf p m Hwf Hp) as Hwf1.
  exact (validatePackage_local lib fs p _ _ _ Hwf1 (reset_lookup p m) Hv).
Qed.

Lemma localLines_stable p q m es m2 (errors : list UserRemappingError) P :
  map_wf m -> remappingsToResolve m = p :: q ->
  validateAndResolveUserRemappingsOfAnExistingPackage lib fs p (reset p m)
    = Returns (es, m2) ->
  pkg_ref P <> pkg_ref p -> pkg_ref P < nextRef m ->
  localLinesResolved lib fs m P -> localLinesResolved lib fs (shifted m2) P.
Proof.
  intros Hwf Hq Hv Hne _ (l & Hl & Hin).
  assert (Hp : In p (remappingsToResolve m)) by (rewrite Hq; by left).
  pose proof (reset_wf p m Hwf Hp) as Hwf1.
  destruct (validatePackage_wf _ _ _ _ _ _ Hwf1 Hv) as [_ Hext].
  exists l. split; [|done].
  unfold shifted. unfold_map.
  rewrite (ext_remappings _ _ _ Hext) by done.
  unfold reset. unfold_map. by rewrite lookup_insert_ne.
Qed.

(** In a map reached from [create], the list of every package known by
    name holds the remapping of each of its local lines. *)
Lemma reachable_localLines m :
  map_reachable lib fs m ->
  forall k P, packageByRootSourceName m !! k = Some P ->
              localLinesResolved lib fs m P.
Proof.
  induction 1 as [fuel root errors m H|fuel from n m res m' Hreach IH H].
  - intros k P HP.
    exact (createMap_done_all lib fs
             (fun m _ P => localLinesResolved lib fs m P)
             localLines_establish localLines_stable fuel root errors m H k P HP).
  - destruct (map_reachable_wf _ _ _ Hreach) as [Hwf Hq].
    unfold resolveDependencyByInstallationName in H. monad_red H.
    destruct (priv_resolveDependencyByInstallationName fs from n m)
      as [[[e|] m1]| |] eqn:Hpriv; try discriminate.
    2:{ simplify_eq. apply priv_resolve_none in Hpriv as (-> & _). exact IH. }
    unfold resolveAnyRemainingRemappings in H.
    destruct (resolveRemaining lib fs fuel [] m1) as [[errs m2]| |] eqn:Hloop;
      try discriminate.
    simplify_eq.
    pose proof (priv_resolve_remappings _ _ _ _ _ _ Hpriv) as Hur.
    destruct (priv_resolve_wf fs from from n m _ _ Hwf Hpriv)
      as (Hwf1 & Hext & _).
    refine (resolveRemaining_done_all lib fs
              (fun m _ P => localLinesResolved lib fs m P)
              localLines_establish localLines_stable fuel [] m1 errs m' Hwf1 _
              Hloop).
    intros k P HP.
    destruct (ext_by_name_new _ _ _ Hext _ _ HP) as [Hold|[Hin _]]; [|by left].
    right. destruct (IH _ _ Hold) as (l & Hl & HF).
    pose proof (wf_remappings_refs _ Hwf _ _ Hl) as Hlt.
    destruct (ext_queue _ _ _ Hext) as (news & Hnews & Hfresh).
    rewrite Hq in Hnews. cbn in Hnews.
    split; [|split].
    + rewrite Hnews. intros Hin. apply List.in_map_iff in Hin as (P' & Heq & HP').
      apply Hfresh in HP'. lia.
    + pose proof (ext_nextRef _ _ _ Hext). lia.
    + exists l. by rewrite Hur.
Qed.

End ReachableLocalLines.

(** C2. For the project rooted at [/p] whose [remappings.txt] holds the
    lines [foo/=bar/] and [context/:prefix/=target/] (the second after
    white space) around a blank line, [create] succeeds and the user
    remappings of the project package are exactly the two entries below, in
    that order. For the project whose only [remappings.txt] is in
    [lib/submodule], with a comment, the line [foo/=bar/] between white
    space and a line whose target starts with [npm/], they are the two
    entries below, with the subdirectory in their contexts and in the
    target that does not start with [npm/]. And the rule behind them holds
    in every map reached from [create] through calls that return, for
    every package known by name. Each of its remappings without a target
    package comes from a raw line of one of its [remappings.txt] files; its
    original format is that line trimmed; the line parses into a remapping
    with its slash endings, whose target is not in [node_modules], whose
    prefix it keeps, and whose context and target it has with the root
    source name of the package and the subdirectory of the file prepended
    (a fragment that starts with [npm/] is kept); and its source is the
    path of the file. Conversely, every line of its files that parses into
    such a remapping has its entry among the remappings of the package. *)
Theorem C2_local_remappings :
  (exists map,
     create Spec.lib (Disk.fs Scenario.topLevel) Scenario.fuel "/p"
       = Returns (Success map) /\
     rootSourceName (hardhatProjectPackage map) = "project" /\
     getUserRemappings (hardhatProjectPackage map) map
       = Returns
           ([ {| ur_context := "project/"; ur_prefix := "foo/";
                 ur_target := "project/bar/"; originalFormat := "foo/=bar/";
                 source := "/p/remappings.txt"; targetNpmPackage := None |};
              {| ur_context := "project/context/"; ur_prefix := "prefix/";
                 ur_target := "project/target/";
                 originalFormat := "context/:prefix/=target/";
                 source := "/p/remappings.txt"; targetNpmPackage := None |} ],
            map)) /\
  (exists map,
     create Spec.lib (Disk.fs Scenario.nestedLocal) Scenario.fuel "/p"
       = Returns (Success map) /\
     getUserRemappings (hardhatProjectPackage map) map
       = Returns
           ([ {| ur_context := "project/lib/submodule/"; ur_prefix := "foo/";
                 ur_target := "project/lib/submodule/bar/";
                 originalFormat := "foo/=bar/";
                 source := "/p/lib/submodule/remappings.txt";
                 targetNpmPackage := None |};
              {| ur_context := "project/lib/submodule/ctx/";
                 ur_prefix := "lib/"; ur_target := "npm/lib/";
                 originalFormat := "ctx/:lib/=npm/lib/";
                 source := "/p/lib/submodule/remappings.txt";
                 targetNpmPackage := None |} ],
            map)) /\
  (forall lib fs m k P,
     map_reachable lib fs m ->
     packageByRootSourceName m !! k = Some P ->
     exists l,
       getUserRemappings P m = Returns (l, m) /\
       (forall u, In u l -> targetNpmPackage u = None ->
          exists contents raw r,
            In (source u) (remappingsTxtFiles fs P) /\
            readUtf8File fs (source u) = Some contents /\
            In raw (Js.split contents Js.LF) /\
            trimmedFrom raw (originalFormat u) /\
            localLine lib (originalFormat u) r /\
            ur_prefix u = r_prefix r /\
            ur_context u = prepended lib P (source u) (r_context r) /\
            ur_target u = prepended lib P (source u) (r_target r)) /\
       (forall file line r,
          remappingLine fs P file line -> localLine lib line r ->
          In {| ur_context := prepended lib P file (r_context r);
                ur_prefix := r_prefix r;
                ur_target := prepended lib P file (r_target r);
                originalFormat := line;
                source := file;
                targetNpmPackage := None |} l)).
Proof.
  split.
  { eexists. split; [vm_compute; reflexivity|].
    split; vm_compute; reflexivity. }
  split.
  { eexists. split; vm_compute; reflexivity. }
  intros lib fs m k P Hreach HP.
  destruct (reachable_resolved lib fs m Hreach k P HP) as (l & Hl & HF).
  destruct (reachable_localLines lib fs m Hreach k P HP) as (l' & Hl' & Hin).
  rewrite Hl in Hl'. injection Hl' as <-.
  exists l. split.
  { unfold getUserRemappings. monad_red_goal. by rewrite Hl. }
  split.
  - intros u Hu Hnone. rewrite List.Forall_forall in HF.
    destruct (HF u Hu) as [(Hfile & contents & Hread & Hline) Hres].
    apply rawUserRemappings_trimmed in Hline as ((raw & Hraw & Hline) & _).
    destruct Hres as (r & Hparse & Hslash & Hpre & Ht). rewrite Hnone in Ht.
    destruct Ht as [Hlocal Hu'].
    exists contents, raw, r. split; [done|]. split; [done|]. split; [done|].
    split; [rewrite Hline; apply trim_trimmedFrom|].
    split; [done|]. split; [done|].
    rewrite Hu' at 1 3. cbn [ur_context ur_target localRemapping].
    by rewrite !updateRemappingsTxFragment_prepended.
  - intros file line r Hline Hlocal. exact (Hin file line r Hline Hlocal).
Qed.

(** The nested file [lib/submodule/remappings.txt]: its line [foo/=bar/],
    read between white space, is a local remapping, and its entry is among
    the remappings of the project. *)
Lemma C2_local_remappings_witness :
  exists map l,
    createMap Spec.lib (Disk.fs Scenario.nestedLocal) Scenario.fuel "/p"
      = Returns ([], map) /\
    getUserRemappings (hardhatProjectPackage map) map = Returns (l, map) /\
    subdirectoryOf (hardhatProjectPackage map)
      "/p/lib/submodule/remappings.txt" = "lib/submodule" /\
    trimmedFrom "  foo/=bar/  " "foo/=bar/" /\
    In {| ur_context := "project/lib/submodule/"; ur_prefix := "foo/";
          ur_target := "project/lib/submodule/bar/";
          originalFormat := "foo/=bar/";
          source := "/p/lib/submodule/remappings.txt";
          targetNpmPackage := None |} l.
Proof.
  eassert (H : createMap Spec.lib (Disk.fs Scenario.nestedLocal)
                 Scenario.fuel "/p" = Returns ([], _))
    by (vm_compute; reflexivity).
  match type of H with
  | _ = Returns (_, ?m0) =>
      destruct (proj2 (proj2 C2_local_remappings) Spec.lib
                  (Disk.fs Scenario.nestedLocal) m0
                  "project" (hardhatProjectPackage m0)
                  (mr_create _ _ _ _ _ _ H) ltac:(vm_compute; reflexivity))
        as (l & Hl & _ & Hall);
      exists m0, l; split; [exact H|]; split; [exact Hl|];
      split; [vm_compute; reflexivity|];
      split; [exact (trim_trimmedFrom "  foo/=bar/  ")|];
      exact (Hall "/p/lib/submodule/remappings.txt" "foo/=bar/"
               {| r_context := ""; r_prefix := "foo/"; r_target := "bar/" |}
               ltac:(split; [vm_compute; by left|];
                     eexists; split; [vm_compute; reflexivity|];
                     vm_compute; by left)
               ltac:(repeat split; vm_compute; reflexivity))
  end.
Defined.

(** X8. In every map reached from [create] through calls that return, the
    remappings of every package known by name are resolved:
    [getUserRemappings] returns them, without failing its assertion and
    without changing the map. Each of them comes from a line of a
    [remappings.txt] of the package, which parses into a remapping with its
    slash endings; it keeps the prefix of the line, which ends with a
    slash; and a remapping into a package [Q] under the installation name
    [n] has a target that starts with the root source name of [Q], which
    is the package the map holds as the installation [n] of its package. *)
Theorem X8_user_remappings_resolved lib fs m k P :
  map_reachable lib fs m ->
  packageByRootSourceName m !! k = Some P ->
  exists l,
    getUserRemappings P m = Returns (l, m) /\
    forall u, In u l ->
      remappingLine fs P (source u) (originalFormat u) /\
      resolvedFrom lib m P u /\
      Js.endsWith (ur_prefix u) "/" = true /\
      forall n Q, targetNpmPackage u = Some (n, Q) ->
        Js.startsWith (ur_target u) (rootSourceName Q) = true /\
        exists deps e,
          installationMap m !! pkg_ref P = Some deps /\
          deps !! n = Some e /\ inst_package e = Q.
Proof.
  intros Hreach HP.
  destruct (reachable_resolved lib fs m Hreach k P HP) as (l & Hl & HF).
  exists l. split.
  { unfold getUserRemappings. monad_red_goal. by rewrite Hl. }
  intros u Hu. rewrite List.Forall_forall in HF.
  destruct (HF u Hu) as [Hline Hres]. split; [done|]. split; [done|].
  destruct Hres as (r & Hparse & Hs & Hpre & Ht).
  split.
  { rewrite Hpre. by apply endsWith_of_slashes. }
  intros n Q HQ. rewrite HQ in Ht.
  destruct Ht as (_ & _ & _ & Htarget & Hinst). split; [|done].
  rewrite Htarget. apply startsWith_app.
Qed.

Lemma X8_user_remappings_resolved_witness :
  exists m l,
    createMap Spec.lib (Disk.fs Scenario.sharedDependency) Scenario.fuel "/p"
      = Returns ([], m) /\
    getUserRemappings (hardhatProjectPackage m) m = Returns (l, m) /\
    forall u, In u l ->
      Js.endsWith (ur_prefix u) "/" = true /\
      forall n Q, targetNpmPackage u = Some (n, Q) ->
        Js.startsWith (ur_target u) (rootSourceName Q) = true.
Proof.
  eassert (H : createMap Spec.lib (Disk.fs Scenario.sharedDependency)
                 Scenario.fuel "/p" = Returns ([], _))
    by (vm_compute; reflexivity).
  match type of H with
  | _ = Returns (_, ?m0) =>
      destruct (X8_user_remappings_resolved Spec.lib
                  (Disk.fs Scenario.sharedDependency) m0 "project"
                  (hardhatProjectPackage m0)
                  (mr_create _ _ _ _ _ _ H) ltac:(vm_compute; reflexivity))
        as (l & Hl & HF);
      exists m0, l
  end.
  split; [exact H|]. split; [exact Hl|].
  intros u Hu. destruct (HF u Hu) as (_ & _ & Hp & Ht). split; [exact Hp|].
  intros n Q HQ. by destruct (Ht n Q HQ).
Defined.

Lemma createMap_errors lib fs fuel root errors m :
  createMap lib fs fuel root = Returns (errors, m) ->
  Forall (fun e => exists k P, packageByRootSourceName m !! k = Some P /\
                               errorOf lib fs P e) errors.
Proof.
  unfold createMap. intros H.
  destruct (readJsonFile fs _) as [json|]; [|discriminate].
  refine (resolveRemaining_invariant lib fs
            (fun m errors =>
               Forall (fun e => exists k P,
                         packageByRootSourceName m !! k = Some P /\
                         errorOf lib fs P e) errors)
            _ fuel [] _ errors m (newMap_wf _) _ H); [|done].
  intros p q m0 es m2 errors0 Hwf Hq Hv HI.
  assert (Hp : In p (remappingsToResolve m0)) by (rewrite Hq; by left).
  pose proof (reset_wf p m0 Hwf Hp) as Hwf1.
  destruct (validatePackage_wf _ _ _ _ _ _ Hwf1 Hv) as [_ Hext].
  destruct (validatePackage_yields lib fs p _ _ _ Hwf1 (reset_lookup p m0) Hv)
    as (_ & _ & _ & HE).
  assert (Hkeep : forall k P, packageByRootSourceName m0 !! k = Some P ->
                    packageByRootSourceName (shifted m2) !! k = Some P).
  { intros k P HP. exact (ext_by_name _ _ _ Hext k P HP). }
  apply Forall_app. split.
  - eapply Forall_impl; [exact HI|]. cbn. intros e (k & P & HP & He).
    exists k, P. split; [by apply Hkeep|done].
  - eapply Forall_impl; [exact HE|]. cbn. intros e He.
    exists (rootSourceName p), p. split; [|done]. apply Hkeep.
    apply (wf_interned _ Hwf). by apply held_queue.
Qed.

(** X9. Every error [create] reports is accurate: it carries the path of
    a [remappings.txt] of a package the map knows and one of the lines of
    that file (trimmed, neither empty nor a comment), and the line is
    rejected for the reason its type names: it does not parse, or its
    target in [node_modules] starts with no module name; it lacks a slash
    ending; or the module it names is not installed for the package. *)
Theorem X9_errors_are_accurate lib fs fuel root errors m e :
  createMap lib fs fuel root = Returns (errors, m) ->
  In e errors ->
  create lib fs fuel root = Returns (Failure errors) /\
  exists k P,
    packageByRootSourceName m !! k = Some P /\
    remappingLine fs P (ure_source e) (ure_remapping e) /\
    rejected lib fs P (ure_remapping e) (ure_type e).
Proof.
  intros H He. split; [by eapply create_fails|].
  pose proof (createMap_errors _ _ _ _ _ _ H) as HF.
  rewrite List.Forall_forall in HF.
  destruct (HF e He) as (k & P & HP & Hline & Hrej). by exists k, P.
Qed.

Lemma X9_errors_are_accurate_witness :
  exists m e,
    createMap Spec.lib (Disk.fs Scenario.nestedError) Scenario.fuel "/p"
      = Returns ([e], m) /\
    ure_type e = ILLEGAL_REMAPPING_WIHTOUT_SLASH_ENDINGS /\
    exists k P,
      packageByRootSourceName m !! k = Some P /\
      remappingLine (Disk.fs Scenario.nestedError) P (ure_source e)
        (ure_remapping e) /\
      rejected Spec.lib (Disk.fs Scenario.nestedError) P (ure_remapping e)
        (ure_type e).
Proof.
  eassert (H : createMap Spec.lib (Disk.fs Scenario.nestedError)
                 Scenario.fuel "/p" = Returns ([_], _))
    by (vm_compute; reflexivity).
  match type of H with
  | _ = Returns ([?e0], ?m0) =>
      exists m0, e0; split; [exact H|]; split; [reflexivity|];
      exact (proj2 (X9_errors_are_accurate _ _ _ _ _ _ e0 H
                      ltac:(left; reflexivity)))
  end.
Defined.

(** ** The map only grows *)

Section MapGrowth.

Context (lib : Lib) (fs : Fs).

Lemma resolveDependency_grows fuel from n m res m' :
  map_wf m -> remappingsToResolve m = [] ->
  resolveDependencyByInstallationName lib fs fuel from n m = Returns (res, m') ->
  hardhatProjectPackage m' = hardhatProjectPackage m /\
  (forall k P, packageByRootSourceName m !! k = Some P ->
               packageByRootSourceName m' !! k = Some P) /\
  installations_kept m m' /\
  (forall a l, userRemappingsPerPackage m !! a = Some l ->
               userRemappingsPerPackage m' !! a = Some l).
Proof.
  intros Hwf Hq H. unfold resolveDependencyByInstallationName in H.
  monad_red H.
  destruct (priv_resolveDependencyByInstallationName fs from n m)
    as [[[e|] m1]| |] eqn:Hpriv; try discriminate.
  2:{ simplify_eq. apply priv_resolve_none in Hpriv as (-> & _).
      split; [done|]. split; [done|].
      split; [apply installations_kept_refl|done]. }
  unfold resolveAnyRemainingRemappings in H.
  destruct (resolveRemaining lib fs fuel [] m1) as [[errs m2]| |] eqn:Hloop;
    try discriminate.
  simplify_eq.
  pose proof (priv_resolve_remappings _ _ _ _ _ _ Hpriv) as Hur.
  destruct (priv_resolve_wf fs from from n m _ _ Hwf Hpriv)
    as (Hwf1 & Hext & _).
  destruct (resolveRemaining_wf _ _ _ _ _ _ _ Hwf1 Hloop) as (_ & Hlext & _).
  split; [|split; [|split]].
  - rewrite (lext_project _ _ Hlext). exact (ext_project _ _ _ Hext).
  - intros k P HP. apply (lext_by_name _ _ Hlext).
    by apply (ext_by_name _ _ _ Hext).
  - eapply installations_kept_trans.
    + exact (ext_installations _ _ _ Hext).
    + exact (lext_installations _ _ Hlext).
  - intros a l Hl. pose proof (wf_remappings_refs _ Hwf _ _ Hl) as Hlt.
    destruct (ext_queue _ _ _ Hext) as (news & Hnews & Hfresh).
    rewrite Hq in Hnews. cbn in Hnews.
    rewrite (lext_remappings _ _ Hlext).
    + by rewrite Hur.
    + pose proof (ext_nextRef _ _ _ Hext). lia.
    + intros P HP. rewrite Hnews in HP. apply Hfresh in HP. lia.
Qed.

End MapGrowth.

(** X10. A call of [resolveDependencyByInstallationName] that returns only
    adds to a map reached from [create]: the project package is the same,
    every package known by name is still known, as the same object, every
    installation is still recorded, and [getUserRemappings] returns for
    every package the very list it returned before the call. *)
Theorem X10_map_only_grows lib fs fuel from n m res m' :
  map_reachable lib fs m ->
  resolveDependencyByInstallationName lib fs fuel from n m = Returns (res, m') ->
  hardhatProjectPackage m' = hardhatProjectPackage m /\
  (forall k P, packageByRootSourceName m !! k = Some P ->
               packageByRootSourceName m' !! k = Some P) /\
  installations_kept m m' /\
  (forall P l, getUserRemappings P m = Returns (l, m) ->
               getUserRemappings P m' = Returns (l, m')).
Proof.
  intros Hreach H. destruct (map_reachable_wf _ _ _ Hreach) as [Hwf Hq].
  destruct (resolveDependency_grows lib fs _ _ _ _ _ _ Hwf Hq H)
    as (H1 & H2 & H3 & H4).
  do 3 (split; [done|]). intros P l HP.
  unfold getUserRemappings in *. monad_red HP. monad_red_goal.
  destruct (userRemappingsPerPackage m !! pkg_ref P) as [l0|] eqn:Hl.
  - simplify_eq. by rewrite (H4 _ _ Hl).
  - by destruct (installationMap m !! pkg_ref P).
Qed.

Lemma X10_map_only_grows_witness :
  exists m res m' l,
    createMap Spec.lib (Disk.fs Scenario.sharedDependency) Scenario.fuel "/p"
      = Returns ([], m) /\
    resolveDependencyByInstallationName Spec.lib
      (Disk.fs Scenario.sharedDependency) Scenario.fuel
      (hardhatProjectPackage m) "dep1" m = Returns (Some res, m') /\
    rootSourceName (dr_package res) = "npm/dep1@1.2.0" /\
    getUserRemappings (hardhatProjectPackage m) m = Returns (l, m) /\
    getUserRemappings (hardhatProjectPackage m) m' = Returns (l, m').
Proof.
  eassert (H : createMap Spec.lib (Disk.fs Scenario.sharedDependency)
                 Scenario.fuel "/p" = Returns ([], _))
    by (vm_compute; reflexivity).
  match type of H with
  | _ = Returns (_, ?m0) =>
      eassert (H1 : resolveDependencyByInstallationName Spec.lib
                      (Disk.fs Scenario.sharedDependency) Scenario.fuel
                      (hardhatProjectPackage m0) "dep1" m0
                    = Returns (Some _, _)) by (vm_compute; reflexivity);
      eassert (H2 : getUserRemappings (hardhatProjectPackage m0) m0
                    = Returns (_, m0)) by (vm_compute; reflexivity);
      match type of H1 with
      | _ = Returns (Some ?res0, ?m1) =>
          match type of H2 with
          | _ = Returns (?l0, _) =>
              exists m0, res0, m1, l0;
              split; [exact H|]; split; [exact H1|];
              split; [reflexivity|]; split; [exact H2|];
              exact (proj2 (proj2 (proj2
                       (X10_map_only_grows _ _ _ _ _ _ _ _
                          (mr_create _ _ _ _ _ _ H) H1))) _ _ H2)
          end
      end
  end.
Defined.

(** X11. [resolveDependencyByInstallationName] and a dependency that is
    not installed. When the package asked from is not in the map, the call
    fails the assertion of the private method. When it is, and the name is
    not recorded yet and [findDependencyPackageJson] finds nothing, the
    call returns [undefined] and leaves the map as it is. And whenever the
    call returns [undefined], this is how: the map is unchanged, the name
    is not recorded, and [findDependencyPackageJson] found nothing. *)
Theorem X11_dependency_not_installed lib fs fuel from n m :
  match installationMap m !! pkg_ref from with
  | None =>
      resolveDependencyByInstallationName lib fs fuel from n m
      = Throws (HardhatInvariantError
                  "The npm package must be present in the map")
  | Some deps =>
      deps !! n = None ->
      findDependencyPackageJson fs (rootFsPath from) n = None ->
      resolveDependencyByInstallationName lib fs fuel from n m
      = Returns (None, m)
  end /\
  forall m',
    resolveDependencyByInstallationName lib fs fuel from n m
      = Returns (None, m') ->
    m' = m /\
    findDependencyPackageJson fs (rootFsPath from) n = None /\
    exists deps,
      installationMap m !! pkg_ref from = Some deps /\ deps !! n = None.
Proof.
  split.
  - unfold resolveDependencyByInstallationName,
      priv_resolveDependencyByInstallationName. monad_red_goal.
    destruct (installationMap m !! pkg_ref from) as [deps|]; [|done].
    intros Hn Hf.
    match goal with
    | |- context [match ?x with Some _ => _ | None => _ end m] =>
        replace x with (@None Installation) by (symmetry; exact Hn)
    end.
    by rewrite Hf.
  - intros m' H. unfold resolveDependencyByInstallationName in H.
    monad_red H.
    destruct (priv_resolveDependencyByInstallationName fs from n m)
      as [[[e|] m1]| |] eqn:Hpriv; try discriminate.
    + unfold resolveAnyRemainingRemappings in H.
      destruct (resolveRemaining lib fs fuel [] m1) as [[errs m2]| |];
        discriminate.
    + simplify_eq. by apply priv_resolve_none in Hpriv.
Qed.

Lemma X11_dependency_not_installed_witness :
  exists m,
    createMap Spec.lib (Disk.fs Scenario.sharedDependency) Scenario.fuel "/p"
      = Returns ([], m) /\
    resolveDependencyByInstallationName Spec.lib
      (Disk.fs Scenario.sharedDependency) Scenario.fuel
      (hardhatProjectPackage m) "dep2" m = Returns (None, m) /\
    findDependencyPackageJson (Disk.fs Scenario.sharedDependency)
      (rootFsPath (hardhatProjectPackage m)) "dep2" = None.
Proof.
  eassert (H : createMap Spec.lib (Disk.fs Scenario.sharedDependency)
                 Scenario.fuel "/p" = Returns ([], _))
    by (vm_compute; reflexivity).
  match type of H with
  | _ = Returns (_, ?m0) =>
      eassert (H1 : resolveDependencyByInstallationName Spec.lib
                      (Disk.fs Scenario.sharedDependency) Scenario.fuel
                      (hardhatProjectPackage m0) "dep2" m0
                    = Returns (None, _)) by (vm_compute; reflexivity);
      exists m0; split; [exact H|];
      destruct (proj2 (X11_dependency_not_installed _ _ _ _ _ _) _ H1)
        as (Heq & Hfind & _)
  end.
  split; [exact H1|exact Hfind].
Defined.

(** ** The remappings the map generates *)

Section Generated.

Context (lib : Lib) (fs : Fs).

Lemma installed_generated from n deps to m m0 :
  installations_generated m0 ->
  installationMap m0 !! pkg_ref from = Some deps ->
  installations_generated m ->
  installations_generated (installed from n deps (installationOf from n to) m).
Proof.
  intros HJ0 Hdeps HJ a deps' n' e Ha He. unfold installed in Ha. unfold_map.
  destruct (decide (a = pkg_ref from)) as [->|Hne].
  - rewrite lookup_insert_eq in Ha. simplify_eq.
    destruct (decide (n' = n)) as [->|Hnn].
    + rewrite lookup_insert_eq in He. by simplify_eq.
    + rewrite lookup_insert_ne in He by done. by eapply HJ0.
  - rewrite lookup_insert_ne in Ha by done. by eapply HJ.
Qed.

Lemma insertNew_generated new m :
  installations_generated m ->
  installations_generated (insertNewPackage new (with_nextRef S m)).
Proof.
  intros HJ a deps n e Ha He. unfold insertNewPackage in Ha. unfold_map.
  destruct (decide (a = pkg_ref new)) as [->|Hne].
  - rewrite lookup_insert_eq in Ha. by simplify_eq.
  - rewrite lookup_insert_ne in Ha by done. by eapply HJ.
Qed.

Lemma priv_resolve_generated from n m res m' :
  installations_generated m ->
  priv_resolveDependencyByInstallationName fs from n m = Returns (res, m') ->
  installations_generated m'.
Proof.
  intros HJ H. apply priv_resolve_inv in H.
  destruct H as [deps e Hd He|deps Hd He|deps key existing Hd He Hex
                |deps new Hd He Hnew Hfresh]; try done.
  - by eapply installed_generated.
  - eapply installed_generated; [exact HJ|exact Hd|].
    by apply insertNew_generated.
Qed.

Lemma validate_generated p src line m err m' :
  validateAndResolveUserRemapping lib fs p src line m = Returns (err, m') ->
  installations_generated m -> installations_generated m'.
Proof.
  intros H HJ. apply validate_inv in H as (_ & _ & H).
  destruct H as [Hp|r Hp Hs|r Hp Hs Ht|r Hp Hs Ht Hpre|r Hp Hs Ht Hpre Hn
                |r n m1 Hp Hs Ht Hpre Hn Hpriv|r n dep m1 Hp Hs Ht Hpre Hn Hpriv];
    try done.
  - by eapply priv_resolve_generated.
  - intros a deps n' e Ha He. unfold pushed in Ha. unfold_map.
    exact (priv_resolve_generated _ _ _ _ _ HJ Hpriv a deps n' e Ha He).
Qed.

Lemma resolveRemaining_generated fuel errors m errors' m' :
  map_wf m -> installations_generated m ->
  resolveRemaining lib fs fuel errors m = Returns (errors', m') ->
  installations_generated m'.
Proof.
  refine (resolveRemaining_invariant lib fs
            (fun m _ => installations_generated m) _ fuel errors m errors' m').
  intros p q m0 es m2 errors0 Hwf Hq Hv HJ.
  assert (HJ2 : installations_generated m2).
  { refine (validatePackage_lift lib fs p
              (fun m m' => installations_generated m ->
                           installations_generated m')
              _ _ _ (reset p m0) es m2 Hv HJ); [done|by auto|].
    intros src line m1 err m1' H. by eapply validate_generated. }
  exact HJ2.
Qed.

Lemma reachable_generated m :
  map_reachable lib fs m -> installations_generated m.
Proof.
  induction 1 as [fuel root errors m H|fuel from n m res m' Hreach IH H].
  - unfold createMap in H.
    destruct (readJsonFile fs _) as [json|]; [|discriminate].
    eapply resolveRemaining_generated; [apply newMap_wf| |exact H].
    intros a deps n e Ha He. unfold newRemappedNpmPackagesMap in Ha.
    unfold insertNewPackage in Ha. unfold_map.
    destruct (decide (a = 0)) as [->|Hne].
    + rewrite lookup_insert_eq in Ha. by simplify_eq.
    + by rewrite lookup_insert_ne, lookup_empty in Ha.
  - destruct (map_reachable_wf _ _ _ Hreach) as [Hwf Hq].
    unfold resolveDependencyByInstallationName in H. monad_red H.
    destruct (priv_resolveDependencyByInstallationName fs from n m)
      as [[[e|] m1]| |] eqn:Hpriv; try discriminate.
    2:{ simplify_eq. by apply priv_resolve_none in Hpriv as (-> & _). }
    unfold resolveAnyRemainingRemappings in H.
    destruct (resolveRemaining lib fs fuel [] m1) as [[errs m2]| |] eqn:Hloop;
      try discriminate.
    simplify_eq.
    destruct (priv_resolve_wf fs from from n m _ _ Hwf Hpriv) as (Hwf1 & _).
    eapply resolveRemaining_generated; [exact Hwf1| |exact Hloop].
    by eapply priv_resolve_generated.
Qed.

End Generated.

Lemma resolved_dependency_facts lib fs fuel from n m dr m' :
  map_reachable lib fs m ->
  resolveDependencyByInstallationName lib fs fuel from n m
    = Returns (Some dr, m') ->
  r_prefix (dr_generatedRemapping dr) = n +:+ "/" /\
  r_target (dr_generatedRemapping dr)
    = rootSourceName (dr_package dr) +:+ "/" /\
  packageByRootSourceName m' !! rootSourceName (dr_package dr)
    = Some (dr_package dr) /\
  (exists l, getUserRemappings (dr_package dr) m' = Returns (l, m')) /\
  (exists deps,
     installationMap m' !! pkg_ref from = Some deps /\
     deps !! n = Some {| inst_package := dr_package dr;
                         generatedRemapping := dr_generatedRemapping dr |}) /\
  remappingErrros dr <> Some [].
Proof.
  intros Hreach H.
  assert (Hreach' : map_reachable lib fs m') by (by eapply mr_resolve).
  destruct (map_reachable_wf _ _ _ Hreach) as [Hwf Hq].
  destruct (map_reachable_wf _ _ _ Hreach') as [Hwf' Hq'].
  pose proof (reachable_generated lib fs m' Hreach') as HJ.
  unfold resolveDependencyByInstallationName in H. monad_red H.
  destruct (priv_resolveDependencyByInstallationName fs from n m)
    as [[[e|] m1]| |] eqn:Hpriv; try discriminate.
  unfold resolveAnyRemainingRemappings in H.
  destruct (resolveRemaining lib fs fuel [] m1) as [[errs m2]| |] eqn:Hloop;
    try discriminate.
  simplify_eq. cbn [dr_package dr_generatedRemapping remappingErrros].
  destruct (priv_resolve_wf fs from from n m _ _ Hwf Hpriv)
    as (Hwf1 & _ & Hres).
  destruct (Hres _ eq_refl) as (_ & deps & Hd & He).
  destruct (resolveRemaining_wf _ _ _ _ _ _ _ Hwf1 Hloop) as (_ & Hlext & _).
  destruct (lext_installations _ _ Hlext _ _ _ _ Hd He) as (deps' & Hd' & He').
  destruct (HJ _ _ _ _ Hd' He') as [Hpre Htar].
  assert (Hknown : packageByRootSourceName m' !! rootSourceName (inst_package e)
                   = Some (inst_package e)).
  { apply (wf_interned _ Hwf'). by eapply held_installed. }
  split; [done|]. split; [done|]. split; [done|]. split.
  { destruct (reachable_resolved lib fs m' Hreach' _ _ Hknown) as (l & Hl & _).
    exists l. unfold getUserRemappings. monad_red_goal. by rewrite Hl. }
  split.
  { exists deps'. split; [done|]. by destruct e. }
  by destruct errs.
Qed.

(** X12. What [resolveDependencyByInstallationName] returns for a
    dependency that is installed, in a map reached from [create]: the
    generated remapping has the installation name and the root source name
    of the package, each with its slash, as prefix and target; the package
    is the one the map knows under its root source name, its user
    remappings are resolved, and the map records it, with that remapping,
    as the installation asked for; and the errors, when there are some, are
    not the empty list. *)
Theorem X12_resolved_dependency lib fs fuel from n m dr m' :
  map_reachable lib fs m ->
  resolveDependencyByInstallationName lib fs fuel from n m
    = Returns (Some dr, m') ->
  r_prefix (dr_generatedRemapping dr) = n +:+ "/" /\
  r_target (dr_generatedRemapping dr)
    = rootSourceName (dr_package dr) +:+ "/" /\
  packageByRootSourceName m' !! rootSourceName (dr_package dr)
    = Some (dr_package dr) /\
  (exists l, getUserRemappings (dr_package dr) m' = Returns (l, m')) /\
  (exists deps,
     installationMap m' !! pkg_ref from = Some deps /\
     deps !! n = Some {| inst_package := dr_package dr;
                         generatedRemapping := dr_generatedRemapping dr |}) /\
  remappingErrros dr <> Some [].
Proof. apply resolved_dependency_facts. Qed.

Lemma X12_resolved_dependency_witness :
  exists m dr m',
    createMap Spec.lib (Disk.fs Scenario.sharedDependency) Scenario.fuel "/p"
      = Returns ([], m) /\
    resolveDependencyByInstallationName Spec.lib
      (Disk.fs Scenario.sharedDependency) Scenario.fuel
      (hardhatProjectPackage m) "dep1" m = Returns (Some dr, m') /\
    dr_generatedRemapping dr
      = {| r_context := "project/"; r_prefix := "dep1/";
           r_target := "npm/dep1@1.2.0/" |} /\
    r_prefix (dr_generatedRemapping dr) = "dep1" +:+ "/" /\
    r_target (dr_generatedRemapping dr)
      = rootSourceName (dr_package dr) +:+ "/".
Proof.
  eassert (H : createMap Spec.lib (Disk.fs Scenario.sharedDependency)
                 Scenario.fuel "/p" = Returns ([], _))
    by (vm_compute; reflexivity).
  match type of H with
  | _ = Returns (_, ?m0) =>
      eassert (H1 : resolveDependencyByInstallationName Spec.lib
                      (Disk.fs Scenario.sharedDependency) Scenario.fuel
                      (hardhatProjectPackage m0) "dep1" m0
                    = Returns (Some _, _)) by (vm_compute; reflexivity);
      match type of H1 with
      | _ = Returns (Some ?dr0, ?m1) =>
          exists m0, dr0, m1;
          split; [exact H|]; split; [exact H1|]; split; [reflexivity|];
          destruct (X12_resolved_dependency _ _ _ _ _ _ _ _
                      (mr_create _ _ _ _ _ _ H) H1) as (Hp & Ht & _);
          exact (conj Hp Ht)
      end
  end.
Defined.

(** ** The root source names of the packages *)

Section RootSourceNames.

Context (lib : Lib) (fs : Fs).

Lemma priv_resolve_named from n m res m' :
  named_by_version m ->
  priv_resolveDependencyByInstallationName fs from n m = Returns (res, m') ->
  named_by_version m'.
Proof.
  intros HK H. unfold priv_resolveDependencyByInstallationName in H.
  monad_red H.
  destruct (installationMap m !! pkg_ref from) as [deps|]; [|discriminate].
  destruct (deps !! n) as [e|]; [by simplify_eq|].
  destruct (findDependencyPackageJson fs (rootFsPath from) n) as [path|];
    [|by simplify_eq].
  destruct (readJsonFile fs path) as [json|]; [|discriminate].
  match type of H with
  | context [packageByRootSourceName m !! ?k] =>
      set (key := k) in *;
      destruct (packageByRootSourceName m !! key) as [existing|] eqn:Hex
  end.
  - simplify_eq. intros k P HP. unfold_map. by apply HK.
  - simplify_eq. intros k P HP. unfold_map.
    destruct (decide (k = key)) as [->|Hne].
    + rewrite lookup_insert_eq in HP. simplify_eq. cbn. split; [done|].
      subst key. destruct (String.eqb path _); [by left|by right].
    + rewrite lookup_insert_ne in HP by done. by apply HK.
Qed.

Lemma validate_named p src line m err m' :
  validateAndResolveUserRemapping lib fs p src line m = Returns (err, m') ->
  named_by_version m -> named_by_version m'.
Proof.
  intros H HK. apply validate_inv in H as (_ & _ & H).
  destruct H as [Hp|r Hp Hs|r Hp Hs Ht|r Hp Hs Ht Hpre|r Hp Hs Ht Hpre Hn
                |r n m1 Hp Hs Ht Hpre Hn Hpriv|r n dep m1 Hp Hs Ht Hpre Hn Hpriv];
    try done.
  - by eapply priv_resolve_named.
  - intros k P HP. unfold pushed in HP. unfold_map.
    exact (priv_resolve_named _ _ _ _ _ HK Hpriv k P HP).
Qed.

Lemma resolveRemaining_named fuel errors m errors' m' :
  map_wf m -> named_by_version m ->
  resolveRemaining lib fs fuel errors m = Returns (errors', m') ->
  named_by_version m'.
Proof.
  refine (resolveRemaining_invariant lib fs
            (fun m _ => named_by_version m) _ fuel errors m errors' m').
  intros p q m0 es m2 errors0 Hwf Hq Hv HK.
  refine (validatePackage_lift lib fs p
            (fun m m' => named_by_version m -> named_by_version m')
            _ _ _ (reset p m0) es m2 Hv HK); [done|by auto|].
  intros src line m1 err m1' H. by eapply validate_named.
Qed.

Lemma reachable_named m :
  map_reachable lib fs m -> named_by_version m.
Proof.
  induction 1 as [fuel root errors m H|fuel from n m res m' Hreach IH H].
  - unfold createMap in H.
    destruct (readJsonFile fs _) as [json|]; [|discriminate].
    eapply resolveRemaining_named; [apply newMap_wf| |exact H].
    intros k P HP. unfold newRemappedNpmPackagesMap in HP.
    unfold insertNewPackage in HP. unfold_map.
    destruct (decide (k = HARDHAT_PROJECT_ROOT_SOURCE_NAME)) as [->|Hne].
    + rewrite lookup_insert_eq in HP. simplify_eq. cbn. split; [done|by left].
    + by rewrite lookup_insert_ne, lookup_empty in HP.
  - destruct (map_reachable_wf _ _ _ Hreach) as [Hwf Hq].
    unfold resolveDependencyByInstallationName in H. monad_red H.
    destruct (priv_resolveDependencyByInstallationName fs from n m)
      as [[[e|] m1]| |] eqn:Hpriv; try discriminate.
    2:{ simplify_eq. by apply priv_resolve_none in Hpriv as (-> & _). }
    unfold resolveAnyRemainingRemappings in H.
    destruct (resolveRemaining lib fs fuel [] m1) as [[errs m2]| |] eqn:Hloop;
      try discriminate.
    simplify_eq.
    destruct (priv_resolve_wf fs from from n m _ _ Hwf Hpriv) as (Hwf1 & _).
    eapply resolveRemaining_named; [exact Hwf1| |exact Hloop].
    by eapply priv_resolve_named.
Qed.

End RootSourceNames.

(** X13. One package per name and version. In every map reached from
    [create], a package known by name is known under its own root source
    name, which is [project] or [npm/], its name, an at sign and its
    version; so two known packages that have the same name and the same
    version, neither of them under the root source name of the project,
    are one and the same object. *)
Theorem X13_one_package_per_version lib fs m :
  map_reachable lib fs m ->
  (forall k P,
     packageByRootSourceName m !! k = Some P ->
     k = rootSourceName P /\
     (rootSourceName P = "project" \/
      rootSourceName P = "npm/" +:+ name P +:+ "@" +:+ version P)) /\
  (forall k P k' Q,
     packageByRootSourceName m !! k = Some P ->
     packageByRootSourceName m !! k' = Some Q ->
     rootSourceName P <> "project" -> rootSourceName Q <> "project" ->
     name P = name Q -> version P = version Q ->
     P = Q).
Proof.
  intros Hreach. pose proof (reachable_named lib fs m Hreach) as HK.
  split; [exact HK|].
  intros k P k' Q HP HQ HnP HnQ Hname Hversion.
  destruct (HK _ _ HP) as [-> [?|HrP]]; [done|].
  destruct (HK _ _ HQ) as [-> [?|HrQ]]; [done|].
  assert (Heq : rootSourceName P = rootSourceName Q).
  { rewrite HrP, HrQ. unfold npmPackageToRootSourceName.
    by rewrite Hname, Hversion. }
  rewrite Heq in HP. by simplify_eq.
Qed.

Lemma X13_one_package_per_version_witness :
  exists m P,
    createMap Spec.lib (Disk.fs Scenario.sharedDependency) Scenario.fuel "/p"
      = Returns ([], m) /\
    packageByRootSourceName m !! "npm/dep1@1.2.0" = Some P /\
    name P = "dep1" /\ version P = "1.2.0" /\
    "npm/dep1@1.2.0" = rootSourceName P /\
    (rootSourceName P = "project" \/
     rootSourceName P = "npm/" +:+ name P +:+ "@" +:+ version P).
Proof.
  eassert (H : createMap Spec.lib (Disk.fs Scenario.sharedDependency)
                 Scenario.fuel "/p" = Returns ([], _))
    by (vm_compute; reflexivity).
  match type of H with
  | _ = Returns (_, ?m0) =>
      eassert (HP : packageByRootSourceName m0 !! "npm/dep1@1.2.0" = Some _)
        by (vm_compute; reflexivity);
      match type of HP with
      | _ = Some ?P0 =>
          exists m0, P0; split; [exact H|]; split; [exact HP|];
          split; [reflexivity|]; split; [reflexivity|];
          exact (proj1 (X13_one_package_per_version _ _ m0
                          (mr_create _ _ _ _ _ _ H)) _ _ HP)
      end
  end.
Defined.

(** ** What a resolution does to the table of the interned files *)

Lemma resolution_step_kept r r' o :
  resolution_step r r' o -> interned_kept r r'.
Proof.
  intros [H1 H2 H3 H4|f H1 H2 H3 H4 H5] k g Hk.
  - by rewrite H3.
  - rewrite H4. destruct (decide (k = sourceName f)) as [->|Hne].
    + by rewrite H3 in Hk.
    + by rewrite lookup_insert_ne.
Qed.

Lemma resolution_step_refl r : resolution_step r r None.
Proof. by constructor. Qed.

Lemma resolution_step_after r r1 r' o :
  resolution_step r r1 None -> resolution_step r1 r' o ->
  resolution_step r r' o.
Proof.
  intros H1 H2. inversion H1 as [A1 A2 A3 A4|]; subst.
  destruct H2 as [B1 B2 B3 B4|f B1 B2 B3 B4 B5].
  - constructor; congruence.
  - constructor; congruence.
Qed.

Section TableSteps.

Context (lib : Lib) (fs : Fs).

Lemma onPackageMap_step {A} (m : M RemappedNpmPackagesMap A) r a r' :
  onPackageMap m r = Returns (a, r') -> resolution_step r r' None.
Proof.
  unfold onPackageMap. destruct (m (npmPackageMap r)) as [[a' map]| |];
    intros H; simplify_eq. by constructor.
Qed.

Lemma validateAndBuild_step from importPath sn rel pkg reference rem r res r' :
  resolvedFileBySourceName r !! sn = None ->
  validateAndBuild fs from importPath sn rel pkg reference rem r
    = Returns (res, r') ->
  npmPackageMap r' = npmPackageMap r /\
  ((r' = r /\
    (res = Failure (IMPORT_DOESNT_EXIST (fsPath from) importPath reference) \/
     exists correctCasing,
       res = Failure (IMPORT_INVALID_CASING (fsPath from) importPath
                        reference correctCasing))) \/
   (exists v, res = Success v /\ ri_remapping v = Some rem /\
              sourceName (ri_file v) = sn /\
              resolution_step r r' (Some (ri_file v)))).
Proof.
  intros Hnone H.
  assert (Hbuild : forall f r1,
            buildResolvedFile fs sn (Path.join [rootFsPath pkg; rel]) pkg r
              = Returns (f, r1) ->
            resolution_step r
              (with_resolvedFileBySourceName (fun t => <[sn := f]> t) r1)
              (Some f) /\ sourceName f = sn).
  { intros f r1 Hb. apply buildResolvedFile_inv in Hb as [Hname ->].
    split; [|done]. subst sn. by constructor. }
  unfold validateAndBuild in H.
  destruct (validateFsPath fs (rootFsPath pkg) rel) as [[]|[]|n];
    monad_red H.
  - destruct (buildResolvedFile fs sn _ pkg r) as [[f r1]| |] eqn:Hb;
      try discriminate.
    destruct (Hbuild _ _ eq_refl) as [Hstep Hname].
    apply buildResolvedFile_inv in Hb as [_ ->]. simplify_eq.
    split; [done|]. right. eexists. by repeat split.
  - simplify_eq. split; [done|]. left. split; [done|]. by left.
  - simplify_eq. split; [done|]. left. split; [done|]. right. by eexists.
  - destruct (buildResolvedFile fs sn _ pkg r) as [[f r1]| |] eqn:Hb;
      try discriminate.
    destruct (Hbuild _ _ eq_refl) as [Hstep Hname].
    apply buildResolvedFile_inv in Hb as [_ ->]. simplify_eq.
    split; [done|]. right. eexists. by repeat split.
Qed.

Lemma resolveUserRemappedImport_step from importPath directImport rem r res r' :
  resolveUserRemappedImport lib fs from importPath directImport rem r
    = Returns (res, r') ->
  npmPackageMap r' = npmPackageMap r /\
  exists o,
    resolution_step r r' o /\
    match res with
    | Success v =>
        ri_remapping v = Some (UserRemapping rem) /\
        resolvedFileBySourceName r' !! applyValidRemapping lib directImport rem
          = Some (ri_file v) /\
        (o = None \/ o = Some (ri_file v))
    | Failure e =>
        o = None /\ r' = r /\
        resolvedFileBySourceName r !! applyValidRemapping lib directImport rem
          = None /\
        exists reference,
          userRemapping reference = Some (buildUserRemappingReference rem) /\
          (e = IMPORT_DOESNT_EXIST (fsPath from) importPath reference \/
           exists correctCasing,
             e = IMPORT_INVALID_CASING (fsPath from) importPath reference
                   correctCasing)
    | NotAResult _ => False
    end.
Proof.
  unfold resolveUserRemappedImport. monad_red_goal.
  set (sn := applyValidRemapping lib directImport rem).
  destruct (resolvedFileBySourceName r !! sn) as [existing|] eqn:Hlook.
  - intros H. simplify_eq. split; [done|]. exists None.
    split; [apply resolution_step_refl|]. cbn. auto.
  - intros H.
    destruct (validateAndBuild_step _ _ _ _ _ _ _ _ _ _ Hlook H)
      as (Hmap & [(-> & Hres)|(v & -> & Hrem & Hname & Hstep)]).
    + split; [done|]. exists None. split; [apply resolution_step_refl|].
      destruct Hres as [->|(c & ->)].
      * do 3 (split; [done|]). eexists. split; [|by left]. done.
      * do 3 (split; [done|]). eexists. split; [|right; by eexists]. done.
    + split; [done|]. exists (Some (ri_file v)). split; [done|].
      split; [done|]. split; [|by right].
      inversion Hstep as [|f H1 H2 H3 H4 H5]; subst.
      rewrite H4, Hname. apply lookup_insert_eq.
Qed.

Lemma npmImportInto_step fromPkg from importPath directImport parsed dr r res r' :
  npmImportInto lib fs fromPkg from importPath directImport parsed dr r
    = Returns (res, r') ->
  npmPackageMap r' = npmPackageMap r /\
  exists o,
    resolution_step r r' o /\
    match res with
    | Success v =>
        (exists g, ri_remapping v = Some (GeneratedRemapping g)) /\
        (o = None \/ o = Some (ri_file v))
    | Failure e =>
        o = None /\ r' = r /\
        exists reference,
          npmPackage reference
            = (if negb (samePackage (dr_package dr)
                          (hardhatProjectPackage (npmPackageMap r)))
               then Some (dr_package dr) else None) /\
          (e = IMPORT_DOESNT_EXIST (fsPath from) importPath reference \/
           (exists correctCasing,
              e = IMPORT_INVALID_CASING (fsPath from) importPath reference
                    correctCasing) \/
           e = IMPORT_OF_NON_EXPORTED_NPM_FILE (fsPath from) importPath
                 reference)
    | NotAResult _ => False
    end.
Proof.
  unfold npmImportInto. monad_red_goal. intros H.
  destruct (resolvedSubpathOf fs (dr_package dr) (parsed_subpath parsed) r)
    as [[x r1]| |] eqn:Hx; try discriminate.
  apply resolvedSubpathOf_pure in Hx as [-> _].
  destruct x as [resolvedSubpath|].
  2:{ simplify_eq. split; [done|]. exists None.
      split; [apply resolution_step_refl|].
      do 2 (split; [done|]). eexists. split; [|right; by right]. done. }
  match type of H with
  | context [resolvedFileBySourceName r !! ?k] =>
      set (sn := k) in *;
      destruct (resolvedFileBySourceName r !! sn) as [existing|] eqn:Hlook
  end.
  - simplify_eq. split; [done|]. exists None.
    split; [apply resolution_step_refl|]. cbn. split; [by eexists|by left].
  - destruct (validateAndBuild_step _ _ _ _ _ _ _ _ _ _ Hlook H)
      as (Hmap & [(-> & Hres)|(v & -> & Hrem & Hname & Hstep)]).
    + split; [done|]. exists None. split; [apply resolution_step_refl|].
      destruct Hres as [->|(c & ->)].
      * do 2 (split; [done|]). eexists. split; [|by left]. done.
      * do 2 (split; [done|]). eexists.
        split; [|right; left; by eexists]. done.
    + split; [done|]. exists (Some (ri_file v)). split; [done|].
      split; [by eexists|by right].
Qed.

Lemma resolveImportThroughNpm_step fuel from importPath directImport r res r' :
  resolveImportThroughNpm lib fs fuel from importPath directImport r
    = Returns (res, r') ->
  exists o,
    resolution_step r r' o /\
    match res with
    | Success v =>
        (exists g, ri_remapping v = Some (GeneratedRemapping g)) /\
        (o = None \/ o = Some (ri_file v))
    | Failure e =>
        o = None /\
        ImportResolutionError_type e <> "ILLEGAL_RELATIVE_IMPORT" /\
        ImportResolutionError_type e <> "IMPORT_WITH_WINDOWS_PATH_SEPARATORS"
    | NotAResult _ => False
    end.
Proof.
  rewrite resolveImportThroughNpm_eq. intros H.
  destruct (parseNpmDirectImport directImport) as [parsed|].
  2:{ simplify_eq. exists None. split; [apply resolution_step_refl|done]. }
  destruct (onPackageMap _ r) as [[[dr|] r1]| |] eqn:Hdep; try discriminate.
  2:{ simplify_eq. exists None. split; [|done].
      by eapply onPackageMap_step. }
  apply onPackageMap_step in Hdep.
  destruct (remappingErrros dr).
  { simplify_eq. by exists None. }
  apply npmImportInto_step in H as (_ & o & Hstep & Hres).
  exists o. split; [by eapply resolution_step_after|].
  destruct res as [v|e|k]; [done| |done].
  destruct Hres as (-> & _ & reference & _ & [->|[(c & ->)| ->]]); done.
Qed.

Lemma resolveImport_step fuel from importPath r res r' :
  resolveImport lib fs fuel from importPath r = Returns (res, r') ->
  exists o,
    resolution_step r r' o /\
    match res with
    | Success v =>
        isRelativeImport importPath = false /\
        (exists rem, ri_remapping v = Some rem) /\
        (o = None \/ o = Some (ri_file v))
    | Failure e =>
        o = None /\
        (ImportResolutionError_type e = "ILLEGAL_RELATIVE_IMPORT" ->
         isRelativeImport importPath = true)
    | NotAResult _ => o = None /\ r' = r /\ isRelativeImport importPath = true
    end.
Proof.
  intros H.
  destruct (isRelativeImport importPath) eqn:Hrel.
  { rewrite (resolveImport_relative lib fs fuel from importPath r Hrel) in H.
    exists None.
    destruct (Js.includes importPath _).
    { simplify_eq. split; [apply resolution_step_refl|done]. }
    destruct (negb _).
    { simplify_eq. split; [apply resolution_step_refl|done]. }
    destruct (onPackageMap _ r) as [[l r'']| |] eqn:Hl; try discriminate.
    apply onPackageMap_getUserRemappings_inv in Hl as [Hl ->].
    destruct (selectBestRemapping _ _ _ _); [discriminate|]. simplify_eq.
    split; [apply resolution_step_refl|done]. }
  destruct (Js.includes importPath (String Js.backslash EmptyString)) eqn:Hbs.
  { unfold resolveImport in H. rewrite Hbs in H. monad_red H. simplify_eq.
    exists None. split; [apply resolution_step_refl|]. split; [done|]. done. }
  assert (Hl : exists l,
             userRemappingsPerPackage (npmPackageMap r) !! pkg_ref (package from)
               = Some l).
  { unfold resolveImport in H. rewrite Hrel, Hbs in H.
    cbn [andb] in H. monad_red H.
    destruct (onPackageMap (getUserRemappings (package from)) r)
      as [[l r0]| |] eqn:Hl; try discriminate.
    apply onPackageMap_getUserRemappings_inv in Hl as [Hl ->]. by exists l. }
  destruct Hl as [l Hl].
  rewrite (resolveImport_direct_eq lib fs fuel from importPath r l Hbs Hrel Hl)
    in H.
  destruct (selectBestRemapping lib (sourceName from) importPath l)
    as [rem|] eqn:Hbest.
  - apply resolveUserRemappedImport_step in H as (_ & o & Hstep & Hres).
    exists o. split; [done|]. destruct res as [v|e|k]; [| |done].
    + destruct Hres as (Hrem & _ & Ho). split; [done|]. split; [by eexists|done].
    + destruct Hres as (-> & _ & _ & reference & _ & [->|(c & ->)]); done.
  - destruct (resolveImportThroughNpm lib fs fuel from importPath importPath r)
      as [[res1 r1]| |] eqn:Hnpm; try discriminate.
    apply resolveImportThroughNpm_step in Hnpm as (o & Hstep & Hres).
    assert (Hsame : res = res1 /\ r' = r1).
    { destruct res1 as [v|e|k]; [by simplify_eq| |done].
      destruct (runsFallback e); [|by simplify_eq].
      destruct (tryToGenerateDirectLocalImportError _ _ _ _ r1)
        as [[improved r2]| |] eqn:Htry; try discriminate.
      unfold tryToGenerateDirectLocalImportError in Htry.
      apply tryToGenerate_returns_none in Htry as [-> ->]. by simplify_eq. }
    destruct Hsame as [-> ->]. exists o. split; [done|].
    destruct res1 as [v|e|k]; [| |done].
    + destruct Hres as ((g & Hg) & Ho). split; [done|]. split; [by eexists|done].
    + destruct Hres as (-> & Hne & _). done.
Qed.

Lemma npmRootResultOf_inv {S} npmModule parsed result (st : S) res st' :
  npmRootResultOf npmModule parsed result st = Returns (res, st') -> st' = st.
Proof.
  unfold npmRootResultOf. intros H.
  destruct result as [v|e|k].
  - monad_red H.
    destruct (ri_remapping v) as [[g|u]|]; [| |discriminate];
      destruct (file_type (ri_file v)); monad_red H;
      try discriminate; by simplify_eq.
  - destruct e; monad_red H; try (destruct (npmPackage reference));
      try discriminate; by simplify_eq.
  - monad_red H. discriminate.
Qed.

Lemma resolveNpmDependencyFileAsRoot_inv fuel npmModule r res r' :
  resolveNpmDependencyFileAsRoot lib fs fuel npmModule r = Returns (res, r') ->
  (parseNpmDirectImport npmModule = None /\ r' = r /\
   res = Failure (NPM_ROOT_FILE_NAME_WITH_INVALID_FORMAT npmModule)) \/
  exists parsed result,
    parseNpmDirectImport npmModule = Some parsed /\
    resolveImport lib fs fuel (fakeRootFile r) npmModule r
      = Returns (result, r') /\
    npmRootResultOf npmModule parsed result r' = Returns (res, r').
Proof.
  unfold resolveNpmDependencyFileAsRoot. intros H.
  destruct (parseNpmDirectImport npmModule) as [parsed|].
  2:{ monad_red H. simplify_eq. by left. }
  right. monad_red H.
  destruct (resolveImport lib fs fuel (fakeRootFile r) npmModule r)
    as [[result r1]| |] eqn:Hi; try discriminate.
  pose proof (npmRootResultOf_inv _ _ _ _ _ _ H) as ->.
  by exists parsed, result.
Qed.

Lemma resolveProjectFile_step absoluteFilePath r res r' :
  resolveProjectFile lib fs absoluteFilePath r = Returns (res, r') ->
  npmPackageMap r' = npmPackageMap r /\
  exists o,
    resolution_step r r' o /\
    match res with
    | Success f =>
        (exists k, resolvedFileBySourceName r' !! k = Some f) /\
        (o = None \/ o = Some f)
    | Failure e => o = None /\ r' = r
    | NotAResult _ => False
    end.
Proof.
  unfold resolveProjectFile. monad_red_goal. intros H.
  destruct (negb (Js.startsWith absoluteFilePath (projectRoot r))).
  { simplify_eq. split; [done|]. exists None.
    split; [apply resolution_step_refl|done]. }
  match type of H with
  | context [resolvedFileBySourceName r !! ?k] =>
      set (given := k) in *;
      destruct (resolvedFileBySourceName r !! given) as [existing|] eqn:Hgiven
  end.
  { simplify_eq. split; [done|]. exists None.
    split; [apply resolution_step_refl|]. split; [by exists given|by left]. }
  match type of H with
  | context [match ?x with Some _ => _ | None => _ end r] =>
      destruct x as [[real sn]|] eqn:Hvalid
  end.
  2:{ simplify_eq. split; [done|]. exists None.
      split; [apply resolution_step_refl|done]. }
  destruct (Js.startsWith sn _).
  { simplify_eq. split; [done|]. exists None.
    split; [apply resolution_step_refl|done]. }
  destruct (resolvedFileBySourceName r !! sn) as [existing|] eqn:Hsn.
  { simplify_eq. split; [done|]. exists None.
    split; [apply resolution_step_refl|]. split; [by exists sn|by left]. }
  destruct (readFileContent fs _ r) as [[c r1]| |] eqn:Hc; try discriminate.
  apply readFileContent_inv in Hc as ->.
  unfold newResolvedFile in H. monad_red H. simplify_eq.
  split; [done|].
  match goal with
  | |- context [<[sn := ?f]> _] => exists (Some f)
  end.
  split.
  - by constructor.
  - cbn. split; [|by right]. exists sn. apply lookup_insert_eq.
Qed.

End TableSteps.

(** X14. An error of [resolveProjectFile] is accurate, and leaves the
    resolver as it was: the path of the error is the path given;
    [PROJECT_ROOT_FILE_NOT_IN_PROJECT] means that the path does not start
    with the project root; [PROJECT_ROOT_FILE_DOESNT_EXIST] that it does
    and that the file system has no such file;
    [PROJECT_ROOT_FILE_IN_NODE_MODULES] that the file exists and that the
    source name built from its true casing is in [node_modules]. *)
Theorem X14_project_file_errors lib fs absoluteFilePath r e r' :
  resolveProjectFile lib fs absoluteFilePath r = Returns (Failure e, r') ->
  r' = r /\
  let relativeFilePath := Path.relative (projectRoot r) absoluteFilePath in
  match e with
  | PROJECT_ROOT_FILE_NOT_IN_PROJECT path =>
      path = absoluteFilePath /\
      Js.startsWith absoluteFilePath (projectRoot r) = false
  | PROJECT_ROOT_FILE_DOESNT_EXIST path =>
      path = absoluteFilePath /\
      Js.startsWith absoluteFilePath (projectRoot r) = true /\
      getFileTrueCase fs (projectRoot r) relativeFilePath = None
  | PROJECT_ROOT_FILE_IN_NODE_MODULES path =>
      path = absoluteFilePath /\
      Js.startsWith absoluteFilePath (projectRoot r) = true /\
      exists trueCase,
        getFileTrueCase fs (projectRoot r) relativeFilePath = Some trueCase /\
        inNodeModules lib r (projectSourceNameOf lib r trueCase) = true
  end.
Proof.
  unfold resolveProjectFile. monad_red_goal. intros H.
  destruct (Js.startsWith absoluteFilePath (projectRoot r)) eqn:Hroot;
    cbn [negb] in H.
  2:{ by simplify_eq. }
  match type of H with
  | context [resolvedFileBySourceName r !! ?k] =>
      destruct (resolvedFileBySourceName r !! k) as [existing|]
  end; [discriminate|].
  unfold validateFsPath in H.
  destruct (getFileTrueCase fs (projectRoot r) _) as [trueCase|] eqn:Htrue.
  2:{ by simplify_eq. }
  destruct (negb (String.eqb _ trueCase)) eqn:Hcase; cbn iota in H.
  - fold (projectSourceNameOf lib r trueCase) in H.
    fold (inNodeModules lib r (projectSourceNameOf lib r trueCase)) in H.
    destruct (inNodeModules lib r _) eqn:Hnm.
    { simplify_eq. split; [done|]. cbn. do 2 (split; [done|]). by eexists. }
    destruct (resolvedFileBySourceName r !! _); [discriminate|].
    destruct (readFileContent fs _ r) as [[c r1]| |]; [|discriminate..].
    unfold newResolvedFile in H. monad_red H. discriminate.
  - apply negb_false_iff, String.eqb_eq in Hcase. subst trueCase.
    set (rel := Path.relative (projectRoot r) absoluteFilePath) in *.
    fold (projectSourceNameOf lib r rel) in H.
    fold (inNodeModules lib r (projectSourceNameOf lib r rel)) in H.
    destruct (inNodeModules lib r _) eqn:Hnm.
    { simplify_eq. split; [done|]. cbn. do 2 (split; [done|]).
      by exists rel. }
    destruct (resolvedFileBySourceName r !! _); [discriminate|].
    destruct (readFileContent fs _ r) as [[c r1]| |]; [|discriminate..].
    unfold newResolvedFile in H. monad_red H. discriminate.
Qed.

Lemma X14_project_file_errors_witness :
  exists r,
    createResolver Spec.lib (Disk.fs Scenario.sources) Scenario.fuel "/p"
      = Returns (Success r) /\
    resolveProjectFile Spec.lib (Disk.fs Scenario.sources)
      "/p/node_modules/dep1/src/A.sol" r
    = Returns (Failure (PROJECT_ROOT_FILE_IN_NODE_MODULES
                          "/p/node_modules/dep1/src/A.sol"), r) /\
    exists trueCase,
      getFileTrueCase (Disk.fs Scenario.sources) (projectRoot r)
        (Path.relative (projectRoot r) "/p/node_modules/dep1/src/A.sol")
        = Some trueCase /\
      inNodeModules Spec.lib r (projectSourceNameOf Spec.lib r trueCase) = true.
Proof.
  eassert (H : createResolver Spec.lib (Disk.fs Scenario.sources)
                 Scenario.fuel "/p" = Returns (Success _))
    by (vm_compute; reflexivity).
  match type of H with
  | _ = Returns (Success ?r0) =>
      eassert (H1 : resolveProjectFile Spec.lib (Disk.fs Scenario.sources)
                      "/p/node_modules/dep1/src/A.sol" r0
                    = Returns (Failure _, _)) by (vm_compute; reflexivity);
      exists r0; split; [exact H|]; split; [exact H1|];
      destruct (X14_project_file_errors _ _ _ _ _ _ H1) as (_ & _ & _ & Hx);
      exact Hx
  end.
Defined.

(** X15. A project file is resolved once. When [resolveProjectFile]
    succeeds on a resolver reached from [create], the file it returns is
    interned under its own source name, the package map is untouched, and
    resolving the same path again returns the very same file and leaves
    the resolver as it is. *)
Theorem X15_project_file_resolved_once lib fs absoluteFilePath r f r' :
  reachable lib fs r ->
  resolveProjectFile lib fs absoluteFilePath r = Returns (Success f, r') ->
  resolvedFileBySourceName r' !! sourceName f = Some f /\
  npmPackageMap r' = npmPackageMap r /\
  resolveProjectFile lib fs absoluteFilePath r' = Returns (Success f, r').
Proof.
  intros Hreach H. pose proof (reachable_wf lib fs r Hreach) as Hwf.
  pose proof H as H0.
  unfold resolveProjectFile in H. monad_red H.
  destruct (negb (Js.startsWith absoluteFilePath (projectRoot r))) eqn:Hroot;
    [discriminate|].
  match type of H with
  | context [resolvedFileBySourceName r !! ?k] =>
      set (given := k) in *;
      destruct (resolvedFileBySourceName r !! given) as [existing|] eqn:Hgiven
  end.
  { simplify_eq. split; [|done]. by rewrite (rwf_interned _ Hwf _ _ Hgiven). }
  match type of H with
  | context [match ?x with Some _ => _ | None => _ end r] =>
      destruct x as [[real sn]|] eqn:Hvalid
  end; [|discriminate].
  destruct (Js.startsWith sn _) eqn:Hnm; [discriminate|].
  destruct (resolvedFileBySourceName r !! sn) as [existing|] eqn:Hsn.
  { simplify_eq. split; [|done]. by rewrite (rwf_interned _ Hwf _ _ Hsn). }
  destruct (readFileContent fs _ r) as [[c r1]| |] eqn:Hc; try discriminate.
  apply readFileContent_inv in Hc as ->.
  unfold newResolvedFile in H. monad_red H. simplify_eq.
  cbn [sourceName]. split; [apply lookup_insert_eq|]. split; [done|].
  unfold resolveProjectFile. monad_red_goal.
  cbn [projectRoot npmPackageMap with_resolvedFileBySourceName with_nextFileRef
       resolvedFileBySourceName].
  rewrite Hroot. fold given.
  destruct (decide (given = sn)) as [Heq|Hne].
  - rewrite Heq. by rewrite lookup_insert_eq.
  - rewrite lookup_insert_ne by done. rewrite Hgiven, Hvalid, Hnm.
    by rewrite lookup_insert_eq.
Qed.

Lemma X15_project_file_resolved_once_witness :
  exists r f r',
    createResolver Spec.lib (Disk.fs Scenario.sources) Scenario.fuel "/p"
      = Returns (Success r) /\
    resolveProjectFile Spec.lib (Disk.fs Scenario.sources)
      "/p/contracts/A.sol" r = Returns (Success f, r') /\
    sourceName f = "project/contracts/A.sol" /\
    resolveProjectFile Spec.lib (Disk.fs Scenario.sources)
      "/p/contracts/A.sol" r' = Returns (Success f, r').
Proof.
  eassert (H : createResolver Spec.lib (Disk.fs Scenario.sources)
                 Scenario.fuel "/p" = Returns (Success _))
    by (vm_compute; reflexivity).
  match type of H with
  | _ = Returns (Success ?r0) =>
      eassert (H1 : resolveProjectFile Spec.lib (Disk.fs Scenario.sources)
                      "/p/contracts/A.sol" r0
                    = Returns (Success _, _)) by (vm_compute; reflexivity);
      match type of H1 with
      | _ = Returns (Success ?f0, ?r1) =>
          exists r0, f0, r1; split; [exact H|]; split; [exact H1|];
          split; [reflexivity|];
          exact (proj2 (proj2 (X15_project_file_resolved_once _ _ _ _ _ _
                                 (reach_create _ _ _ _ _ H) H1)))
      end
  end.
Defined.

Lemma resolveNpmDependencyFileAsRoot_step lib fs fuel npmModule r res r' :
  resolveNpmDependencyFileAsRoot lib fs fuel npmModule r = Returns (res, r') ->
  exists o, resolution_step r r' o.
Proof.
  intros H. apply resolveNpmDependencyFileAsRoot_inv in H
    as [(_ & -> & _)|(parsed & result & _ & Hi & _)].
  - exists None. apply resolution_step_refl.
  - apply resolveImport_step in Hi as (o & Hstep & _). by exists o.
Qed.

Lemma resolution_step_fields r r' o :
  resolution_step r r' o ->
  interned_kept r r' /\
  projectRoot r' = projectRoot r /\ fakeRootFile r' = fakeRootFile r /\
  (resolvedFileBySourceName r' = resolvedFileBySourceName r \/
   exists f,
     resolvedFileBySourceName r !! sourceName f = None /\
     resolvedFileBySourceName r'
       = <[sourceName f := f]> (resolvedFileBySourceName r)).
Proof.
  intros H. split; [by eapply resolution_step_kept|].
  destruct H as [H1 H2 H3 H4|f H1 H2 H3 H4 H5].
  - do 2 (split; [done|]). by left.
  - do 2 (split; [done|]). right. by exists f.
Qed.

(** X16. The three public methods of the resolver never evict nor replace
    an interned file: whatever a call that returns has done, every source
    name that had a file has the same file, the project root and the fake
    root file are the same, and the table of the interned files is the
    same or has one more file, under its own source name, which had
    none. *)
Theorem X16_interned_files_are_kept lib fs r :
  let kept r' :=
    interned_kept r r' /\
    projectRoot r' = projectRoot r /\ fakeRootFile r' = fakeRootFile r /\
    (resolvedFileBySourceName r' = resolvedFileBySourceName r \/
     exists f,
       resolvedFileBySourceName r !! sourceName f = None /\
       resolvedFileBySourceName r'
         = <[sourceName f := f]> (resolvedFileBySourceName r)) in
  (forall absoluteFilePath res r',
     resolveProjectFile lib fs absoluteFilePath r = Returns (res, r') ->
     kept r') /\
  (forall fuel from importPath res r',
     resolveImport lib fs fuel from importPath r = Returns (res, r') ->
     kept r') /\
  (forall fuel npmModule res r',
     resolveNpmDependencyFileAsRoot lib fs fuel npmModule r
       = Returns (res, r') ->
     kept r').
Proof.
  cbn zeta. split; [|split].
  - intros p res r' H.
    apply resolveProjectFile_step in H as (_ & o & Hstep & _).
    by eapply resolution_step_fields.
  - intros fuel from importPath res r' H.
    apply resolveImport_step in H as (o & Hstep & _).
    by eapply resolution_step_fields.
  - intros fuel npmModule res r' H.
    apply resolveNpmDependencyFileAsRoot_step in H as (o & Hstep).
    by eapply resolution_step_fields.
Qed.

Lemma X16_interned_files_are_kept_witness :
  exists r0 fileA r1 res r2,
    createResolver Spec.lib (Disk.fs Scenario.sources) Scenario.fuel "/p"
      = Returns (Success r0) /\
    resolveProjectFile Spec.lib (Disk.fs Scenario.sources)
      "/p/contracts/A.sol" r0 = Returns (Success fileA, r1) /\
    resolveNpmDependencyFileAsRoot Spec.lib (Disk.fs Scenario.sources)
      Scenario.fuel "dep1/src/A.sol" r1 = Returns (res, r2) /\
    resolvedFileBySourceName r1 !! "project/contracts/A.sol" = Some fileA /\
    resolvedFileBySourceName r2 !! "project/contracts/A.sol" = Some fileA.
Proof.
  eassert (H : createResolver Spec.lib (Disk.fs Scenario.sources)
                 Scenario.fuel "/p" = Returns (Success _))
    by (vm_compute; reflexivity).
  match type of H with
  | _ = Returns (Success ?r0) =>
      eassert (H1 : resolveProjectFile Spec.lib (Disk.fs Scenario.sources)
                      "/p/contracts/A.sol" r0
                    = Returns (Success _, _)) by (vm_compute; reflexivity);
      match type of H1 with
      | _ = Returns (Success ?f0, ?r1) =>
          eassert (H2 : resolveNpmDependencyFileAsRoot Spec.lib
                          (Disk.fs Scenario.sources) Scenario.fuel
                          "dep1/src/A.sol" r1 = Returns (_, _))
            by (vm_compute; reflexivity);
          assert (H3 : resolvedFileBySourceName r1
                         !! "project/contracts/A.sol" = Some f0)
            by (vm_compute; reflexivity);
          match type of H2 with
          | _ = Returns (?res0, ?r2) =>
              exists r0, f0, r1, res0, r2;
              split; [exact H|]; split; [exact H1|]; split; [exact H2|];
              split; [exact H3|];
              exact (proj1 (proj2 (proj2
                              (X16_interned_files_are_kept _ _ r1))
                              _ _ _ _ H2) _ _ H3)
          end
      end
  end.
Defined.

(** X17. An import that fails interns nothing: after a call of
    [resolveImport] that returns an error, the table of the interned files
    and the counter of the file objects are what they were (only the
    package map may have grown); and [ILLEGAL_RELATIVE_IMPORT] is only
    ever the error of an import that starts with [./] or [../]. *)
Theorem X17_failed_import_interns_nothing lib fs fuel from importPath r e r' :
  resolveImport lib fs fuel from importPath r = Returns (Failure e, r') ->
  resolvedFileBySourceName r' = resolvedFileBySourceName r /\
  nextFileRef r' = nextFileRef r /\
  (ImportResolutionError_type e = "ILLEGAL_RELATIVE_IMPORT" ->
   isRelativeImport importPath = true).
Proof.
  intros H. apply resolveImport_step in H as (o & Hstep & -> & Hrel).
  inversion Hstep; subst. done.
Qed.

Lemma X17_failed_import_interns_nothing_witness :
  exists r0 fileA r1 e r2,
    createResolver Spec.lib (Disk.fs Scenario.sources) Scenario.fuel "/p"
      = Returns (Success r0) /\
    resolveProjectFile Spec.lib (Disk.fs Scenario.sources)
      "/p/contracts/A.sol" r0 = Returns (Success fileA, r1) /\
    resolveImport Spec.lib (Disk.fs Scenario.sources) Scenario.fuel fileA
      "dep1/src/Missing.sol" r1 = Returns (Failure e, r2) /\
    ImportResolutionError_type e = "IMPORT_DOESNT_EXIST" /\
    resolvedFileBySourceName r2 = resolvedFileBySourceName r1.
Proof.
  eassert (H : createResolver Spec.lib (Disk.fs Scenario.sources)
                 Scenario.fuel "/p" = Returns (Success _))
    by (vm_compute; reflexivity).
  match type of H with
  | _ = Returns (Success ?r0) =>
      eassert (H1 : resolveProjectFile Spec.lib (Disk.fs Scenario.sources)
                      "/p/contracts/A.sol" r0
                    = Returns (Success _, _)) by (vm_compute; reflexivity);
      match type of H1 with
      | _ = Returns (Success ?f0, ?r1) =>
          eassert (H2 : resolveImport Spec.lib (Disk.fs Scenario.sources)
                          Scenario.fuel f0 "dep1/src/Missing.sol" r1
                        = Returns (Failure _, _))
            by (vm_compute; reflexivity);
          match type of H2 with
          | _ = Returns (Failure ?e0, ?r2) =>
              exists r0, f0, r1, e0, r2;
              split; [exact H|]; split; [exact H1|]; split; [exact H2|];
              split; [reflexivity|];
              exact (proj1 (X17_failed_import_interns_nothing _ _ _ _ _ _ _ _
                              H2))
          end
      end
  end.
Defined.

(** X18. User remappings come first. When a remapping of the package of
    the importing file applies to a direct import, [resolveImport] does
    not go through npm: the package map is untouched, a success carries
    that user remapping and the file interned under the remapped import,
    and a failure is that the remapped file does not exist or has another
    casing, reported with a reference to the remapping, the resolver being
    left as it was. *)
Theorem X18_user_remapping_first lib fs fuel from importPath r l u res r' :
  Js.includes importPath (String Js.backslash EmptyString) = false ->
  isRelativeImport importPath = false ->
  userRemappingsPerPackage (npmPackageMap r) !! pkg_ref (package from) = Some l ->
  selectBestRemapping lib (sourceName from) importPath l = Some u ->
  resolveImport lib fs fuel from importPath r = Returns (res, r') ->
  npmPackageMap r' = npmPackageMap r /\
  match res with
  | Success v =>
      ri_remapping v = Some (UserRemapping u) /\
      resolvedFileBySourceName r' !! applyValidRemapping lib importPath u
        = Some (ri_file v)
  | Failure e =>
      r' = r /\
      exists reference,
        userRemapping reference = Some (buildUserRemappingReference u) /\
        (e = IMPORT_DOESNT_EXIST (fsPath from) importPath reference \/
         exists correctCasing,
           e = IMPORT_INVALID_CASING (fsPath from) importPath reference
                 correctCasing)
  | NotAResult _ => False
  end.
Proof.
  intros Hbs Hrel Hl Hbest H.
  rewrite (resolveImport_direct_eq lib fs fuel from importPath r l Hbs Hrel Hl)
    in H.
  rewrite Hbest in H.
  apply resolveUserRemappedImport_step in H as (Hmap & o & Hstep & Hres).
  split; [done|]. destruct res as [v|e|k]; [| |done].
  - by destruct Hres as (? & ? & _).
  - by destruct Hres as (_ & ? & _ & ?).
Qed.

Lemma X18_user_remapping_first_witness :
  exists r0 fileA r1 v r2,
    createResolver Spec.lib (Disk.fs Scenario.sources) Scenario.fuel "/p"
      = Returns (Success r0) /\
    resolveProjectFile Spec.lib (Disk.fs Scenario.sources)
      "/p/contracts/A.sol" r0 = Returns (Success fileA, r1) /\
    resolveImport Spec.lib (Disk.fs Scenario.sources) Scenario.fuel fileA
      "foo/X.sol" r1 = Returns (Success v, r2) /\
    sourceName (ri_file v) = "project/bar/X.sol" /\
    npmPackageMap r2 = npmPackageMap r1 /\
    exists u, ri_remapping v = Some (UserRemapping u) /\
              originalFormat u = "foo/=bar/".
Proof.
  eassert (H : createResolver Spec.lib (Disk.fs Scenario.sources)
                 Scenario.fuel "/p" = Returns (Success _))
    by (vm_compute; reflexivity).
  match type of H with
  | _ = Returns (Success ?r0) =>
      eassert (H1 : resolveProjectFile Spec.lib (Disk.fs Scenario.sources)
                      "/p/contracts/A.sol" r0
                    = Returns (Success _, _)) by (vm_compute; reflexivity);
      match type of H1 with
      | _ = Returns (Success ?f0, ?r1) =>
          eassert (H2 : resolveImport Spec.lib (Disk.fs Scenario.sources)
                          Scenario.fuel f0 "foo/X.sol" r1
                        = Returns (Success _, _))
            by (vm_compute; reflexivity);
          eassert (Hl : userRemappingsPerPackage (npmPackageMap r1)
                          !! pkg_ref (package f0) = Some _)
            by (vm_compute; reflexivity);
          match type of Hl with
          | _ = Some ?l0 =>
              eassert (Hbest : selectBestRemapping Spec.lib (sourceName f0)
                                 "foo/X.sol" l0 = Some _)
                by (vm_compute; reflexivity);
              match type of H2 with
              | _ = Returns (Success ?v0, ?r2) =>
                  exists r0, f0, r1, v0, r2;
                  split; [exact H|]; split; [exact H1|]; split; [exact H2|];
                  split; [reflexivity|];
                  destruct (X18_user_remapping_first Spec.lib
                              (Disk.fs Scenario.sources) Scenario.fuel f0
                              "foo/X.sol" r1 l0 _ _ _ eq_refl eq_refl
                              Hl Hbest H2)
                    as (Hmap & Hrem & _);
                  split; [exact Hmap|];
                  eexists; split; [exact Hrem|reflexivity]
              end
          end
      end
  end.
Defined.

(** ** Npm modules resolved as roots *)

Lemma matchNameAndPath_start s name path :
  matchNameAndPath s = Some (name, path) ->
  exists c s', s = String c s' /\ isNpmNameStartChar c = true.
Proof.
  unfold matchNameAndPath. destruct (Js.span isNpmNameChar s) as [a b] eqn:Hs.
  apply span_inv in Hs as (-> & _ & _).
  destruct a as [|c a]; [discriminate|]. destruct b as [|d b]; [discriminate|].
  destruct (isNpmNameStartChar c) eqn:Hc; [|discriminate].
  intros _. exists c, (a +:+ String d b). by rewrite append_cons.
Qed.

(** An import that starts with [./] or [../] is no npm module. *)
Lemma parse_not_relative s p :
  parseNpmDirectImport s = Some p -> isRelativeImport s = false.
Proof.
  unfold parseNpmDirectImport. destruct s as [|c s]; [discriminate|].
  destruct (Ascii.eqb c "@") eqn:Hat.
  { apply Ascii.eqb_eq in Hat as ->. done. }
  destruct (matchNameAndPath (String c s)) as [[name path]|] eqn:Hm;
    [|discriminate].
  apply matchNameAndPath_start in Hm as (c' & s' & [= <- <-] & Hc).
  intros _. unfold isRelativeImport. cbn [Js.startsWith].
  destruct (Ascii.eqb "." c) eqn:Hdot; [|reflexivity].
  apply Ascii.eqb_eq in Hdot as <-. discriminate.
Qed.

(** X19. A module [resolveNpmDependencyFileAsRoot] resolves, on a resolver
    reached from [create], is a file of an npm package, interned under its
    own source name; resolving the same module again returns the very same
    file and remapping, and leaves the resolver as it is. *)
Theorem X19_npm_root_resolved_once lib fs fuel npmModule r v r' :
  reachable lib fs r ->
  resolveNpmDependencyFileAsRoot lib fs fuel npmModule r
    = Returns (Success v, r') ->
  file_type (root_file v) = NPM_PACKAGE_FILE /\
  resolvedFileBySourceName r' !! sourceName (root_file v)
    = Some (root_file v) /\
  reachable lib fs r' /\
  forall fuel',
    resolveNpmDependencyFileAsRoot lib fs fuel' npmModule r'
      = Returns (Success v, r').
Proof.
  intros Hreach H. pose proof (reachable_wf lib fs r Hreach) as Hwf.
  apply resolveNpmDependencyFileAsRoot_inv in H
    as [(_ & _ & ?)|(parsed & result & Hparse & Hi & Hres)]; [done|].
  assert (Hreach' : reachable lib fs r') by (by eapply reach_resolveImport).
  destruct (resolveImport_step lib fs _ _ _ _ _ _ Hi) as (o & Hstep & _).
  destruct (resolution_step_fields _ _ _ Hstep) as (_ & _ & Hfake & _).
  unfold npmRootResultOf in Hres.
  destruct result as [iv|e|k].
  2:{ destruct e; monad_red Hres; try (destruct (npmPackage reference));
        discriminate. }
  2:{ monad_red Hres. discriminate. }
  monad_red Hres.
  destruct (ri_remapping iv) as [rem|] eqn:Hrem; [|discriminate].
  destruct (file_type (ri_file iv)) eqn:Htype.
  { destruct rem; monad_red Hres; discriminate. }
  simplify_eq. cbn [root_file].
  destruct (resolveImport_twice lib fs _ _ _ _ _ _ Hwf Hi) as [Hint Hagain].
  do 3 (split; [done|]). intros fuel'.
  unfold resolveNpmDependencyFileAsRoot. rewrite Hparse. monad_red_goal.
  rewrite Hfake, Hagain. unfold npmRootResultOf. monad_red_goal.
  by rewrite Hrem, Htype.
Qed.

Lemma X19_npm_root_resolved_once_witness :
  exists r v r',
    createResolver Spec.lib (Disk.fs Scenario.sources) Scenario.fuel "/p"
      = Returns (Success r) /\
    resolveNpmDependencyFileAsRoot Spec.lib (Disk.fs Scenario.sources)
      Scenario.fuel "dep1/src/A.sol" r = Returns (Success v, r') /\
    sourceName (root_file v) = "npm/dep1@1.2.0/src/A.sol" /\
    root_remapping v = None /\
    resolveNpmDependencyFileAsRoot Spec.lib (Disk.fs Scenario.sources) 0
      "dep1/src/A.sol" r' = Returns (Success v, r').
Proof.
  eassert (H : createResolver Spec.lib (Disk.fs Scenario.sources)
                 Scenario.fuel "/p" = Returns (Success _))
    by (vm_compute; reflexivity).
  match type of H with
  | _ = Returns (Success ?r0) =>
      eassert (H1 : resolveNpmDependencyFileAsRoot Spec.lib
                      (Disk.fs Scenario.sources) Scenario.fuel
                      "dep1/src/A.sol" r0 = Returns (Success _, _))
        by (vm_compute; reflexivity);
      match type of H1 with
      | _ = Returns (Success ?v0, ?r1) =>
          exists r0, v0, r1; split; [exact H|]; split; [exact H1|];
          split; [reflexivity|]; split; [reflexivity|];
          exact (proj2 (proj2 (proj2
                   (X19_npm_root_resolved_once _ _ _ _ _ _ _
                      (reach_create _ _ _ _ _ H) H1))) 0)
      end
  end.
Defined.

(** X20. The assertions of [resolveNpmDependencyFileAsRoot]. When the
    method throws, the resolution of the import threw that exception, or
    one of three assertions of the method failed: the import failed with
    [IMPORT_DOESNT_EXIST], or with [IMPORT_INVALID_CASING], and its error
    names no npm package (two assertions with one message); or the import
    resolved to a project file through a generated remapping. The two
    other assertions never fail, and the result of the import is always a
    success or a failure: a module that parses is no relative import, and
    a resolved import always carries a remapping. *)
Theorem X20_npm_root_assertions lib fs fuel npmModule r e :
  resolveNpmDependencyFileAsRoot lib fs fuel npmModule r = Throws e ->
  resolveImport lib fs fuel (fakeRootFile r) npmModule r = Throws e \/
  (exists fromFsPath importPath reference r',
     resolveImport lib fs fuel (fakeRootFile r) npmModule r
       = Returns (Failure (IMPORT_DOESNT_EXIST fromFsPath importPath
                             reference), r') /\
     npmPackage reference = None /\
     e = HardhatInvariantError
           "We should have a npm package if the import doesn't exist, as we know are doing an npm import") \/
  (exists fromFsPath importPath reference correctCasing r',
     resolveImport lib fs fuel (fakeRootFile r) npmModule r
       = Returns (Failure (IMPORT_INVALID_CASING fromFsPath importPath
                             reference correctCasing), r') /\
     npmPackage reference = None /\
     e = HardhatInvariantError
           "We should have a npm package if the import doesn't exist, as we know are doing an npm import") \/
  (exists v g r',
     resolveImport lib fs fuel (fakeRootFile r) npmModule r
       = Returns (Success v, r') /\
     file_type (ri_file v) = PROJECT_FILE /\
     ri_remapping v = Some (GeneratedRemapping g) /\
     e = HardhatInvariantError
           "Expected user remapping to be present if the import resolved to a local file").
Proof.
  unfold resolveNpmDependencyFileAsRoot. intros H.
  destruct (parseNpmDirectImport npmModule) as [parsed|] eqn:Hparse.
  2:{ monad_red H. discriminate. }
  pose proof (parse_not_relative _ _ Hparse) as Hrel.
  monad_red H.
  destruct (resolveImport lib fs fuel (fakeRootFile r) npmModule r)
    as [[result r1]| |] eqn:Hi; [|by left; simplify_eq|discriminate].
  right.
  destruct (resolveImport_step lib fs _ _ _ _ _ _ Hi) as (o & Hstep & Hres).
  unfold npmRootResultOf in H.
  destruct result as [iv|err|k].
  - destruct Hres as (_ & (rem & Hrem) & _). monad_red H. rewrite Hrem in H.
    destruct (file_type (ri_file iv)) eqn:Htype; [|discriminate].
    destruct rem as [g|u]; monad_red H; [|discriminate]. simplify_eq.
    right. right. by exists iv, g, r1.
  - destruct Hres as (_ & Hill).
    destruct err; monad_red H; try discriminate.
    + specialize (Hill eq_refl). congruence.
    + destruct (npmPackage reference) eqn:Hnone; [discriminate|]. simplify_eq.
      left. by eexists _, _, _, _.
    + destruct (npmPackage reference) eqn:Hnone; [discriminate|]. simplify_eq.
      right. left. by eexists _, _, _, _, _.
  - destruct Hres as (_ & _ & Hrel'). congruence.
Qed.

(** Two modules a remapping of the project sends to a project file: one
    that does not exist, one given with another casing. *)
Lemma X20_npm_root_assertions_witness :
  exists r reference reference' correctCasing,
    createResolver Spec.lib (Disk.fs Scenario.sources) Scenario.fuel "/p"
      = Returns (Success r) /\
    resolveImport Spec.lib (Disk.fs Scenario.sources) Scenario.fuel
      (fakeRootFile r) "foo/Missing.sol" r
    = Returns (Failure (IMPORT_DOESNT_EXIST (fsPath (fakeRootFile r))
                          "foo/Missing.sol" reference), r) /\
    npmPackage reference = None /\
    resolveImport Spec.lib (Disk.fs Scenario.sources) Scenario.fuel
      (fakeRootFile r) "foo/x.sol" r
    = Returns (Failure (IMPORT_INVALID_CASING (fsPath (fakeRootFile r))
                          "foo/x.sol" reference' correctCasing), r) /\
    npmPackage reference' = None /\
    resolveNpmDependencyFileAsRoot Spec.lib (Disk.fs Scenario.sources)
      Scenario.fuel "foo/Missing.sol" r
    = Throws (HardhatInvariantError
                "We should have a npm package if the import doesn't exist, as we know are doing an npm import") /\
    resolveNpmDependencyFileAsRoot Spec.lib (Disk.fs Scenario.sources)
      Scenario.fuel "foo/x.sol" r
    = Throws (HardhatInvariantError
                "We should have a npm package if the import doesn't exist, as we know are doing an npm import").
Proof.
  eassert (H : createResolver Spec.lib (Disk.fs Scenario.sources)
                 Scenario.fuel "/p" = Returns (Success _))
    by (vm_compute; reflexivity).
  match type of H with
  | _ = Returns (Success ?r0) =>
      eassert (H1 : resolveNpmDependencyFileAsRoot Spec.lib
                      (Disk.fs Scenario.sources) Scenario.fuel
                      "foo/Missing.sol" r0 = Throws _)
        by (vm_compute; reflexivity);
      eassert (H2 : resolveNpmDependencyFileAsRoot Spec.lib
                      (Disk.fs Scenario.sources) Scenario.fuel
                      "foo/x.sol" r0 = Throws _)
        by (vm_compute; reflexivity);
      eassert (I1 : resolveImport Spec.lib (Disk.fs Scenario.sources)
                      Scenario.fuel (fakeRootFile r0) "foo/Missing.sol" r0
                    = Returns (Failure (IMPORT_DOESNT_EXIST _ _ _), _))
        by (vm_compute; reflexivity);
      eassert (I2 : resolveImport Spec.lib (Disk.fs Scenario.sources)
                      Scenario.fuel (fakeRootFile r0) "foo/x.sol" r0
                    = Returns (Failure (IMPORT_INVALID_CASING _ _ _ _), _))
        by (vm_compute; reflexivity);
      match type of I1 with
      | _ = Returns (Failure (IMPORT_DOESNT_EXIST _ _ ?ref1), _) =>
          match type of I2 with
          | _ = Returns (Failure (IMPORT_INVALID_CASING _ _ ?ref2 ?cc), _) =>
              exists r0, ref1, ref2, cc;
              split; [exact H|]; split; [exact I1|]; split; [reflexivity|];
              split; [exact I2|]; split; [reflexivity|];
              split;
              [destruct (X20_npm_root_assertions _ _ _ _ _ _ H1)
                 as [Hc|[(? & ? & ? & ? & Hc & _)
                        |[(? & ? & ? & ? & ? & Hc & _)
                         |(? & ? & ? & Hc & _)]]];
               [rewrite I1 in Hc; discriminate
               |exact H1
               |rewrite I1 in Hc; discriminate
               |rewrite I1 in Hc; discriminate]
              |destruct (X20_npm_root_assertions _ _ _ _ _ _ H2)
                 as [Hc|[(? & ? & ? & ? & Hc & _)
                        |[(? & ? & ? & ? & ? & Hc & _)
                         |(? & ? & ? & Hc & _)]]];
               [rewrite I2 in Hc; discriminate
               |rewrite I2 in Hc; discriminate
               |exact H2
               |rewrite I2 in Hc; discriminate]]
          end
      end
  end.
Defined.

(** X21. An npm module that a user remapping of the project sends to a
    project file that does not exist. When the module parses and has no
    backslash, the fake root file is a project file, a remapping without a
    package is the best one for the module from the fake root file, no
    file is interned under the remapped source name and the file system
    has no such file, [resolveNpmDependencyFileAsRoot] does not return an
    error: the import fails with [IMPORT_DOESNT_EXIST] without an npm
    package, and the method throws on its assertion. *)
Theorem X21_npm_root_into_missing_project_file
    lib fs fuel npmModule parsed r l u :
  parseNpmDirectImport npmModule = Some parsed ->
  Js.includes npmModule (String Js.backslash EmptyString) = false ->
  file_type (fakeRootFile r) = PROJECT_FILE ->
  userRemappingsPerPackage (npmPackageMap r)
    !! pkg_ref (package (fakeRootFile r)) = Some l ->
  selectBestRemapping lib (sourceName (fakeRootFile r)) npmModule l = Some u ->
  targetNpmPackage u = None ->
  resolvedFileBySourceName r !! applyValidRemapping lib npmModule u = None ->
  getFileTrueCase fs (rootFsPath (hardhatProjectPackage (npmPackageMap r)))
    (sourceNamePathToFsPath lib (applyValidRemapping lib npmModule u)) = None ->
  (exists reference,
     npmPackage reference = None /\
     resolveImport lib fs fuel (fakeRootFile r) npmModule r
     = Returns (Failure (IMPORT_DOESNT_EXIST (fsPath (fakeRootFile r))
                           npmModule reference), r)) /\
  resolveNpmDependencyFileAsRoot lib fs fuel npmModule r
  = Throws (HardhatInvariantError
              "We should have a npm package if the import doesn't exist, as we know are doing an npm import").
Proof.
  intros Hparse Hbs Htype Hl Hbest Htarget Hlook Hfile.
  pose proof (parse_not_relative _ _ Hparse) as Hrel.
  assert (Hi : exists reference,
             npmPackage reference = None /\
             resolveImport lib fs fuel (fakeRootFile r) npmModule r
             = Returns (Failure (IMPORT_DOESNT_EXIST (fsPath (fakeRootFile r))
                                   npmModule reference), r)).
  { rewrite (resolveImport_direct_eq lib fs fuel _ npmModule r l Hbs Hrel Hl).
    rewrite Hbest. unfold resolveUserRemappedImport. monad_red_goal.
    rewrite Hlook, Htarget. unfold fromNpmPackageOf. rewrite Htype.
    assert (Hsame : samePackage (hardhatProjectPackage (npmPackageMap r))
                      (hardhatProjectPackage (npmPackageMap r)) = true)
      by apply Nat.eqb_refl.
    unfold getRelativeSourceNamePath. rewrite Hsame.
    unfold validateAndBuild, validateFsPath. rewrite Hfile. monad_red_goal.
    eexists. split; [|reflexivity].
    unfold buildResolvedFileReference. cbn [npmPackage]. by rewrite Hsame. }
  split; [exact Hi|]. destruct Hi as (reference & Hnone & Hi).
  unfold resolveNpmDependencyFileAsRoot. rewrite Hparse. monad_red_goal.
  rewrite Hi. unfold npmRootResultOf. monad_red_goal. by rewrite Hnone.
Qed.

Lemma X21_npm_root_into_missing_project_file_witness :
  exists r,
    createResolver Spec.lib (Disk.fs Scenario.sources) Scenario.fuel "/p"
      = Returns (Success r) /\
    resolveNpmDependencyFileAsRoot Spec.lib (Disk.fs Scenario.sources)
      Scenario.fuel "foo/Missing.sol" r
    = Throws (HardhatInvariantError
                "We should have a npm package if the import doesn't exist, as we know are doing an npm import").
Proof.
  eassert (H : createResolver Spec.lib (Disk.fs Scenario.sources)
                 Scenario.fuel "/p" = Returns (Success _))
    by (vm_compute; reflexivity).
  match type of H with
  | _ = Returns (Success ?r0) =>
      eassert (Hl : userRemappingsPerPackage (npmPackageMap r0)
                      !! pkg_ref (package (fakeRootFile r0)) = Some _)
        by (vm_compute; reflexivity);
      match type of Hl with
      | _ = Some ?l0 =>
          eassert (Hbest : selectBestRemapping Spec.lib
                             (sourceName (fakeRootFile r0)) "foo/Missing.sol"
                             l0 = Some _)
            by (vm_compute; reflexivity);
          match type of Hbest with
          | _ = Some ?u0 =>
              exists r0; split; [exact H|];
              exact (proj2 (X21_npm_root_into_missing_project_file Spec.lib
                              (Disk.fs Scenario.sources) Scenario.fuel
                              "foo/Missing.sol"
                              {| parsed_package := "foo";
                                 parsed_subpath := "Missing.sol" |}
                              r0 l0 u0 eq_refl eq_refl eq_refl Hl Hbest eq_refl
                              ltac:(vm_compute; reflexivity)
                              ltac:(vm_compute; reflexivity)))
          end
      end
  end.
Defined.

(** ** The package map of the resolver *)

Section ResolverMap.

Context (lib : Lib) (fs : Fs).

Lemma onPackageMap_inv {A} (m : M RemappedNpmPackagesMap A) r a r' :
  onPackageMap m r = Returns (a, r') ->
  m (npmPackageMap r) = Returns (a, npmPackageMap r').
Proof.
  unfold onPackageMap. destruct (m (npmPackageMap r)) as [[a' map]| |];
    intros H; by simplify_eq.
Qed.

Lemma resolveImportThroughNpm_map fuel from importPath directImport r res r' :
  resolveImportThroughNpm lib fs fuel from importPath directImport r
    = Returns (res, r') ->
  npmPackageMap r' = npmPackageMap r \/
  exists from' n res0,
    resolveDependencyByInstallationName lib fs fuel from' n (npmPackageMap r)
      = Returns (res0, npmPackageMap r').
Proof.
  rewrite resolveImportThroughNpm_eq. intros H.
  destruct (parseNpmDirectImport directImport) as [parsed|].
  2:{ simplify_eq. by left. }
  destruct (onPackageMap _ r) as [[[dr|] r1]| |] eqn:Hdep; try discriminate.
  2:{ simplify_eq. right. apply onPackageMap_inv in Hdep. eauto. }
  apply onPackageMap_inv in Hdep.
  destruct (remappingErrros dr).
  { simplify_eq. right. eauto. }
  apply npmImportInto_step in H as (Hmap & _). right. rewrite Hmap. eauto.
Qed.

Lemma resolveImport_map fuel from importPath r res r' :
  resolveImport lib fs fuel from importPath r = Returns (res, r') ->
  npmPackageMap r' = npmPackageMap r \/
  exists from' n res0,
    resolveDependencyByInstallationName lib fs fuel from' n (npmPackageMap r)
      = Returns (res0, npmPackageMap r').
Proof.
  intros H.
  destruct (isRelativeImport importPath) eqn:Hrel.
  { rewrite (resolveImport_relative lib fs fuel from importPath r Hrel) in H.
    destruct (Js.includes importPath _); [simplify_eq; by left|].
    destruct (negb _); [simplify_eq; by left|].
    destruct (onPackageMap _ r) as [[l r'']| |] eqn:Hl; try discriminate.
    apply onPackageMap_getUserRemappings_inv in Hl as [Hl ->].
    destruct (selectBestRemapping _ _ _ _); [discriminate|]. simplify_eq.
    by left. }
  destruct (Js.includes importPath (String Js.backslash EmptyString)) eqn:Hbs.
  { unfold resolveImport in H. rewrite Hbs in H. monad_red H. simplify_eq.
    by left. }
  assert (Hl : exists l,
             userRemappingsPerPackage (npmPackageMap r) !! pkg_ref (package from)
               = Some l).
  { unfold resolveImport in H. rewrite Hrel, Hbs in H.
    cbn [andb] in H. monad_red H.
    destruct (onPackageMap (getUserRemappings (package from)) r)
      as [[l r0]| |] eqn:Hl; try discriminate.
    apply onPackageMap_getUserRemappings_inv in Hl as [Hl ->]. by exists l. }
  destruct Hl as [l Hl].
  rewrite (resolveImport_direct_eq lib fs fuel from importPath r l Hbs Hrel Hl)
    in H.
  destruct (selectBestRemapping lib (sourceName from) importPath l)
    as [rem|] eqn:Hbest.
  - apply resolveUserRemappedImport_step in H as (Hmap & _). by left.
  - destruct (resolveImportThroughNpm lib fs fuel from importPath importPath r)
      as [[res1 r1]| |] eqn:Hnpm; try discriminate.
    assert (Hsame : r' = r1).
    { destruct res1 as [v|e|k]; [by simplify_eq| |by simplify_eq].
      destruct (runsFallback e); [|by simplify_eq].
      destruct (tryToGenerateDirectLocalImportError _ _ _ _ r1)
        as [[improved r2]| |] eqn:Htry; try discriminate.
      unfold tryToGenerateDirectLocalImportError in Htry.
      apply tryToGenerate_returns_none in Htry as [-> ->]. by simplify_eq. }
    subst r1. by eapply resolveImportThroughNpm_map.
Qed.

Lemma reachable_map r :
  reachable lib fs r -> map_reachable lib fs (npmPackageMap r).
Proof.
  induction 1 as [fuel root r H|p r res r' _ IH H|fuel from ip r res r' _ IH H].
  - unfold createResolver, create in H.
    destruct (createMap lib fs fuel root) as [[errors map]| |] eqn:Hc;
      try discriminate.
    destruct errors; [|discriminate]. simplify_eq. cbn.
    by eapply mr_create.
  - apply resolveProjectFile_step in H as (-> & _). exact IH.
  - apply resolveImport_map in H as [->|(from' & n & res0 & H)]; [exact IH|].
    by eapply mr_resolve.
Qed.

End ResolverMap.

(** X22. Along calls that return, the resolver changes its package map
    through the methods of the map alone: the package map of a resolver
    reached from [create] through calls of [resolveProjectFile] and
    [resolveImport] that return is a map reached from the [create] of the
    map through calls of [resolveDependencyByInstallationName] that
    return. So its queue is empty, and the user remappings of every
    package it knows by name are resolved: [getUserRemappings] returns
    them and fails no assertion. Nothing is said of the resolver a call
    that throws leaves behind. *)
Theorem X22_resolver_package_map lib fs r :
  reachable lib fs r ->
  map_reachable lib fs (npmPackageMap r) /\
  remappingsToResolve (npmPackageMap r) = [] /\
  forall k P,
    packageByRootSourceName (npmPackageMap r) !! k = Some P ->
    exists l, onPackageMap (getUserRemappings P) r = Returns (l, r).
Proof.
  intros Hreach. pose proof (reachable_map lib fs r Hreach) as Hmap.
  split; [done|]. split; [by apply (map_reachable_wf _ _ _ Hmap)|].
  intros k P HP.
  destruct (reachable_resolved lib fs _ Hmap k P HP) as (l & Hl & _).
  exists l. unfold onPackageMap, getUserRemappings. monad_red_goal.
  rewrite Hl. by rewrite with_npmPackageMap_id.
Qed.

Lemma X22_resolver_package_map_witness :
  exists r0 res r1 l,
    createResolver Spec.lib (Disk.fs Scenario.sources) Scenario.fuel "/p"
      = Returns (Success r0) /\
    resolveNpmDependencyFileAsRoot Spec.lib (Disk.fs Scenario.sources)
      Scenario.fuel "dep1/src/A.sol" r0 = Returns (Success res, r1) /\
    packageByRootSourceName (npmPackageMap r1) !! "npm/dep1@1.2.0"
      = Some (package (root_file res)) /\
    onPackageMap (getUserRemappings (package (root_file res))) r1
      = Returns (l, r1).
Proof.
  eassert (H : createResolver Spec.lib (Disk.fs Scenario.sources)
                 Scenario.fuel "/p" = Returns (Success _))
    by (vm_compute; reflexivity).
  match type of H with
  | _ = Returns (Success ?r0) =>
      eassert (H1 : resolveNpmDependencyFileAsRoot Spec.lib
                      (Disk.fs Scenario.sources) Scenario.fuel
                      "dep1/src/A.sol" r0 = Returns (Success _, _))
        by (vm_compute; reflexivity);
      match type of H1 with
      | _ = Returns (Success ?v0, ?r1) =>
          assert (HP : packageByRootSourceName (npmPackageMap r1)
                         !! "npm/dep1@1.2.0" = Some (package (root_file v0)))
            by (vm_compute; reflexivity);
          assert (Hreach : reachable Spec.lib (Disk.fs Scenario.sources) r1)
            by (eapply (reach_resolveImport _ _ Scenario.fuel (fakeRootFile r0)
                          "dep1/src/A.sol" r0);
                [exact (reach_create _ _ _ _ _ H)|vm_compute; reflexivity]);
          destruct (proj2 (proj2 (X22_resolver_package_map _ _ r1 Hreach))
                      _ _ HP) as (l & Hl);
          exists r0, v0, r1, l;
          split; [exact H|]; split; [exact H1|]; split; [exact HP|exact Hl]
      end
  end.
Defined.

(** ** The remapping of an import resolved through npm *)

Lemma substringFrom_app a b : Js.substringFrom (String.length a) (a +:+ b) = b.
Proof.
  induction a as [|c a IH]; [done|]. rewrite append_cons. cbn. exact IH.
Qed.

Lemma append_nil_r (a : string) : a +:+ "" = a.
Proof. induction a as [|c a IH]; [done|]. by rewrite append_cons, IH. Qed.

Lemma substringFrom_all a : Js.substringFrom (String.length a) a = "".
Proof.
  rewrite <- (append_nil_r a) at 2. apply substringFrom_app.
Qed.

Lemma npmImportInto_success lib fs fromPkg from importPath directImport parsed
    dr r v r' :
  npmImportInto lib fs fromPkg from importPath directImport parsed dr r
    = Returns (Success v, r') ->
  exists rest g,
    ri_remapping v = Some (GeneratedRemapping g) /\
    resolvedFileBySourceName r'
      !! sourceNamePathJoin lib [rootSourceName (dr_package dr); rest]
      = Some (ri_file v) /\
    ((r_prefix g = directImport /\
      r_target g
        = sourceNamePathJoin lib [rootSourceName (dr_package dr); rest]) \/
     (g = dr_generatedRemapping dr /\ rest = parsed_subpath parsed)).
Proof.
  unfold npmImportInto. monad_red_goal. intros H.
  destruct (resolvedSubpathOf fs (dr_package dr) (parsed_subpath parsed) r)
    as [[x r1]| |] eqn:Hx; try discriminate.
  apply resolvedSubpathOf_pure in Hx as [-> _].
  destruct x as [resolvedSubpath|]; [|discriminate].
  set (rest := match resolvedSubpath with
               | Some s => s
               | None => parsed_subpath parsed
               end) in *.
  set (sn := sourceNamePathJoin lib [rootSourceName (dr_package dr); rest]) in *.
  match type of H with
  | context [GeneratedRemapping ?x] => set (g := x) in *
  end.
  assert (Hg : (r_prefix g = directImport /\ r_target g = sn) \/
               (g = dr_generatedRemapping dr /\ rest = parsed_subpath parsed)).
  { subst g rest.
    destruct resolvedSubpath as [s|]; cbn [orb].
    - destruct (String.eqb s (parsed_subpath parsed)) eqn:Hs; cbn [negb orb].
      + destruct (String.eqb directImport "hardhat/console.sol");
          [by left|]. right. split; [done|]. by apply String.eqb_eq.
      + by left.
    - destruct (String.eqb directImport "hardhat/console.sol");
        [by left|by right]. }
  exists rest, g.
  destruct (resolvedFileBySourceName r !! sn) as [existing|] eqn:Hlook.
  - simplify_eq. cbn. by repeat split.
  - destruct (validateAndBuild_step fs _ _ _ _ _ _ _ _ _ _ Hlook H)
      as (_ & [(_ & [?|(? & ?)])|(v' & [= <-] & Hrem & Hname & Hstep)]);
      try discriminate.
    split; [done|]. split; [|done].
    inversion Hstep as [|f H1 H2 H3 H4 H5]; subst.
    rewrite H4, Hname. apply lookup_insert_eq.
Qed.

(** X23. The remapping of an import resolved through npm leads to the
    file. When no user remapping applies to a direct import and
    [resolveImport] succeeds, on a resolver reached from [create], the
    import is an npm module and the remapping returned is a generated one,
    of one of two kinds. Either it is the remapping into the file: its
    prefix is the whole import and its target the source name of the file.
    Or it is the remapping of the installation: its prefix is the package
    of the import with a slash, its target the root source name of a
    package with a slash, and the source name of the file is the join of
    that root source name and the subpath of the import. *)
Theorem X23_generated_remapping_leads_to_the_file
    lib fs fuel from importPath r l v r' :
  reachable lib fs r ->
  Js.includes importPath (String Js.backslash EmptyString) = false ->
  isRelativeImport importPath = false ->
  userRemappingsPerPackage (npmPackageMap r) !! pkg_ref (package from) = Some l ->
  selectBestRemapping lib (sourceName from) importPath l = None ->
  resolveImport lib fs fuel from importPath r = Returns (Success v, r') ->
  exists parsed g,
    parseNpmDirectImport importPath = Some parsed /\
    ri_remapping v = Some (GeneratedRemapping g) /\
    Js.startsWith importPath (r_prefix g) = true /\
    ((r_prefix g = importPath /\ r_target g = sourceName (ri_file v)) \/
     (r_prefix g = parsed_package parsed +:+ "/" /\
      Js.substringFrom (String.length (r_prefix g)) importPath
        = parsed_subpath parsed /\
      exists dependency,
        r_target g = rootSourceName dependency +:+ "/" /\
        sourceName (ri_file v)
          = sourceNamePathJoin lib
              [rootSourceName dependency; parsed_subpath parsed])).
Proof.
  intros Hreach Hbs Hrel Hl Hbest H.
  assert (Hwf' : resolver_wf r').
  { apply (reachable_wf lib fs). by eapply reach_resolveImport. }
  pose proof (reachable_map lib fs r Hreach) as Hmap.
  rewrite (resolveImport_direct_eq lib fs fuel from importPath r l Hbs Hrel Hl)
    in H.
  rewrite Hbest in H.
  destruct (resolveImportThroughNpm lib fs fuel from importPath importPath r)
    as [[[v1|e|k] r1]| |] eqn:Hnpm; try discriminate.
  2:{ destruct (runsFallback e); [|discriminate].
      destruct (tryToGenerateDirectLocalImportError _ _ _ _ r1)
        as [[[improved|] r2]| |]; discriminate. }
  simplify_eq.
  rewrite resolveImportThroughNpm_eq in Hnpm.
  destruct (parseNpmDirectImport importPath) as [parsed|] eqn:Hparse;
    [|discriminate].
  destruct (onPackageMap _ r) as [[[dr|] r1]| |] eqn:Hdep; try discriminate.
  destruct (remappingErrros dr) eqn:Herrs; [discriminate|].
  apply onPackageMap_inv in Hdep.
  destruct (resolved_dependency_facts lib fs _ _ _ _ _ _ Hmap Hdep)
    as (Hpre & Htar & _).
  apply npmImportInto_success in Hnpm as (rest & g & Hrem & Hlook & Hg).
  pose proof (rwf_interned _ Hwf' _ _ Hlook) as Hname.
  exists parsed, g. split; [done|]. split; [done|].
  destruct (parseNpmDirectImport_inv _ _ Hparse) as (Himport & _).
  destruct Hg as [[Hp Ht]|[-> ->]].
  - rewrite Hp. split; [apply startsWith_refl|]. left. split; [done|].
    by rewrite Ht.
  - rewrite Hpre, Htar.
    assert (Hi : importPath
                 = (parsed_package parsed +:+ "/") +:+ parsed_subpath parsed).
    { by rewrite append_assoc. }
    split; [rewrite Hi at 1; apply startsWith_app|]. right.
    split; [done|]. split; [rewrite Hi at 1; apply substringFrom_app|].
    by exists (dr_package dr).
Qed.

Lemma X23_generated_remapping_leads_to_the_file_witness :
  exists r0 fileA r1 v r2,
    createResolver Spec.lib (Disk.fs Scenario.sources) Scenario.fuel "/p"
      = Returns (Success r0) /\
    resolveProjectFile Spec.lib (Disk.fs Scenario.sources)
      "/p/contracts/A.sol" r0 = Returns (Success fileA, r1) /\
    resolveImport Spec.lib (Disk.fs Scenario.sources) Scenario.fuel fileA
      "dep1/src/A.sol" r1 = Returns (Success v, r2) /\
    sourceName (ri_file v) = "npm/dep1@1.2.0/src/A.sol" /\
    ri_remapping v
      = Some (GeneratedRemapping
                {| r_context := "project/"; r_prefix := "dep1/";
                   r_target := "npm/dep1@1.2.0/" |}) /\
    exists parsed g,
      parseNpmDirectImport "dep1/src/A.sol" = Some parsed /\
      ri_remapping v = Some (GeneratedRemapping g) /\
      Js.startsWith "dep1/src/A.sol" (r_prefix g) = true /\
      ((r_prefix g = "dep1/src/A.sol" /\
        r_target g = sourceName (ri_file v)) \/
       (r_prefix g = parsed_package parsed +:+ "/" /\
        Js.substringFrom (String.length (r_prefix g)) "dep1/src/A.sol"
          = parsed_subpath parsed /\
        exists dependency,
          r_target g = rootSourceName dependency +:+ "/" /\
          sourceName (ri_file v)
            = sourceNamePathJoin Spec.lib
                [rootSourceName dependency; parsed_subpath parsed])).
Proof.
  eassert (H : createResolver Spec.lib (Disk.fs Scenario.sources)
                 Scenario.fuel "/p" = Returns (Success _))
    by (vm_compute; reflexivity).
  match type of H with
  | _ = Returns (Success ?r0) =>
      eassert (H1 : resolveProjectFile Spec.lib (Disk.fs Scenario.sources)
                      "/p/contracts/A.sol" r0
                    = Returns (Success _, _)) by (vm_compute; reflexivity);
      match type of H1 with
      | _ = Returns (Success ?f0, ?r1) =>
          eassert (H2 : resolveImport Spec.lib (Disk.fs Scenario.sources)
                          Scenario.fuel f0 "dep1/src/A.sol" r1
                        = Returns (Success _, _))
            by (vm_compute; reflexivity);
          eassert (Hl : userRemappingsPerPackage (npmPackageMap r1)
                          !! pkg_ref (package f0) = Some _)
            by (vm_compute; reflexivity);
          match type of Hl with
          | _ = Some ?l0 =>
              assert (Hbest : selectBestRemapping Spec.lib (sourceName f0)
                                "dep1/src/A.sol" l0 = None)
                by (vm_compute; reflexivity);
              match type of H2 with
              | _ = Returns (Success ?v0, ?r2) =>
                  exists r0, f0, r1, v0, r2;
                  split; [exact H|]; split; [exact H1|]; split; [exact H2|];
                  split; [reflexivity|]; split; [reflexivity|];
                  exact (X23_generated_remapping_leads_to_the_file
                           Spec.lib (Disk.fs Scenario.sources)
                           Scenario.fuel f0 "dep1/src/A.sol" r1 l0 v0 r2
                           (reach_resolveProjectFile _ _ _ _ _ _
                              (reach_create _ _ _ _ _ H) H1)
                           eq_refl eq_refl Hl Hbest H2)
              end
          end
      end
  end.
Defined.

(** ** The errors of an import *)

Lemma resolveImportThroughNpm_failure lib fs fuel from importPath r e r' :
  resolveImportThroughNpm lib fs fuel from importPath importPath r
    = Returns (Failure e, r') ->
  isRelativeImport importPath = false ->
  error_fromFsPath e = fsPath from /\ error_importPath e = importPath /\
  importRejected lib fs r from importPath e.
Proof.
  rewrite resolveImportThroughNpm_eq. intros H Hrel.
  destruct (parseNpmDirectImport importPath) as [parsed|] eqn:Hparse.
  2:{ by simplify_eq. }
  destruct (onPackageMap _ r) as [[[dr|] r1]| |] eqn:Hdep; try discriminate.
  2:{ simplify_eq. cbn. do 3 (split; [done|]).
      unfold getNpmPackageName. rewrite Hparse. split; [done|].
      apply onPackageMap_inv in Hdep.
      unfold resolveDependencyByInstallationName in Hdep. monad_red Hdep.
      destruct (priv_resolveDependencyByInstallationName fs _ _ _)
        as [[[x|] m1]| |] eqn:Hpriv; try discriminate.
      - unfold resolveAnyRemainingRemappings in Hdep.
        destruct (resolveRemaining lib fs fuel [] m1) as [[errs m2]| |];
          discriminate.
      - by apply priv_resolve_none in Hpriv as (_ & ? & _). }
  destruct (remappingErrros dr) as [errors|] eqn:Herrs.
  { simplify_eq. cbn. do 3 (split; [done|]).
    apply onPackageMap_inv in Hdep.
    unfold resolveDependencyByInstallationName in Hdep. monad_red Hdep.
    destruct (priv_resolveDependencyByInstallationName fs _ _ _)
      as [[[x|] m1]| |]; try discriminate.
    unfold resolveAnyRemainingRemappings in Hdep.
    destruct (resolveRemaining lib fs fuel [] m1) as [[errs m2]| |];
      try discriminate.
    simplify_eq. cbn in Herrs. destruct errs; by simplify_eq. }
  apply npmImportInto_step in H
    as (_ & o & _ & _ & _ & reference & _ & [->|[(c & ->)| ->]]); done.
Qed.

(** X24. An import error is accurate. Every error [resolveImport] returns
    carries the path of the importing file and the import path as given,
    and its type says what it names: Windows separators mean a backslash
    in the import path; an illegal relative import is a relative import
    whose direct import leaves the root source name of the package; an
    invalid npm syntax is a direct import that does not parse; an
    uninstalled package is the package of the import, which
    [findDependencyPackageJson] does not find from the package of the
    importing file; remapping errors are never an empty list; and the
    other errors are never those of a relative import. *)
Theorem X24_import_errors_are_accurate lib fs fuel from importPath r e r' :
  resolveImport lib fs fuel from importPath r = Returns (Failure e, r') ->
  error_fromFsPath e = fsPath from /\
  error_importPath e = importPath /\
  importRejected lib fs r from importPath e.
Proof.
  intros H.
  destruct (isRelativeImport importPath) eqn:Hrel.
  { rewrite (resolveImport_relative lib fs fuel from importPath r Hrel) in H.
    destruct (Js.includes importPath _) eqn:Hbs; [by simplify_eq|].
    destruct (Js.startsWith _ _) eqn:Hunder; cbn [negb] in H;
      [|by simplify_eq].
    destruct (onPackageMap _ r) as [[l r'']| |] eqn:Hl; try discriminate.
    destruct (selectBestRemapping _ _ _ _); discriminate. }
  destruct (Js.includes importPath (String Js.backslash EmptyString)) eqn:Hbs.
  { unfold resolveImport in H. rewrite Hbs in H. monad_red H. by simplify_eq. }
  assert (Hl : exists l,
             userRemappingsPerPackage (npmPackageMap r) !! pkg_ref (package from)
               = Some l).
  { unfold resolveImport in H. rewrite Hrel, Hbs in H.
    cbn [andb] in H. monad_red H.
    destruct (onPackageMap (getUserRemappings (package from)) r)
      as [[l r0]| |] eqn:Hl; try discriminate.
    apply onPackageMap_getUserRemappings_inv in Hl as [Hl ->]. by exists l. }
  destruct Hl as [l Hl].
  rewrite (resolveImport_direct_eq lib fs fuel from importPath r l Hbs Hrel Hl)
    in H.
  destruct (selectBestRemapping lib (sourceName from) importPath l)
    as [rem|] eqn:Hbest.
  - apply resolveUserRemappedImport_step in H
      as (_ & o & _ & _ & _ & _ & reference & _ & [->|(c & ->)]); done.
  - destruct (resolveImportThroughNpm lib fs fuel from importPath importPath r)
      as [[res1 r1]| |] eqn:Hnpm; try discriminate.
    assert (Hsame : res1 = Failure e).
    { destruct res1 as [v|e1|k]; [discriminate| |discriminate].
      destruct (runsFallback e1); [|by simplify_eq].
      destruct (tryToGenerateDirectLocalImportError _ _ _ _ r1)
        as [[improved r2]| |] eqn:Htry; try discriminate.
      unfold tryToGenerateDirectLocalImportError in Htry.
      apply tryToGenerate_returns_none in Htry as [-> ->]. by simplify_eq. }
    subst res1. by eapply resolveImportThroughNpm_failure.
Qed.

Lemma X24_import_errors_are_accurate_witness :
  exists r0 fileA r1 e r2,
    createResolver Spec.lib (Disk.fs Scenario.sources) Scenario.fuel "/p"
      = Returns (Success r0) /\
    resolveProjectFile Spec.lib (Disk.fs Scenario.sources)
      "/p/contracts/A.sol" r0 = Returns (Success fileA, r1) /\
    resolveImport Spec.lib (Disk.fs Scenario.sources) Scenario.fuel fileA
      "dep2/src/A.sol" r1 = Returns (Failure e, r2) /\
    e = IMPORT_OF_UNINSTALLED_PACKAGE "/p/contracts/A.sol" "dep2/src/A.sol"
          "dep2" /\
    importRejected Spec.lib (Disk.fs Scenario.sources) r1 fileA
      "dep2/src/A.sol" e.
Proof.
  eassert (H : createResolver Spec.lib (Disk.fs Scenario.sources)
                 Scenario.fuel "/p" = Returns (Success _))
    by (vm_compute; reflexivity).
  match type of H with
  | _ = Returns (Success ?r0) =>
      eassert (H1 : resolveProjectFile Spec.lib (Disk.fs Scenario.sources)
                      "/p/contracts/A.sol" r0
                    = Returns (Success _, _)) by (vm_compute; reflexivity);
      match type of H1 with
      | _ = Returns (Success ?f0, ?r1) =>
          eassert (H2 : resolveImport Spec.lib (Disk.fs Scenario.sources)
                          Scenario.fuel f0 "dep2/src/A.sol" r1
                        = Returns (Failure _, _))
            by (vm_compute; reflexivity);
          match type of H2 with
          | _ = Returns (Failure ?e0, ?r2) =>
              exists r0, f0, r1, e0, r2;
              split; [exact H|]; split; [exact H1|]; split; [exact H2|];
              split; [reflexivity|];
              exact (proj2 (proj2 (X24_import_errors_are_accurate _ _ _ _ _ _
                                     _ _ H2)))
          end
      end
  end.
Defined.

